(** * Unix domain sockets driver (drivers/uds/uds.c): model and properties

    The driver keeps a fixed table of socket slots, moves payload between
    peers through per-socket ring buffers and keeps at most one suspended
    request per slot.  This file embeds the functions of uds.c as Rocq
    functions over an explicit driver state and proves properties of the
    read/write data path, of suspension and cancellation, and of the
    buffer invariants. *)

From Stdlib.Strings Require Import String Byte.
From Stdlib Require Import ZArith List Bool Lia.
Import ListNotations.
Local Open Scope Z_scope.

(** ** Constants of the headers

    uds.c includes uds.h and the system headers; none of them is part of
    the sources at hand.  The symbolic constants below carry the values of
    the MINIX 3 headers (errno values are negative inside system
    processes).  The sizing constants (UDS_BUF, NR_FDS, ...) are kept as
    parameters of the development, see Section [Driver]. *)

Definition OK : Z := 0.
Definition EPERM : Z := -1.
Definition ENOENT : Z := -2.
Definition EINTR : Z := -4.
Definition ENXIO : Z := -6.
Definition ENOMEM : Z := -12.
Definition EFAULT : Z := -14.
Definition EINVAL : Z := -22.
Definition ENFILE : Z := -23.
Definition EPIPE : Z := -32.
Definition EAGAIN : Z := -35.
Definition EINPROGRESS : Z := -36.
Definition EMSGSIZE : Z := -40.
Definition ECONNRESET : Z := -54.
Definition ENOTCONN : Z := -57.
Definition EDONTREPLY : Z := -201.

Definition SOCK_STREAM : Z := 1.
Definition SOCK_DGRAM : Z := 2.
Definition SOCK_SEQPACKET : Z := 5.
Definition AF_UNIX : Z := 1.

Definition UDS_R : Z := 1.
Definition UDS_W : Z := 2.

Definition CDEV_NONBLOCK : Z := 1.
Definition CDEV_OP_RD : Z := 1.
Definition CDEV_OP_WR : Z := 2.
Definition CDEV_OP_ERR : Z := 4.
Definition CDEV_NOTIFY : Z := 8.
Definition CDEV_CLONED : Z := 536870912.

Definition NONE : Z := 27342.
Definition SIGTERM : Z := 15.
Definition GRANT_INVALID : Z := -1.

(** size_t is an unsigned 32-bit integer on the platforms MINIX runs on;
    ssize_t and int are its signed counterparts. *)
Definition size_t (x : Z) : Z := x mod 4294967296.

Definition ssize_t (x : Z) : Z :=
  let y := x mod 4294967296 in
  if y <? 2147483648 then y else y - 4294967296.

(** ** Data model *)

(** The slot state; a zeroed slot is UDS_FREE. *)
Inductive fd_state : Type := UDS_FREE | UDS_INUSE.

(** The kind of the request a slot is suspended on; a zeroed slot is
    UDS_NOT_SUSPENDED.  The field only ever holds one of these five
    constants, so the [default: panic] arms of the switches in
    uds_unsuspend and uds_cancel have no counterpart apart from
    UDS_NOT_SUSPENDED in uds_unsuspend. *)
Inductive suspension : Type :=
| UDS_NOT_SUSPENDED
| UDS_SUSPENDED_READ
| UDS_SUSPENDED_WRITE
| UDS_SUSPENDED_CONNECT
| UDS_SUSPENDED_ACCEPT.

Definition suspension_eqb (a b : suspension) : bool :=
  match a, b with
  | UDS_NOT_SUSPENDED, UDS_NOT_SUSPENDED
  | UDS_SUSPENDED_READ, UDS_SUSPENDED_READ
  | UDS_SUSPENDED_WRITE, UDS_SUSPENDED_WRITE
  | UDS_SUSPENDED_CONNECT, UDS_SUSPENDED_CONNECT
  | UDS_SUSPENDED_ACCEPT, UDS_SUSPENDED_ACCEPT => true
  | _, _ => false
  end.

Definition fd_state_eqb (a b : fd_state) : bool :=
  match a, b with
  | UDS_FREE, UDS_FREE | UDS_INUSE, UDS_INUSE => true
  | _, _ => false
  end.

(** struct sockaddr_un: the path is a byte array; bytes past the end of
    the list read as NUL. *)
Record sockaddr_un : Type := {
  sun_family : Z;
  sun_path : list byte
}.

(** struct ancillary, as far as uds.c looks at it. *)
Record ancillary : Type := {
  nfiledes : Z;
  fds : list Z
}.

(** uds_fd_t, one slot of the table. *)
Record uds_fd : Type := {
  state : fd_state;
  owner : Z;
  type : Z;
  mode : Z;
  buf : list byte;
  pos : Z;
  size : Z;
  peer : Z;
  listening : Z;
  child : Z;
  backlog : list Z;
  backlog_size : Z;
  ancillary_data : ancillary;
  addr : sockaddr_un;
  source : sockaddr_un;
  target : sockaddr_un;
  err : Z;
  suspended : suspension;
  susp_endpt : Z;
  susp_grant : Z;
  susp_size : Z;
  susp_id : Z;
  sel_endpt : Z;
  sel_ops : Z
}.

Definition sockaddr_zero : sockaddr_un := {| sun_family := 0; sun_path := [] |}.

(** The slot after memset(&uds_fd_table[minor], '\0', sizeof(uds_fd_t)). *)
Definition fd_zero : uds_fd :=
  {| state := UDS_FREE; owner := 0; type := 0; mode := 0; buf := [];
     pos := 0; size := 0; peer := 0; listening := 0; child := 0;
     backlog := []; backlog_size := 0;
     ancillary_data := {| nfiledes := 0; fds := [] |};
     addr := sockaddr_zero; source := sockaddr_zero; target := sockaddr_zero;
     err := 0; suspended := UDS_NOT_SUSPENDED; susp_endpt := 0;
     susp_grant := 0; susp_size := 0; susp_id := 0; sel_endpt := 0;
     sel_ops := 0 |}.

Definition set_buf (v : list byte) (fd : uds_fd) : uds_fd :=
  {| state := state fd; owner := owner fd; type := type fd; mode := mode fd;
     buf := v; pos := pos fd; size := size fd; peer := peer fd; listening :=
     listening fd; child := child fd; backlog := backlog fd; backlog_size :=
     backlog_size fd; ancillary_data := ancillary_data fd; addr := addr fd;
     source := source fd; target := target fd; err := err fd; suspended :=
     suspended fd; susp_endpt := susp_endpt fd; susp_grant := susp_grant fd;
     susp_size := susp_size fd; susp_id := susp_id fd; sel_endpt := sel_endpt fd;
     sel_ops := sel_ops fd |}.

Definition set_pos (v : Z) (fd : uds_fd) : uds_fd :=
  {| state := state fd; owner := owner fd; type := type fd; mode := mode fd;
     buf := buf fd; pos := v; size := size fd; peer := peer fd; listening :=
     listening fd; child := child fd; backlog := backlog fd; backlog_size :=
     backlog_size fd; ancillary_data := ancillary_data fd; addr := addr fd;
     source := source fd; target := target fd; err := err fd; suspended :=
     suspended fd; susp_endpt := susp_endpt fd; susp_grant := susp_grant fd;
     susp_size := susp_size fd; susp_id := susp_id fd; sel_endpt := sel_endpt fd;
     sel_ops := sel_ops fd |}.

Definition set_size (v : Z) (fd : uds_fd) : uds_fd :=
  {| state := state fd; owner := owner fd; type := type fd; mode := mode fd;
     buf := buf fd; pos := pos fd; size := v; peer := peer fd; listening :=
     listening fd; child := child fd; backlog := backlog fd; backlog_size :=
     backlog_size fd; ancillary_data := ancillary_data fd; addr := addr fd;
     source := source fd; target := target fd; err := err fd; suspended :=
     suspended fd; susp_endpt := susp_endpt fd; susp_grant := susp_grant fd;
     susp_size := susp_size fd; susp_id := susp_id fd; sel_endpt := sel_endpt fd;
     sel_ops := sel_ops fd |}.

Definition set_peer (v : Z) (fd : uds_fd) : uds_fd :=
  {| state := state fd; owner := owner fd; type := type fd; mode := mode fd;
     buf := buf fd; pos := pos fd; size := size fd; peer := v; listening :=
     listening fd; child := child fd; backlog := backlog fd; backlog_size :=
     backlog_size fd; ancillary_data := ancillary_data fd; addr := addr fd;
     source := source fd; target := target fd; err := err fd; suspended :=
     suspended fd; susp_endpt := susp_endpt fd; susp_grant := susp_grant fd;
     susp_size := susp_size fd; susp_id := susp_id fd; sel_endpt := sel_endpt fd;
     sel_ops := sel_ops fd |}.

Definition set_child (v : Z) (fd : uds_fd) : uds_fd :=
  {| state := state fd; owner := owner fd; type := type fd; mode := mode fd;
     buf := buf fd; pos := pos fd; size := size fd; peer := peer fd; listening :=
     listening fd; child := v; backlog := backlog fd; backlog_size :=
     backlog_size fd; ancillary_data := ancillary_data fd; addr := addr fd;
     source := source fd; target := target fd; err := err fd; suspended :=
     suspended fd; susp_endpt := susp_endpt fd; susp_grant := susp_grant fd;
     susp_size := susp_size fd; susp_id := susp_id fd; sel_endpt := sel_endpt fd;
     sel_ops := sel_ops fd |}.

Definition set_backlog (v : list Z) (fd : uds_fd) : uds_fd :=
  {| state := state fd; owner := owner fd; type := type fd; mode := mode fd;
     buf := buf fd; pos := pos fd; size := size fd; peer := peer fd; listening :=
     listening fd; child := child fd; backlog := v; backlog_size := backlog_size
     fd; ancillary_data := ancillary_data fd; addr := addr fd; source := source
     fd; target := target fd; err := err fd; suspended := suspended fd;
     susp_endpt := susp_endpt fd; susp_grant := susp_grant fd; susp_size :=
     susp_size fd; susp_id := susp_id fd; sel_endpt := sel_endpt fd; sel_ops :=
     sel_ops fd |}.

Definition set_source (v : sockaddr_un) (fd : uds_fd) : uds_fd :=
  {| state := state fd; owner := owner fd; type := type fd; mode := mode fd;
     buf := buf fd; pos := pos fd; size := size fd; peer := peer fd; listening :=
     listening fd; child := child fd; backlog := backlog fd; backlog_size :=
     backlog_size fd; ancillary_data := ancillary_data fd; addr := addr fd;
     source := v; target := target fd; err := err fd; suspended := suspended fd;
     susp_endpt := susp_endpt fd; susp_grant := susp_grant fd; susp_size :=
     susp_size fd; susp_id := susp_id fd; sel_endpt := sel_endpt fd; sel_ops :=
     sel_ops fd |}.

Definition set_err (v : Z) (fd : uds_fd) : uds_fd :=
  {| state := state fd; owner := owner fd; type := type fd; mode := mode fd;
     buf := buf fd; pos := pos fd; size := size fd; peer := peer fd; listening :=
     listening fd; child := child fd; backlog := backlog fd; backlog_size :=
     backlog_size fd; ancillary_data := ancillary_data fd; addr := addr fd;
     source := source fd; target := target fd; err := v; suspended := suspended
     fd; susp_endpt := susp_endpt fd; susp_grant := susp_grant fd; susp_size :=
     susp_size fd; susp_id := susp_id fd; sel_endpt := sel_endpt fd; sel_ops :=
     sel_ops fd |}.

Definition set_suspended (v : suspension) (fd : uds_fd) : uds_fd :=
  {| state := state fd; owner := owner fd; type := type fd; mode := mode fd;
     buf := buf fd; pos := pos fd; size := size fd; peer := peer fd; listening :=
     listening fd; child := child fd; backlog := backlog fd; backlog_size :=
     backlog_size fd; ancillary_data := ancillary_data fd; addr := addr fd;
     source := source fd; target := target fd; err := err fd; suspended := v;
     susp_endpt := susp_endpt fd; susp_grant := susp_grant fd; susp_size :=
     susp_size fd; susp_id := susp_id fd; sel_endpt := sel_endpt fd; sel_ops :=
     sel_ops fd |}.

Definition set_susp_endpt (v : Z) (fd : uds_fd) : uds_fd :=
  {| state := state fd; owner := owner fd; type := type fd; mode := mode fd;
     buf := buf fd; pos := pos fd; size := size fd; peer := peer fd; listening :=
     listening fd; child := child fd; backlog := backlog fd; backlog_size :=
     backlog_size fd; ancillary_data := ancillary_data fd; addr := addr fd;
     source := source fd; target := target fd; err := err fd; suspended :=
     suspended fd; susp_endpt := v; susp_grant := susp_grant fd; susp_size :=
     susp_size fd; susp_id := susp_id fd; sel_endpt := sel_endpt fd; sel_ops :=
     sel_ops fd |}.

Definition set_susp_grant (v : Z) (fd : uds_fd) : uds_fd :=
  {| state := state fd; owner := owner fd; type := type fd; mode := mode fd;
     buf := buf fd; pos := pos fd; size := size fd; peer := peer fd; listening :=
     listening fd; child := child fd; backlog := backlog fd; backlog_size :=
     backlog_size fd; ancillary_data := ancillary_data fd; addr := addr fd;
     source := source fd; target := target fd; err := err fd; suspended :=
     suspended fd; susp_endpt := susp_endpt fd; susp_grant := v; susp_size :=
     susp_size fd; susp_id := susp_id fd; sel_endpt := sel_endpt fd; sel_ops :=
     sel_ops fd |}.

Definition set_susp_size (v : Z) (fd : uds_fd) : uds_fd :=
  {| state := state fd; owner := owner fd; type := type fd; mode := mode fd;
     buf := buf fd; pos := pos fd; size := size fd; peer := peer fd; listening :=
     listening fd; child := child fd; backlog := backlog fd; backlog_size :=
     backlog_size fd; ancillary_data := ancillary_data fd; addr := addr fd;
     source := source fd; target := target fd; err := err fd; suspended :=
     suspended fd; susp_endpt := susp_endpt fd; susp_grant := susp_grant fd;
     susp_size := v; susp_id := susp_id fd; sel_endpt := sel_endpt fd; sel_ops :=
     sel_ops fd |}.

Definition set_susp_id (v : Z) (fd : uds_fd) : uds_fd :=
  {| state := state fd; owner := owner fd; type := type fd; mode := mode fd;
     buf := buf fd; pos := pos fd; size := size fd; peer := peer fd; listening :=
     listening fd; child := child fd; backlog := backlog fd; backlog_size :=
     backlog_size fd; ancillary_data := ancillary_data fd; addr := addr fd;
     source := source fd; target := target fd; err := err fd; suspended :=
     suspended fd; susp_endpt := susp_endpt fd; susp_grant := susp_grant fd;
     susp_size := susp_size fd; susp_id := v; sel_endpt := sel_endpt fd; sel_ops
     := sel_ops fd |}.

Definition set_sel_endpt (v : Z) (fd : uds_fd) : uds_fd :=
  {| state := state fd; owner := owner fd; type := type fd; mode := mode fd;
     buf := buf fd; pos := pos fd; size := size fd; peer := peer fd; listening :=
     listening fd; child := child fd; backlog := backlog fd; backlog_size :=
     backlog_size fd; ancillary_data := ancillary_data fd; addr := addr fd;
     source := source fd; target := target fd; err := err fd; suspended :=
     suspended fd; susp_endpt := susp_endpt fd; susp_grant := susp_grant fd;
     susp_size := susp_size fd; susp_id := susp_id fd; sel_endpt := v; sel_ops :=
     sel_ops fd |}.

Definition set_sel_ops (v : Z) (fd : uds_fd) : uds_fd :=
  {| state := state fd; owner := owner fd; type := type fd; mode := mode fd;
     buf := buf fd; pos := pos fd; size := size fd; peer := peer fd; listening :=
     listening fd; child := child fd; backlog := backlog fd; backlog_size :=
     backlog_size fd; ancillary_data := ancillary_data fd; addr := addr fd;
     source := source fd; target := target fd; err := err fd; suspended :=
     suspended fd; susp_endpt := susp_endpt fd; susp_grant := susp_grant fd;
     susp_size := susp_size fd; susp_id := susp_id fd; sel_endpt := sel_endpt fd;
     sel_ops := v |}.

Definition set_owner (v : Z) (fd : uds_fd) : uds_fd :=
  {| state := state fd; owner := v; type := type fd; mode := mode fd; buf :=
     buf fd; pos := pos fd; size := size fd; peer := peer fd; listening :=
     listening fd; child := child fd; backlog := backlog fd; backlog_size :=
     backlog_size fd; ancillary_data := ancillary_data fd; addr := addr fd;
     source := source fd; target := target fd; err := err fd; suspended :=
     suspended fd; susp_endpt := susp_endpt fd; susp_grant := susp_grant fd;
     susp_size := susp_size fd; susp_id := susp_id fd; sel_endpt := sel_endpt fd;
     sel_ops := sel_ops fd |}.

Definition set_type (v : Z) (fd : uds_fd) : uds_fd :=
  {| state := state fd; owner := owner fd; type := v; mode := mode fd; buf :=
     buf fd; pos := pos fd; size := size fd; peer := peer fd; listening :=
     listening fd; child := child fd; backlog := backlog fd; backlog_size :=
     backlog_size fd; ancillary_data := ancillary_data fd; addr := addr fd;
     source := source fd; target := target fd; err := err fd; suspended :=
     suspended fd; susp_endpt := susp_endpt fd; susp_grant := susp_grant fd;
     susp_size := susp_size fd; susp_id := susp_id fd; sel_endpt := sel_endpt fd;
     sel_ops := sel_ops fd |}.

Definition set_mode (v : Z) (fd : uds_fd) : uds_fd :=
  {| state := state fd; owner := owner fd; type := type fd; mode := v; buf :=
     buf fd; pos := pos fd; size := size fd; peer := peer fd; listening :=
     listening fd; child := child fd; backlog := backlog fd; backlog_size :=
     backlog_size fd; ancillary_data := ancillary_data fd; addr := addr fd;
     source := source fd; target := target fd; err := err fd; suspended :=
     suspended fd; susp_endpt := susp_endpt fd; susp_grant := susp_grant fd;
     susp_size := susp_size fd; susp_id := susp_id fd; sel_endpt := sel_endpt fd;
     sel_ops := sel_ops fd |}.

Definition set_addr (v : sockaddr_un) (fd : uds_fd) : uds_fd :=
  {| state := state fd; owner := owner fd; type := type fd; mode := mode fd;
     buf := buf fd; pos := pos fd; size := size fd; peer := peer fd; listening :=
     listening fd; child := child fd; backlog := backlog fd; backlog_size :=
     backlog_size fd; ancillary_data := ancillary_data fd; addr := v; source :=
     source fd; target := target fd; err := err fd; suspended := suspended fd;
     susp_endpt := susp_endpt fd; susp_grant := susp_grant fd; susp_size :=
     susp_size fd; susp_id := susp_id fd; sel_endpt := sel_endpt fd; sel_ops :=
     sel_ops fd |}.

Definition set_target (v : sockaddr_un) (fd : uds_fd) : uds_fd :=
  {| state := state fd; owner := owner fd; type := type fd; mode := mode fd;
     buf := buf fd; pos := pos fd; size := size fd; peer := peer fd; listening :=
     listening fd; child := child fd; backlog := backlog fd; backlog_size :=
     backlog_size fd; ancillary_data := ancillary_data fd; addr := addr fd;
     source := source fd; target := v; err := err fd; suspended := suspended fd;
     susp_endpt := susp_endpt fd; susp_grant := susp_grant fd; susp_size :=
     susp_size fd; susp_id := susp_id fd; sel_endpt := sel_endpt fd; sel_ops :=
     sel_ops fd |}.

(** What the driver does to the outside world, in the order it does it. *)
Inductive event : Type :=
| EvCopyTo (endpt grant offset : Z) (data : list byte)
| EvReplyTask (endpt id r : Z)
| EvReplySelect (endpt minor ops : Z)
| EvClearFds (minor : Z)
| EvTerminate.

(** The global state of the driver: the descriptor table, the countdown
    of the termination drain and the trace of external effects. *)
Record driver : Type := {
  uds_fd_table : list uds_fd;
  uds_exit_left : Z;
  trace : list event
}.

Definition with_table (st : driver) (tbl : list uds_fd) : driver :=
  {| uds_fd_table := tbl; uds_exit_left := uds_exit_left st;
     trace := trace st |}.

Definition emit (e : event) (st : driver) : driver :=
  {| uds_fd_table := uds_fd_table st; uds_exit_left := uds_exit_left st;
     trace := trace st ++ [e] |}.

(** ** Table access

    uds_fd_table[i] for an index outside the table is undefined in C; the
    model reads a zeroed slot there and ignores the store. *)
Definition fd_at (tbl : list uds_fd) (i : Z) : uds_fd :=
  if i <? 0 then fd_zero else nth (Z.to_nat i) tbl fd_zero.

Fixpoint list_update {A : Type} (l : list A) (n : nat) (f : A -> A) : list A :=
  match l, n with
  | [], _ => []
  | x :: l', O => f x :: l'
  | x :: l', S n' => x :: list_update l' n' f
  end.

Definition fd_update (tbl : list uds_fd) (i : Z) (f : uds_fd -> uds_fd)
  : list uds_fd :=
  if i <? 0 then tbl else list_update tbl (Z.to_nat i) f.

Definition slot (st : driver) (i : Z) : uds_fd := fd_at (uds_fd_table st) i.

Definition modify (i : Z) (f : uds_fd -> uds_fd) (st : driver) : driver :=
  with_table st (fd_update (uds_fd_table st) i f).

(** ** Byte arrays *)

Definition zlength {A : Type} (l : list A) : Z := Z.of_nat (length l).

(** The n bytes of the array from index p on. *)
Definition load (b : list byte) (p n : Z) : list byte :=
  firstn (Z.to_nat n) (skipn (Z.to_nat p) b).

(** The array with [data] copied to index p. *)
Definition store (b : list byte) (p : Z) (data : list byte) : list byte :=
  firstn (Z.to_nat p) b ++ data ++ skipn (Z.to_nat p + length data) b.

(** strncmp(3) on byte arrays. *)
Fixpoint strncmp (s1 s2 : list byte) (n : nat) : Z :=
  match n with
  | O => 0
  | S n' =>
      let c1 := hd x00 s1 in
      let c2 := hd x00 s2 in
      if Byte.eqb c1 c2
      then if Byte.eqb c1 x00 then 0 else strncmp (tl s1) (tl s2) n'
      else Z.of_N (Byte.to_N c1) - Z.of_N (Byte.to_N c2)
  end.

(** The indices lo, lo+1, ..., hi-1 of a [for] loop. *)
Definition zrange (lo hi : Z) : list Z :=
  map (fun k => lo + Z.of_nat k) (seq 0 (Z.to_nat (hi - lo))).

(** ** Results

    A call returns a value and the new state, or the driver panics, or the
    chain of nested wake-ups is longer than the fuel given to the model. *)
Inductive outcome (A : Type) : Type :=
| Ret (a : A) (st : driver)
| Panic (msg : string)
| OutOfFuel.

Arguments Ret {A} a st.
Arguments Panic {A} msg.
Arguments OutOfFuel {A}.

Definition bind {A B : Type} (m : outcome A) (k : A -> driver -> outcome B)
  : outcome B :=
  match m with
  | Ret a st => k a st
  | Panic msg => Panic msg
  | OutOfFuel => OutOfFuel
  end.

Notation "'do' ( x , s ) <- m ; k" := (bind m (fun x s => k))
  (at level 10, x name, s name, m at level 100, k at level 200).

(** ** Concrete tables

    The scenarios of section 8 of the specification: a table of 16 slots
    with ring buffers of 128 bytes and a backlog of 4.  Slots 1 and 2 are
    in use, the others are free. *)

Definition lit_UDS_BUF : Z := 128.
Definition lit_NR_FDS : Z := 16.
Definition lit_SOMAXCONN : Z := 4.
Definition lit_PATH_MAX : Z := 104.
Definition lit_OPEN_MAX : Z := 255.

(** The slot of a socket as uds_open leaves it, with the type and the peer
    the control plane has given it. *)
Definition socket (ty p : Z) : uds_fd :=
  {| state := UDS_INUSE; owner := 7; type := ty; mode := Z.lor UDS_R UDS_W;
     buf := repeat x00 128; pos := 0; size := 0; peer := p; listening := 0;
     child := -1; backlog := repeat (-1) 4; backlog_size := 4;
     ancillary_data := {| nfiledes := 0; fds := repeat (-1) 255 |};
     addr := sockaddr_zero; source := sockaddr_zero; target := sockaddr_zero;
     err := 0; suspended := UDS_NOT_SUSPENDED; susp_endpt := 0;
     susp_grant := 0; susp_size := 0; susp_id := 0; sel_endpt := NONE;
     sel_ops := 0 |}.

Definition unix_addr (path : string) : sockaddr_un :=
  {| sun_family := AF_UNIX; sun_path := list_byte_of_string path |}.

(** A datagram socket bound on one path and sending to another. *)
Definition dgram_socket (bound dest : string) : uds_fd :=
  set_target (unix_addr dest) (set_addr (unix_addr bound)
    (socket SOCK_DGRAM (-1))).

(** A slot whose buffer holds the given bytes from position 0 on. *)
Definition holding (data : list byte) (fd : uds_fd) : uds_fd :=
  set_size (Z.of_nat (length data))
    (set_buf (data ++ skipn (length data) (buf fd)) fd).

(** A slot with a request saved in it. *)
Definition blocked (how : suspension) (endpt grant len id : Z) (fd : uds_fd)
  : uds_fd :=
  set_susp_id id (set_susp_size len (set_susp_grant grant
    (set_susp_endpt endpt (set_suspended how fd)))).

Definition two_sockets (a b : uds_fd) : driver :=
  {| uds_fd_table := fd_zero :: a :: b :: repeat fd_zero 13;
     uds_exit_left := 0; trace := [] |}.

(** A connected pair of the given type on slots 1 and 2. *)
Definition connected_pair (ty : Z) : driver :=
  two_sockets (socket ty 2) (socket ty 1).

(** The memory of the requesters: endpoint 100 has granted a buffer with a
    message to send, endpoint 200 a buffer of 16 bytes to receive into. *)
Definition lit_mem (endpt grant : Z) : option (list byte) :=
  if (endpt =? 100) && (grant =? 1)
  then Some (list_byte_of_string "abcdefgh")
  else if (endpt =? 200) && (grant =? 2) then Some (repeat x00 16)
  else None.


(** A small control plane for the scenarios: request 1 gives a socket
    without connection-oriented type the type passed in the grant
    argument, request 2 pairs the socket with the socket whose handle is
    passed in the grant argument, when both are idle, of a
    connection-oriented type and unconnected; everything else is
    refused. *)
Definition lit_idle (fd : uds_fd) : bool :=
  fd_state_eqb (state fd) UDS_INUSE
  && ((type fd =? SOCK_STREAM) || (type fd =? SOCK_SEQPACKET))
  && (peer fd =? -1) && (listening fd =? 0)
  && suspension_eqb (suspended fd) UDS_NOT_SUSPENDED.

Definition lit_do_ioctl (minor request endpt grant : Z) (st : driver)
  : outcome Z :=
  if request =? 1 then
    if fd_state_eqb (state (slot st minor)) UDS_INUSE
       && negb ((type (slot st minor) =? SOCK_STREAM)
                || (type (slot st minor) =? SOCK_SEQPACKET))
    then Ret OK (modify minor (set_type grant) st)
    else Ret EINVAL st
  else if request =? 2 then
    if negb (minor =? grant) && lit_idle (slot st minor)
       && lit_idle (slot st grant)
    then Ret OK (modify grant (set_peer minor)
                   (modify minor (set_peer grant) st))
    else Ret EINVAL st
  else Ret EINVAL st.

(** A control plane whose every request has to wait: it leaves the slot
    suspended as in a connect and answers EDONTREPLY. *)
Definition lit_connecting (minor request endpt grant : Z) (st : driver)
  : outcome Z :=
  Ret EDONTREPLY (modify minor (set_suspended UDS_SUSPENDED_CONNECT) st).






(** ** The driver *)

Section Driver.

(** Sizing constants of uds.h (section 6.4 of the specification): the ring
    buffer capacity, the size of the table, the maximum backlog, the
    length of an address path and the number of descriptors in flight. *)
Variable UDS_BUF : Z.
Variable NR_FDS : Z.
Variable UDS_SOMAXCONN : Z.
Variable UNIX_PATH_MAX : Z.
Variable OPEN_MAX : Z.

(** The memory the requesters have granted to the driver: the bytes of
    the region behind (endpoint, grant), if the grant is valid. *)
Variable umem : Z -> Z -> option (list byte).

(** Modelled from the spec: the safe-copy primitives of the transport
    (section 6.1), copy_to(endpt, grant, offset, src, n) and
    copy_from(endpt, grant, offset, dst, n); they belong to the system
    library.  A copy succeeds when the grant is valid and the range lies
    inside the granted region, and fails with a negative error code
    otherwise; a successful copy to the requester is recorded in the
    trace. *)
Definition sys_safecopyto (endpt grant offset : Z) (data : list byte)
    (st : driver) : Z * driver :=
  match umem endpt grant with
  | None => (EPERM, st)
  | Some region =>
      if offset + zlength data <=? zlength region
      then (OK, emit (EvCopyTo endpt grant offset data) st)
      else (EFAULT, st)
  end.

Definition sys_safecopyfrom (endpt grant offset n : Z) : Z * list byte :=
  match umem endpt grant with
  | None => (EPERM, [])
  | Some region =>
      if offset + n <=? zlength region
      then (OK, load region offset n)
      else (EFAULT, [])
  end.

(** *** uds_open *)

Definition uds_open (orig_minor access user_endpt : Z) (mmap_ok : bool)
    (st : driver) : Z * driver :=
  match find (fun i => fd_state_eqb (state (slot st i)) UDS_FREE)
             (zrange 1 NR_FDS) with
  | None => (ENFILE, st)
  | Some minor =>
      if negb mmap_ok then (ENOMEM, st) else
      (Z.lor CDEV_CLONED minor,
       modify minor (fun fd =>
         {| state := UDS_INUSE; owner := user_endpt; type := -1;
            mode := Z.lor UDS_R UDS_W;
            buf := repeat x00 (Z.to_nat UDS_BUF); pos := 0; size := 0;
            peer := -1; listening := 0; child := -1;
            backlog := repeat (-1) (Z.to_nat UDS_SOMAXCONN);
            backlog_size := UDS_SOMAXCONN;
            ancillary_data :=
              {| nfiledes := 0; fds := repeat (-1) (Z.to_nat OPEN_MAX) |};
            addr := sockaddr_zero; source := sockaddr_zero;
            target := sockaddr_zero; err := err fd;
            suspended := UDS_NOT_SUSPENDED; susp_endpt := susp_endpt fd;
            susp_grant := susp_grant fd; susp_size := susp_size fd;
            susp_id := susp_id fd; sel_endpt := NONE; sel_ops := 0 |}) st)
  end.

(** *** uds_cancel *)

Definition clear_child (minor : Z) (st : driver) (i : Z) : driver :=
  if child (slot st i) =? minor then modify i (set_child (-1)) st else st.

Definition uds_cancel (minor endpt id : Z) (st : driver) : Z * driver :=
  if (minor <? 0) || (minor >=? NR_FDS) then (EDONTREPLY, st) else
  let fdp := slot st minor in
  if negb (fd_state_eqb (state fdp) UDS_INUSE) then (EDONTREPLY, st) else
  if suspension_eqb (suspended fdp) UDS_NOT_SUSPENDED
     || negb (susp_endpt fdp =? endpt) || negb (susp_id fdp =? id)
  then (EDONTREPLY, st) else
  let st1 :=
    match suspended fdp with
    | UDS_SUSPENDED_ACCEPT => fold_left (clear_child minor) (zrange 0 NR_FDS) st
    | _ => st
    end in
  (EINTR, modify minor (set_suspended UDS_NOT_SUSPENDED) st1).

(** *** Select notifications

    chardriver_reply_select(sel_endpt, minor, ops) followed by clearing
    the reported bits of sel_ops. *)
Definition notify_select (minor ops : Z) (st : driver) : driver :=
  modify minor (fun f => set_sel_ops (Z.land (sel_ops f) (Z.lnot ops)) f)
    (emit (EvReplySelect (sel_endpt (slot st minor)) minor ops) st).

(** *** uds_perform_read

    The nested call of uds_unsuspend is a parameter here; the knot is
    tied below. *)
(** The end of uds_perform_read (lines 319-340): advance the buffer tail
    by the len bytes copied out, wake up a blocked writer, satisfy a
    select. *)
Definition read_advance (unsuspend : Z -> driver -> outcome unit)
    (minor p rpos len : Z) (st : driver) : outcome Z :=
  let st3 :=
    modify minor (fun f => set_size (size_t (size f - len))
                             (set_pos (size_t (rpos + len) mod UDS_BUF) f))
           st in
  let st4 :=
    if size (slot st3 minor) =? 0 then modify minor (set_pos 0) st3
    else st3 in
  do (_, st5) <-
    (if negb (p =? -1)
        && suspension_eqb (suspended (slot st4 p)) UDS_SUSPENDED_WRITE
     then unsuspend p st4 else Ret tt st4);
  let st6 :=
    if negb (p =? -1)
       && negb (Z.land (sel_ops (slot st5 p)) CDEV_OP_WR =? 0)
       && (size (slot st5 minor) <? UDS_BUF)
    then notify_select p CDEV_OP_WR st5
    else st5 in
  Ret (ssize_t len) st6.

(** The second half of uds_perform_read (lines 301-340): copy len bytes
    from the tail of the ring buffer to the requester, in up to two
    segments, then advance. *)
Definition read_take (unsuspend : Z -> driver -> outcome unit)
    (minor p endpt grant len : Z) (st : driver) : outcome Z :=
  let fd := slot st minor in
  let rpos := pos fd in
  let subsize := size_t (UDS_BUF - rpos) in
  let subsize := if subsize >? len then len else subsize in
  let '(r, st1) :=
    sys_safecopyto endpt grant 0 (load (buf fd) rpos subsize) st in
  if negb (r =? OK) then Ret r st1 else
  let '(r, st2) :=
    if subsize <? len
    then sys_safecopyto endpt grant subsize
           (load (buf fd) 0 (len - subsize)) st1
    else (OK, st1) in
  if negb (r =? OK) then Ret r st2 else
  read_advance unsuspend minor p rpos len st2.

Definition uds_perform_read_body (unsuspend : Z -> driver -> outcome unit)
    (minor endpt grant len : Z) (pretend : bool) (st : driver) : outcome Z :=
  let fd := slot st minor in
  let p := peer fd in
  if len =? 0 then Ret 0 st else
  if Z.land (mode fd) UDS_R =? 0 then Ret EPIPE st else
  if size fd =? 0 then
    if (p =? -1) && ((type fd =? SOCK_STREAM) || (type fd =? SOCK_SEQPACKET))
    then
      if err fd =? ECONNRESET
      then Ret ECONNRESET (if pretend then st else modify minor (set_err 0) st)
      else Ret ENOTCONN st
    else if negb (p =? -1) && (Z.land (mode (slot st p)) UDS_W =? 0)
    then Ret 0 st
    else if pretend then Ret EDONTREPLY st
    else if negb (p =? -1)
            && suspension_eqb (suspended (slot st p)) UDS_SUSPENDED_WRITE
    then Panic "writer blocked on empty socket"
    else Ret EDONTREPLY st
  else
    let len := if len >? size fd then size fd else len in
    if pretend then Ret (ssize_t len) st else
    read_take unsuspend minor p endpt grant len st.

(** *** uds_perform_write *)

(** The test of the loop that locates the receiver of a datagram. *)
Definition dgram_bound_on (tbl : list uds_fd) (minor i : Z) : bool :=
  (type (fd_at tbl i) =? SOCK_DGRAM)
  && (sun_family (addr (fd_at tbl i)) =? AF_UNIX)
  && (strncmp (sun_path (target (fd_at tbl minor)))
              (sun_path (addr (fd_at tbl i)))
              (Z.to_nat UNIX_PATH_MAX) =? 0).

(** The loop itself: the first slot bound on the target address. *)
Definition locate_peer (tbl : list uds_fd) (minor : Z) : option Z :=
  find (dgram_bound_on tbl minor) (zrange 0 NR_FDS).

(** The slot the data goes to (the variable peer of the C function), or
    the early return when there is none. *)
Definition write_peer (minor : Z) (pretend : bool) (st : driver)
  : outcome Z + Z :=
  let fd := slot st minor in
  if (type fd =? SOCK_STREAM) || (type fd =? SOCK_SEQPACKET) then
    let p := peer fd in
    if p =? -1 then
      if err fd =? ECONNRESET
      then inl (Ret ECONNRESET
                  (if pretend then st else modify minor (set_err 0) st))
      else inl (Ret ENOTCONN st)
    else if peer (slot st p) =? -1 then inl (Ret EDONTREPLY st)
    else inr p
  else
    match locate_peer (uds_fd_table st) minor with
    | None => inl (Ret ENOENT st)
    | Some i => inr i
    end.

(** The end of uds_perform_write (lines 459-480): advance the buffer head
    of slot p by the len bytes copied in, stamp the source address of a
    datagram, wake up a blocked reader, satisfy a select. *)
Definition write_advance (unsuspend : Z -> driver -> outcome unit)
    (minor p len : Z) (st : driver) : outcome Z :=
  let st3 := modify p (fun f => set_size (size_t (size f + len)) f) st in
  let st4 :=
    if type (slot st3 minor) =? SOCK_DGRAM
    then modify p (set_source (addr (slot st3 minor))) st3
    else st3 in
  do (_, st5) <-
    (if suspension_eqb (suspended (slot st4 p)) UDS_SUSPENDED_READ
     then unsuspend p st4 else Ret tt st4);
  let st6 :=
    if negb (Z.land (sel_ops (slot st5 p)) CDEV_OP_RD =? 0)
       && (size (slot st5 p) >? 0)
    then notify_select p CDEV_OP_RD st5
    else st5 in
  Ret (ssize_t len) st6.

(** The second half of uds_perform_write (lines 442-480): copy len bytes
    from the requester to the head of the ring buffer of slot p, in up to
    two segments, then advance. *)
Definition write_deposit (unsuspend : Z -> driver -> outcome unit)
    (minor p endpt grant len : Z) (st : driver) : outcome Z :=
  let pfd := slot st p in
  let wpos := size_t (pos pfd + size pfd) mod UDS_BUF in
  let subsize := size_t (UDS_BUF - wpos) in
  let subsize := if subsize >? len then len else subsize in
  let '(r, seg1) := sys_safecopyfrom endpt grant 0 subsize in
  if negb (r =? OK) then Ret r st else
  let st1 := modify p (fun f => set_buf (store (buf f) wpos seg1) f) st in
  let '(r, seg2) :=
    if subsize <? len
    then sys_safecopyfrom endpt grant subsize (len - subsize)
    else (OK, []) in
  if negb (r =? OK) then Ret r st1 else
  let st2 :=
    if subsize <? len
    then modify p (fun f => set_buf (store (buf f) 0 seg2) f) st1
    else st1 in
  write_advance unsuspend minor p len st2.

Definition uds_perform_write_body (unsuspend : Z -> driver -> outcome unit)
    (minor endpt grant len : Z) (pretend : bool) (st : driver) : outcome Z :=
  let fd := slot st minor in
  if len =? 0 then Ret 0 st else
  if Z.land (mode fd) UDS_W =? 0 then Ret EPIPE st else
  if (len >? UDS_BUF) && negb (type fd =? SOCK_STREAM) then Ret EMSGSIZE st
  else
  match write_peer minor pretend st with
  | inl early => early
  | inr p =>
    let pfd := slot st p in
    if Z.land (mode pfd) UDS_R =? 0 then Ret EPIPE st else
    if (type fd =? SOCK_DGRAM) && (size pfd >? 0) then Ret (ssize_t len) st
    else
    if (size pfd =? UDS_BUF)
       || ((type fd =? SOCK_SEQPACKET) && (size pfd >? 0))
    then
      if pretend then Ret EDONTREPLY st
      else if suspension_eqb (suspended pfd) UDS_SUSPENDED_READ
      then Panic "reader blocked on full socket"
      else Ret EDONTREPLY st
    else
    let len := if len >? size_t (UDS_BUF - size pfd)
               then size_t (UDS_BUF - size pfd) else len in
    if pretend then Ret (ssize_t len) st else
    write_deposit unsuspend minor p endpt grant len st
  end.

(** *** uds_unsuspend

    uds_unsuspend, uds_perform_read and uds_perform_write call each other;
    the fuel bounds the depth of the nested wake-ups. *)
Definition unsuspend_reply (minor r : Z) (st : driver) : driver :=
  modify minor (set_suspended UDS_NOT_SUSPENDED)
    (emit (EvReplyTask (susp_endpt (slot st minor))
                       (susp_id (slot st minor)) r) st).

Fixpoint uds_unsuspend (fuel : nat) (minor : Z) (st : driver) : outcome unit :=
  match fuel with
  | O => OutOfFuel
  | S fuel' =>
      let fdp := slot st minor in
      match suspended fdp with
      | UDS_SUSPENDED_READ =>
          do (r, st1) <-
            uds_perform_read_body (uds_unsuspend fuel') minor
              (susp_endpt fdp) (susp_grant fdp) (susp_size fdp) false st;
          if r =? EDONTREPLY then Ret tt st1
          else Ret tt (unsuspend_reply minor r st1)
      | UDS_SUSPENDED_WRITE =>
          do (r, st1) <-
            uds_perform_write_body (uds_unsuspend fuel') minor
              (susp_endpt fdp) (susp_grant fdp) (susp_size fdp) false st;
          if r =? EDONTREPLY then Ret tt st1
          else Ret tt (unsuspend_reply minor r st1)
      | UDS_SUSPENDED_CONNECT | UDS_SUSPENDED_ACCEPT =>
          let r := err fdp in
          Ret tt (unsuspend_reply minor r (modify minor (set_err 0) st))
      | UDS_NOT_SUSPENDED => Panic "unknown suspension type"
      end
  end.

Definition uds_perform_read (fuel : nat) :=
  uds_perform_read_body (uds_unsuspend fuel).

Definition uds_perform_write (fuel : nat) :=
  uds_perform_write_body (uds_unsuspend fuel).

(** *** uds_reset *)

Definition uds_reset (fuel : nat) (minor : Z) (st : driver) : outcome unit :=
  let st1 := modify minor (set_peer (-1)) st in
  let st2 := modify minor (set_err ECONNRESET) st1 in
  do (_, st3) <-
    (if negb (suspension_eqb (suspended (slot st2 minor)) UDS_NOT_SUSPENDED)
     then uds_unsuspend fuel minor st2 else Ret tt st2);
  if negb (sel_ops (slot st3 minor) =? 0)
  then Ret tt (modify minor (set_sel_ops 0)
                 (emit (EvReplySelect (sel_endpt (slot st3 minor)) minor
                                      (sel_ops (slot st3 minor))) st3))
  else Ret tt st3.

(** *** uds_close *)

(** The loop that clears a connecting socket from its server's backlog:
    the first of the n leading entries equal to minor becomes -1. *)
Fixpoint backlog_clear (l : list Z) (n : nat) (minor : Z) : list Z :=
  match n, l with
  | O, _ => l
  | _, [] => []
  | S n', x :: l' =>
      if x =? minor then -1 :: l' else x :: backlog_clear l' n' minor
  end.

(** backlog[i]; an index outside the array is undefined in C and reads as
    an empty entry here. *)
Definition backlog_at (fd : uds_fd) (i : Z) : Z :=
  if i <? 0 then -1 else nth (Z.to_nat i) (backlog fd) (-1).

(** The loop that disconnects all sockets in the backlog of a server. *)
Fixpoint reset_backlog (fuel : nat) (minor : Z) (idx : list Z) (st : driver)
  : outcome unit :=
  match idx with
  | [] => Ret tt st
  | i :: idx' =>
      do (_, st1) <-
        (if negb (backlog_at (slot st minor) i =? -1)
         then uds_reset fuel (backlog_at (slot st minor) i) st
         else Ret tt st);
      reset_backlog fuel minor idx' st1
  end.

Definition uds_close (fuel : nat) (minor : Z) (st : driver) : outcome Z :=
  if (minor <? 0) || (minor >=? NR_FDS) then Ret ENXIO st else
  if negb (fd_state_eqb (state (slot st minor)) UDS_INUSE) then Ret EINVAL st
  else
  let p := peer (slot st minor) in
  do (_, st1) <-
    (if negb (p =? -1) && (peer (slot st p) =? -1) then
       if listening (slot st p) =? 0
       then Panic "connecting socket attached to non-server"
       else Ret tt
              (modify p (fun f => set_backlog
                           (backlog_clear (backlog f)
                              (Z.to_nat (backlog_size f)) minor) f) st)
     else if negb (p =? -1) then uds_reset fuel p st
     else if negb (listening (slot st minor) =? 0) then
       reset_backlog fuel minor
         (zrange 0 (backlog_size (slot st minor))) st
     else Ret tt st);
  let st2 :=
    if nfiledes (ancillary_data (slot st1 minor)) >? 0
    then emit (EvClearFds minor) st1 else st1 in
  let st3 := modify minor (fun _ => fd_zero) st2 in
  let st4 :=
    if uds_exit_left st3 >? 0 then
      let st' := {| uds_fd_table := uds_fd_table st3;
                    uds_exit_left := uds_exit_left st3 - 1;
                    trace := trace st3 |} in
      if uds_exit_left st' =? 0 then emit EvTerminate st' else st'
    else st3 in
  Ret OK st4.

(** *** uds_select *)

Definition uds_select (fuel : nat) (minor ops endpt : Z) (st : driver)
  : outcome Z :=
  if (minor <? 0) || (minor >=? NR_FDS) then Ret ENXIO st else
  if negb (fd_state_eqb (state (slot st minor)) UDS_INUSE) then Ret EINVAL st
  else
  let watch := Z.land ops CDEV_NOTIFY in
  let ops := Z.land ops (Z.lor (Z.lor CDEV_OP_RD CDEV_OP_WR) CDEV_OP_ERR) in
  do (ready_rd, st1) <-
    (if negb (Z.land ops CDEV_OP_RD =? 0) then
       do (bytes, st') <-
         uds_perform_read fuel minor NONE GRANT_INVALID 1 true st;
       if bytes >? 0 then Ret CDEV_OP_RD st'
       else if listening (slot st' minor) =? 1 then
         Ret (if existsb (fun i => negb (backlog_at (slot st' minor) i =? -1))
                         (zrange 0 (backlog_size (slot st' minor)))
              then CDEV_OP_RD else 0) st'
       else if negb (bytes =? EDONTREPLY) then Ret CDEV_OP_RD st'
       else Ret 0 st'
     else Ret 0 st);
  do (ready_ops, st2) <-
    (if negb (Z.land ops CDEV_OP_WR =? 0) then
       do (bytes, st') <-
         uds_perform_write fuel minor NONE GRANT_INVALID 1 true st1;
       if negb (bytes =? 0) && negb (bytes =? EDONTREPLY)
       then Ret (Z.lor ready_rd CDEV_OP_WR) st'
       else Ret ready_rd st'
     else Ret ready_rd st1);
  let ops := Z.land ops (Z.lnot ready_ops) in
  let st3 :=
    if negb (ops =? 0) && negb (watch =? 0)
    then modify minor (fun f => set_sel_ops (Z.lor (sel_ops f) ops)
                                  (set_sel_endpt endpt f)) st2
    else st2 in
  Ret ready_ops st3.

(** *** uds_read and uds_write *)

Definition suspend (how : suspension) (endpt grant len id : Z) (fd : uds_fd)
  : uds_fd :=
  set_susp_id id (set_susp_size len (set_susp_grant grant
    (set_susp_endpt endpt (set_suspended how fd)))).

Definition uds_read (fuel : nat) (minor position endpt grant len flags id : Z)
    (st : driver) : outcome Z :=
  if (minor <? 0) || (minor >=? NR_FDS) then Ret ENXIO st else
  if negb (fd_state_eqb (state (slot st minor)) UDS_INUSE) then Ret EINVAL st
  else
  do (rc, st1) <- uds_perform_read fuel minor endpt grant len false st;
  if rc =? EDONTREPLY then
    let st2 := modify minor (suspend UDS_SUSPENDED_READ endpt grant len id)
                      st1 in
    if negb (Z.land flags CDEV_NONBLOCK =? 0)
    then Ret EAGAIN (snd (uds_cancel minor endpt id st2))
    else Ret rc st2
  else Ret rc st1.

Definition uds_write (fuel : nat) (minor position endpt grant len flags id : Z)
    (st : driver) : outcome Z :=
  if (minor <? 0) || (minor >=? NR_FDS) then Ret ENXIO st else
  if negb (fd_state_eqb (state (slot st minor)) UDS_INUSE) then Ret EINVAL st
  else
  do (rc, st1) <- uds_perform_write fuel minor endpt grant len false st;
  if rc =? EDONTREPLY then
    let st2 := modify minor (suspend UDS_SUSPENDED_WRITE endpt grant len id)
                      st1 in
    if negb (Z.land flags CDEV_NONBLOCK =? 0)
    then Ret EAGAIN (snd (uds_cancel minor endpt id st2))
    else Ret rc st2
  else Ret rc st1.

(** *** uds_ioctl

    The control plane, uds_do_ioctl of ioctl.c with the handlers behind it
    (bind, connect, listen, accept, shutdown, socket pairs, credentials,
    descriptor passing), is not part of uds.c: it is a parameter of
    uds_ioctl here.  It acts on the whole table and may wake up
    sockets. *)
Definition uds_ioctl
    (uds_do_ioctl : Z -> Z -> Z -> Z -> driver -> outcome Z)
    (minor request endpt grant flags user_endpt id : Z)
    (st : driver) : outcome Z :=
  if (minor <? 0) || (minor >=? NR_FDS) then Ret ENXIO st else
  if negb (fd_state_eqb (state (slot st minor)) UDS_INUSE) then Ret EINVAL st
  else
  let st1 := modify minor (set_owner user_endpt) st in
  do (rc, st2) <- uds_do_ioctl minor request endpt grant st1;
  if rc =? EDONTREPLY then
    let s := suspended (slot st2 minor) in
    if suspension_eqb s UDS_NOT_SUSPENDED
    then Panic "IOCTL did not actually suspend?"
    else
    let st3 :=
      modify minor (fun f => set_susp_id id (set_susp_size 0
                     (set_susp_grant grant (set_susp_endpt endpt f)))) st2 in
    if negb (Z.land flags CDEV_NONBLOCK =? 0)
    then Ret (if suspension_eqb s UDS_SUSPENDED_CONNECT
              then EINPROGRESS else EAGAIN)
             (snd (uds_cancel minor endpt id st3))
    else Ret rc st3
  else Ret rc st2.

(** *** uds_signal *)

Definition uds_signal (signo : Z) (st : driver) : driver :=
  if negb (signo =? SIGTERM) then st else
  let left :=
    fold_left (fun n i =>
                 if fd_state_eqb (state (slot st i)) UDS_INUSE
                 then n + 1 else n)
              (zrange 0 NR_FDS) 0 in
  let st1 := {| uds_fd_table := uds_fd_table st;
                uds_exit_left := left; trace := trace st |} in
  if left =? 0 then emit EvTerminate st1 else st1.

(** ** Predicates used in the statements *)

(** The table has the NR_FDS entries of its declaration. *)
Definition table_ok (st : driver) : Prop :=
  zlength (uds_fd_table st) = NR_FDS.

(** Valid handles of the table of a state. *)
Definition in_table (st : driver) (i : Z) : Prop :=
  0 <= i < zlength (uds_fd_table st).

(** The condition under which uds_cancel cancels: the handle is in range,
    the slot is in use and suspended, and the saved requester and request
    id are the ones given. *)
Definition cancel_applies (minor endpt id : Z) (st : driver) : Prop :=
  0 <= minor < NR_FDS /\
  state (slot st minor) = UDS_INUSE /\
  suspended (slot st minor) <> UDS_NOT_SUSPENDED /\
  susp_endpt (slot st minor) = endpt /\
  susp_id (slot st minor) = id.

(** The situations in which a read on an empty buffer has to wait: a
    socket without peer that is not connection oriented, or a socket
    whose peer can still write and is not itself blocked in a write. *)
Definition read_would_block (st : driver) (minor : Z) : Prop :=
  let fd := slot st minor in
  (peer fd = -1 /\ type fd <> SOCK_STREAM /\ type fd <> SOCK_SEQPACKET) \/
  (peer fd <> -1 /\ Z.land (mode (slot st (peer fd))) UDS_W <> 0 /\
   suspended (slot st (peer fd)) <> UDS_SUSPENDED_WRITE).

(** *** The ring buffer as a queue of bytes *)

(** The n bytes a read takes from position p: up to the end of the array,
    then from its start (lines 302-317 of uds.c). *)
Definition ring_read (b : list byte) (p n : Z) : list byte :=
  let n1 := Z.min n (UDS_BUF - p) in load b p n1 ++ load b 0 (n - n1).

(** The array after a write of [data] at position w: up to the end of
    the array, then from its start (lines 443-457 of uds.c). *)
Definition ring_write (b : list byte) (w : Z) (data : list byte) : list byte :=
  let n1 := Z.to_nat (Z.min (zlength data) (UDS_BUF - w)) in
  store (store b w (firstn n1 data)) 0 (skipn n1 data).

(** The bytes waiting in the buffer of a slot, oldest first. *)
Definition ring (fd : uds_fd) : list byte :=
  ring_read (buf fd) (pos fd) (size fd).

(** The buffer of a slot is an array of UDS_BUF bytes and its position and
    size are within bounds. *)
Definition ring_ok (fd : uds_fd) : Prop :=
  zlength (buf fd) = UDS_BUF /\ 0 <= pos fd < UDS_BUF /\
  0 <= size fd <= UDS_BUF.

(** The bytes copied out to requesters, in the order of the copies. *)
Definition delivered (tr : list event) : list byte :=
  flat_map (fun e => match e with
                     | EvCopyTo _ _ _ data => data
                     | _ => []
                     end) tr.


(** A connected pair with writer a and reader b, both in use, the write
    half of a and the read half of b open, the buffer of b well formed,
    and no request of this direction pending: a is not blocked in a write
    and b is not blocked in a read. *)
Definition linked (st : driver) (a b : Z) : Prop :=
  table_ok st /\ 0 <= a < NR_FDS /\ 0 <= b < NR_FDS /\ a <> b /\
  state (slot st a) = UDS_INUSE /\ state (slot st b) = UDS_INUSE /\
  peer (slot st a) = b /\ peer (slot st b) = a /\
  Z.land (mode (slot st a)) UDS_W <> 0 /\
  Z.land (mode (slot st b)) UDS_R <> 0 /\
  suspended (slot st a) <> UDS_SUSPENDED_WRITE /\
  suspended (slot st b) <> UDS_SUSPENDED_READ /\
  ring_ok (slot st b).







(** Two slots agree on what the ring buffer invariant looks at. *)
Definition same_ring (fd fd' : uds_fd) : Prop :=
  state fd' = state fd /\ buf fd' = buf fd /\ pos fd' = pos fd /\
  size fd' = size fd.


(** *** The buffer invariant *)

(** For a slot in use: size <= UDS_BUF, pos < UDS_BUF, and an empty
    buffer has its position reset to 0. *)
Definition fd_inv (fd : uds_fd) : Prop :=
  state fd = UDS_INUSE ->
  0 <= size fd <= UDS_BUF /\ 0 <= pos fd < UDS_BUF /\
  (size fd = 0 -> pos fd = 0).

Definition table_inv (st : driver) : Prop :=
  forall i, fd_inv (slot st i).

(** A value of type size_t. *)
Definition is_size_t (x : Z) : Prop := 0 <= x < 4294967296.

(** The saved request sizes are values of type size_t. *)
Definition sizes_typed (st : driver) : Prop :=
  forall i, is_size_t (susp_size (slot st i)).

(** The operations of the driver. *)
Inductive operation : Type :=
| OpOpen (orig_minor access user_endpt : Z) (mmap_ok : bool)
| OpClose (minor : Z)
| OpRead (minor position endpt grant len flags id : Z)
| OpWrite (minor position endpt grant len flags id : Z)
| OpSelect (minor ops endpt : Z)
| OpCancel (minor endpt id : Z)
| OpUnsuspend (minor : Z).

Definition run_op (fuel : nat) (op : operation) (st : driver) : outcome Z :=
  match op with
  | OpOpen orig_minor access user_endpt mmap_ok =>
      let '(r, st') := uds_open orig_minor access user_endpt mmap_ok st in
      Ret r st'
  | OpClose minor => uds_close fuel minor st
  | OpRead minor position endpt grant len flags id =>
      uds_read fuel minor position endpt grant len flags id st
  | OpWrite minor position endpt grant len flags id =>
      uds_write fuel minor position endpt grant len flags id st
  | OpSelect minor ops endpt => uds_select fuel minor ops endpt st
  | OpCancel minor endpt id =>
      let '(r, st') := uds_cancel minor endpt id st in Ret r st'
  | OpUnsuspend minor =>
      do (_, st') <- uds_unsuspend fuel minor st; Ret OK st'
  end.

(** The size argument of a read or write is a value of type size_t. *)
Definition op_typed (op : operation) : Prop :=
  match op with
  | OpRead _ _ _ _ len _ _ | OpWrite _ _ _ _ len _ _ => is_size_t len
  | _ => True
  end.

(** Two slots agree on their state, position and size. *)
Definition same_bounds (fd fd' : uds_fd) : Prop :=
  state fd' = state fd /\ pos fd' = pos fd /\ size fd' = size fd.

(** The invariant of one slot together with the typing of its saved
    request size. *)
Definition fd_good (fd : uds_fd) : Prop :=
  fd_inv fd /\ is_size_t (susp_size fd).

Definition good (st : driver) : Prop := forall i, fd_good (slot st i).

(** Nested wake-ups keep the invariant. *)
Definition keeps_good (unsuspend : Z -> driver -> outcome unit) : Prop :=
  forall p s s', good s -> unsuspend p s = Ret tt s' -> good s'.


(** *** Consistency of the table *)

Definition conn_type (fd : uds_fd) : Prop :=
  type fd = SOCK_STREAM \/ type fd = SOCK_SEQPACKET.

(** x is one of the backlog_size leading entries of the backlog of l. *)
Definition in_backlog (l : uds_fd) (x : Z) : Prop :=
  exists i, 0 <= i < backlog_size l /\ backlog_at l i = x.

(** Invariant 3 and 4 of the specification: a socket with a peer is
    connection oriented and is either connected (the peer points back) or
    connecting (the peer is a listening socket without peer that has the
    socket in its backlog). *)
Definition link_ok (st : driver) (x : Z) : Prop :=
  let p := peer (slot st x) in
  p <> -1 ->
  0 <= p < NR_FDS /\ p <> x /\ state (slot st p) = UDS_INUSE /\
  conn_type (slot st x) /\ conn_type (slot st p) /\
  (peer (slot st p) = x \/
   (peer (slot st p) = -1 /\ listening (slot st p) <> 0 /\
    in_backlog (slot st p) x)).

(** Invariant 4 of the specification: a listening socket has no peer, and
    the occupied entries of its backlog are distinct sockets connecting
    to it. *)
Definition backlog_ok (st : driver) (l : Z) : Prop :=
  listening (slot st l) <> 0 ->
  peer (slot st l) = -1 /\
  forall i, 0 <= i < backlog_size (slot st l) ->
    backlog_at (slot st l) i <> -1 ->
    0 <= backlog_at (slot st l) i < NR_FDS /\
    state (slot st (backlog_at (slot st l) i)) = UDS_INUSE /\
    peer (slot st (backlog_at (slot st l) i)) = l /\
    forall j, 0 <= j < backlog_size (slot st l) ->
      backlog_at (slot st l) j = backlog_at (slot st l) i -> j = i.

(** No writer is blocked on an empty socket (section 4.3): when the peer
    of a slot is suspended in a write, the buffer of the slot holds
    data. *)
Definition no_writer_on_empty (st : driver) (x : Z) : Prop :=
  peer (slot st x) <> -1 ->
  suspended (slot st (peer (slot st x))) = UDS_SUSPENDED_WRITE ->
  0 < size (slot st x).

(** No reader is blocked on a socket that holds data (section 9). *)
Definition no_reader_on_data (st : driver) (x : Z) : Prop :=
  suspended (slot st x) = UDS_SUSPENDED_READ -> size (slot st x) = 0.

Definition consistent (st : driver) : Prop :=
  table_ok st /\ good st /\
  (forall x, state (slot st x) = UDS_FREE -> type (slot st x) <> SOCK_DGRAM) /\
  forall x, state (slot st x) = UDS_INUSE ->
    link_ok st x /\ backlog_ok st x /\
    no_writer_on_empty st x /\ no_reader_on_data st x.

(** What a transfer never touches in a slot. *)
Definition frame_same (fd fd' : uds_fd) : Prop :=
  state fd' = state fd /\ type fd' = type fd /\ peer fd' = peer fd /\
  listening fd' = listening fd /\ backlog fd' = backlog fd /\
  backlog_size fd' = backlog_size fd.

(** What reads, writes and the wake-ups they cause may do to the table:
    they keep the frame of every slot, they only ever end suspensions, a
    buffer is drained to empty only when the peer is not left blocked in a
    write, and a buffer is filled only when its owner is not left blocked
    in a read. *)
Definition io_rel (st st' : driver) : Prop :=
  zlength (uds_fd_table st') = zlength (uds_fd_table st) /\
  (forall j, frame_same (slot st j) (slot st' j)) /\
  (forall j, suspended (slot st' j) = suspended (slot st j) \/
             suspended (slot st' j) = UDS_NOT_SUSPENDED) /\
  (forall j, 0 < size (slot st j) -> size (slot st' j) = 0 ->
             peer (slot st j) <> -1 ->
             suspended (slot st' (peer (slot st j))) <> UDS_SUSPENDED_WRITE) /\
  (forall j, size (slot st j) = 0 -> 0 < size (slot st' j) ->
             suspended (slot st' j) <> UDS_SUSPENDED_READ).

(** The state in which uds_init leaves the driver. *)
Definition init_state : driver :=
  {| uds_fd_table := repeat fd_zero (Z.to_nat NR_FDS);
     uds_exit_left := 0; trace := [] |}.

(** The operations the transport invokes (uds_unsuspend is internal). *)
Definition public_op (op : operation) : Prop :=
  match op with OpUnsuspend _ => False | _ => True end.

(** The states the driver can be in: the state after uds_init, and the
    states after the operations the transport invokes. *)
Inductive reachable
    (uds_do_ioctl : Z -> Z -> Z -> Z -> driver -> outcome Z)
  : driver -> Prop :=
| reach_init : reachable uds_do_ioctl init_state
| reach_op st op fuel r st' :
    reachable uds_do_ioctl st -> public_op op -> op_typed op ->
    run_op fuel op st = Ret r st' -> reachable uds_do_ioctl st'
| reach_ioctl st minor request endpt grant flags user_endpt id r st' :
    reachable uds_do_ioctl st ->
    uds_ioctl uds_do_ioctl minor request endpt grant flags user_endpt id st
    = Ret r st' ->
    reachable uds_do_ioctl st'
| reach_signal st signo :
    reachable uds_do_ioctl st ->
    reachable uds_do_ioctl (uds_signal signo st).

(** The contract of the control plane.  Section 6.2 of the specification
    requires that the routines behind uds_do_ioctl preserve the invariants
    of the table; here they have to keep the table consistent, which
    includes the conditions on suspensions and buffers: a pairing that
    leaves a socket blocked on its new peer has to wake it up. *)
Definition control_plane_ok
    (uds_do_ioctl : Z -> Z -> Z -> Z -> driver -> outcome Z) : Prop :=
  forall minor request endpt grant st r st',
    consistent st ->
    uds_do_ioctl minor request endpt grant st = Ret r st' ->
    consistent st'.

(** The table after len bytes were taken from the buffer of slot x, before
    any wake-up. *)
Definition drained (st : driver) (x : Z) (s : driver) : Prop :=
  zlength (uds_fd_table s) = zlength (uds_fd_table st) /\
  (forall j, j <> x -> slot s j = slot st j) /\
  frame_same (slot st x) (slot s x) /\
  suspended (slot s x) = suspended (slot st x) /\
  0 <= size (slot s x) < size (slot st x) /\
  good s.

(** The table after bytes were put into the buffer of slot d, before any
    wake-up. *)
Definition deposited (st : driver) (d : Z) (s : driver) : Prop :=
  zlength (uds_fd_table s) = zlength (uds_fd_table st) /\
  (forall j, j <> d -> slot s j = slot st j) /\
  frame_same (slot st d) (slot s d) /\
  suspended (slot s d) = suspended (slot st d) /\
  0 <= size (slot st d) < size (slot s d) /\
  good s.

(** Why a write has to wait: the destination holds data (it is full, or
    it holds a packet), or the socket is still connecting. *)
Definition write_blocked (st : driver) (minor : Z) : Prop :=
  (exists d, write_peer minor false st = inr d /\ 0 < size (slot st d)) \/
  (conn_type (slot st minor) /\ peer (slot st minor) <> -1 /\
   peer (slot st (peer (slot st minor))) = -1).

(** A change of one slot that keeps its frame, its suspension and its
    size. *)
Definition quiet (f : uds_fd -> uds_fd) : Prop :=
  forall fd, frame_same fd (f fd) /\ suspended (f fd) = suspended fd /\
             size (f fd) = size fd.


(** A change of one slot that keeps its frame and its size and at most
    ends its suspension. *)
Definition calm (f : uds_fd -> uds_fd) : Prop :=
  forall fd, frame_same fd (f fd) /\ size (f fd) = size fd /\
             (suspended (f fd) = suspended fd \/
              suspended (f fd) = UDS_NOT_SUSPENDED).

(** The part of the consistency that only looks at the frames of the
    slots. *)
Definition links (st : driver) : Prop :=
  table_ok st /\
  (forall x, state (slot st x) = UDS_FREE -> type (slot st x) <> SOCK_DGRAM) /\
  forall x, state (slot st x) = UDS_INUSE -> link_ok st x /\ backlog_ok st x.

(** The part that looks at the buffers and the suspensions. *)
Definition flow (st : driver) : Prop :=
  good st /\
  forall x, state (slot st x) = UDS_INUSE ->
    no_writer_on_empty st x /\ no_reader_on_data st x.

(** Two slots agree on their state, type, listening flag and backlog
    size. *)
Definition shape_same (fd fd' : uds_fd) : Prop :=
  state fd' = state fd /\ type fd' = type fd /\
  listening fd' = listening fd /\ backlog_size fd' = backlog_size fd.

(** What the first half of uds_close does to the other slots: slot minor
    is taken out of the peer links and out of the backlogs, and nothing
    else of the frames changes. *)
Definition unhooked (st : driver) (minor : Z) (st' : driver) : Prop :=
  zlength (uds_fd_table st') = zlength (uds_fd_table st) /\
  (forall j, j <> minor -> shape_same (slot st j) (slot st' j)) /\
  (forall j, j <> minor -> state (slot st j) = UDS_INUSE ->
     peer (slot st' j) =
     if peer (slot st j) =? minor then -1 else peer (slot st j)) /\
  (forall j, j <> minor -> state (slot st j) = UDS_INUSE ->
     listening (slot st j) <> 0 ->
     forall i, 0 <= i < backlog_size (slot st j) ->
       backlog_at (slot st' j) i =
       if backlog_at (slot st j) i =? minor then -1
       else backlog_at (slot st j) i).

(** The slots reset by the loop over the backlog of a closing server. *)
Definition backlog_entry (st : driver) (minor : Z) (idx : list Z) (j : Z)
  : Prop :=
  exists i, In i idx /\ backlog_at (slot st minor) i = j /\ j <> -1.

(** The wake-up U' returns what the wake-up U returns, wherever U
    returns. *)
Definition extends (U U' : Z -> driver -> outcome unit) : Prop :=
  forall p s s', U p s = Ret tt s' -> U' p s = Ret tt s'.

(** The calls of the transport, and a run of the driver over a list of
    calls. *)
Inductive call : Type :=
| CallOp (fuel : nat) (op : operation)
| CallIoctl (minor request endpt grant flags user_endpt id : Z)
| CallSignal (signo : Z).

Definition run_call
    (uds_do_ioctl : Z -> Z -> Z -> Z -> driver -> outcome Z)
    (c : call) (st : driver) : outcome Z :=
  match c with
  | CallOp fuel op => run_op fuel op st
  | CallIoctl minor request endpt grant flags user_endpt id =>
      uds_ioctl uds_do_ioctl minor request endpt grant flags user_endpt id st
  | CallSignal signo => Ret OK (uds_signal signo st)
  end.

Fixpoint run_calls
    (uds_do_ioctl : Z -> Z -> Z -> Z -> driver -> outcome Z)
    (cs : list call) (st : driver) : outcome (list Z) :=
  match cs with
  | [] => Ret [] st
  | c :: cs' =>
      do (r, st1) <- run_call uds_do_ioctl c st;
      do (rs, st2) <- run_calls uds_do_ioctl cs' st1;
      Ret (r :: rs) st2
  end.

Definition call_ok (c : call) : Prop :=
  match c with
  | CallOp _ op => public_op op /\ op_typed op
  | _ => True
  end.

(** *** Termination *)

(** The number of sockets in use. *)
Definition open_sockets (st : driver) : Z :=
  zlength (filter (fun i => fd_state_eqb (state (slot st i)) UDS_INUSE)
                  (zrange 0 NR_FDS)).

(** How often chardriver_terminate was called. *)
Definition terminations (tr : list event) : nat :=
  length (filter (fun e => match e with EvTerminate => true | _ => false end)
                 tr).

(** Two states agree on the countdown, on the calls of
    chardriver_terminate and on which slots are in use. *)
Definition halt_same (s s' : driver) : Prop :=
  uds_exit_left s' = uds_exit_left s /\
  terminations (trace s') = terminations (trace s) /\
  zlength (uds_fd_table s') = zlength (uds_fd_table s) /\
  forall j, state (slot s' j) = state (slot s j).

(** Nested wake-ups keep the countdown. *)
Definition keeps_halt (U : Z -> driver -> outcome unit) : Prop :=
  forall p s s', U p s = Ret tt s' -> halt_same s s'.

(** *** Writes and the slots they touch *)

(** Between two states the table keeps its length and the frame of every
    slot, and the buffer, position and size of every slot but d. *)
Definition only_ring (d : Z) (s s' : driver) : Prop :=
  zlength (uds_fd_table s') = zlength (uds_fd_table s) /\
  (forall j, frame_same (slot s j) (slot s' j)) /\
  (forall j, j <> d -> same_ring (slot s j) (slot s' j)).

(** *** The control-plane seam *)


(** ** Basic facts about the table *)

(** Forget the parameters of the section a statement does not mention. *)
Ltac only_stated := repeat match goal with x : _ |- _ => clear x end.

Lemma list_update_length {A : Type} (l : list A) (n : nat) (f : A -> A) :
  length (list_update l n f) = length l.
Proof using. only_stated.
  revert n; induction l as [|x l IH]; intros [|n]; simpl; auto.
Qed.

Lemma nth_list_update {A : Type} (l : list A) (n m : nat) (f : A -> A) (d : A) :
  nth m (list_update l n f) d =
  if Nat.eqb n m && Nat.ltb m (length l) then f (nth m l d) else nth m l d.
Proof using. only_stated.
  revert n m; induction l as [|x l IH]; intros n m.
  - destruct n, m; simpl; try reflexivity;
      destruct (Nat.eqb _ _); reflexivity.
  - destruct n, m; simpl; auto.
Qed.

Lemma fd_update_length (tbl : list uds_fd) (i : Z) (f : uds_fd -> uds_fd) :
  length (fd_update tbl i f) = length tbl.
Proof using. only_stated.
  unfold fd_update. destruct (i <? 0); auto using list_update_length.
Qed.

Lemma fd_at_update (tbl : list uds_fd) (i j : Z) (f : uds_fd -> uds_fd) :
  fd_at (fd_update tbl i f) j =
  if (i =? j) && (0 <=? j) && (j <? zlength tbl)
  then f (fd_at tbl j) else fd_at tbl j.
Proof using. only_stated.
  unfold fd_at, fd_update, zlength.
  destruct (Z.ltb_spec j 0).
  - destruct (i =? j); simpl; [|reflexivity].
    destruct (Z.leb_spec 0 j); [lia|reflexivity].
  - destruct (Z.ltb_spec i 0).
    + destruct (Z.eqb_spec i j); [lia|reflexivity].
    + rewrite nth_list_update.
      destruct (Z.eqb_spec i j) as [->|Hne].
      * rewrite Nat.eqb_refl. simpl.
        destruct (Z.leb_spec 0 j); [|lia]. simpl.
        destruct (Nat.ltb_spec (Z.to_nat j) (length tbl));
          destruct (Z.ltb_spec j (Z.of_nat (length tbl))); auto; lia.
      * destruct (Nat.eqb_spec (Z.to_nat i) (Z.to_nat j)); [lia|reflexivity].
Qed.

Lemma slot_modify (st : driver) (i j : Z) (f : uds_fd -> uds_fd) :
  slot (modify i f st) j =
  if (i =? j) && (0 <=? j) && (j <? zlength (uds_fd_table st))
  then f (slot st j) else slot st j.
Proof using. only_stated. unfold slot, modify. simpl. apply fd_at_update. Qed.

Lemma slot_modify_same (st : driver) (i : Z) (f : uds_fd -> uds_fd) :
  in_table st i -> slot (modify i f st) i = f (slot st i).
Proof using. only_stated.
  intros [H0 H1]. rewrite slot_modify, Z.eqb_refl.
  destruct (Z.leb_spec 0 i); [|lia].
  destruct (Z.ltb_spec i (zlength (uds_fd_table st))); [reflexivity|lia].
Qed.

Lemma slot_modify_other (st : driver) (i j : Z) (f : uds_fd -> uds_fd) :
  i <> j -> slot (modify i f st) j = slot st j.
Proof using. only_stated.
  intros H. rewrite slot_modify.
  destruct (Z.eqb_spec i j); [contradiction|reflexivity].
Qed.

Lemma slot_emit (st : driver) (e : event) (i : Z) :
  slot (emit e st) i = slot st i.
Proof using. only_stated. reflexivity. Qed.

Lemma table_length_modify (st : driver) (i : Z) (f : uds_fd -> uds_fd) :
  zlength (uds_fd_table (modify i f st)) = zlength (uds_fd_table st).
Proof using. only_stated. unfold zlength, modify. simpl. now rewrite fd_update_length. Qed.

Lemma table_length_emit (st : driver) (e : event) :
  zlength (uds_fd_table (emit e st)) = zlength (uds_fd_table st).
Proof using. only_stated. reflexivity. Qed.

Lemma in_table_modify (st : driver) (i j : Z) (f : uds_fd -> uds_fd) :
  in_table (modify i f st) j <-> in_table st j.
Proof using. only_stated. unfold in_table. now rewrite table_length_modify. Qed.

Lemma suspension_eqb_eq (a b : suspension) :
  suspension_eqb a b = true <-> a = b.
Proof using. only_stated. destruct a, b; simpl; split; congruence. Qed.

Lemma suspension_eqb_neq (a b : suspension) :
  suspension_eqb a b = false <-> a <> b.
Proof using. only_stated. destruct a, b; simpl; split; congruence. Qed.

Lemma fd_state_eqb_eq (a b : fd_state) :
  fd_state_eqb a b = true <-> a = b.
Proof using. only_stated. destruct a, b; simpl; split; congruence. Qed.

(** ** Ring buffer arithmetic *)

Lemma load_length b p n :
  0 <= p -> 0 <= n -> p + n <= zlength b -> length (load b p n) = Z.to_nat n.
Proof using. only_stated.
  intros. unfold load, zlength in *. rewrite length_firstn, length_skipn. lia.
Qed.

Lemma nth_load b p n k d :
  0 <= p -> (k < Z.to_nat n)%nat ->
  nth k (load b p n) d = nth (Z.to_nat p + k) b d.
Proof using. only_stated.
  intros. unfold load. rewrite nth_firstn.
  destruct (Nat.ltb_spec k (Z.to_nat n)); [|lia].
  apply nth_skipn.
Qed.

Lemma store_length b p data :
  0 <= p -> p + zlength data <= zlength b ->
  length (store b p data) = length b.
Proof using. only_stated.
  intros. unfold store, zlength in *.
  rewrite !length_app, length_firstn, length_skipn. lia.
Qed.

Lemma nth_store b p data j d :
  0 <= p -> p + zlength data <= zlength b ->
  nth j (store b p data) d =
  if (Z.to_nat p <=? j)%nat && (j <? Z.to_nat p + length data)%nat
  then nth (j - Z.to_nat p) data d else nth j b d.
Proof using. only_stated.
  intros Hp Hlen. unfold store, zlength in *.
  assert (Hf : length (firstn (Z.to_nat p) b) = Z.to_nat p)
    by (rewrite length_firstn; lia).
  destruct (Nat.leb_spec (Z.to_nat p) j); simpl.
  - rewrite app_nth2 by lia. rewrite Hf.
    destruct (Nat.ltb_spec j (Z.to_nat p + length data)).
    + rewrite app_nth1 by lia. reflexivity.
    + rewrite app_nth2 by lia. rewrite nth_skipn. f_equal. lia.
  - rewrite app_nth1 by lia. rewrite nth_firstn.
    destruct (Nat.ltb_spec j (Z.to_nat p)); [reflexivity|lia].
Qed.

Lemma ring_read_length b p n :
  zlength b = UDS_BUF -> 0 <= p < UDS_BUF -> 0 <= n <= UDS_BUF ->
  length (ring_read b p n) = Z.to_nat n.
Proof using. only_stated.
  intros Hb Hp Hn. unfold ring_read. rewrite length_app.
  rewrite !load_length; lia.
Qed.

Lemma nth_ring_read b p n k d :
  zlength b = UDS_BUF -> 0 <= p < UDS_BUF -> 0 <= n <= UDS_BUF ->
  (k < Z.to_nat n)%nat ->
  nth k (ring_read b p n) d =
  nth (Z.to_nat (if p + Z.of_nat k <? UDS_BUF then p + Z.of_nat k
                 else p + Z.of_nat k - UDS_BUF)) b d.
Proof using. only_stated.
  intros Hb Hp Hn Hk. unfold ring_read.
  destruct (Z.ltb_spec (p + Z.of_nat k) UDS_BUF).
  - rewrite app_nth1 by (rewrite load_length; lia).
    rewrite nth_load by lia. f_equal. lia.
  - rewrite app_nth2 by (rewrite load_length; lia).
    rewrite load_length by lia. rewrite nth_load by lia. f_equal. lia.
Qed.

Lemma ring_write_length b w data :
  zlength b = UDS_BUF -> 0 <= w < UDS_BUF -> zlength data <= UDS_BUF ->
  length (ring_write b w data) = length b.
Proof using. only_stated.
  intros Hb Hw Hd. unfold ring_write, zlength in *.
  rewrite !store_length; unfold zlength; rewrite ?store_length;
    unfold zlength; rewrite ?length_firstn, ?length_skipn; lia.
Qed.

Lemma nth_ring_write b w data j d :
  zlength b = UDS_BUF -> 0 <= w < UDS_BUF -> zlength data <= UDS_BUF ->
  (j < length b)%nat ->
  nth j (ring_write b w data) d =
  if (w <=? Z.of_nat j) && (Z.of_nat j <? w + zlength data)
  then nth (j - Z.to_nat w) data d
  else if Z.of_nat j + UDS_BUF <? w + zlength data
  then nth (j + Z.to_nat UDS_BUF - Z.to_nat w) data d
  else nth j b d.
Proof using. only_stated.
  intros Hb Hw Hd Hj. unfold ring_write, zlength in *.
  set (n1 := Z.to_nat (Z.min (Z.of_nat (length data)) (UDS_BUF - w))).
  assert (Hl1 : length (firstn n1 data) = n1) by (rewrite length_firstn; lia).
  assert (Hl2 : length (skipn n1 data) = (length data - n1)%nat)
    by (rewrite length_skipn; lia).
  rewrite nth_store;
    [|lia|unfold zlength; rewrite store_length; unfold zlength; lia].
  rewrite Hl2. change (Z.to_nat 0) with 0%nat. simpl (0 <=? j)%nat.
  rewrite andb_true_l, Nat.add_0_l, Nat.sub_0_r.
  destruct (Nat.ltb_spec j (length data - n1)).
  - rewrite nth_skipn.
    destruct (Z.leb_spec w (Z.of_nat j)); simpl.
    + destruct (Z.ltb_spec (Z.of_nat j) (w + Z.of_nat (length data))); [lia|].
      destruct (Z.ltb_spec (Z.of_nat j + UDS_BUF) (w + Z.of_nat (length data)));
        [|lia]. f_equal. lia.
    + destruct (Z.ltb_spec (Z.of_nat j + UDS_BUF) (w + Z.of_nat (length data)));
        [|lia]. f_equal. lia.
  - rewrite nth_store by (unfold zlength; lia). rewrite Hl1.
    destruct (Nat.leb_spec (Z.to_nat w) j); simpl.
    + destruct (Z.leb_spec w (Z.of_nat j)); [|lia]. simpl.
      destruct (Nat.ltb_spec j (Z.to_nat w + n1)).
      * destruct (Z.ltb_spec (Z.of_nat j) (w + Z.of_nat (length data))); [|lia].
        rewrite nth_firstn.
        destruct (Nat.ltb_spec (j - Z.to_nat w) n1); [reflexivity|lia].
      * destruct (Z.ltb_spec (Z.of_nat j) (w + Z.of_nat (length data))); [lia|].
        destruct (Z.ltb_spec (Z.of_nat j + UDS_BUF) (w + Z.of_nat (length data)));
          [lia|reflexivity].
    + destruct (Z.leb_spec w (Z.of_nat j)); [lia|]. simpl.
      destruct (Z.ltb_spec (Z.of_nat j + UDS_BUF) (w + Z.of_nat (length data)));
        [lia|reflexivity].
Qed.

Lemma mod_wrap x :
  0 < UDS_BUF -> 0 <= x < 2 * UDS_BUF ->
  x mod UDS_BUF = if x <? UDS_BUF then x else x - UDS_BUF.
Proof using. only_stated.
  intros HB Hx. destruct (Z.ltb_spec x UDS_BUF).
  - apply Z.mod_small. lia.
  - symmetry. apply (Z.mod_unique x UDS_BUF 1). left; lia. lia.
Qed.

Lemma ring_append b p s data :
  zlength b = UDS_BUF -> 0 <= p < UDS_BUF -> 0 <= s ->
  s + zlength data <= UDS_BUF ->
  ring_read (ring_write b ((p + s) mod UDS_BUF) data) p (s + zlength data)
  = ring_read b p s ++ data.
Proof using. only_stated.
  intros Hb Hp Hs Hfit.
  assert (Hw : 0 <= (p + s) mod UDS_BUF < UDS_BUF) by (apply Z.mod_pos_bound; lia).
  assert (Hd : zlength data <= UDS_BUF) by lia.
  assert (Hd0 : 0 <= zlength data) by (unfold zlength; lia).
  assert (Hlen : zlength (ring_write b ((p + s) mod UDS_BUF) data) = UDS_BUF).
  { unfold zlength. rewrite ring_write_length by assumption. exact Hb. }
  apply (nth_ext _ _ x00 x00).
  - rewrite length_app, !ring_read_length by lia. unfold zlength. lia.
  - rewrite ring_read_length by lia. intros k Hk.
    rewrite nth_ring_read by lia.
    rewrite nth_ring_write by
      (first [assumption
             |unfold zlength in Hb;
              destruct (Z.ltb_spec (p + Z.of_nat k) UDS_BUF); lia]).
    rewrite mod_wrap by lia.
    unfold zlength in *.
    destruct (Nat.ltb_spec k (Z.to_nat s)).
    + rewrite app_nth1 by (rewrite ring_read_length; unfold zlength; lia).
      rewrite nth_ring_read by (unfold zlength; lia).
      destruct (Z.ltb_spec (p + Z.of_nat k) UDS_BUF);
      destruct (Z.ltb_spec (p + s) UDS_BUF);
      repeat match goal with
      | |- context [Z.leb ?a ?c] => destruct (Z.leb_spec a c); simpl
      | |- context [Z.ltb ?a ?c] => destruct (Z.ltb_spec a c); simpl
      end; try lia; reflexivity.
    + rewrite app_nth2 by (rewrite ring_read_length; unfold zlength; lia).
      rewrite ring_read_length by (unfold zlength; lia).
      destruct (Z.ltb_spec (p + Z.of_nat k) UDS_BUF);
      destruct (Z.ltb_spec (p + s) UDS_BUF);
      repeat match goal with
      | |- context [Z.leb ?a ?c] => destruct (Z.leb_spec a c); simpl
      | |- context [Z.ltb ?a ?c] => destruct (Z.ltb_spec a c); simpl
      end; try lia; f_equal; lia.
Qed.

Lemma ring_take b p s n :
  zlength b = UDS_BUF -> 0 <= p < UDS_BUF -> 0 <= n <= s -> s <= UDS_BUF ->
  ring_read b p n = firstn (Z.to_nat n) (ring_read b p s).
Proof using. only_stated.
  intros Hb Hp Hn Hs.
  apply (nth_ext _ _ x00 x00).
  - rewrite length_firstn, !ring_read_length by lia. lia.
  - rewrite ring_read_length by lia. intros k Hk.
    rewrite nth_firstn. destruct (Nat.ltb_spec k (Z.to_nat n)); [|lia].
    rewrite !nth_ring_read by lia. reflexivity.
Qed.

Lemma ring_drop b p s n :
  zlength b = UDS_BUF -> 0 <= p < UDS_BUF -> 0 <= n <= s -> s <= UDS_BUF ->
  ring_read b ((p + n) mod UDS_BUF) (s - n) =
  skipn (Z.to_nat n) (ring_read b p s).
Proof using. only_stated.
  intros Hb Hp Hn Hs.
  assert (Hw : 0 <= (p + n) mod UDS_BUF < UDS_BUF) by (apply Z.mod_pos_bound; lia).
  apply (nth_ext _ _ x00 x00).
  - rewrite length_skipn, !ring_read_length by lia. lia.
  - rewrite ring_read_length by lia. intros k Hk.
    rewrite nth_skipn, !nth_ring_read by lia.
    rewrite mod_wrap by lia. f_equal.
    repeat match goal with
      | |- context [Z.ltb ?a ?c] => destruct (Z.ltb_spec a c); simpl
      end; lia.
Qed.

Lemma ring_read_nil b :
  0 <= UDS_BUF -> ring_read b 0 0 = [].
Proof using. only_stated.
  intros. unfold ring_read, load. rewrite Z.min_l by lia. reflexivity.
Qed.

(** ** Proof automation for the tests of the C code *)

Lemma fd_state_eqb_neq (a b : fd_state) :
  fd_state_eqb a b = false <-> a <> b.
Proof using. only_stated. destruct a, b; simpl; split; congruence. Qed.

Ltac bprop :=
  repeat match goal with
  | H : andb _ _ = true |- _ => apply andb_true_iff in H; destruct H
  | H : andb _ _ = false |- _ => apply andb_false_iff in H; destruct H
  | H : orb _ _ = true |- _ => apply orb_true_iff in H; destruct H
  | H : orb _ _ = false |- _ => apply orb_false_iff in H; destruct H
  | H : negb _ = true |- _ => apply negb_true_iff in H
  | H : negb _ = false |- _ => apply negb_false_iff in H
  | H : (_ =? _) = true |- _ => apply Z.eqb_eq in H
  | H : (_ =? _) = false |- _ => apply Z.eqb_neq in H
  | H : (_ <? _) = true |- _ => apply Z.ltb_lt in H
  | H : (_ <? _) = false |- _ => apply Z.ltb_ge in H
  | H : (_ <=? _) = true |- _ => apply Z.leb_le in H
  | H : (_ <=? _) = false |- _ => apply Z.leb_gt in H
  | H : (_ >? _) = _ |- _ => rewrite Z.gtb_ltb in H
  | H : (_ >=? _) = _ |- _ => rewrite Z.geb_leb in H
  | H : suspension_eqb _ _ = true |- _ => apply suspension_eqb_eq in H
  | H : suspension_eqb _ _ = false |- _ => apply suspension_eqb_neq in H
  | H : fd_state_eqb _ _ = true |- _ => apply fd_state_eqb_eq in H
  | H : fd_state_eqb _ _ = false |- _ => apply fd_state_eqb_neq in H
  end.

(** Split on the test of the outermost conditional of the goal. *)
Ltac zcase :=
  match goal with
  | |- context [if ?c then _ else _] =>
      let E := fresh "E" in destruct c eqn:E; bprop
  end.

(** The same, for a test whose outcome follows from the hypotheses. *)
Ltac zstep :=
  zcase; try (exfalso; first [lia | congruence | contradiction | tauto]).

Ltac in_tbl :=
  unfold in_table, table_ok in *;
  repeat first [rewrite table_length_modify | rewrite table_length_emit];
  first [assumption | lia].

Lemma size_t_small x : 0 <= x < 4294967296 -> size_t x = x.
Proof using. only_stated. intros. unfold size_t. now apply Z.mod_small. Qed.

Lemma ssize_t_small x : 0 <= x < 2147483648 -> ssize_t x = x.
Proof using. only_stated.
  intros. unfold ssize_t. rewrite Z.mod_small by lia.
  destruct (Z.ltb_spec x 2147483648); lia.
Qed.

Lemma delivered_app tr1 tr2 :
  delivered (tr1 ++ tr2) = delivered tr1 ++ delivered tr2.
Proof using. only_stated. unfold delivered. apply flat_map_app. Qed.

(** ** Cancellation *)

Lemma clear_child_length (minor : Z) (idx : list Z) (st : driver) :
  zlength (uds_fd_table (fold_left (clear_child minor) idx st)) =
  zlength (uds_fd_table st).
Proof using. only_stated.
  revert st; induction idx as [|i idx IH]; intros st; simpl; [reflexivity|].
  rewrite IH. unfold clear_child.
  destruct (child (slot st i) =? minor); [apply table_length_modify|reflexivity].
Qed.

Lemma cancel_applies_dec (minor endpt id : Z) (st : driver) :
  cancel_applies minor endpt id st \/ ~ cancel_applies minor endpt id st.
Proof using. only_stated.
  unfold cancel_applies.
  destruct (Z_le_dec 0 minor); [|right; lia].
  destruct (Z_lt_dec minor NR_FDS); [|right; lia].
  destruct (state (slot st minor)) eqn:Es; [right; intuition congruence|].
  destruct (suspended (slot st minor)) eqn:Eu; [right; intuition congruence| | | |];
  (destruct (Z.eq_dec (susp_endpt (slot st minor)) endpt); [|right; tauto];
   destruct (Z.eq_dec (susp_id (slot st minor)) id); [|right; tauto];
   left; repeat split; auto; congruence).
Qed.

Lemma uds_cancel_hit (minor endpt id : Z) (st : driver) :
  table_ok st ->
  cancel_applies minor endpt id st ->
  fst (uds_cancel minor endpt id st) = EINTR /\
  suspended (slot (snd (uds_cancel minor endpt id st)) minor)
    = UDS_NOT_SUSPENDED.
Proof using. only_stated.
  intros Hlen (Hr & Hs & Hsusp & He & Hi). unfold uds_cancel.
  destruct (Z.ltb_spec minor 0); [lia|].
  destruct (Z.geb_spec minor NR_FDS); [lia|]. simpl.
  rewrite Hs. simpl.
  destruct (suspension_eqb (suspended (slot st minor)) UDS_NOT_SUSPENDED) eqn:E.
  { apply suspension_eqb_eq in E. contradiction. }
  rewrite He, Hi, !Z.eqb_refl. simpl. split; [reflexivity|].
  rewrite slot_modify_same; [reflexivity|].
  unfold in_table.
  destruct (suspended (slot st minor)); try (rewrite Hlen; lia).
  rewrite clear_child_length, Hlen. lia.
Qed.

Lemma uds_cancel_miss (minor endpt id : Z) (st : driver) :
  ~ cancel_applies minor endpt id st ->
  uds_cancel minor endpt id st = (EDONTREPLY, st).
Proof using. only_stated.
  intros Hn. unfold uds_cancel.
  destruct (Z.ltb_spec minor 0); [reflexivity|].
  destruct (Z.geb_spec minor NR_FDS); [reflexivity|]. simpl.
  destruct (state (slot st minor)) eqn:Es; [reflexivity|]. simpl.
  destruct (suspension_eqb (suspended (slot st minor)) UDS_NOT_SUSPENDED) eqn:E;
    [reflexivity|]. simpl.
  destruct (Z.eqb_spec (susp_endpt (slot st minor)) endpt); [|reflexivity].
  destruct (Z.eqb_spec (susp_id (slot st minor)) id); [|reflexivity].
  exfalso. apply Hn. unfold cancel_applies. repeat split; auto; try lia.
  now apply suspension_eqb_neq.
Qed.

(** ** Reads on an empty buffer *)

Lemma perform_read_empty_blocks unsuspend minor endpt grant len st :
  len <> 0 ->
  Z.land (mode (slot st minor)) UDS_R <> 0 ->
  size (slot st minor) = 0 ->
  read_would_block st minor ->
  uds_perform_read_body unsuspend minor endpt grant len false st
    = Ret EDONTREPLY st.
Proof using. only_stated.
  intros Hlen Hmode Hsize Hblock. unfold uds_perform_read_body.
  destruct (Z.eqb_spec len 0); [contradiction|].
  destruct (Z.eqb_spec (Z.land (mode (slot st minor)) UDS_R) 0); [contradiction|].
  rewrite Hsize. simpl.
  destruct Hblock as [(Hp & Ht1 & Ht2)|(Hp & Hw & Hs)].
  - rewrite Hp. simpl.
    destruct (Z.eqb_spec (type (slot st minor)) SOCK_STREAM); [contradiction|].
    destruct (Z.eqb_spec (type (slot st minor)) SOCK_SEQPACKET); [contradiction|].
    reflexivity.
  - destruct (Z.eqb_spec (peer (slot st minor)) (-1)); [contradiction|]. simpl.
    destruct (Z.eqb_spec (Z.land (mode (slot st (peer (slot st minor)))) UDS_W) 0);
      [contradiction|].
    apply suspension_eqb_neq in Hs. rewrite Hs. reflexivity.
Qed.

Lemma suspend_fields how endpt grant len id fd :
  suspended (suspend how endpt grant len id fd) = how /\
  susp_endpt (suspend how endpt grant len id fd) = endpt /\
  susp_grant (suspend how endpt grant len id fd) = grant /\
  susp_size (suspend how endpt grant len id fd) = len /\
  susp_id (suspend how endpt grant len id fd) = id /\
  state (suspend how endpt grant len id fd) = state fd.
Proof using. only_stated. repeat split. Qed.

(** A blocking read that has to wait records the request in the slot;
    a non-blocking one cancels the record again and reports EAGAIN. *)
Lemma uds_read_empty fuel minor position endpt grant len flags id st :
  table_ok st ->
  0 <= minor < NR_FDS ->
  state (slot st minor) = UDS_INUSE ->
  len <> 0 ->
  Z.land (mode (slot st minor)) UDS_R <> 0 ->
  size (slot st minor) = 0 ->
  read_would_block st minor ->
  exists st',
    uds_read fuel minor position endpt grant len flags id st =
      Ret (if Z.land flags CDEV_NONBLOCK =? 0 then EDONTREPLY else EAGAIN) st' /\
    (Z.land flags CDEV_NONBLOCK = 0 ->
       st' = modify minor (suspend UDS_SUSPENDED_READ endpt grant len id) st) /\
    (Z.land flags CDEV_NONBLOCK <> 0 ->
       suspended (slot st' minor) = UDS_NOT_SUSPENDED).
Proof using. only_stated.
  intros Hok Hr Hs Hlen Hmode Hsize Hblock. unfold uds_read.
  destruct (Z.ltb_spec minor 0); [lia|].
  destruct (Z.geb_spec minor NR_FDS); [lia|]. simpl.
  rewrite Hs. simpl. unfold uds_perform_read.
  rewrite perform_read_empty_blocks by assumption. simpl.
  assert (Hin : in_table st minor) by (unfold in_table; rewrite Hok; lia).
  destruct (Z.eqb_spec (Z.land flags CDEV_NONBLOCK) 0) as [Hf|Hf]; simpl.
  - eexists. split; [reflexivity|]. split; [reflexivity|]. contradiction.
  - eexists. split; [reflexivity|]. split; [contradiction|]. intros _.
    apply uds_cancel_hit.
    + unfold table_ok. now rewrite table_length_modify.
    + unfold cancel_applies. rewrite slot_modify_same by assumption.
      destruct (suspend_fields UDS_SUSPENDED_READ endpt grant len id (slot st minor))
        as (-> & -> & _ & _ & -> & ->).
      repeat split; auto; try lia. discriminate.
Qed.

(** C10.  A socket as uds_open leaves it, its type never assigned (none of
    SOCK_STREAM, SOCK_SEQPACKET, SOCK_DGRAM), no peer, empty buffer, read
    half open: a read of size > 0 does not fail with ENOTCONN.  A blocking
    read suspends the caller (EDONTREPLY, the request saved in the slot), a
    non-blocking read returns EAGAIN and leaves the slot not suspended. *)
Theorem uds_read_untyped_socket_blocks
    fuel minor position endpt grant len flags id st :
  table_ok st ->
  0 <= minor < NR_FDS ->
  state (slot st minor) = UDS_INUSE ->
  type (slot st minor) <> SOCK_STREAM ->
  type (slot st minor) <> SOCK_SEQPACKET ->
  type (slot st minor) <> SOCK_DGRAM ->
  peer (slot st minor) = -1 ->
  size (slot st minor) = 0 ->
  Z.land (mode (slot st minor)) UDS_R <> 0 ->
  0 < len ->
  exists rc st',
    uds_read fuel minor position endpt grant len flags id st = Ret rc st' /\
    rc <> ENOTCONN /\
    (Z.land flags CDEV_NONBLOCK = 0 ->
       rc = EDONTREPLY /\
       suspended (slot st' minor) = UDS_SUSPENDED_READ /\
       susp_endpt (slot st' minor) = endpt /\
       susp_grant (slot st' minor) = grant /\
       susp_size (slot st' minor) = len /\
       susp_id (slot st' minor) = id) /\
    (Z.land flags CDEV_NONBLOCK <> 0 ->
       rc = EAGAIN /\ suspended (slot st' minor) = UDS_NOT_SUSPENDED).
Proof using. only_stated.
  intros Hok Hr Hs Ht1 Ht2 _ Hp Hsize Hmode Hlen.
  destruct (uds_read_empty fuel minor position endpt grant len flags id st)
    as (st' & Hrun & Hb & Hnb); auto; try lia.
  { left. auto. }
  eexists _, st'. split; [exact Hrun|].
  assert (Hin : in_table st minor) by (unfold in_table; rewrite Hok; lia).
  destruct (Z.eqb_spec (Z.land flags CDEV_NONBLOCK) 0) as [Hf|Hf].
  - split; [discriminate|]. split; [|contradiction].
    intros _. rewrite (Hb Hf), slot_modify_same by assumption.
    destruct (suspend_fields UDS_SUSPENDED_READ endpt grant len id (slot st minor))
      as (-> & -> & -> & -> & -> & _). auto 7.
  - split; [discriminate|]. split; [contradiction|]. auto.
Qed.

(** ** The data path: one write, one read *)

(** The ring buffer is not empty and its size fits the signed return
    value of the transfer functions. *)
Hypothesis UDS_BUF_range : 0 < UDS_BUF < 2147483648.

Lemma load_prefix region n m :
  0 <= m <= n ->
  load region 0 m = firstn (Z.to_nat m) (load region 0 n).
Proof.
  intros. unfold load. simpl. rewrite firstn_firstn. f_equal. lia.
Qed.

Lemma load_suffix region n m :
  0 <= m <= n ->
  load region m (n - m) = skipn (Z.to_nat m) (load region 0 n).
Proof.
  intros. unfold load. simpl. rewrite skipn_firstn_comm. f_equal. lia.
Qed.

Lemma load_zlength region p n :
  0 <= p -> 0 <= n -> p + n <= zlength region -> zlength (load region p n) = n.
Proof. intros. unfold zlength. rewrite load_length by assumption. lia. Qed.

Lemma safecopyfrom_ok endpt grant off n region :
  umem endpt grant = Some region -> off + n <= zlength region ->
  sys_safecopyfrom endpt grant off n = (OK, load region off n).
Proof.
  intros Hm Hn. unfold sys_safecopyfrom. rewrite Hm.
  destruct (Z.leb_spec (off + n) (zlength region)); [reflexivity|lia].
Qed.

Lemma set_sel_ops_id fd : set_sel_ops (sel_ops fd) fd = fd.
Proof. destruct fd; reflexivity. Qed.

Lemma set_source_id fd : set_source (source fd) fd = fd.
Proof. destruct fd; reflexivity. Qed.

(** A select notification touches nothing but sel_ops of its slot. *)
Lemma notify_select_spec p ops st :
  in_table st p ->
  slot (notify_select p ops st) p =
    set_sel_ops (Z.land (sel_ops (slot st p)) (Z.lnot ops)) (slot st p) /\
  (forall j, j <> p -> slot (notify_select p ops st) j = slot st j) /\
  zlength (uds_fd_table (notify_select p ops st)) = zlength (uds_fd_table st) /\
  uds_exit_left (notify_select p ops st) = uds_exit_left st /\
  delivered (trace (notify_select p ops st)) = delivered (trace st).
Proof.
  intros Hin. unfold notify_select. repeat split.
  - rewrite slot_modify_same by in_tbl. reflexivity.
  - intros j Hj. rewrite slot_modify_other by auto. reflexivity.
  - in_tbl.
  - simpl. rewrite delivered_app. simpl. apply app_nil_r.
Qed.

Lemma write_advance_ok unsuspend minor p n st :
  0 <= n ->
  in_table st p ->
  suspended (slot st p) <> UDS_SUSPENDED_READ ->
  0 <= size (slot st p) ->
  size (slot st p) + n < 2147483648 ->
  exists st' ops src,
    write_advance unsuspend minor p n st = Ret n st' /\
    slot st' p =
      set_sel_ops ops (set_source src
        (set_size (size (slot st p) + n) (slot st p))) /\
    (forall j, j <> p -> slot st' j = slot st j) /\
    zlength (uds_fd_table st') = zlength (uds_fd_table st) /\
    uds_exit_left st' = uds_exit_left st /\
    delivered (trace st') = delivered (trace st).
Proof.
  intros Hn Hin Hsusp Hs0 Hs1. unfold write_advance.
  set (S3 := modify p (fun f => set_size (size_t (size f + n)) f) st).
  assert (H3 : slot S3 p = set_size (size (slot st p) + n) (slot st p)).
  { subst S3. rewrite slot_modify_same by assumption.
    rewrite size_t_small by lia. reflexivity. }
  assert (H3o : forall j, j <> p -> slot S3 j = slot st j).
  { intros j Hj. subst S3. now rewrite slot_modify_other by auto. }
  assert (H3l : zlength (uds_fd_table S3) = zlength (uds_fd_table st))
    by (subst S3; in_tbl).
  set (S4 := if type (slot S3 minor) =? SOCK_DGRAM
             then modify p (set_source (addr (slot S3 minor))) S3 else S3).
  assert (H4 : exists src, slot S4 p = set_source src (slot S3 p) /\
             (forall j, j <> p -> slot S4 j = slot st j) /\
             zlength (uds_fd_table S4) = zlength (uds_fd_table st) /\
             uds_exit_left S4 = uds_exit_left st /\ trace S4 = trace st).
  { subst S4. destruct (type (slot S3 minor) =? SOCK_DGRAM).
    - eexists. split; [apply slot_modify_same; in_tbl|].
      split; [|split; [in_tbl|split; reflexivity]].
      intros j Hj. rewrite slot_modify_other by auto. auto.
    - exists (source (slot S3 p)). rewrite set_source_id. auto. }
  clearbody S4. destruct H4 as (src & H4 & H4o & H4l & H4e & H4t).
  assert (Hs4 : suspension_eqb (suspended (slot S4 p)) UDS_SUSPENDED_READ = false).
  { apply suspension_eqb_neq. rewrite H4, H3. exact Hsusp. }
  rewrite Hs4. simpl bind. rewrite ssize_t_small by lia.
  assert (Hin4 : in_table S4 p) by in_tbl.
  destruct (notify_select_spec p CDEV_OP_RD S4 Hin4) as (N1 & N2 & N3 & N4 & N5).
  destruct (negb (Z.land (sel_ops (slot S4 p)) CDEV_OP_RD =? 0)
            && (size (slot S4 p) >? 0)).
  - eexists _, _, src. split; [reflexivity|].
    rewrite N1, N3, N4, N5, H4, H3, H4l, H4e, H4t.
    repeat split; auto. intros j Hj. rewrite N2 by auto. auto.
  - exists S4, (sel_ops (slot S4 p)), src. split; [reflexivity|].
    rewrite <- H3, <- H4, set_sel_ops_id, H4l, H4e, H4t. auto.
Qed.

Lemma write_deposit_ok unsuspend minor p endpt grant n st region :
  0 < n ->
  in_table st p ->
  ring_ok (slot st p) ->
  size (slot st p) + n <= UDS_BUF ->
  suspended (slot st p) <> UDS_SUSPENDED_READ ->
  umem endpt grant = Some region ->
  n <= zlength region ->
  let data := load region 0 n in
  let fd := slot st p in
  exists st' ops src,
    write_deposit unsuspend minor p endpt grant n st = Ret n st' /\
    slot st' p =
      set_sel_ops ops (set_source src
        (set_size (size fd + n)
           (set_buf (ring_write (buf fd) ((pos fd + size fd) mod UDS_BUF) data)
              fd))) /\
    (forall j, j <> p -> slot st' j = slot st j) /\
    zlength (uds_fd_table st') = zlength (uds_fd_table st) /\
    uds_exit_left st' = uds_exit_left st /\
    delivered (trace st') = delivered (trace st).
Proof.
  intros Hn Hin (Hb & Hpos & Hsz) Hfit Hsusp Hmem Hreg data fd.
  unfold write_deposit.
  assert (Hw : 0 <= (pos fd + size fd) mod UDS_BUF < UDS_BUF)
    by (apply Z.mod_pos_bound; lia).
  fold fd. rewrite (size_t_small (pos fd + size fd)) by (subst fd; lia).
  set (w := (pos fd + size fd) mod UDS_BUF) in *.
  rewrite (size_t_small (UDS_BUF - w)) by lia.
  set (sub := if UDS_BUF - w >? n then n else UDS_BUF - w).
  assert (Hsub : sub = Z.min n (UDS_BUF - w)).
  { subst sub. rewrite Z.gtb_ltb. destruct (Z.ltb_spec n (UDS_BUF - w)); lia. }
  rewrite (safecopyfrom_ok _ _ _ _ region) by (assumption || lia).
  simpl negb. cbv iota.
  set (S1 := modify p (fun f => set_buf (store (buf f) w (load region 0 sub)) f) st).
  assert (Hdata : zlength data = n) by (apply load_zlength; lia).
  assert (Hfst : firstn (Z.to_nat (Z.min (zlength data) (UDS_BUF - w))) data
                 = load region 0 sub).
  { rewrite Hdata, <- Hsub. symmetry. apply load_prefix. lia. }
  assert (Hsnd : skipn (Z.to_nat (Z.min (zlength data) (UDS_BUF - w))) data
                 = load region sub (n - sub)).
  { rewrite Hdata, <- Hsub. symmetry. apply load_suffix. lia. }
  assert (HS2 : exists S2,
    (let '(r, seg2) :=
       if sub <? n then sys_safecopyfrom endpt grant sub (n - sub)
       else (OK, []) in
     if negb (r =? OK) then Ret r S1
     else write_advance unsuspend minor p n
            (if sub <? n
             then modify p (fun f => set_buf (store (buf f) 0 seg2) f) S1
             else S1)) = write_advance unsuspend minor p n S2 /\
    slot S2 p = set_buf (ring_write (buf fd) w data) fd /\
    (forall j, j <> p -> slot S2 j = slot st j) /\
    zlength (uds_fd_table S2) = zlength (uds_fd_table st) /\
    uds_exit_left S2 = uds_exit_left st /\ trace S2 = trace st).
  { destruct (Z.ltb_spec sub n).
    - rewrite (safecopyfrom_ok _ _ _ _ region) by (assumption || lia).
      eexists. split; [reflexivity|]. subst S1.
      split; [|split; [|split; [|split]]]; try reflexivity.
      + rewrite !slot_modify_same by in_tbl. unfold ring_write.
        rewrite Hfst, Hsnd. reflexivity.
      + intros j Hj. rewrite !slot_modify_other by auto. reflexivity.
      + in_tbl.
    - eexists. split; [reflexivity|]. subst S1.
      split; [|split; [|split; [|split]]]; try reflexivity.
      + rewrite !slot_modify_same by in_tbl. unfold ring_write.
        rewrite Hfst, Hsnd. replace (n - sub) with 0 by lia. reflexivity.
      + intros j Hj. rewrite !slot_modify_other by auto. reflexivity.
      + in_tbl. }
  destruct HS2 as (S2 & -> & Hp2 & Ho2 & Hl2 & He2 & Ht2).
  destruct (write_advance_ok unsuspend minor p n S2)
    as (st' & ops & src & Hrun & Hp & Ho & Hl & He & Ht);
    try (rewrite Hp2; simpl; subst fd; first [assumption | lia]); try lia.
  { in_tbl. }
  exists st', ops, src. split; [exact Hrun|].
  rewrite Hp, Hp2, Hl, He, Ht, Hl2, He2, Ht2. simpl.
  repeat split; auto. intros j Hj. rewrite Ho by auto. auto.
Qed.

Lemma safecopyto_ok endpt grant off data region st :
  umem endpt grant = Some region -> off + zlength data <= zlength region ->
  sys_safecopyto endpt grant off data st =
    (OK, emit (EvCopyTo endpt grant off data) st).
Proof.
  intros Hm Hn. unfold sys_safecopyto. rewrite Hm.
  destruct (Z.leb_spec (off + zlength data) (zlength region)); [reflexivity|lia].
Qed.

Lemma read_advance_ok unsuspend minor p rpos n st :
  0 <= n <= size (slot st minor) ->
  size (slot st minor) <= UDS_BUF ->
  0 <= rpos < UDS_BUF ->
  in_table st minor ->
  (p = -1 \/ suspended (slot st p) <> UDS_SUSPENDED_WRITE) ->
  let fd := slot st minor in
  let pos' := if size fd - n =? 0 then 0 else (rpos + n) mod UDS_BUF in
  exists st',
    read_advance unsuspend minor p rpos n st = Ret n st' /\
    (exists ops, slot st' minor =
       set_sel_ops ops (set_pos pos' (set_size (size fd - n) fd))) /\
    (forall j, j <> minor -> exists ops, slot st' j = set_sel_ops ops (slot st j)) /\
    zlength (uds_fd_table st') = zlength (uds_fd_table st) /\
    uds_exit_left st' = uds_exit_left st /\
    delivered (trace st') = delivered (trace st).
Proof.
  intros Hn Hsz Hpos Hin Hsusp fd pos'. unfold read_advance.
  set (S3 := modify minor _ st).
  assert (H3 : slot S3 minor =
               set_size (size fd - n) (set_pos ((rpos + n) mod UDS_BUF) fd)).
  { subst S3. rewrite slot_modify_same by assumption. fold fd.
    rewrite !size_t_small by (subst fd; lia). reflexivity. }
  assert (H3o : forall j, j <> minor -> slot S3 j = slot st j).
  { intros j Hj. subst S3. now rewrite slot_modify_other by auto. }
  assert (H3l : zlength (uds_fd_table S3) = zlength (uds_fd_table st))
    by (subst S3; in_tbl).
  assert (H3e : uds_exit_left S3 = uds_exit_left st) by reflexivity.
  assert (H3t : trace S3 = trace st) by reflexivity.
  clearbody S3.
  set (S4 := if size (slot S3 minor) =? 0 then modify minor (set_pos 0) S3 else S3).
  assert (H4 : slot S4 minor = set_pos pos' (set_size (size fd - n) fd) /\
               (forall j, j <> minor -> slot S4 j = slot st j) /\
               zlength (uds_fd_table S4) = zlength (uds_fd_table st) /\
               uds_exit_left S4 = uds_exit_left st /\ trace S4 = trace st).
  { subst S4 pos'. rewrite H3. simpl size.
    destruct (size fd - n =? 0).
    - split; [rewrite slot_modify_same by in_tbl; rewrite H3; reflexivity|].
      split; [|split; [in_tbl|split; assumption]].
      intros j Hj. rewrite slot_modify_other by auto. auto.
    - rewrite H3. auto. }
  clearbody S4. destruct H4 as (H4 & H4o & H4l & H4e & H4t).
  assert (Hs4 : negb (p =? -1)
                && suspension_eqb (suspended (slot S4 p)) UDS_SUSPENDED_WRITE
                = false).
  { destruct (Z.eqb_spec p (-1)); [reflexivity|]. simpl.
    apply suspension_eqb_neq. destruct Hsusp as [?|Hsusp]; [contradiction|].
    destruct (Z.eq_dec p minor) as [->|Hne].
    - rewrite H4. exact Hsusp.
    - rewrite H4o by auto. exact Hsusp. }
  rewrite Hs4. simpl bind. rewrite ssize_t_small by lia.
  destruct (negb (p =? -1)
            && negb (Z.land (sel_ops (slot S4 p)) CDEV_OP_WR =? 0)
            && (size (slot S4 minor) <? UDS_BUF)) eqn:Esel.
  - eexists. split; [reflexivity|].
    unfold notify_select.
    split; [|split; [|split; [in_tbl|split; [assumption|]]]].
    + rewrite slot_modify, slot_emit.
      destruct ((p =? minor) && (0 <=? minor)
                && (minor <? zlength (uds_fd_table (emit _ S4)))).
      * eexists. rewrite H4. reflexivity.
      * exists (sel_ops (set_pos pos' (set_size (size fd - n) fd))).
        rewrite set_sel_ops_id. exact H4.
    + intros j Hj. rewrite slot_modify, slot_emit.
      destruct ((p =? j) && (0 <=? j)
                && (j <? zlength (uds_fd_table (emit _ S4)))).
      * eexists. rewrite H4o by auto. reflexivity.
      * exists (sel_ops (slot st j)). rewrite set_sel_ops_id. auto.
    + simpl. rewrite delivered_app, H4t. simpl. apply app_nil_r.
  - exists S4. split; [reflexivity|].
    split; [|split; [|split; [assumption|split; [assumption|now rewrite H4t]]]].
    + exists (sel_ops (set_pos pos' (set_size (size fd - n) fd))).
        rewrite set_sel_ops_id. exact H4.
    + intros j Hj. exists (sel_ops (slot st j)).
      rewrite set_sel_ops_id. auto.
Qed.

Lemma read_take_ok unsuspend minor p endpt grant n st region :
  0 < n <= size (slot st minor) ->
  ring_ok (slot st minor) ->
  in_table st minor ->
  (p = -1 \/ suspended (slot st p) <> UDS_SUSPENDED_WRITE) ->
  umem endpt grant = Some region ->
  n <= zlength region ->
  let fd := slot st minor in
  let pos' := if size fd - n =? 0 then 0 else (pos fd + n) mod UDS_BUF in
  exists st',
    read_take unsuspend minor p endpt grant n st = Ret n st' /\
    (exists ops, slot st' minor =
       set_sel_ops ops (set_pos pos' (set_size (size fd - n) fd))) /\
    (forall j, j <> minor -> exists ops, slot st' j = set_sel_ops ops (slot st j)) /\
    zlength (uds_fd_table st') = zlength (uds_fd_table st) /\
    uds_exit_left st' = uds_exit_left st /\
    delivered (trace st') =
      delivered (trace st) ++ ring_read (buf fd) (pos fd) n.
Proof.
  intros Hn (Hb & Hpos & Hsz) Hin Hsusp Hmem Hreg fd pos'.
  unfold read_take. fold fd.
  rewrite (size_t_small (UDS_BUF - pos fd)) by (subst fd; lia).
  set (sub := if UDS_BUF - pos fd >? n then n else UDS_BUF - pos fd).
  assert (Hsub : sub = Z.min n (UDS_BUF - pos fd)).
  { subst sub. rewrite Z.gtb_ltb.
    destruct (Z.ltb_spec n (UDS_BUF - pos fd)); lia. }
  assert (Hl1 : zlength (load (buf fd) (pos fd) sub) = sub)
    by (apply load_zlength; subst fd; lia).
  rewrite (safecopyto_ok _ _ _ _ region) by (assumption || lia).
  simpl negb. cbv iota.
  set (S1 := emit _ st).
  assert (HS2 : exists S2,
    (let '(r, st2) :=
       if sub <? n
       then sys_safecopyto endpt grant sub (load (buf fd) 0 (n - sub)) S1
       else (OK, S1) in
     if negb (r =? OK) then Ret r st2
     else read_advance unsuspend minor p (pos fd) n st2)
    = read_advance unsuspend minor p (pos fd) n S2 /\
    uds_fd_table S2 = uds_fd_table st /\
    uds_exit_left S2 = uds_exit_left st /\
    delivered (trace S2) = delivered (trace st) ++ ring_read (buf fd) (pos fd) n).
  { unfold ring_read. rewrite <- Hsub.
    destruct (Z.ltb_spec sub n).
    - assert (Hl2 : zlength (load (buf fd) 0 (n - sub)) = n - sub)
        by (apply load_zlength; subst fd; lia).
      rewrite (safecopyto_ok _ _ _ _ region) by (assumption || lia).
      eexists. split; [reflexivity|]. split; [reflexivity|].
      split; [reflexivity|]. simpl. rewrite !delivered_app. simpl.
      rewrite !app_nil_r, app_assoc. reflexivity.
    - exists S1. split; [reflexivity|]. split; [reflexivity|].
      split; [reflexivity|]. simpl. rewrite delivered_app. simpl.
      replace (n - sub) with 0 by lia.
      change (load (buf fd) 0 0) with (@nil byte).
      rewrite !app_nil_r. reflexivity. }
  destruct HS2 as (S2 & -> & Ht2 & He2 & Hd2).
  assert (Hslot : forall j, slot S2 j = slot st j)
    by (intros j; unfold slot; now rewrite Ht2).
  destruct (read_advance_ok unsuspend minor p (pos fd) n S2)
    as (st' & Hrun & Hm & Ho & Hl & He & Ht);
    rewrite ?Hslot; subst fd; try assumption; try lia.
  { unfold in_table. rewrite Ht2. exact Hin. }
  exists st'. split; [exact Hrun|].
  rewrite Hslot in Hm. split; [exact Hm|].
  split; [intros j Hj; rewrite <- Hslot; auto|].
  rewrite Hl, He, Ht, Ht2, He2, Hd2. auto.
Qed.

(** ** A connected pair: writes append to the queue, reads take from it *)

Lemma ring_length fd :
  ring_ok fd -> length (ring fd) = Z.to_nat (size fd).
Proof.
  intros (Hb & Hp & Hs). unfold ring. apply ring_read_length; assumption.
Qed.

Lemma write_peer_linked st a b :
  linked st a b ->
  type (slot st a) = SOCK_STREAM \/ type (slot st a) = SOCK_SEQPACKET ->
  write_peer a false st = inr b.
Proof.
  intros (Hok & Ha & Hb & Hab & Hsa & Hsb & Hpa & Hpb & _) Hty.
  unfold write_peer. rewrite Hpa, Hpb.
  assert (E : (type (slot st a) =? SOCK_STREAM)
              || (type (slot st a) =? SOCK_SEQPACKET) = true).
  { destruct Hty as [-> | ->]; reflexivity. }
  rewrite E. clear E. zstep. zstep. reflexivity.
Qed.

Lemma uds_write_linked fuel a b position endpt grant len flags id st region :
  linked st a b ->
  type (slot st a) = SOCK_STREAM \/
  (type (slot st a) = SOCK_SEQPACKET /\ size (slot st b) = 0) ->
  0 <= len ->
  size (slot st b) + len <= UDS_BUF ->
  umem endpt grant = Some region ->
  len <= zlength region ->
  exists st',
    uds_write fuel a position endpt grant len flags id st = Ret len st' /\
    linked st' a b /\
    type (slot st' a) = type (slot st a) /\
    ring (slot st' b) = ring (slot st b) ++ load region 0 len /\
    size (slot st' b) = size (slot st b) + len /\
    pos (slot st' b) = pos (slot st b) /\
    delivered (trace st') = delivered (trace st).
Proof.
  intros Hl Hty Hlen Hfit Hmem Hreg.
  pose proof Hl as (Hok & Ha & Hb & Hab & Hsa & Hsb & Hpa & Hpb & Hma & Hmb
                    & Hua & Hub & Hring).
  pose proof Hring as (Hbuf & Hpos & Hsz).
  unfold uds_write.
  destruct (Z.ltb_spec a 0); [lia|]. destruct (Z.geb_spec a NR_FDS); [lia|].
  simpl orb. cbv iota. rewrite Hsa. simpl negb. cbv iota.
  unfold uds_perform_write, uds_perform_write_body.
  destruct (Z.eqb_spec len 0) as [->|Hne].
  { simpl. exists st. split; [reflexivity|]. split; [assumption|].
    change (load region 0 0) with (@nil byte). rewrite app_nil_r.
    repeat split; auto; lia. }
  zstep.
  assert (E1 : (len >? UDS_BUF) = false) by (rewrite Z.gtb_ltb; apply Z.ltb_ge; lia).
  rewrite E1. simpl andb. cbv iota.
  rewrite (write_peer_linked st a b) by tauto.
  zstep.
  assert (E2 : (type (slot st a) =? SOCK_DGRAM) = false).
  { destruct Hty as [-> | [-> _]]; reflexivity. }
  rewrite E2. simpl andb. cbv iota.
  assert (E3 : (size (slot st b) =? UDS_BUF)
               || (type (slot st a) =? SOCK_SEQPACKET) && (size (slot st b) >? 0)
               = false).
  { apply orb_false_iff. split; [apply Z.eqb_neq; lia|].
    destruct Hty as [-> | [-> ->]]; reflexivity. }
  rewrite E3. rewrite size_t_small by lia.
  assert (E4 : (len >? UDS_BUF - size (slot st b)) = false)
    by (rewrite Z.gtb_ltb; apply Z.ltb_ge; lia).
  rewrite E4.
  destruct (write_deposit_ok (uds_unsuspend fuel) a b endpt grant len st region)
    as (st' & ops & src & Hrun & Hp & Ho & Hlen' & He & Ht);
    try assumption; try lia.
  { in_tbl. }
  rewrite Hrun. simpl bind.
  destruct (Z.eqb_spec len EDONTREPLY); [unfold EDONTREPLY in *; lia|].
  exists st'. split; [reflexivity|].
  assert (Hsa' : slot st' a = slot st a) by (apply Ho; auto).
  assert (Hring' : ring (slot st' b) = ring (slot st b) ++ load region 0 len).
  { rewrite Hp. unfold ring. simpl.
    rewrite <- ring_append by
      (try assumption; try lia; rewrite load_zlength; lia).
    rewrite load_zlength by lia. reflexivity. }
  split; [|split; [now rewrite Hsa'|split; [exact Hring'|]];
            rewrite Hp; simpl; auto].
  unfold linked, ring_ok. rewrite Hsa', Hp. simpl.
  repeat split; auto; try lia; try in_tbl.
  unfold zlength. rewrite ring_write_length; try assumption.
  - apply Z.mod_pos_bound. lia.
  - rewrite load_zlength; lia.
Qed.

Lemma uds_read_linked fuel a b position endpt grant len flags id st region :
  linked st a b ->
  0 <= len <= size (slot st b) ->
  umem endpt grant = Some region ->
  len <= zlength region ->
  exists st',
    uds_read fuel b position endpt grant len flags id st = Ret len st' /\
    linked st' a b /\
    type (slot st' a) = type (slot st a) /\
    ring (slot st' b) = skipn (Z.to_nat len) (ring (slot st b)) /\
    size (slot st' b) = size (slot st b) - len /\
    (0 < len ->
     pos (slot st' b) =
       (if size (slot st b) - len =? 0 then 0
        else (pos (slot st b) + len) mod UDS_BUF)) /\
    delivered (trace st') =
      delivered (trace st) ++ firstn (Z.to_nat len) (ring (slot st b)).
Proof.
  intros Hl Hlen Hmem Hreg.
  pose proof Hl as (Hok & Ha & Hb & Hab & Hsa & Hsb & Hpa & Hpb & Hma & Hmb
                    & Hua & Hub & Hring).
  pose proof Hring as (Hbuf & Hpos & Hsz).
  unfold uds_read.
  destruct (Z.ltb_spec b 0); [lia|]. destruct (Z.geb_spec b NR_FDS); [lia|].
  simpl orb. cbv iota. rewrite Hsb. simpl negb. cbv iota.
  unfold uds_perform_read, uds_perform_read_body.
  destruct (Z.eqb_spec len 0) as [->|Hne].
  { simpl. exists st. split; [reflexivity|]. split; [assumption|].
    rewrite app_nil_r, Z.sub_0_r. repeat split; auto. lia. }
  zstep.
  destruct (Z.eqb_spec (size (slot st b)) 0); [lia|].
  assert (E1 : (len >? size (slot st b)) = false)
    by (rewrite Z.gtb_ltb; apply Z.ltb_ge; lia).
  rewrite E1. rewrite Hpb.
  destruct (read_take_ok (uds_unsuspend fuel) b a endpt grant len st region)
    as (st' & Hrun & (ops & Hp) & Ho & Hlen' & He & Ht);
    try assumption; try lia.
  { in_tbl. }
  { right. assumption. }
  rewrite Hrun. simpl bind.
  destruct (Z.eqb_spec len EDONTREPLY); [unfold EDONTREPLY in *; lia|].
  exists st'. split; [reflexivity|].
  destruct (Ho a Hab) as (opsa & Hsa').
  split; [|rewrite Hsa', Hp, Ht; simpl].
  - unfold linked, ring_ok. rewrite Hsa', Hp. simpl.
    repeat split; auto; try lia; try in_tbl.
    + destruct (size (slot st b) - len =? 0); [lia|].
      apply Z.mod_pos_bound; lia.
    + destruct (size (slot st b) - len =? 0); [lia|].
      apply Z.mod_pos_bound; lia.
  - split; [reflexivity|]. split.
    + unfold ring. simpl.
      destruct (Z.eqb_spec (size (slot st b) - len) 0) as [Ez|Ez].
      * rewrite Ez. rewrite ring_read_nil by lia.
        rewrite skipn_all2; [reflexivity|].
        rewrite ring_read_length by assumption. lia.
      * apply ring_drop; try assumption; lia.
    + split; [reflexivity|]. split; [intros _; reflexivity|].
      f_equal. apply ring_take; try assumption; lia.
Qed.

(** ** Sequences of writes and reads on a connected pair *)









(** C1 (amended).  A connected SOCK_SEQPACKET pair with writer a and
    reader b, the buffer of b empty: after a write of m <= UDS_BUF bytes
    on a, a read on b that asks for r bytes, 0 < r < m, returns r, the
    first r bytes of the message; the other m - r bytes stay in the
    buffer of b, whose size is m - r after the read. *)
Theorem seqpacket_short_read_keeps_rest
    fuel a b e1 g1 f1 id1 e2 g2 f2 id2 m r st msg region :
  linked st a b ->
  type (slot st a) = SOCK_SEQPACKET ->
  size (slot st b) = 0 ->
  0 < r < m -> m <= UDS_BUF ->
  umem e1 g1 = Some msg -> m <= zlength msg ->
  umem e2 g2 = Some region -> r <= zlength region ->
  exists st1 st2,
    uds_write fuel a 0 e1 g1 m f1 id1 st = Ret m st1 /\
    uds_read fuel b 0 e2 g2 r f2 id2 st1 = Ret r st2 /\
    size (slot st2 b) = m - r /\
    ring (slot st2 b) = skipn (Z.to_nat r) (load msg 0 m) /\
    delivered (trace st2) =
      delivered (trace st) ++ firstn (Z.to_nat r) (load msg 0 m).
Proof.
  intros Hl Hty Hempty Hr Hm Hmsg Hmlen Hreg Hrlen.
  destruct (uds_write_linked fuel a b 0 e1 g1 m f1 id1 st msg)
    as (st1 & Hrun1 & Hl1 & _ & Hring1 & Hsz1 & _ & Hd1);
    try assumption; try lia; try (right; auto; fail).
  destruct (uds_read_linked fuel a b 0 e2 g2 r f2 id2 st1 region)
    as (st2 & Hrun2 & _ & _ & Hring2 & Hsz2 & _ & Hd2);
    try assumption; try lia.
  exists st1, st2. split; [assumption|]. split; [assumption|].
  assert (Hnil : ring (slot st b) = []).
  { apply length_zero_iff_nil. rewrite ring_length, Hempty by apply Hl.
    reflexivity. }
  rewrite Hring2, Hd2, Hring1, Hd1, Hnil. simpl. split; [lia|auto].
Qed.

(** ** Datagrams to a receiver that still holds a message *)

(** C6 (amended).  A SOCK_DGRAM socket with its write half open writes
    0 < len <= UDS_BUF bytes, its target address resolves to the receiver
    d, the read half of d is open and the buffer of d is not empty: the
    write returns len and the state of the driver, that of d included, is
    the one before the call. *)
Theorem dgram_write_dropped fuel minor position endpt grant len flags id d st :
  0 <= minor < NR_FDS ->
  state (slot st minor) = UDS_INUSE ->
  type (slot st minor) = SOCK_DGRAM ->
  0 < len <= UDS_BUF ->
  Z.land (mode (slot st minor)) UDS_W <> 0 ->
  locate_peer (uds_fd_table st) minor = Some d ->
  Z.land (mode (slot st d)) UDS_R <> 0 ->
  0 < size (slot st d) ->
  uds_write fuel minor position endpt grant len flags id st = Ret len st.
Proof.
  intros Hr Hs Hty Hlen Hw Hd Hdr Hsz. unfold uds_write.
  destruct (Z.ltb_spec minor 0); [lia|].
  destruct (Z.geb_spec minor NR_FDS); [lia|].
  simpl orb. cbv iota. rewrite Hs. simpl negb. cbv iota.
  unfold uds_perform_write, uds_perform_write_body, write_peer.
  rewrite Hty, Hd.
  change ((SOCK_DGRAM =? SOCK_STREAM) || (SOCK_DGRAM =? SOCK_SEQPACKET))
    with false.
  change (SOCK_DGRAM =? SOCK_DGRAM) with true.
  change (negb (SOCK_DGRAM =? SOCK_STREAM)) with true.
  cbv iota.
  zstep. zstep.
  assert (Ele : (len >? UDS_BUF) = false)
    by (rewrite Z.gtb_ltb; apply Z.ltb_ge; lia).
  rewrite Ele. clear Ele. simpl andb. cbv iota. zstep.
  assert (Egt : (size (slot st d) >? 0) = true)
    by (rewrite Z.gtb_ltb; apply Z.ltb_lt; lia).
  rewrite Egt. simpl andb. cbv iota.
  rewrite ssize_t_small by lia. simpl bind.
  destruct (Z.eqb_spec len EDONTREPLY); [unfold EDONTREPLY in *; lia|].
  reflexivity.
Qed.

(** ** Closing one end of a connection *)

Lemma uds_reset_idle fuel minor st :
  in_table st minor ->
  suspended (slot st minor) = UDS_NOT_SUSPENDED ->
  exists st' ops,
    uds_reset fuel minor st = Ret tt st' /\
    slot st' minor =
      set_sel_ops ops (set_err ECONNRESET (set_peer (-1) (slot st minor))) /\
    (forall j, j <> minor -> slot st' j = slot st j) /\
    zlength (uds_fd_table st') = zlength (uds_fd_table st).
Proof.
  intros Hin Hs. unfold uds_reset.
  set (S2 := modify minor (set_err ECONNRESET) (modify minor (set_peer (-1)) st)).
  assert (H2 : slot S2 minor = set_err ECONNRESET (set_peer (-1) (slot st minor)))
    by (subst S2; rewrite !slot_modify_same by in_tbl; reflexivity).
  assert (H2o : forall j, j <> minor -> slot S2 j = slot st j)
    by (intros j Hj; subst S2; rewrite !slot_modify_other by auto; reflexivity).
  assert (H2l : zlength (uds_fd_table S2) = zlength (uds_fd_table st))
    by (subst S2; in_tbl).
  clearbody S2. rewrite H2. simpl suspended. rewrite Hs. simpl.
  rewrite !H2. simpl sel_ops. simpl sel_endpt.
  destruct (sel_ops (slot st minor) =? 0); simpl.
  - exists S2, (sel_ops (set_err ECONNRESET (set_peer (-1) (slot st minor)))).
    rewrite set_sel_ops_id. repeat split; assumption.
  - eexists _, _. split; [reflexivity|].
    split; [rewrite slot_modify_same by in_tbl; rewrite slot_emit, H2;
            reflexivity|].
    split; [|in_tbl].
    intros j Hj. rewrite slot_modify_other by auto. rewrite slot_emit. auto.
Qed.

(** C5 (amended).  A connected SOCK_STREAM pair a-b, the buffer of a empty,
    the read half of a open and no request suspended on a: uds_close(b)
    returns OK, the next read of size > 0 on a returns ECONNRESET and
    clears the pending error, and a second such read returns ENOTCONN. *)
Theorem close_resets_peer
    fuel a b pos1 e1 g1 len1 f1 id1 pos2 e2 g2 len2 f2 id2 st :
  table_ok st ->
  0 <= a < NR_FDS -> 0 <= b < NR_FDS -> a <> b ->
  state (slot st a) = UDS_INUSE -> state (slot st b) = UDS_INUSE ->
  peer (slot st a) = b -> peer (slot st b) = a ->
  type (slot st a) = SOCK_STREAM -> type (slot st b) = SOCK_STREAM ->
  size (slot st a) = 0 ->
  Z.land (mode (slot st a)) UDS_R <> 0 ->
  suspended (slot st a) = UDS_NOT_SUSPENDED ->
  0 < len1 -> 0 < len2 ->
  exists st1 st2 st3,
    uds_close fuel b st = Ret OK st1 /\
    uds_read fuel a pos1 e1 g1 len1 f1 id1 st1 = Ret ECONNRESET st2 /\
    err (slot st2 a) = 0 /\
    uds_read fuel a pos2 e2 g2 len2 f2 id2 st2 = Ret ENOTCONN st3.
Proof.
  intros Hok Ha Hb Hab Hsa Hsb Hpa Hpb Hta Htb Hsz Hm Hsusp Hl1 Hl2.
  assert (Hina : in_table st a) by in_tbl.
  destruct (uds_reset_idle fuel a st Hina Hsusp)
    as (S1 & ops & Hreset & H1a & H1o & H1l).
  assert (Hclose : exists st1,
            uds_close fuel b st = Ret OK st1 /\
            slot st1 a = slot S1 a /\
            zlength (uds_fd_table st1) = zlength (uds_fd_table st)).
  { unfold uds_close.
    destruct (Z.ltb_spec b 0); [lia|]. destruct (Z.geb_spec b NR_FDS); [lia|].
    simpl orb. cbv iota. rewrite Hsb. simpl negb. cbv iota.
    rewrite Hpb, Hpa.
    destruct (Z.eqb_spec a (-1)); [lia|].
    destruct (Z.eqb_spec b (-1)); [lia|].
    simpl. rewrite Hreset. simpl bind.
    eexists. split; [reflexivity|].
    repeat match goal with
           | |- context [if ?c then _ else _] => destruct c
           end; unfold slot; simpl; rewrite fd_at_update;
      (destruct (Z.eqb_spec b a); [congruence|]); simpl;
      (split; [reflexivity|]); unfold zlength in *;
      rewrite fd_update_length; exact H1l. }
  destruct Hclose as (st1 & Hclose & H1 & Hlen1).
  rewrite H1a in H1.
  assert (Hread1 : uds_read fuel a pos1 e1 g1 len1 f1 id1 st1
                   = Ret ECONNRESET (modify a (set_err 0) st1)).
  { unfold uds_read.
    destruct (Z.ltb_spec a 0); [lia|]. destruct (Z.geb_spec a NR_FDS); [lia|].
    simpl orb. cbv iota. rewrite H1. simpl state. rewrite Hsa.
    simpl negb. cbv iota.
    unfold uds_perform_read, uds_perform_read_body. rewrite H1. simpl.
    rewrite Hsz, Hta. zstep. zstep. reflexivity. }
  assert (H2 : slot (modify a (set_err 0) st1) a = set_err 0 (slot st1 a))
    by (apply slot_modify_same; in_tbl).
  rewrite H1 in H2.
  exists st1, (modify a (set_err 0) st1).
  eexists. split; [exact Hclose|]. split; [exact Hread1|].
  split; [rewrite H2; reflexivity|].
  unfold uds_read.
  destruct (Z.ltb_spec a 0); [lia|]. destruct (Z.geb_spec a NR_FDS); [lia|].
  simpl orb. cbv iota. rewrite H2. simpl state. rewrite Hsa.
  simpl negb. cbv iota.
  unfold uds_perform_read, uds_perform_read_body. rewrite H2. simpl.
  rewrite Hsz, Hta. zstep. zstep. reflexivity.
Qed.

(** ** Where a write puts its bytes *)

Lemma find_map_seq {A : Type} (f : A -> bool) (g : nat -> A) n : forall s x,
  find f (map g (seq s n)) = Some x ->
  exists k, (s <= k < s + n)%nat /\ x = g k /\ f x = true /\
            forall j, (s <= j < k)%nat -> f (g j) = false.
Proof.
  induction n as [|n IH]; intros s x H; simpl in H; [discriminate|].
  destruct (f (g s)) eqn:E.
  - inversion H; subst. exists s. repeat split; auto; lia.
  - destruct (IH _ _ H) as (k & Hk & Hx & Hf & Hj).
    exists k. repeat split; auto; try lia.
    intros j Hjk. destruct (Nat.eq_dec j s) as [->|Hne]; [assumption|].
    apply Hj. lia.
Qed.

(** The loop of uds_perform_write that locates the receiver of a datagram
    stops at the first slot that is a SOCK_DGRAM socket bound, in the
    AF_UNIX family, on the target path of the sender. *)
Lemma locate_peer_first tbl minor d :
  locate_peer tbl minor = Some d ->
  0 <= d < NR_FDS /\
  dgram_bound_on tbl minor d = true /\
  forall i, 0 <= i < d -> dgram_bound_on tbl minor i = false.
Proof.
  unfold locate_peer, zrange. intros H.
  apply find_map_seq in H. destruct H as (k & Hk & -> & Hf & Hj).
  split; [lia|]. split; [assumption|].
  intros i Hi. replace i with (0 + Z.of_nat (Z.to_nat i)) by lia.
  apply Hj. lia.
Qed.

Lemma slot_modify_cases i f st j :
  (i = j /\ slot (modify i f st) j = f (slot st j)) \/
  slot (modify i f st) j = slot st j.
Proof.
  rewrite slot_modify. destruct (Z.eqb_spec i j); simpl; [|now right].
  destruct ((0 <=? j) && (j <? zlength (uds_fd_table st))); auto.
Qed.

Lemma write_advance_frame unsuspend minor p n st r st' :
  write_advance unsuspend minor p n st = Ret r st' ->
  suspended (slot st p) <> UDS_SUSPENDED_READ ->
  forall j, j <> p -> slot st' j = slot st j.
Proof.
  unfold write_advance. intros Hrun Hsusp j Hj.
  set (S3 := modify p _ st) in Hrun.
  assert (H3 : suspended (slot S3 p) = suspended (slot st p) /\
               slot S3 j = slot st j).
  { subst S3. split; [|now apply slot_modify_other].
    destruct (slot_modify_cases p (fun f => set_size (size_t (size f + n)) f)
                st p) as [[_ ->]| ->]; reflexivity. }
  clearbody S3. destruct H3 as (H3s & H3j).
  set (S4 := if type (slot S3 minor) =? SOCK_DGRAM then _ else S3) in Hrun.
  assert (H4 : suspended (slot S4 p) = suspended (slot st p) /\
               slot S4 j = slot st j).
  { subst S4. destruct (type (slot S3 minor) =? SOCK_DGRAM); [|auto].
    split; [|now rewrite slot_modify_other].
    destruct (slot_modify_cases p (set_source (addr (slot S3 minor))) S3 p)
      as [[_ ->]| ->]; auto. }
  clearbody S4. destruct H4 as (H4s & H4j).
  apply suspension_eqb_neq in Hsusp. rewrite H4s, Hsusp in Hrun.
  simpl in Hrun.
  destruct (negb (Z.land (sel_ops (slot S4 p)) CDEV_OP_RD =? 0)
            && (size (slot S4 p) >? 0));
    inversion Hrun; subst; auto.
  unfold notify_select. rewrite slot_modify_other by auto. exact H4j.
Qed.

Lemma write_deposit_frame unsuspend minor p endpt grant n st r st' :
  write_deposit unsuspend minor p endpt grant n st = Ret r st' ->
  suspended (slot st p) <> UDS_SUSPENDED_READ ->
  forall j, j <> p -> slot st' j = slot st j.
Proof.
  unfold write_deposit. intros Hrun Hsusp j Hj.
  destruct (sys_safecopyfrom endpt grant 0 _) as [r1 seg1].
  destruct (negb (r1 =? OK)); [inversion Hrun; subst; reflexivity|].
  set (S1 := modify p _ st) in Hrun.
  assert (H1 : suspended (slot S1 p) = suspended (slot st p) /\
               slot S1 j = slot st j).
  { subst S1. split; [|now apply slot_modify_other].
    match goal with
    | |- context [modify p ?f st] =>
        destruct (slot_modify_cases p f st p) as [[_ ->]| ->]; reflexivity
    end. }
  clearbody S1. destruct H1 as (H1s & H1j).
  destruct (if _ <? n then sys_safecopyfrom endpt grant _ _ else (OK, []))
    as [r2 seg2].
  destruct (negb (r2 =? OK)); [inversion Hrun; subst; assumption|].
  match type of Hrun with
  | write_advance _ _ _ _ ?S = _ => set (S2 := S) in Hrun
  end.
  assert (H2 : suspended (slot S2 p) = suspended (slot st p) /\
               slot S2 j = slot st j).
  { subst S2. destruct (_ <? n); [|auto].
    split; [|now rewrite slot_modify_other].
    match goal with
    | |- context [modify p ?f S1] =>
        destruct (slot_modify_cases p f S1 p) as [[_ ->]| ->]; auto
    end. }
  clearbody S2. destruct H2 as (H2s & H2j).
  rewrite <- H2j. eapply write_advance_frame; eauto. congruence.
Qed.

Lemma same_ring_refl fd : same_ring fd fd.
Proof. repeat split. Qed.

Lemma same_ring_trans fd1 fd2 fd3 :
  same_ring fd1 fd2 -> same_ring fd2 fd3 -> same_ring fd1 fd3.
Proof.
  unfold same_ring. intros (? & ? & ? & ?) (? & ? & ? & ?).
  repeat split; congruence.
Qed.




(** ** The buffer invariant is preserved *)

Lemma good_iff st : good st <-> table_inv st /\ sizes_typed st.
Proof.
  unfold good, fd_good, table_inv, sizes_typed. split.
  - intros H. split; intros i; apply H.
  - intros [H1 H2] i. split; [apply H1|apply H2].
Qed.

Lemma good_modify i f st :
  good st -> (forall fd, fd_good fd -> fd_good (f fd)) -> good (modify i f st).
Proof.
  intros Hg Hf j.
  destruct (slot_modify_cases i f st j) as [[_ ->]| ->]; auto.
Qed.

Lemma good_table st st' :
  uds_fd_table st' = uds_fd_table st -> good st -> good st'.
Proof. intros Ht Hg j. unfold slot. rewrite Ht. apply Hg. Qed.

Lemma good_emit e st : good st -> good (emit e st).
Proof. apply good_table. reflexivity. Qed.

Lemma good_notify_select p ops st : good st -> good (notify_select p ops st).
Proof.
  intros Hg. unfold notify_select. apply good_modify.
  - now apply good_emit.
  - intros fd H. exact H.
Qed.

Ltac good_setter :=
  first [ assumption
        | apply good_emit; good_setter
        | apply good_notify_select; good_setter
        | apply good_modify; [good_setter | intros ? Hfd; exact Hfd] ].

Lemma fd_good_zero : fd_good fd_zero.
Proof.
  split; [intros H; discriminate|]. unfold is_size_t. simpl. lia.
Qed.

Lemma good_cancel minor endpt id st :
  good st -> good (snd (uds_cancel minor endpt id st)).
Proof.
  intros Hg. unfold uds_cancel.
  repeat match goal with
         | |- context [if ?c then _ else _] => destruct c
         end; simpl snd; try assumption.
  apply good_modify; [|intros ? Hfd; exact Hfd].
  destruct (suspended (slot st minor)); try assumption.
  generalize (zrange 0 NR_FDS). intros idx. revert st Hg.
  induction idx as [|i idx IH]; intros st Hg; simpl; [assumption|].
  apply IH. unfold clear_child.
  destruct (child (slot st i) =? minor); good_setter.
Qed.

Lemma in_table_dec st i : {in_table st i} + {~ in_table st i}.
Proof.
  unfold in_table.
  destruct (Z_le_dec 0 i); [|right; lia].
  destruct (Z_lt_dec i (zlength (uds_fd_table st))); [left|right]; lia.
Qed.

Lemma slot_modify_out i f st j :
  ~ in_table st i -> slot (modify i f st) j = slot st j.
Proof.
  intros Hout. rewrite slot_modify. unfold in_table in Hout.
  destruct (Z.eqb_spec i j); [subst j|reflexivity].
  destruct (Z.leb_spec 0 i); [|reflexivity].
  destruct (Z.ltb_spec i (zlength (uds_fd_table st))); [lia|reflexivity].
Qed.

Lemma good_read_advance unsuspend minor p rpos n st r st' :
  keeps_good unsuspend ->
  good st ->
  (state (slot st minor) = UDS_INUSE -> 0 <= n <= size (slot st minor)) ->
  read_advance unsuspend minor p rpos n st = Ret r st' ->
  good st'.
Proof.
  intros Hk Hg Hn. unfold read_advance.
  set (g := fun f => set_size (size_t (size f - n))
                       (set_pos (size_t (rpos + n) mod UDS_BUF) f)).
  set (S4 := if size (slot (modify minor g st) minor) =? 0
             then modify minor (set_pos 0) (modify minor g st)
             else modify minor g st).
  assert (H4 : good S4).
  { intros j. destruct (Hg j) as [Hinv Hty].
    assert (Hpos : 0 <= size_t (rpos + n) mod UDS_BUF < UDS_BUF)
      by (apply Z.mod_pos_bound; lia).
    subst S4.
    destruct (in_table_dec st minor) as [Hin|Hout].
    - rewrite (slot_modify_same st minor g Hin).
      destruct (Z.eq_dec minor j) as [<-|Hne].
      + destruct (Z.eqb_spec (size (g (slot st minor))) 0) as [E|E].
        * rewrite slot_modify_same by in_tbl.
          rewrite slot_modify_same by assumption.
          split; [|exact Hty]. intros Hs. simpl in *.
          specialize (Hinv Hs). specialize (Hn Hs).
          rewrite size_t_small by lia. lia.
        * rewrite slot_modify_same by assumption.
          split; [|exact Hty]. intros Hs. simpl in *.
          specialize (Hinv Hs). specialize (Hn Hs).
          rewrite size_t_small in * by lia. lia.
      + destruct (size (g (slot st minor)) =? 0);
          rewrite !slot_modify_other by assumption; split; assumption.
    - destruct (size (slot (modify minor g st) minor) =? 0);
        rewrite ?(slot_modify_out minor (set_pos 0)) by
          (unfold in_table in *; rewrite table_length_modify; exact Hout);
        rewrite slot_modify_out by assumption; split; assumption. }
  clearbody S4. intros Hrun.
  destruct (negb (p =? -1)
            && suspension_eqb (suspended (slot S4 p)) UDS_SUSPENDED_WRITE).
  - destruct (unsuspend p S4) as [[] S5| |] eqn:Eu; simpl in Hrun;
      try discriminate.
    pose proof (Hk _ _ _ H4 Eu) as H5.
    destruct (negb (p =? -1)
              && negb (Z.land (sel_ops (slot S5 p)) CDEV_OP_WR =? 0)
              && (size (slot S5 minor) <? UDS_BUF));
      inversion Hrun; subst; good_setter.
  - simpl in Hrun.
    destruct (negb (p =? -1)
              && negb (Z.land (sel_ops (slot S4 p)) CDEV_OP_WR =? 0)
              && (size (slot S4 minor) <? UDS_BUF));
      inversion Hrun; subst; good_setter.
Qed.

Lemma safecopyto_table endpt grant off data st :
  uds_fd_table (snd (sys_safecopyto endpt grant off data st))
  = uds_fd_table st.
Proof.
  unfold sys_safecopyto. destruct (umem endpt grant); [|reflexivity].
  destruct (_ <=? _); reflexivity.
Qed.

Lemma good_read_take unsuspend minor p endpt grant n st r st' :
  keeps_good unsuspend ->
  good st ->
  (state (slot st minor) = UDS_INUSE -> 0 <= n <= size (slot st minor)) ->
  read_take unsuspend minor p endpt grant n st = Ret r st' ->
  good st'.
Proof.
  intros Hk Hg Hn. unfold read_take.
  match goal with
  | |- context [sys_safecopyto endpt grant 0 ?d st] =>
      pose proof (safecopyto_table endpt grant 0 d st) as H1;
      destruct (sys_safecopyto endpt grant 0 d st) as [r1 S1]
  end.
  simpl in H1.
  pose proof (good_table _ _ H1 Hg) as Hg1.
  destruct (negb (r1 =? OK)); [intros H; inversion H; subst; assumption|].
  match goal with
  | |- context [if ?c then sys_safecopyto ?e ?g ?o ?d S1 else _] =>
      pose proof (safecopyto_table e g o d S1) as H2;
      destruct c; [destruct (sys_safecopyto e g o d S1) as [r2 S2]|]
  end.
  - simpl in H2. rewrite H1 in H2.
    pose proof (good_table _ _ H2 Hg) as Hg2.
    destruct (negb (r2 =? OK)); [intros H; inversion H; subst; assumption|].
    apply good_read_advance; try assumption.
    unfold slot. rewrite H2. exact Hn.
  - simpl negb. cbv iota.
    apply good_read_advance; try assumption.
    unfold slot. rewrite H1. exact Hn.
Qed.

Lemma good_perform_read_body unsuspend minor endpt grant len pretend st r st' :
  keeps_good unsuspend ->
  good st ->
  is_size_t len ->
  uds_perform_read_body unsuspend minor endpt grant len pretend st = Ret r st' ->
  good st'.
Proof.
  intros Hk Hg Hlen. unfold uds_perform_read_body.
  destruct (Z.eqb_spec len 0); [intros H; inversion H; subst; assumption|].
  destruct (Z.land (mode (slot st minor)) UDS_R =? 0);
    [intros H; inversion H; subst; assumption|].
  destruct (Z.eqb_spec (size (slot st minor)) 0) as [Ez|Ez].
  - intros H.
    repeat match type of H with
           | context [if ?c then _ else _] => destruct c
           end; inversion H; subst; good_setter.
  - destruct pretend; [intros H; inversion H; subst; assumption|].
    apply good_read_take; try assumption.
    intros Hs. destruct (Hg minor) as [Hinv _]. specialize (Hinv Hs).
    unfold is_size_t in Hlen. rewrite Z.gtb_ltb.
    destruct (Z.ltb_spec (size (slot st minor)) len); lia.
Qed.

Lemma good_write_advance unsuspend minor p n st r st' :
  keeps_good unsuspend ->
  good st ->
  (state (slot st p) = UDS_INUSE ->
   0 <= n /\ size (slot st p) + n <= UDS_BUF) ->
  write_advance unsuspend minor p n st = Ret r st' ->
  good st'.
Proof.
  intros Hk Hg Hn. unfold write_advance.
  set (S3 := modify p (fun f => set_size (size_t (size f + n)) f) st).
  assert (H3 : good S3).
  { intros j. destruct (Hg j) as [Hinv Hty]. subst S3.
    match goal with
    | |- context [modify p ?f st] =>
        destruct (slot_modify_cases p f st j) as [[Hj ->]| ->]
    end; [|split; assumption].
    subst j. split; [|exact Hty]. intros Hs. simpl in *.
    specialize (Hinv Hs). specialize (Hn Hs).
    rewrite size_t_small by lia. lia. }
  clearbody S3.
  set (S4 := if type (slot S3 minor) =? SOCK_DGRAM
             then modify p (set_source (addr (slot S3 minor))) S3 else S3).
  assert (H4 : good S4)
    by (subst S4; destruct (type (slot S3 minor) =? SOCK_DGRAM); good_setter).
  clearbody S4. intros Hrun.
  destruct (suspension_eqb (suspended (slot S4 p)) UDS_SUSPENDED_READ).
  - destruct (unsuspend p S4) as [[] S5| |] eqn:Eu; simpl in Hrun;
      try discriminate.
    pose proof (Hk _ _ _ H4 Eu) as H5.
    destruct (negb (Z.land (sel_ops (slot S5 p)) CDEV_OP_RD =? 0)
              && (size (slot S5 p) >? 0));
      inversion Hrun; subst; good_setter.
  - simpl in Hrun.
    destruct (negb (Z.land (sel_ops (slot S4 p)) CDEV_OP_RD =? 0)
              && (size (slot S4 p) >? 0));
      inversion Hrun; subst; good_setter.
Qed.

Lemma same_bounds_modify i f st j :
  (forall fd, same_bounds fd (f fd)) ->
  same_bounds (slot st j) (slot (modify i f st) j).
Proof.
  intros Hf. destruct (slot_modify_cases i f st j) as [[_ ->]| ->];
    [apply Hf|repeat split].
Qed.

Lemma good_write_deposit unsuspend minor p endpt grant n st r st' :
  keeps_good unsuspend ->
  good st ->
  (state (slot st p) = UDS_INUSE ->
   0 <= n /\ size (slot st p) + n <= UDS_BUF) ->
  write_deposit unsuspend minor p endpt grant n st = Ret r st' ->
  good st'.
Proof.
  intros Hk Hg Hn. unfold write_deposit.
  destruct (sys_safecopyfrom endpt grant 0 _) as [r1 seg1].
  destruct (negb (r1 =? OK)); [intros H; inversion H; subst; assumption|].
  set (S1 := modify p _ st).
  assert (H1 : good S1) by (subst S1; good_setter).
  assert (H1s : same_bounds (slot st p) (slot S1 p))
    by (subst S1; apply same_bounds_modify; intros fd; repeat split).
  clearbody S1.
  destruct (if _ <? n then sys_safecopyfrom endpt grant _ _ else (OK, []))
    as [r2 seg2].
  destruct (negb (r2 =? OK)); [intros H; inversion H; subst; assumption|].
  match goal with
  | |- write_advance _ _ _ _ ?S = _ -> _ => set (S2 := S)
  end.
  assert (H2 : good S2) by (subst S2; destruct (_ <? n); good_setter).
  assert (H2s : same_bounds (slot st p) (slot S2 p)).
  { subst S2. destruct (_ <? n); [|assumption].
    destruct H1s as (? & ? & ?).
    match goal with
    | |- context [modify p ?f S1] =>
        destruct (same_bounds_modify p f S1 p) as (? & ? & ?);
        [intros fd; repeat split|]
    end.
    repeat split; congruence. }
  clearbody S2. apply good_write_advance; try assumption.
  destruct H2s as (Hst & _ & Hsz). rewrite Hst, Hsz. exact Hn.
Qed.

Lemma good_perform_write_body unsuspend minor endpt grant len pretend st r st' :
  keeps_good unsuspend ->
  good st ->
  is_size_t len ->
  uds_perform_write_body unsuspend minor endpt grant len pretend st = Ret r st' ->
  good st'.
Proof.
  intros Hk Hg Hlen. unfold uds_perform_write_body.
  destruct (Z.eqb_spec len 0); [intros H; inversion H; subst; assumption|].
  destruct (Z.land (mode (slot st minor)) UDS_W =? 0);
    [intros H; inversion H; subst; assumption|].
  destruct ((len >? UDS_BUF) && negb (type (slot st minor) =? SOCK_STREAM));
    [intros H; inversion H; subst; assumption|].
  destruct (write_peer minor pretend st) as [early|p] eqn:Ep.
  - unfold write_peer in Ep. intros H.
    repeat match type of Ep with
           | context [if ?c then _ else _] => destruct c
           | context [match ?c with _ => _ end] => destruct c
           end; inversion Ep as [Eearly]; rewrite <- Eearly in H;
      inversion H; subst st'; good_setter.
  - destruct (Z.land (mode (slot st p)) UDS_R =? 0);
      [intros H; inversion H; subst; assumption|].
    destruct ((type (slot st minor) =? SOCK_DGRAM) && (size (slot st p) >? 0));
      [intros H; inversion H; subst; assumption|].
    destruct (Z.eqb_spec (size (slot st p)) UDS_BUF) as [Ef|Ef].
    { simpl orb. cbv iota. intros H.
      repeat match type of H with
             | context [if ?c then _ else _] => destruct c
             end; inversion H; subst; assumption. }
    simpl orb.
    destruct ((type (slot st minor) =? SOCK_SEQPACKET) && (size (slot st p) >? 0)).
    { intros H.
      repeat match type of H with
             | context [if ?c then _ else _] => destruct c
             end; inversion H; subst; assumption. }
    destruct pretend; [intros H; inversion H; subst; assumption|].
    apply good_write_deposit; try assumption.
    intros Hs. destruct (Hg p) as [Hinv _]. specialize (Hinv Hs).
    unfold is_size_t in Hlen. rewrite Z.gtb_ltb.
    rewrite size_t_small by lia.
    destruct (Z.ltb_spec (UDS_BUF - size (slot st p)) len); lia.
Qed.

Lemma good_unsuspend fuel : keeps_good (uds_unsuspend fuel).
Proof.
  induction fuel as [|fuel IH]; intros p s s' Hg H; simpl in H;
    [discriminate|].
  assert (Hty : is_size_t (susp_size (slot s p))) by apply Hg.
  destruct (suspended (slot s p)).
  - discriminate.
  - destruct (uds_perform_read_body _ _ _ _ _ _ _) as [r s1| |] eqn:E;
      simpl in H; try discriminate.
    apply good_perform_read_body in E; try assumption.
    destruct (r =? EDONTREPLY); inversion H; subst;
      unfold unsuspend_reply; good_setter.
  - destruct (uds_perform_write_body _ _ _ _ _ _ _) as [r s1| |] eqn:E;
      simpl in H; try discriminate.
    apply good_perform_write_body in E; try assumption.
    destruct (r =? EDONTREPLY); inversion H; subst;
      unfold unsuspend_reply; good_setter.
  - inversion H; subst. unfold unsuspend_reply; good_setter.
  - inversion H; subst. unfold unsuspend_reply; good_setter.
Qed.

Lemma good_reset fuel minor st st' :
  good st -> uds_reset fuel minor st = Ret tt st' -> good st'.
Proof.
  intros Hg. unfold uds_reset.
  set (S2 := modify minor (set_err ECONNRESET) (modify minor (set_peer (-1)) st)).
  assert (H2 : good S2) by (subst S2; good_setter).
  clearbody S2. intros H.
  destruct (negb (suspension_eqb (suspended (slot S2 minor)) UDS_NOT_SUSPENDED)).
  - destruct (uds_unsuspend fuel minor S2) as [[] S3| |] eqn:E;
      simpl in H; try discriminate.
    apply good_unsuspend in E; try assumption.
    destruct (negb (sel_ops (slot S3 minor) =? 0));
      inversion H; subst; good_setter.
  - simpl in H.
    destruct (negb (sel_ops (slot S2 minor) =? 0));
      inversion H; subst; good_setter.
Qed.

Lemma good_reset_backlog fuel minor idx : forall st st',
  good st -> reset_backlog fuel minor idx st = Ret tt st' -> good st'.
Proof.
  induction idx as [|i idx IH]; intros st st' Hg H; simpl in H.
  - inversion H; subst; assumption.
  - destruct (negb (backlog_at (slot st minor) i =? -1)).
    + destruct (uds_reset fuel _ st) as [[] S1| |] eqn:E; simpl in H;
        try discriminate.
      apply good_reset in E; try assumption. eapply IH; eauto.
    + simpl in H. eapply IH; eauto.
Qed.

Lemma good_close fuel minor st r st' :
  good st -> uds_close fuel minor st = Ret r st' -> good st'.
Proof.
  intros Hg. unfold uds_close. intros H.
  destruct ((minor <? 0) || (minor >=? NR_FDS));
    [inversion H; subst; assumption|].
  destruct (negb (fd_state_eqb (state (slot st minor)) UDS_INUSE));
    [inversion H; subst; assumption|].
  match type of H with
  | bind ?m _ = _ => assert (H1 : forall S1, m = Ret tt S1 -> good S1)
  end.
  { intros S1 E.
    repeat match type of E with
           | context [if ?c then _ else _] => destruct c
           end; try discriminate.
    - inversion E; subst. good_setter.
    - eapply good_reset; eauto.
    - eapply good_reset_backlog; eauto.
    - inversion E; subst. assumption. }
  match type of H with
  | bind ?m _ = _ =>
      destruct m as [[] S1| |] eqn:Em; simpl in H; try discriminate
  end.
  pose proof (H1 S1 eq_refl) as Hg1.
  assert (H3 : good (modify minor (fun _ => fd_zero)
                (if nfiledes (ancillary_data (slot S1 minor)) >? 0
                 then emit (EvClearFds minor) S1 else S1))).
  { apply good_modify;
      [destruct (nfiledes (ancillary_data (slot S1 minor)) >? 0); good_setter|].
    intros _ _. apply fd_good_zero. }
  repeat match type of H with
         | context [if ?c then _ else _] => destruct c
         end; inversion H; subst;
    (eapply good_table; [|exact H3]); reflexivity.
Qed.

Lemma good_select fuel minor ops endpt st r st' :
  good st -> uds_select fuel minor ops endpt st = Ret r st' -> good st'.
Proof.
  intros Hg. unfold uds_select. intros H.
  destruct ((minor <? 0) || (minor >=? NR_FDS));
    [inversion H; subst; assumption|].
  destruct (negb (fd_state_eqb (state (slot st minor)) UDS_INUSE));
    [inversion H; subst; assumption|].
  assert (H1t : is_size_t 1) by (unfold is_size_t; lia).
  match type of H with
  | bind ?m _ = _ =>
      assert (H1 : forall x S1, m = Ret x S1 -> good S1);
      [|destruct m as [x S1| |] eqn:Em1; simpl in H; try discriminate;
        pose proof (H1 x S1 eq_refl) as Hg1]
  end.
  { intros x S1 E.
    destruct (negb (Z.land _ CDEV_OP_RD =? 0)); [|inversion E; subst; assumption].
    destruct (uds_perform_read fuel minor NONE GRANT_INVALID 1 true st)
      as [b S| |] eqn:Er; simpl in E; try discriminate.
    apply good_perform_read_body in Er;
      try assumption; try apply good_unsuspend.
    repeat match type of E with
           | context [if ?c then _ else _] => destruct c
           end; inversion E; subst; assumption. }
  match type of H with
  | bind ?m _ = _ =>
      assert (H2 : forall y S2, m = Ret y S2 -> good S2);
      [|destruct m as [y S2| |] eqn:Em2; simpl in H; try discriminate;
        pose proof (H2 y S2 eq_refl) as Hg2]
  end.
  { intros y S2 E.
    destruct (negb (Z.land _ CDEV_OP_WR =? 0)); [|inversion E; subst; assumption].
    destruct (uds_perform_write fuel minor NONE GRANT_INVALID 1 true S1)
      as [b S| |] eqn:Ew; simpl in E; try discriminate.
    apply good_perform_write_body in Ew;
      try assumption; try apply good_unsuspend.
    repeat match type of E with
           | context [if ?c then _ else _] => destruct c
           end; inversion E; subst; assumption. }
  destruct (negb (_ =? 0) && negb (_ =? 0)); inversion H; subst; good_setter.
Qed.

Lemma fd_good_suspend how endpt grant len id fd :
  is_size_t len -> fd_good fd -> fd_good (suspend how endpt grant len id fd).
Proof. intros Hlen [Hinv _]. split; [exact Hinv|exact Hlen]. Qed.

Lemma good_read fuel minor position endpt grant len flags id st r st' :
  good st -> is_size_t len ->
  uds_read fuel minor position endpt grant len flags id st = Ret r st' ->
  good st'.
Proof.
  intros Hg Hlen. unfold uds_read. intros H.
  destruct ((minor <? 0) || (minor >=? NR_FDS));
    [inversion H; subst; assumption|].
  destruct (negb (fd_state_eqb (state (slot st minor)) UDS_INUSE));
    [inversion H; subst; assumption|].
  destruct (uds_perform_read fuel minor endpt grant len false st)
    as [rc S1| |] eqn:E; simpl in H; try discriminate.
  apply good_perform_read_body in E; try assumption; try apply good_unsuspend.
  assert (H2 : good (modify minor
                       (suspend UDS_SUSPENDED_READ endpt grant len id) S1))
    by (apply good_modify; [assumption|intros fd Hfd; apply fd_good_suspend; assumption]).
  destruct (rc =? EDONTREPLY); [|inversion H; subst; assumption].
  destruct (negb (Z.land flags CDEV_NONBLOCK =? 0)); inversion H; subst;
    [apply good_cancel|]; assumption.
Qed.

Lemma good_write fuel minor position endpt grant len flags id st r st' :
  good st -> is_size_t len ->
  uds_write fuel minor position endpt grant len flags id st = Ret r st' ->
  good st'.
Proof.
  intros Hg Hlen. unfold uds_write. intros H.
  destruct ((minor <? 0) || (minor >=? NR_FDS));
    [inversion H; subst; assumption|].
  destruct (negb (fd_state_eqb (state (slot st minor)) UDS_INUSE));
    [inversion H; subst; assumption|].
  destruct (uds_perform_write fuel minor endpt grant len false st)
    as [rc S1| |] eqn:E; simpl in H; try discriminate.
  apply good_perform_write_body in E; try assumption; try apply good_unsuspend.
  assert (H2 : good (modify minor
                       (suspend UDS_SUSPENDED_WRITE endpt grant len id) S1))
    by (apply good_modify; [assumption|intros fd Hfd; apply fd_good_suspend; assumption]).
  destruct (rc =? EDONTREPLY); [|inversion H; subst; assumption].
  destruct (negb (Z.land flags CDEV_NONBLOCK =? 0)); inversion H; subst;
    [apply good_cancel|]; assumption.
Qed.

Lemma good_open orig_minor access user_endpt mmap_ok st :
  good st -> good (snd (uds_open orig_minor access user_endpt mmap_ok st)).
Proof.
  intros Hg. unfold uds_open.
  destruct (find _ _); [|assumption].
  destruct (negb mmap_ok); [assumption|]. simpl snd.
  apply good_modify; [assumption|].
  intros fd [_ Hty]. split; [|exact Hty].
  intros _. simpl. lia.
Qed.

(** C4.  Every operation of the driver (open, close, read, write, select,
    cancel, unsuspend) preserves the buffer invariant: in the state it
    returns, every slot in use has size <= UDS_BUF, pos < UDS_BUF, and
    pos = 0 when size = 0.  (The sizes saved in the slots and the size
    given to the operation are values of type size_t, which is preserved
    as well.) *)
Theorem operations_preserve_buffer_invariant fuel op st r st' :
  table_inv st ->
  sizes_typed st ->
  op_typed op ->
  run_op fuel op st = Ret r st' ->
  table_inv st' /\ sizes_typed st'.
Proof.
  intros Hinv Hty Hop Hrun. apply good_iff.
  assert (Hg : good st) by (apply good_iff; auto).
  destruct op; simpl in Hrun, Hop.
  - pose proof (good_open orig_minor access user_endpt mmap_ok st Hg) as H.
    destruct (uds_open _ _ _ _ st). inversion Hrun; subst. exact H.
  - eapply good_close; eauto.
  - eapply good_read; eauto.
  - eapply good_write; eauto.
  - eapply good_select; eauto.
  - pose proof (good_cancel minor endpt id st Hg) as H.
    destruct (uds_cancel _ _ _ st). inversion Hrun; subst. exact H.
  - destruct (uds_unsuspend fuel minor st) as [[] S1| |] eqn:E;
      simpl in Hrun; try discriminate.
    inversion Hrun; subst. eapply good_unsuspend; eauto.
Qed.

(** ** Consistency: reads, writes and wake-ups *)

Lemma frame_same_refl fd : frame_same fd fd.
Proof. repeat split. Qed.

Lemma frame_same_trans fd1 fd2 fd3 :
  frame_same fd1 fd2 -> frame_same fd2 fd3 -> frame_same fd1 fd3.
Proof.
  unfold frame_same. intros (? & ? & ? & ? & ? & ?) (? & ? & ? & ? & ? & ?).
  repeat split; congruence.
Qed.

Lemma io_rel_table st st' :
  uds_fd_table st' = uds_fd_table st -> io_rel st st'.
Proof.
  intros Ht. assert (Hs : forall j, slot st' j = slot st j)
    by (intros j; unfold slot; now rewrite Ht).
  unfold io_rel. rewrite Ht. split; [reflexivity|].
  split; [intros j; rewrite Hs; apply frame_same_refl|].
  split; [intros j; rewrite Hs; now left|].
  split; intros j; rewrite ?Hs; lia.
Qed.

Lemma io_rel_refl st : io_rel st st.
Proof. now apply io_rel_table. Qed.

Lemma slot_modify_quiet i f st j :
  quiet f ->
  frame_same (slot st j) (slot (modify i f st) j) /\
  suspended (slot (modify i f st) j) = suspended (slot st j) /\
  size (slot (modify i f st) j) = size (slot st j).
Proof.
  intros Hq. destruct (slot_modify_cases i f st j) as [[_ ->]| ->].
  - apply Hq.
  - split; [apply frame_same_refl|auto].
Qed.

Lemma io_rel_quiet st st' i f :
  io_rel st st' -> quiet f -> io_rel st (modify i f st').
Proof.
  intros (Hl & Hf & Hs & H4 & H5) Hq.
  assert (Hm := fun j => slot_modify_quiet i f st' j Hq).
  split; [rewrite table_length_modify; exact Hl|].
  split; [intros j; eapply frame_same_trans; [apply Hf|apply Hm]|].
  split; [intros j; destruct (Hm j) as (_ & -> & _); apply Hs|].
  split; intros j.
  - destruct (Hm j) as (_ & _ & ->).
    destruct (Hm (peer (slot st j))) as (_ & -> & _). apply H4.
  - destruct (Hm j) as (_ & -> & ->). apply H5.
Qed.

Lemma io_rel_emit st st' e : io_rel st st' -> io_rel st (emit e st').
Proof. intros H. exact H. Qed.

Lemma quiet_sel_ops v : quiet (fun f => set_sel_ops (v f) f).
Proof. intros fd. repeat split. Qed.

Lemma io_rel_notify st st' p ops :
  io_rel st st' -> io_rel st (notify_select p ops st').
Proof.
  intros H. unfold notify_select. apply io_rel_quiet.
  - apply io_rel_emit. exact H.
  - intros fd. repeat split.
Qed.

Lemma quiet_set_err v : quiet (set_err v).
Proof. intros fd. repeat split. Qed.

Lemma quiet_set_buf v : quiet (fun f => set_buf (v f) f).
Proof. intros fd. repeat split. Qed.

(** Ending a suspension. *)
Lemma io_rel_unsuspend_reply st st' i r :
  io_rel st st' -> io_rel st (unsuspend_reply i r st').
Proof.
  intros (Hl & Hf & Hs & H4 & H5). unfold unsuspend_reply.
  set (f := set_suspended UDS_NOT_SUSPENDED).
  set (s := emit _ st').
  assert (Hm : forall j,
             frame_same (slot st' j) (slot (modify i f s) j) /\
             (suspended (slot (modify i f s) j) = suspended (slot st' j) \/
              suspended (slot (modify i f s) j) = UDS_NOT_SUSPENDED) /\
             size (slot (modify i f s) j) = size (slot st' j)).
  { intros j. destruct (slot_modify_cases i f s j) as [[_ ->]| ->].
    - repeat split. now right.
    - split; [apply frame_same_refl|]. split; [now left|reflexivity]. }
  split; [rewrite table_length_modify; exact Hl|].
  split; [intros j; eapply frame_same_trans; [apply Hf|apply Hm]|].
  split; [|split]; intros j.
  - destruct (Hm j) as (_ & [-> | ->] & _); [apply Hs|now right].
  - destruct (Hm j) as (_ & _ & ->). intros Hp Hz Hpe.
    destruct (Hm (peer (slot st j))) as (_ & [-> | ->] & _);
      [now apply H4|discriminate].
  - destruct (Hm j) as (_ & [-> | ->] & ->); [apply H5|discriminate].
Qed.

Lemma unsuspend_reply_clears st i r :
  in_table st i ->
  suspended (slot (unsuspend_reply i r st) i) = UDS_NOT_SUSPENDED.
Proof.
  intros Hin. unfold unsuspend_reply.
  rewrite slot_modify_same by in_tbl. reflexivity.
Qed.

Lemma good_unsuspend_reply st i r : good st -> good (unsuspend_reply i r st).
Proof. intros H. unfold unsuspend_reply. good_setter. Qed.

Lemma slot_table_eq s st :
  uds_fd_table s = uds_fd_table st -> forall j, slot s j = slot st j.
Proof. intros Ht j. unfold slot. now rewrite Ht. Qed.

Lemma io_rel_table_l s st st' :
  uds_fd_table s = uds_fd_table st -> io_rel s st' -> io_rel st st'.
Proof.
  intros Ht H. unfold io_rel, slot in *. rewrite <- Ht. exact H.
Qed.

Lemma drained_table_l s st x s' :
  uds_fd_table s = uds_fd_table st -> drained s x s' -> drained st x s'.
Proof.
  intros Ht H. unfold drained, slot in *. rewrite <- Ht. exact H.
Qed.

Lemma safecopyto_code endpt grant off data st :
  fst (sys_safecopyto endpt grant off data st) = OK \/
  fst (sys_safecopyto endpt grant off data st) = EPERM \/
  fst (sys_safecopyto endpt grant off data st) = EFAULT.
Proof.
  unfold sys_safecopyto. destruct (umem endpt grant); [|auto].
  destruct (_ <=? _); auto.
Qed.

Lemma safecopyfrom_code endpt grant off n :
  fst (sys_safecopyfrom endpt grant off n) = OK \/
  fst (sys_safecopyfrom endpt grant off n) = EPERM \/
  fst (sys_safecopyfrom endpt grant off n) = EFAULT.
Proof.
  unfold sys_safecopyfrom. destruct (umem endpt grant); [|auto].
  destruct (_ <=? _); auto.
Qed.

Lemma drained_intro st x s fd' n :
  good st -> 0 < n <= size (slot st x) ->
  slot s x = fd' ->
  (forall j, j <> x -> slot s j = slot st j) ->
  zlength (uds_fd_table s) = zlength (uds_fd_table st) ->
  fd_good fd' ->
  frame_same (slot st x) fd' ->
  suspended fd' = suspended (slot st x) ->
  size fd' = size (slot st x) - n ->
  drained st x s /\ size (slot s x) = size (slot st x) - n.
Proof.
  intros Hg Hn Hx Ho Hl Hgood Hframe Hsusp Hsize. subst fd'.
  split; [|exact Hsize].
  split; [exact Hl|]. split; [exact Ho|].
  split; [exact Hframe|]. split; [exact Hsusp|]. split; [lia|].
  intros j. destruct (Z.eq_dec j x) as [->|Hj].
  - exact Hgood.
  - rewrite Ho by auto. apply Hg.
Qed.

(** The table after the buffer tail of slot x was advanced by n. *)
Lemma drain_state x rpos n st :
  in_table st x ->
  state (slot st x) = UDS_INUSE ->
  good st ->
  0 < n <= size (slot st x) ->
  let g := fun f => set_size (size_t (size f - n))
                      (set_pos (size_t (rpos + n) mod UDS_BUF) f) in
  let s4 := if size (slot (modify x g st) x) =? 0
            then modify x (set_pos 0) (modify x g st)
            else modify x g st in
  drained st x s4 /\ size (slot s4 x) = size (slot st x) - n.
Proof.
  intros Hin Hst Hg Hn g s4.
  destruct (Hg x) as [Hinv Hty]. specialize (Hinv Hst).
  assert (Hgx : slot (modify x g st) x = g (slot st x))
    by (apply slot_modify_same; assumption).
  assert (Hsz : size (g (slot st x)) = size (slot st x) - n)
    by (simpl; apply size_t_small; lia).
  assert (Hpos : 0 <= size_t (rpos + n) mod UDS_BUF < UDS_BUF)
    by (apply Z.mod_pos_bound; lia).
  subst s4. rewrite Hgx, Hsz.
  destruct (Z.eqb_spec (size (slot st x) - n) 0) as [E|E].
  - apply (drained_intro st x _ (set_pos 0 (g (slot st x))) n);
      try assumption; try (repeat split; assumption).
    + rewrite slot_modify_same by in_tbl. now rewrite Hgx.
    + intros j Hj. rewrite !slot_modify_other by auto. reflexivity.
    + in_tbl.
    + split; [|exact Hty]. intros _. simpl. rewrite size_t_small by lia. lia.
  - apply (drained_intro st x _ (g (slot st x)) n);
      try assumption; try (repeat split; assumption).
    + intros j Hj. rewrite !slot_modify_other by auto. reflexivity.
    + in_tbl.
    + split; [|exact Hty]. intros _. simpl. rewrite size_t_small by lia. lia.
Qed.

Lemma io_rel_drained st x s s' :
  drained st x s -> io_rel s s' ->
  (peer (slot st x) <> -1 -> size (slot s' x) = 0 ->
   suspended (slot s' (peer (slot st x))) <> UDS_SUSPENDED_WRITE) ->
  io_rel st s'.
Proof.
  intros (Hl & Ho & Hf & Hs & Hz & _) (Hl' & Hf' & Hs' & H4 & H5) Hx.
  assert (Hsusp : forall j, suspended (slot s j) = suspended (slot st j)).
  { intros j. destruct (Z.eq_dec j x) as [->|Hj]; [exact Hs|now rewrite Ho]. }
  assert (Hfr : forall j, frame_same (slot st j) (slot s j)).
  { intros j. destruct (Z.eq_dec j x) as [->|Hj]; [exact Hf|].
    rewrite Ho by auto. apply frame_same_refl. }
  split; [congruence|].
  split; [intros j; eapply frame_same_trans; [apply Hfr|apply Hf']|].
  split; [intros j; rewrite <- Hsusp; apply Hs'|].
  split; intros j.
  - destruct (Z.eq_dec j x) as [->|Hj]; [intros _ Hz' Hp; now apply Hx|].
    rewrite <- (Ho j) by auto. apply H4.
  - destruct (Z.eq_dec j x) as [->|Hj]; [lia|].
    rewrite <- (Ho j) by auto. apply H5.
Qed.

Lemma read_advance_gen U x p rpos n st :
  in_table st x ->
  state (slot st x) = UDS_INUSE ->
  good st ->
  0 < n <= size (slot st x) ->
  p = peer (slot st x) ->
  (p <> -1 -> suspended (slot st p) = UDS_SUSPENDED_WRITE ->
   forall s, drained st x s ->
     exists s', U p s = Ret tt s' /\ io_rel s s' /\
                (suspended (slot s' p) <> UDS_SUSPENDED_WRITE \/
                 0 < size (slot s' x))) ->
  exists st', read_advance U x p rpos n st = Ret n st' /\ io_rel st st'.
Proof.
  intros Hin Hst Hg Hn Hp HU. unfold read_advance.
  destruct (drain_state x rpos n st Hin Hst Hg Hn) as [Hd Hsz].
  cbv zeta in Hd, Hsz.
  match type of Hd with drained _ _ ?S => set (s4 := S) in * end.
  clearbody s4.
  assert (Hsusp : forall j, suspended (slot s4 j) = suspended (slot st j)).
  { intros j. destruct Hd as (_ & Ho & _ & Hs & _).
    destruct (Z.eq_dec j x) as [->|Hj]; [exact Hs|now rewrite Ho]. }
  assert (Hb : size (slot st x) <= UDS_BUF).
  { destruct (Hg x) as [Hinv _]. specialize (Hinv Hst). lia. }
  rewrite ssize_t_small by lia.
  assert (Hwake : exists s5,
             (if negb (p =? -1)
                 && suspension_eqb (suspended (slot s4 p)) UDS_SUSPENDED_WRITE
              then U p s4 else Ret tt s4) = Ret tt s5 /\ io_rel st s5).
  { rewrite Hsusp.
    destruct (Z.eqb_spec p (-1)) as [E|E]; simpl.
    - exists s4. split; [reflexivity|].
      apply (io_rel_drained st x s4 s4 Hd (io_rel_refl s4)). congruence.
    - destruct (suspension_eqb (suspended (slot st p)) UDS_SUSPENDED_WRITE)
        eqn:Ew.
      + apply suspension_eqb_eq in Ew.
        destruct (HU E Ew s4 Hd) as (s5 & Hrun & Hio & Hpost).
        exists s5. split; [exact Hrun|].
        apply (io_rel_drained st x s4 s5 Hd Hio). intros _ Hz.
        rewrite <- Hp. destruct Hpost; [assumption|lia].
      + apply suspension_eqb_neq in Ew. exists s4. split; [reflexivity|].
        apply (io_rel_drained st x s4 s4 Hd (io_rel_refl s4)).
        intros _ _. rewrite <- Hp, Hsusp. exact Ew. }
  destruct Hwake as (s5 & -> & Hio). simpl bind.
  destruct (negb (p =? -1)
            && negb (Z.land (sel_ops (slot s5 p)) CDEV_OP_WR =? 0)
            && (size (slot s5 x) <? UDS_BUF)).
  - eexists. split; [reflexivity|]. now apply io_rel_notify.
  - exists s5. split; [reflexivity|assumption].
Qed.

Lemma read_take_gen U x p endpt grant n st :
  in_table st x ->
  state (slot st x) = UDS_INUSE ->
  good st ->
  0 < n <= size (slot st x) ->
  p = peer (slot st x) ->
  (p <> -1 -> suspended (slot st p) = UDS_SUSPENDED_WRITE ->
   forall s, drained st x s ->
     exists s', U p s = Ret tt s' /\ io_rel s s' /\
                (suspended (slot s' p) <> UDS_SUSPENDED_WRITE \/
                 0 < size (slot s' x))) ->
  exists r st',
    read_take U x p endpt grant n st = Ret r st' /\ io_rel st st' /\
    r <> EDONTREPLY.
Proof.
  intros Hin Hst Hg Hn Hp HU. unfold read_take.
  match goal with
  | |- context [sys_safecopyto endpt grant 0 ?d st] =>
      pose proof (safecopyto_table endpt grant 0 d st) as H1;
      pose proof (safecopyto_code endpt grant 0 d st) as C1;
      destruct (sys_safecopyto endpt grant 0 d st) as [r1 S1]
  end.
  simpl in H1, C1.
  assert (Hadv : forall S2, uds_fd_table S2 = uds_fd_table st ->
            exists r st',
              read_advance U x p (pos (slot st x)) n S2 = Ret r st' /\
              io_rel st st' /\ r <> EDONTREPLY).
  { intros S2 H2. pose proof (slot_table_eq _ _ H2) as E.
    destruct (read_advance_gen U x p (pos (slot st x)) n S2)
      as (st' & Hrun & Hio); rewrite ?E; try assumption.
    - unfold in_table. rewrite H2. exact Hin.
    - eapply good_table; eauto.
    - intros Hp1 Hw s Hd. apply HU; try assumption.
      eapply drained_table_l; eauto.
    - exists n, st'. split; [exact Hrun|].
      split; [eapply io_rel_table_l; eauto|].
      unfold EDONTREPLY. lia. }
  destruct (Z.eqb_spec r1 OK) as [->|Hr1]; simpl negb; cbv iota.
  2:{ exists r1, S1. split; [reflexivity|].
      split; [now apply io_rel_table|].
      unfold OK, EPERM, EFAULT, EDONTREPLY in *. lia. }
  match goal with
  | |- context [if ?c then sys_safecopyto ?e ?g ?o ?d S1 else _] =>
      pose proof (safecopyto_table e g o d S1) as H2;
      pose proof (safecopyto_code e g o d S1) as C2;
      destruct c; [destruct (sys_safecopyto e g o d S1) as [r2 S2]|]
  end.
  - simpl in H2, C2. rewrite H1 in H2.
    destruct (Z.eqb_spec r2 OK) as [->|Hr2]; simpl negb; cbv iota.
    + apply Hadv. exact H2.
    + exists r2, S2. split; [reflexivity|].
      split; [now apply io_rel_table|].
      unfold OK, EPERM, EFAULT, EDONTREPLY in *. lia.
  - simpl negb. cbv iota. apply Hadv. exact H1.
Qed.

Lemma perform_read_gen U x endpt grant len st :
  in_table st x ->
  state (slot st x) = UDS_INUSE ->
  good st ->
  is_size_t len ->
  (size (slot st x) = 0 -> peer (slot st x) <> -1 ->
   suspended (slot st (peer (slot st x))) <> UDS_SUSPENDED_WRITE) ->
  (peer (slot st x) <> -1 ->
   suspended (slot st (peer (slot st x))) = UDS_SUSPENDED_WRITE ->
   forall s, drained st x s ->
     exists s', U (peer (slot st x)) s = Ret tt s' /\ io_rel s s' /\
                (suspended (slot s' (peer (slot st x))) <> UDS_SUSPENDED_WRITE \/
                 0 < size (slot s' x))) ->
  exists r st',
    uds_perform_read_body U x endpt grant len false st = Ret r st' /\
    io_rel st st' /\
    (r = EDONTREPLY ->
     st' = st /\ size (slot st x) = 0 /\
     (peer (slot st x) = -1 -> ~ conn_type (slot st x))).
Proof.
  intros Hin Hst Hg Hlen Hnp HU. unfold uds_perform_read_body.
  destruct (Hg x) as [Hinv _]. specialize (Hinv Hst).
  destruct (Z.eqb_spec len 0) as [El|El].
  { exists 0, st. split; [reflexivity|]. split; [apply io_rel_refl|].
    discriminate. }
  destruct (Z.land (mode (slot st x)) UDS_R =? 0).
  { exists EPIPE, st. split; [reflexivity|]. split; [apply io_rel_refl|].
    discriminate. }
  destruct (Z.eqb_spec (size (slot st x)) 0) as [Ez|Ez].
  - destruct ((peer (slot st x) =? -1)
              && ((type (slot st x) =? SOCK_STREAM)
                  || (type (slot st x) =? SOCK_SEQPACKET))) eqn:Eun.
    { destruct (err (slot st x) =? ECONNRESET).
      - eexists _, _. split; [reflexivity|].
        split; [apply io_rel_quiet; [apply io_rel_refl|apply quiet_set_err]|].
        discriminate.
      - exists ENOTCONN, st. split; [reflexivity|].
        split; [apply io_rel_refl|discriminate]. }
    destruct (negb (peer (slot st x) =? -1)
              && (Z.land (mode (slot st (peer (slot st x)))) UDS_W =? 0)).
    { exists 0, st. split; [reflexivity|]. split; [apply io_rel_refl|].
      discriminate. }
    assert (Hun : peer (slot st x) = -1 -> ~ conn_type (slot st x)).
    { intros Ep [Ht|Ht]; rewrite Ep, Ht in Eun; discriminate. }
    destruct (Z.eqb_spec (peer (slot st x)) (-1)) as [Ep|Ep]; simpl.
    { exists EDONTREPLY, st. split; [reflexivity|].
      split; [apply io_rel_refl|auto]. }
    specialize (Hnp Ez Ep). apply suspension_eqb_neq in Hnp. rewrite Hnp.
    exists EDONTREPLY, st. split; [reflexivity|].
    split; [apply io_rel_refl|auto].
  - set (n := if len >? size (slot st x) then size (slot st x) else len).
    assert (Hn : 0 < n <= size (slot st x)).
    { subst n. unfold is_size_t in Hlen. rewrite Z.gtb_ltb.
      destruct (Z.ltb_spec (size (slot st x)) len); lia. }
    destruct (read_take_gen U x (peer (slot st x)) endpt grant n st)
      as (r & st' & Hrun & Hio & Hr); auto.
    exists r, st'. split; [exact Hrun|]. split; [exact Hio|].
    intros E. contradiction.
Qed.

(** *** The write side *)

Lemma deposited_intro st d s fd' n :
  good st -> 0 < n -> 0 <= size (slot st d) ->
  slot s d = fd' ->
  (forall j, j <> d -> slot s j = slot st j) ->
  zlength (uds_fd_table s) = zlength (uds_fd_table st) ->
  fd_good fd' ->
  frame_same (slot st d) fd' ->
  suspended fd' = suspended (slot st d) ->
  size fd' = size (slot st d) + n ->
  deposited st d s /\ size (slot s d) = size (slot st d) + n.
Proof.
  intros Hg Hn H0 Hx Ho Hl Hgood Hframe Hsusp Hsize. subst fd'.
  split; [|exact Hsize].
  split; [exact Hl|]. split; [exact Ho|].
  split; [exact Hframe|]. split; [exact Hsusp|]. split; [lia|].
  intros j. destruct (Z.eq_dec j d) as [->|Hj].
  - exact Hgood.
  - rewrite Ho by auto. apply Hg.
Qed.

(** The table after the buffer head of slot d was advanced by n. *)
Lemma fill_state minor d n st :
  in_table st d ->
  state (slot st d) = UDS_INUSE ->
  good st ->
  0 < n <= UDS_BUF - size (slot st d) ->
  let st3 := modify d (fun f => set_size (size_t (size f + n)) f) st in
  let st4 := if type (slot st3 minor) =? SOCK_DGRAM
             then modify d (set_source (addr (slot st3 minor))) st3
             else st3 in
  deposited st d st4 /\ size (slot st4 d) = size (slot st d) + n.
Proof.
  intros Hin Hst Hg Hn st3 st4.
  destruct (Hg d) as [Hinv Hty]. specialize (Hinv Hst).
  set (g := fun f => set_size (size_t (size f + n)) f) in *.
  assert (Hgx : slot st3 d = g (slot st d))
    by (apply slot_modify_same; assumption).
  assert (Hsz : size (g (slot st d)) = size (slot st d) + n)
    by (simpl; apply size_t_small; lia).
  assert (Hfd : fd_good (g (slot st d))).
  { split; [|exact Hty]. intros _. simpl. rewrite size_t_small by lia. lia. }
  subst st4. destruct (type (slot st3 minor) =? SOCK_DGRAM).
  - apply (deposited_intro st d _
             (set_source (addr (slot st3 minor)) (g (slot st d))) n);
      try assumption; try lia; try (repeat split; assumption).
    + subst st3. rewrite slot_modify_same by in_tbl.
      now rewrite slot_modify_same by assumption.
    + intros j Hj. subst st3. rewrite !slot_modify_other by auto.
      reflexivity.
    + subst st3. in_tbl.
  - apply (deposited_intro st d _ (g (slot st d)) n);
      try assumption; try lia; try (repeat split; assumption).
    + intros j Hj. subst st3. rewrite !slot_modify_other by auto.
      reflexivity.
    + subst st3. in_tbl.
Qed.

Lemma io_rel_deposited st d s s' :
  deposited st d s -> io_rel s s' ->
  (size (slot st d) = 0 -> 0 < size (slot s' d) ->
   suspended (slot s' d) <> UDS_SUSPENDED_READ) ->
  io_rel st s'.
Proof.
  intros (Hl & Ho & Hf & Hs & Hz & _) (Hl' & Hf' & Hs' & H4 & H5) Hx.
  assert (Hsusp : forall j, suspended (slot s j) = suspended (slot st j)).
  { intros j. destruct (Z.eq_dec j d) as [->|Hj]; [exact Hs|now rewrite Ho]. }
  assert (Hfr : forall j, frame_same (slot st j) (slot s j)).
  { intros j. destruct (Z.eq_dec j d) as [->|Hj]; [exact Hf|].
    rewrite Ho by auto. apply frame_same_refl. }
  assert (Hpeer : forall j, peer (slot s j) = peer (slot st j))
    by (intros j; apply (Hfr j)).
  split; [congruence|].
  split; [intros j; eapply frame_same_trans; [apply Hfr|apply Hf']|].
  split; [intros j; rewrite <- Hsusp; apply Hs'|].
  split; intros j.
  - rewrite <- Hpeer.
    destruct (Z.eq_dec j d) as [->|Hj]; [intros _; apply H4; lia|].
    rewrite <- (Ho j) by auto. apply H4.
  - destruct (Z.eq_dec j d) as [->|Hj]; [exact Hx|].
    rewrite <- (Ho j) by auto. apply H5.
Qed.

Lemma write_advance_gen U minor d n st :
  in_table st d ->
  state (slot st d) = UDS_INUSE ->
  good st ->
  0 < n <= UDS_BUF - size (slot st d) ->
  (suspended (slot st d) = UDS_SUSPENDED_READ ->
   forall s, deposited st d s ->
     exists s', U d s = Ret tt s' /\ io_rel s s' /\
                suspended (slot s' d) <> UDS_SUSPENDED_READ) ->
  exists st', write_advance U minor d n st = Ret n st' /\ io_rel st st'.
Proof.
  intros Hin Hst Hg Hn HU. unfold write_advance.
  destruct (fill_state minor d n st Hin Hst Hg Hn) as [Hd Hsz].
  cbv zeta in Hd, Hsz.
  match type of Hd with deposited _ _ ?S => set (s4 := S) in * end.
  clearbody s4.
  assert (Hsusp : suspended (slot s4 d) = suspended (slot st d))
    by apply Hd.
  assert (Hb : 0 <= size (slot st d)).
  { destruct (Hg d) as [Hinv _]. specialize (Hinv Hst). lia. }
  rewrite ssize_t_small by lia.
  assert (Hwake : exists s5,
             (if suspension_eqb (suspended (slot s4 d)) UDS_SUSPENDED_READ
              then U d s4 else Ret tt s4) = Ret tt s5 /\ io_rel st s5).
  { rewrite Hsusp.
    destruct (suspension_eqb (suspended (slot st d)) UDS_SUSPENDED_READ)
      eqn:Er.
    - apply suspension_eqb_eq in Er.
      destruct (HU Er s4 Hd) as (s5 & Hrun & Hio & Hpost).
      exists s5. split; [exact Hrun|].
      apply (io_rel_deposited st d s4 s5 Hd Hio). auto.
    - apply suspension_eqb_neq in Er. exists s4. split; [reflexivity|].
      apply (io_rel_deposited st d s4 s4 Hd (io_rel_refl s4)).
      intros _ _. rewrite Hsusp. exact Er. }
  destruct Hwake as (s5 & -> & Hio). simpl bind.
  destruct (negb (Z.land (sel_ops (slot s5 d)) CDEV_OP_RD =? 0)
            && (size (slot s5 d) >? 0)).
  - eexists. split; [reflexivity|]. now apply io_rel_notify.
  - exists s5. split; [reflexivity|assumption].
Qed.

Lemma io_rel_quiet_l st st' i f :
  quiet f -> io_rel (modify i f st) st' -> io_rel st st'.
Proof.
  intros Hq (Hl & Hf & Hs & H4 & H5).
  assert (Hm := fun j => slot_modify_quiet i f st j Hq).
  rewrite table_length_modify in Hl.
  split; [exact Hl|].
  split; [intros j; eapply frame_same_trans; [apply Hm|apply Hf]|].
  split; [intros j; destruct (Hm j) as (_ & <- & _); apply Hs|].
  split; intros j.
  - destruct (Hm j) as ((_ & _ & <- & _) & _ & <-). apply H4.
  - destruct (Hm j) as (_ & _ & <-). apply H5.
Qed.

Lemma deposited_quiet_l st d f s :
  quiet f -> deposited (modify d f st) d s -> deposited st d s.
Proof.
  intros Hq (Hl & Ho & Hf & Hs & Hz & Hg).
  destruct (slot_modify_quiet d f st d Hq) as (Hfr & Hsu & Hsz).
  rewrite table_length_modify in Hl.
  split; [exact Hl|].
  split; [intros j Hj; rewrite Ho by auto; now apply slot_modify_other|].
  split; [eapply frame_same_trans; eauto|].
  split; [congruence|]. split; [lia|exact Hg].
Qed.

Lemma list_update_twice {A} (l : list A) n f g :
  list_update (list_update l n f) n g = list_update l n (fun x => g (f x)).
Proof.
  revert n. induction l as [|a l IH]; intros [|n]; simpl; try reflexivity.
  now rewrite IH.
Qed.

Lemma modify_modify i f g st :
  modify i g (modify i f st) = modify i (fun x => g (f x)) st.
Proof.
  unfold modify, with_table, fd_update. simpl.
  destruct (i <? 0); [reflexivity|]. now rewrite list_update_twice.
Qed.

Lemma write_deposit_gen U minor d endpt grant n st :
  in_table st d ->
  state (slot st d) = UDS_INUSE ->
  good st ->
  0 < n <= UDS_BUF - size (slot st d) ->
  (suspended (slot st d) = UDS_SUSPENDED_READ ->
   forall s, deposited st d s ->
     exists s', U d s = Ret tt s' /\ io_rel s s' /\
                suspended (slot s' d) <> UDS_SUSPENDED_READ) ->
  exists r st',
    write_deposit U minor d endpt grant n st = Ret r st' /\ io_rel st st' /\
    r <> EDONTREPLY.
Proof.
  intros Hin Hst Hg Hn HU.
  assert (Hadv : forall v,
            exists r st',
              write_advance U minor d n
                (modify d (fun f => set_buf (v f) f) st) = Ret r st' /\
              io_rel st st' /\ r <> EDONTREPLY).
  { intros v. pose proof (quiet_set_buf v) as Hq.
    destruct (slot_modify_quiet d _ st d Hq) as ((Hs & _) & Hsu & Hsz).
    destruct (write_advance_gen U minor d n
                (modify d (fun f => set_buf (v f) f) st))
      as (st' & Hrun & Hio).
    - in_tbl.
    - congruence.
    - good_setter.
    - rewrite Hsz. exact Hn.
    - rewrite Hsu. intros Hr s Hd. apply HU; [exact Hr|].
      eapply deposited_quiet_l; eauto.
    - exists n, st'. split; [exact Hrun|].
      split; [eapply io_rel_quiet_l; eauto|].
      unfold EDONTREPLY. lia. }
  unfold write_deposit.
  match goal with
  | |- context [sys_safecopyfrom endpt grant 0 ?k] =>
      pose proof (safecopyfrom_code endpt grant 0 k) as C1;
      destruct (sys_safecopyfrom endpt grant 0 k) as [r1 seg1]
  end.
  simpl in C1.
  destruct (Z.eqb_spec r1 OK) as [->|Hr1]; simpl negb; cbv iota.
  2:{ exists r1, st. split; [reflexivity|]. split; [apply io_rel_refl|].
      unfold OK, EPERM, EFAULT, EDONTREPLY in *. lia. }
  match goal with
  | |- context [if ?c then sys_safecopyfrom ?e ?g ?o ?k else _] =>
      pose proof (safecopyfrom_code e g o k) as C2;
      destruct c; [destruct (sys_safecopyfrom e g o k) as [r2 seg2]|]
  end.
  - simpl in C2.
    destruct (Z.eqb_spec r2 OK) as [->|Hr2]; simpl negb; cbv iota.
    + rewrite modify_modify. apply Hadv.
    + eexists r2, _. split; [reflexivity|].
      split; [apply io_rel_quiet; [apply io_rel_refl|apply quiet_set_buf]|].
      unfold OK, EPERM, EFAULT, EDONTREPLY in *. lia.
  - simpl negb. cbv iota. apply Hadv.
Qed.

Lemma perform_write_gen U minor endpt grant len st :
  good st ->
  is_size_t len ->
  (forall d, write_peer minor false st = inr d ->
     in_table st d /\ state (slot st d) = UDS_INUSE /\
     (0 < size (slot st d) ->
      suspended (slot st d) <> UDS_SUSPENDED_READ) /\
     (suspended (slot st d) = UDS_SUSPENDED_READ ->
      forall s, deposited st d s ->
        exists s', U d s = Ret tt s' /\ io_rel s s' /\
                   suspended (slot s' d) <> UDS_SUSPENDED_READ)) ->
  exists r st',
    uds_perform_write_body U minor endpt grant len false st = Ret r st' /\
    io_rel st st' /\
    (r = EDONTREPLY -> st' = st /\ write_blocked st minor).
Proof.
  intros Hg Hlen Hd. unfold uds_perform_write_body.
  destruct (Z.eqb_spec len 0) as [El|El].
  { exists 0, st. split; [reflexivity|]. split; [apply io_rel_refl|].
    discriminate. }
  destruct (Z.land (mode (slot st minor)) UDS_W =? 0).
  { exists EPIPE, st. split; [reflexivity|]. split; [apply io_rel_refl|].
    discriminate. }
  destruct ((len >? UDS_BUF) && negb (type (slot st minor) =? SOCK_STREAM))
    eqn:Ebig.
  { exists EMSGSIZE, st. split; [reflexivity|]. split; [apply io_rel_refl|].
    discriminate. }
  destruct (write_peer minor false st) as [early|d] eqn:Ew.
  - unfold write_peer in Ew.
    destruct ((type (slot st minor) =? SOCK_STREAM)
              || (type (slot st minor) =? SOCK_SEQPACKET)) eqn:Ety.
    + destruct (Z.eqb_spec (peer (slot st minor)) (-1)) as [Ep|Ep].
      * destruct (err (slot st minor) =? ECONNRESET);
          inversion Ew; subst early.
        -- eexists _, _. split; [reflexivity|].
           split; [apply io_rel_quiet; [apply io_rel_refl|apply quiet_set_err]|].
           discriminate.
        -- exists ENOTCONN, st. split; [reflexivity|].
           split; [apply io_rel_refl|discriminate].
      * destruct (Z.eqb_spec (peer (slot st (peer (slot st minor)))) (-1))
          as [Epp|Epp]; inversion Ew; subst early.
        exists EDONTREPLY, st. split; [reflexivity|].
        split; [apply io_rel_refl|]. intros _. split; [reflexivity|].
        right. split; [|split; assumption].
        unfold conn_type. apply orb_true_iff in Ety.
        destruct Ety as [E|E]; apply Z.eqb_eq in E; auto.
    + destruct (locate_peer _ _); inversion Ew; subst early.
      exists ENOENT, st. split; [reflexivity|].
      split; [apply io_rel_refl|discriminate].
  - destruct (Hd d eq_refl) as (Hin & Hst & Hnr & HU).
    destruct (Hg d) as [Hinv _]. specialize (Hinv Hst).
    destruct (Z.land (mode (slot st d)) UDS_R =? 0).
    { exists EPIPE, st. split; [reflexivity|]. split; [apply io_rel_refl|].
      discriminate. }
    destruct ((type (slot st minor) =? SOCK_DGRAM) && (size (slot st d) >? 0))
      eqn:Edrop.
    { exists (ssize_t len), st. split; [reflexivity|].
      split; [apply io_rel_refl|]. intros E. exfalso.
      apply andb_true_iff in Edrop. destruct Edrop as [Edg _].
      apply Z.eqb_eq in Edg. rewrite Edg in Ebig.
      apply andb_false_iff in Ebig. destruct Ebig as [Ebig|Ebig];
        [|discriminate].
      rewrite Z.gtb_ltb in Ebig. apply Z.ltb_ge in Ebig.
      unfold is_size_t in Hlen. rewrite ssize_t_small in E by lia.
      unfold EDONTREPLY in E. lia. }
    destruct ((size (slot st d) =? UDS_BUF)
              || ((type (slot st minor) =? SOCK_SEQPACKET)
                  && (size (slot st d) >? 0))) eqn:Efull.
    + assert (Hpos : 0 < size (slot st d)).
      { apply orb_true_iff in Efull. destruct Efull as [E|E].
        - apply Z.eqb_eq in E. lia.
        - apply andb_true_iff in E. destruct E as [_ E].
          rewrite Z.gtb_ltb in E. apply Z.ltb_lt in E. exact E. }
      specialize (Hnr Hpos). apply suspension_eqb_neq in Hnr. rewrite Hnr.
      exists EDONTREPLY, st. split; [reflexivity|].
      split; [apply io_rel_refl|]. intros _. split; [reflexivity|].
      left. exists d. split; [exact Ew|exact Hpos].
    + apply orb_false_iff in Efull. destruct Efull as [Efull _].
      apply Z.eqb_neq in Efull.
      set (n := if len >? size_t (UDS_BUF - size (slot st d))
                then size_t (UDS_BUF - size (slot st d)) else len).
      assert (Hn : 0 < n <= UDS_BUF - size (slot st d)).
      { subst n. unfold is_size_t in Hlen. rewrite Z.gtb_ltb.
        rewrite size_t_small by lia.
        destruct (Z.ltb_spec (UDS_BUF - size (slot st d)) len); lia. }
      destruct (write_deposit_gen U minor d endpt grant n st)
        as (r & st' & Hrun & Hio & Hr); auto.
      exists r, st'. split; [exact Hrun|]. split; [exact Hio|].
      intros E. contradiction.
Qed.

(** *** Wake-ups *)

Lemma io_rel_length st st' :
  io_rel st st' -> forall i, in_table st i -> in_table st' i.
Proof. intros (Hl & _) i Hi. unfold in_table in *. now rewrite Hl. Qed.

(** A blocked writer is woken up while its destination is not blocked in
    a read: it completes, or it stays blocked with a reason. *)
Lemma unsuspend_writer fuel p s :
  good s ->
  in_table s p ->
  suspended (slot s p) = UDS_SUSPENDED_WRITE ->
  (forall d, write_peer p false s = inr d ->
     in_table s d /\ state (slot s d) = UDS_INUSE /\
     suspended (slot s d) <> UDS_SUSPENDED_READ) ->
  exists s',
    uds_unsuspend (S fuel) p s = Ret tt s' /\ io_rel s s' /\
    (suspended (slot s' p) <> UDS_SUSPENDED_WRITE \/
     (s' = s /\ write_blocked s p)).
Proof.
  intros Hg Hin Hw Hd. simpl. rewrite Hw.
  destruct (perform_write_gen (uds_unsuspend fuel) p
              (susp_endpt (slot s p)) (susp_grant (slot s p))
              (susp_size (slot s p)) s) as (r & s1 & Hrun & Hio & Hr).
  - exact Hg.
  - apply Hg.
  - intros d Ed. destruct (Hd d Ed) as (H1 & H2 & H3).
    split; [exact H1|]. split; [exact H2|].
    split; [intros _; exact H3|]. intros E. contradiction.
  - rewrite Hrun. simpl bind.
    destruct (Z.eqb_spec r EDONTREPLY) as [E|E].
    + destruct (Hr E) as [-> Hb]. exists s. auto.
    + eexists. split; [reflexivity|].
      split; [now apply io_rel_unsuspend_reply|]. left.
      rewrite unsuspend_reply_clears by (eapply io_rel_length; eauto).
      discriminate.
Qed.

(** A blocked reader is woken up on a buffer with data while its peer is
    not blocked in a write: it completes. *)
Lemma unsuspend_reader fuel d s :
  good s ->
  in_table s d ->
  state (slot s d) = UDS_INUSE ->
  suspended (slot s d) = UDS_SUSPENDED_READ ->
  0 < size (slot s d) ->
  (peer (slot s d) <> -1 ->
   suspended (slot s (peer (slot s d))) <> UDS_SUSPENDED_WRITE) ->
  exists s',
    uds_unsuspend (S fuel) d s = Ret tt s' /\ io_rel s s' /\
    suspended (slot s' d) <> UDS_SUSPENDED_READ.
Proof.
  intros Hg Hin Hst Hr Hsz Hp. simpl. rewrite Hr.
  destruct (perform_read_gen (uds_unsuspend fuel) d
              (susp_endpt (slot s d)) (susp_grant (slot s d))
              (susp_size (slot s d)) s) as (r & s1 & Hrun & Hio & Hres);
    try assumption.
  - apply Hg.
  - intros; lia.
  - intros Hq Hw. exfalso. exact (Hp Hq Hw).
  - rewrite Hrun. simpl bind.
    destruct (Z.eqb_spec r EDONTREPLY) as [E|E].
    + destruct (Hres E) as (_ & Hz & _). lia.
    + eexists. split; [reflexivity|].
      split; [now apply io_rel_unsuspend_reply|].
      rewrite unsuspend_reply_clears by (eapply io_rel_length; eauto).
      discriminate.
Qed.

Lemma write_peer_unlinked p pretend s d :
  peer (slot s p) = -1 -> conn_type (slot s p) ->
  write_peer p pretend s <> inr d.
Proof.
  intros Hp Hc. unfold write_peer.
  assert (E : (type (slot s p) =? SOCK_STREAM)
              || (type (slot s p) =? SOCK_SEQPACKET) = true).
  { apply orb_true_iff. destruct Hc as [-> | ->]; [left|right]; reflexivity. }
  rewrite E, Hp. simpl. destruct (err (slot s p) =? ECONNRESET); discriminate.
Qed.

(** A suspended request on a connection-oriented socket that has lost its
    peer is completed. *)
Lemma unsuspend_unlinked fuel p s :
  good s ->
  in_table s p ->
  state (slot s p) = UDS_INUSE ->
  peer (slot s p) = -1 ->
  conn_type (slot s p) ->
  suspended (slot s p) <> UDS_NOT_SUSPENDED ->
  exists s',
    uds_unsuspend (S fuel) p s = Ret tt s' /\ io_rel s s' /\
    suspended (slot s' p) = UDS_NOT_SUSPENDED.
Proof.
  intros Hg Hin Hst Hp Hc Hs. simpl.
  destruct (suspended (slot s p)) eqn:Es; [contradiction| | | |].
  - destruct (perform_read_gen (uds_unsuspend fuel) p
                (susp_endpt (slot s p)) (susp_grant (slot s p))
                (susp_size (slot s p)) s) as (r & s1 & Hrun & Hio & Hres);
      try assumption; try (intros; contradiction).
    + apply Hg.
    + rewrite Hrun. simpl bind.
      destruct (Z.eqb_spec r EDONTREPLY) as [E|E].
      * destruct (Hres E) as (_ & _ & Hn). exfalso. now apply Hn.
      * eexists. split; [reflexivity|].
        split; [now apply io_rel_unsuspend_reply|].
        apply unsuspend_reply_clears. eapply io_rel_length; eauto.
  - destruct (perform_write_gen (uds_unsuspend fuel) p
                (susp_endpt (slot s p)) (susp_grant (slot s p))
                (susp_size (slot s p)) s) as (r & s1 & Hrun & Hio & Hres).
    + exact Hg.
    + apply Hg.
    + intros d Ed. exfalso. eapply write_peer_unlinked; eauto.
    + rewrite Hrun. simpl bind.
      destruct (Z.eqb_spec r EDONTREPLY) as [E|E].
      * destruct (Hres E) as (_ & [(d & Ed & _)|(_ & Hn & _)]);
          [exfalso; eapply write_peer_unlinked; eauto|contradiction].
      * eexists. split; [reflexivity|].
        split; [now apply io_rel_unsuspend_reply|].
        apply unsuspend_reply_clears. eapply io_rel_length; eauto.
  - eexists. split; [reflexivity|].
    split; [apply io_rel_unsuspend_reply, io_rel_quiet;
            [apply io_rel_refl|apply quiet_set_err]|].
    apply unsuspend_reply_clears. in_tbl.
  - eexists. split; [reflexivity|].
    split; [apply io_rel_unsuspend_reply, io_rel_quiet;
            [apply io_rel_refl|apply quiet_set_err]|].
    apply unsuspend_reply_clears. in_tbl.
Qed.

(** *** The two halves of the consistency *)

Lemma consistent_iff st : consistent st <-> links st /\ flow st.
Proof.
  unfold consistent, links, flow. split.
  - intros (Ht & Hg & Hf & H). split.
    + split; [exact Ht|]. split; [exact Hf|].
      intros x Hx. destruct (H x Hx) as (? & ? & ? & ?). now split.
    + split; [exact Hg|].
      intros x Hx. destruct (H x Hx) as (? & ? & ? & ?). now split.
  - intros ((Ht & Hf & Hl) & Hg & Hfl).
    split; [exact Ht|]. split; [exact Hg|]. split; [exact Hf|].
    intros x Hx. destruct (Hl x Hx), (Hfl x Hx). auto.
Qed.

Lemma backlog_at_frame fd fd' i :
  frame_same fd fd' -> backlog_at fd' i = backlog_at fd i.
Proof.
  intros (_ & _ & _ & _ & Hb & _). unfold backlog_at. now rewrite Hb.
Qed.

Lemma in_backlog_frame fd fd' x :
  frame_same fd fd' -> in_backlog fd x -> in_backlog fd' x.
Proof.
  intros Hf (i & Hi & Hx). exists i.
  rewrite (backlog_at_frame fd fd') by assumption.
  destruct Hf as (_ & _ & _ & _ & _ & ->). auto.
Qed.

Lemma conn_type_frame fd fd' :
  frame_same fd fd' -> conn_type fd -> conn_type fd'.
Proof. intros (_ & Ht & _). unfold conn_type. now rewrite Ht. Qed.

Lemma frame_same_sym fd fd' : frame_same fd fd' -> frame_same fd' fd.
Proof.
  unfold frame_same. intros (? & ? & ? & ? & ? & ?). repeat split; congruence.
Qed.

(** The links only depend on the frames. *)
Lemma links_frame st st' :
  links st ->
  zlength (uds_fd_table st') = zlength (uds_fd_table st) ->
  (forall j, frame_same (slot st j) (slot st' j)) ->
  links st'.
Proof.
  intros (Ht & Hfree & Hl) Hlen Hf.
  assert (Hstate : forall j, state (slot st' j) = state (slot st j))
    by (intros j; apply (Hf j)).
  assert (Hpeer : forall j, peer (slot st' j) = peer (slot st j))
    by (intros j; apply (Hf j)).
  assert (Hlis : forall j, listening (slot st' j) = listening (slot st j))
    by (intros j; apply (Hf j)).
  assert (Hbs : forall j, backlog_size (slot st' j) = backlog_size (slot st j))
    by (intros j; apply (Hf j)).
  assert (Hba : forall j i, backlog_at (slot st' j) i = backlog_at (slot st j) i)
    by (intros j i; apply backlog_at_frame, Hf).
  split; [unfold table_ok in *; congruence|].
  split.
  { intros x Hx. destruct (Hf x) as (_ & -> & _). apply Hfree. congruence. }
  intros x Hx. rewrite Hstate in Hx. destruct (Hl x Hx) as [Hlk Hbk]. split.
  - unfold link_ok in *. cbv zeta in *. rewrite !Hpeer, !Hstate, !Hlis.
    intros Hp. destruct (Hlk Hp) as (H1 & H2 & H3 & H4 & H5 & H6).
    repeat split; try assumption; try lia.
    + eapply conn_type_frame; eauto.
    + eapply conn_type_frame; eauto.
    + destruct H6 as [H6|(H6 & H7 & H8)]; [left; assumption|right].
      repeat split; try assumption. eapply in_backlog_frame; eauto.
  - unfold backlog_ok in *. rewrite Hlis, Hpeer, Hbs. intros Hli.
    destruct (Hbk Hli) as [Hp He]. split; [exact Hp|].
    intros i Hi. rewrite !Hba, Hstate, Hpeer. intros Hne.
    destruct (He i Hi Hne) as (H1 & H2 & H3 & H4).
    repeat split; try assumption; try lia.
    intros j Hj. rewrite Hba. apply H4. exact Hj.
Qed.

(** Transfers keep the flow conditions. *)
Lemma flow_io_rel st st' : flow st -> io_rel st st' -> good st' -> flow st'.
Proof.
  intros (Hg & Hfl) (Hl & Hf & Hs & H4 & H5) Hg'. split; [exact Hg'|].
  intros x Hx.
  assert (Hx0 : state (slot st x) = UDS_INUSE)
    by (destruct (Hf x) as (<- & _); exact Hx).
  destruct (Hfl x Hx0) as [Hw Hr].
  assert (Hsz : 0 <= size (slot st' x)).
  { destruct (Hg' x) as [Hinv _]. specialize (Hinv Hx). lia. }
  assert (Hsz0 : 0 <= size (slot st x)).
  { destruct (Hg x) as [Hinv _]. specialize (Hinv Hx0). lia. }
  assert (Hpeer : peer (slot st' x) = peer (slot st x)) by apply (Hf x).
  split.
  - unfold no_writer_on_empty in *. rewrite Hpeer. intros Hp Hsw.
    assert (Hsw0 : suspended (slot st (peer (slot st x))) = UDS_SUSPENDED_WRITE).
    { destruct (Hs (peer (slot st x))) as [E|E]; congruence. }
    specialize (Hw Hp Hsw0).
    destruct (Z.eq_dec (size (slot st' x)) 0) as [Ez|Ez]; [|lia].
    exfalso. exact (H4 x Hw Ez Hp Hsw).
  - unfold no_reader_on_data in *. intros Hsr.
    assert (Hsr0 : suspended (slot st x) = UDS_SUSPENDED_READ).
    { destruct (Hs x) as [E|E]; congruence. }
    specialize (Hr Hsr0).
    destruct (Z.eq_dec (size (slot st' x)) 0) as [Ez|Ez]; [exact Ez|].
    exfalso. apply (H5 x Hr); [lia|exact Hsr].
Qed.

Lemma io_rel_calm st st' i f :
  io_rel st st' -> calm f -> io_rel st (modify i f st').
Proof.
  intros (Hl & Hf & Hs & H4 & H5) Hc.
  assert (Hm : forall j,
             frame_same (slot st' j) (slot (modify i f st') j) /\
             size (slot (modify i f st') j) = size (slot st' j) /\
             (suspended (slot (modify i f st') j) = suspended (slot st' j) \/
              suspended (slot (modify i f st') j) = UDS_NOT_SUSPENDED)).
  { intros j. destruct (slot_modify_cases i f st' j) as [[_ ->]| ->].
    - apply Hc.
    - split; [apply frame_same_refl|auto]. }
  split; [rewrite table_length_modify; exact Hl|].
  split; [intros j; eapply frame_same_trans; [apply Hf|apply Hm]|].
  split.
  { intros j. destruct (Hm j) as (_ & _ & [E|E]); [|now right].
    rewrite E. apply Hs. }
  split; intros j.
  - destruct (Hm j) as (_ & -> & _). intros H1 H2 H3.
    destruct (Hm (peer (slot st j))) as (_ & _ & [E|E]); rewrite E;
      [now apply H4|discriminate].
  - destruct (Hm j) as (_ & -> & [E|E]); rewrite E;
      [apply H5|discriminate].
Qed.

(** Taking the peer away from a slot. *)
Lemma flow_unlink st p :
  flow st -> flow (modify p (set_peer (-1)) st).
Proof.
  intros (Hg & Hfl). split; [good_setter|].
  assert (Hm : forall j,
             state (slot (modify p (set_peer (-1)) st) j) = state (slot st j) /\
             size (slot (modify p (set_peer (-1)) st) j) = size (slot st j) /\
             suspended (slot (modify p (set_peer (-1)) st) j)
             = suspended (slot st j) /\
             (peer (slot (modify p (set_peer (-1)) st) j) = peer (slot st j) \/
              peer (slot (modify p (set_peer (-1)) st) j) = -1)).
  { intros j. destruct (slot_modify_cases p (set_peer (-1)) st j)
      as [[_ ->]| ->]; simpl; auto. }
  intros x Hx. destruct (Hm x) as (Est & Esz & Esu & Epe).
  rewrite Est in Hx. destruct (Hfl x Hx) as [Hw Hr]. split.
  - unfold no_writer_on_empty in *. rewrite Esz. intros Hp.
    destruct Epe as [E|E]; [|contradiction]. rewrite E in *.
    destruct (Hm (peer (slot st x))) as (_ & _ & -> & _). now apply Hw.
  - unfold no_reader_on_data in *. rewrite Esz, Esu. exact Hr.
Qed.

(** *** Reads and writes keep the table consistent *)

Lemma inuse_in_table st x : state (slot st x) = UDS_INUSE -> in_table st x.
Proof.
  intros H. destruct (in_table_dec st x) as [Hin|Hout]; [exact Hin|].
  exfalso. unfold in_table in Hout. unfold slot, fd_at in H.
  destruct (Z.ltb_spec x 0); [discriminate|].
  rewrite nth_overflow in H; [discriminate|].
  unfold zlength in Hout. lia.
Qed.

Lemma consistent_io_rel st st' :
  consistent st -> io_rel st st' -> good st' -> consistent st'.
Proof.
  rewrite !consistent_iff. intros [Hl Hf] Hio Hg. split.
  - eapply links_frame; eauto; apply Hio.
  - eapply flow_io_rel; eauto.
Qed.

Lemma io_rel_trans st1 st2 st3 :
  io_rel st1 st2 -> io_rel st2 st3 ->
  (forall j, 0 <= size (slot st2 j)) ->
  io_rel st1 st3.
Proof.
  intros (Hl & Hf & Hs & H4 & H5) (Hl' & Hf' & Hs' & H4' & H5') Hnn.
  assert (Hpeer : forall j, peer (slot st2 j) = peer (slot st1 j))
    by (intros j; apply (Hf j)).
  split; [congruence|].
  split; [intros j; eapply frame_same_trans; [apply Hf|apply Hf']|].
  split.
  { intros j. destruct (Hs' j) as [E|E]; [|now right]. rewrite E. apply Hs. }
  split; intros j H1 H2.
  - intros Hp. destruct (Z.eq_dec (size (slot st2 j)) 0) as [Ez|Ez].
    + specialize (H4 j H1 Ez Hp). intros Hw. apply H4.
      destruct (Hs' (peer (slot st1 j))) as [E|E]; congruence.
    + rewrite <- Hpeer. apply H4'; [specialize (Hnn j); lia|exact H2|].
      now rewrite Hpeer.
  - destruct (Z.eq_dec (size (slot st2 j)) 0) as [Ez|Ez].
    + now apply H5'.
    + intros Hr. apply (H5 j H1); [specialize (Hnn j); lia|].
      destruct (Hs' j) as [E|E]; congruence.
Qed.

Lemma io_rel_clear_child minor idx : forall st0 st,
  io_rel st0 st -> io_rel st0 (fold_left (clear_child minor) idx st).
Proof.
  induction idx as [|i idx IH]; intros st0 st H; simpl; [exact H|].
  apply IH. unfold clear_child.
  destruct (child (slot st i) =? minor); [|exact H].
  apply io_rel_quiet; [exact H|]. intros fd. repeat split.
Qed.

Lemma io_rel_cancel minor endpt id st0 st :
  io_rel st0 st -> io_rel st0 (snd (uds_cancel minor endpt id st)).
Proof.
  intros H. unfold uds_cancel.
  repeat match goal with
         | |- context [if ?c then _ else _] => destruct c
         end; simpl snd; try exact H.
  apply io_rel_calm; [|intros fd; repeat split; auto].
  destruct (suspended (slot st minor)); try exact H.
  now apply io_rel_clear_child.
Qed.

Lemma links_modify st i f :
  links st -> (forall fd, frame_same fd (f fd)) -> links (modify i f st).
Proof.
  intros Hl Hf. eapply links_frame; [exact Hl|apply table_length_modify|].
  intros j. destruct (slot_modify_cases i f st j) as [[_ ->]| ->];
    [apply Hf|apply frame_same_refl].
Qed.

Lemma flow_suspend_read x endpt grant len id st :
  flow st -> is_size_t len -> size (slot st x) = 0 ->
  flow (modify x (suspend UDS_SUSPENDED_READ endpt grant len id) st).
Proof.
  intros (Hg & Hfl) Hlen Hz.
  set (f := suspend UDS_SUSPENDED_READ endpt grant len id).
  assert (Hm : forall j,
             (j = x /\ slot (modify x f st) j = f (slot st j)) \/
             slot (modify x f st) j = slot st j)
    by (intros j; destruct (slot_modify_cases x f st j) as [[-> ->]| ->]; auto).
  split.
  { apply good_modify; [exact Hg|]. intros fd Hfd.
    now apply fd_good_suspend. }
  intros y Hy.
  assert (Hy0 : state (slot st y) = UDS_INUSE).
  { destruct (Hm y) as [[_ E]|E]; rewrite E in Hy; exact Hy. }
  destruct (Hfl y Hy0) as [Hw Hr]. split.
  - unfold no_writer_on_empty in *.
    assert (Ep : peer (slot (modify x f st) y) = peer (slot st y))
      by (destruct (Hm y) as [[_ E]|E]; rewrite E; reflexivity).
    assert (Es : size (slot (modify x f st) y) = size (slot st y))
      by (destruct (Hm y) as [[_ E]|E]; rewrite E; reflexivity).
    rewrite Ep, Es. intros Hp.
    destruct (Hm (peer (slot st y))) as [[_ E]|E]; rewrite E;
      [discriminate|now apply Hw].
  - unfold no_reader_on_data in *.
    destruct (Hm y) as [[-> E]|E]; rewrite E; [intros _; exact Hz|exact Hr].
Qed.

Lemma write_peer_conn st x d :
  conn_type (slot st x) -> write_peer x false st = inr d ->
  d = peer (slot st x) /\ d <> -1 /\ peer (slot st d) <> -1.
Proof.
  intros Hc. unfold write_peer.
  assert (E : (type (slot st x) =? SOCK_STREAM)
              || (type (slot st x) =? SOCK_SEQPACKET) = true).
  { apply orb_true_iff. destruct Hc as [-> | ->]; [left|right]; reflexivity. }
  rewrite E.
  destruct (Z.eqb_spec (peer (slot st x)) (-1)).
  { destruct (err (slot st x) =? ECONNRESET); discriminate. }
  destruct (Z.eqb_spec (peer (slot st (peer (slot st x)))) (-1));
    [discriminate|].
  intros H. inversion H; subst d. auto.
Qed.

Lemma flow_suspend_write x endpt grant len id st :
  flow st -> links st -> is_size_t len -> write_blocked st x ->
  flow (modify x (suspend UDS_SUSPENDED_WRITE endpt grant len id) st).
Proof.
  intros (Hg & Hfl) (_ & _ & Hlk) Hlen Hb.
  set (f := suspend UDS_SUSPENDED_WRITE endpt grant len id).
  assert (Hm : forall j,
             (j = x /\ slot (modify x f st) j = f (slot st j)) \/
             slot (modify x f st) j = slot st j)
    by (intros j; destruct (slot_modify_cases x f st j) as [[-> ->]| ->]; auto).
  split.
  { apply good_modify; [exact Hg|]. intros fd Hfd.
    now apply fd_good_suspend. }
  intros y Hy.
  assert (Hy0 : state (slot st y) = UDS_INUSE).
  { destruct (Hm y) as [[_ E]|E]; rewrite E in Hy; exact Hy. }
  destruct (Hfl y Hy0) as [Hw Hr]. split.
  - unfold no_writer_on_empty in *.
    assert (Ep : peer (slot (modify x f st) y) = peer (slot st y))
      by (destruct (Hm y) as [[_ E]|E]; rewrite E; reflexivity).
    assert (Es : size (slot (modify x f st) y) = size (slot st y))
      by (destruct (Hm y) as [[_ E]|E]; rewrite E; reflexivity).
    rewrite Ep, Es. intros Hp.
    destruct (Hm (peer (slot st y))) as [[Epx E]|E]; rewrite E;
      [intros _|now apply Hw].
    destruct (Hlk y Hy0) as [Hly _]. unfold link_ok in Hly. cbv zeta in Hly.
    destruct (Hly Hp) as (_ & _ & _ & _ & Hcx & Hback). rewrite Epx in *.
    destruct Hb as [(d & Ed & Hd)|(_ & Hp1 & Hp2)].
    + destruct (write_peer_conn st x d Hcx Ed) as (-> & Hne & _).
      destruct Hback as [Hb1|(Hb1 & _)]; [|contradiction].
      now rewrite Hb1 in Hd.
    + destruct Hback as [Hb1|(Hb1 & _)]; [|contradiction].
      rewrite Hb1 in Hp2. rewrite Epx in Hp2. contradiction.
  - unfold no_reader_on_data in *.
    destruct (Hm y) as [[-> E]|E]; rewrite E; [discriminate|exact Hr].
Qed.

(** The wake-up of the writer after a read on x, from a consistent
    table. *)
Lemma wake_writer_spec fuel st x s :
  links st -> flow st ->
  state (slot st x) = UDS_INUSE ->
  peer (slot st x) <> -1 ->
  suspended (slot st (peer (slot st x))) = UDS_SUSPENDED_WRITE ->
  drained st x s ->
  exists s',
    uds_unsuspend (S fuel) (peer (slot st x)) s = Ret tt s' /\
    io_rel s s' /\
    (suspended (slot s' (peer (slot st x))) <> UDS_SUSPENDED_WRITE \/
     0 < size (slot s' x)).
Proof.
  intros (Ht & _ & Hlk) (Hg & Hfl) Hx Hp Hw (Hl & Ho & Hf & Hs & Hz & Hgs).
  destruct (Hlk x Hx) as [Hlx _]. unfold link_ok in Hlx. cbv zeta in Hlx.
  destruct (Hlx Hp) as (Hr & Hne & Hsp & Hcx & Hcp & Hback).
  set (p := peer (slot st x)) in *.
  assert (Esp : slot s p = slot st p) by (apply Ho; exact Hne).
  assert (Epx : peer (slot s x) = p) by apply Hf.
  assert (Hdest : forall d, write_peer p false s = inr d -> d = x).
  { intros d Ed. apply write_peer_conn in Ed; [|now rewrite Esp].
    destruct Ed as (-> & Hd & _). rewrite Esp in *.
    destruct Hback as [E|[E _]]; [exact E|contradiction]. }
  destruct (unsuspend_writer fuel p s) as (s' & Hrun & Hio & Hpost).
  - exact Hgs.
  - unfold in_table, table_ok in *. lia.
  - now rewrite Esp.
  - intros d Ed. apply Hdest in Ed. subst d.
    split; [unfold in_table; rewrite Hl; now apply inuse_in_table|].
    split; [destruct Hf as (-> & _); exact Hx|].
    rewrite Hs. intros Hrd.
    destruct (Hfl x Hx) as [_ Hnr]. specialize (Hnr Hrd). lia.
  - exists s'. split; [exact Hrun|]. split; [exact Hio|].
    destruct Hpost as [Hnw|(-> & [(d & Ed & Hd)|(_ & Hp1 & Hp2)])].
    + now left.
    + right. apply Hdest in Ed. now subst d.
    + exfalso. rewrite Esp in Hp1, Hp2.
      destruct Hback as [E|[E _]]; [|contradiction].
      rewrite E, Epx in Hp2. contradiction.
Qed.

(** The wake-up of the reader after a write into d, from a consistent
    table. *)
Lemma wake_reader_spec fuel st d s :
  links st -> flow st ->
  state (slot st d) = UDS_INUSE ->
  suspended (slot st d) = UDS_SUSPENDED_READ ->
  deposited st d s ->
  exists s',
    uds_unsuspend (S fuel) d s = Ret tt s' /\ io_rel s s' /\
    suspended (slot s' d) <> UDS_SUSPENDED_READ.
Proof.
  intros (Ht & _ & Hlk) (Hg & Hfl) Hd Hr (Hl & Ho & Hf & Hs & Hz & Hgs).
  destruct (Hlk d Hd) as [Hld _]. unfold link_ok in Hld. cbv zeta in Hld.
  destruct (Hfl d Hd) as [Hnw Hnr].
  apply unsuspend_reader.
  - exact Hgs.
  - unfold in_table. rewrite Hl. now apply inuse_in_table.
  - destruct Hf as (-> & _). exact Hd.
  - now rewrite Hs.
  - lia.
  - destruct Hf as (_ & _ & -> & _). intros Hp.
    destruct (Hld Hp) as (_ & Hne & _). rewrite Ho by exact Hne.
    intros Hw. specialize (Hnw Hp Hw). specialize (Hnr Hr). lia.
Qed.

Lemma write_peer_dest st minor d :
  links st -> state (slot st minor) = UDS_INUSE ->
  write_peer minor false st = inr d ->
  in_table st d /\ state (slot st d) = UDS_INUSE.
Proof.
  intros (Ht & Hfree & Hlk) Hm. unfold write_peer.
  destruct ((type (slot st minor) =? SOCK_STREAM)
            || (type (slot st minor) =? SOCK_SEQPACKET)).
  - destruct (Z.eqb_spec (peer (slot st minor)) (-1)) as [Ep|Ep].
    { destruct (err (slot st minor) =? ECONNRESET); discriminate. }
    destruct (peer (slot st (peer (slot st minor))) =? -1); [discriminate|].
    intros H. inversion H; subst d.
    destruct (Hlk minor Hm) as [Hl _].
    destruct (Hl Ep) as (Hr & _ & Hs & _).
    split; [unfold in_table, table_ok in *; lia|exact Hs].
  - destruct (locate_peer (uds_fd_table st) minor) as [i|] eqn:El;
      [|discriminate].
    intros H. inversion H; subst i.
    apply locate_peer_first in El. destruct El as (Hr & Hb & _).
    unfold dgram_bound_on in Hb. apply andb_true_iff in Hb.
    destruct Hb as [Hb _]. apply andb_true_iff in Hb. destruct Hb as [Hb _].
    apply Z.eqb_eq in Hb.
    split; [unfold in_table, table_ok in *; lia|].
    destruct (state (slot st d)) eqn:Es; [|reflexivity].
    exfalso. exact (Hfree d Es Hb).
Qed.

Lemma consistent_read fuel minor position endpt grant len flags id st :
  consistent st -> is_size_t len ->
  exists r st',
    uds_read (S fuel) minor position endpt grant len flags id st
    = Ret r st' /\ consistent st'.
Proof.
  intros Hc Hlen. pose proof Hc as Hc0.
  apply consistent_iff in Hc. destruct Hc as [Hl Hf].
  unfold uds_read.
  destruct ((minor <? 0) || (minor >=? NR_FDS)); [eauto|].
  destruct (fd_state_eqb (state (slot st minor)) UDS_INUSE) eqn:Es;
    simpl negb; cbv iota; [|eauto].
  apply fd_state_eqb_eq in Es.
  destruct (Hf) as [Hg Hfl]. destruct (Hfl minor Es) as [Hnw Hnr].
  destruct (perform_read_gen (uds_unsuspend (S fuel)) minor endpt grant len st)
    as (r & st1 & Hrun & Hio & Hres); try assumption.
  - now apply inuse_in_table.
  - intros Hz Hp Hw. specialize (Hnw Hp Hw). lia.
  - intros Hp Hw s Hd. now apply wake_writer_spec.
  - unfold uds_perform_read. rewrite Hrun. simpl bind.
    assert (Hg1 : good st1).
    { eapply good_perform_read_body; [apply good_unsuspend| | |exact Hrun];
        assumption. }
    destruct (Z.eqb_spec r EDONTREPLY) as [E|E].
    + destruct (Hres E) as (-> & Hz & _).
      set (st2 := modify minor _ st).
      assert (Hc2 : consistent st2).
      { apply consistent_iff. split.
        - apply links_modify; [exact Hl|]. intros fd. repeat split.
        - now apply flow_suspend_read. }
      destruct (negb (Z.land flags CDEV_NONBLOCK =? 0)); [|eauto].
      eexists _, _. split; [reflexivity|].
      eapply consistent_io_rel; [exact Hc2| |].
      * apply io_rel_cancel, io_rel_refl.
      * apply good_cancel. apply consistent_iff in Hc2. apply Hc2.
    + eexists _, _. split; [reflexivity|].
      eapply consistent_io_rel; eauto.
Qed.

Lemma consistent_write fuel minor position endpt grant len flags id st :
  consistent st -> is_size_t len ->
  exists r st',
    uds_write (S fuel) minor position endpt grant len flags id st
    = Ret r st' /\ consistent st'.
Proof.
  intros Hc Hlen. pose proof Hc as Hc0.
  apply consistent_iff in Hc. destruct Hc as [Hl Hf].
  unfold uds_write.
  destruct ((minor <? 0) || (minor >=? NR_FDS)); [eauto|].
  destruct (fd_state_eqb (state (slot st minor)) UDS_INUSE) eqn:Es;
    simpl negb; cbv iota; [|eauto].
  apply fd_state_eqb_eq in Es.
  destruct (Hf) as [Hg Hfl].
  destruct (perform_write_gen (uds_unsuspend (S fuel)) minor endpt grant len st)
    as (r & st1 & Hrun & Hio & Hres); try assumption.
  - intros d Ed. destruct (write_peer_dest st minor d Hl Es Ed) as [Hin Hd].
    split; [exact Hin|]. split; [exact Hd|].
    destruct (Hfl d Hd) as [_ Hnr]. split.
    + intros Hpos Hr. specialize (Hnr Hr). lia.
    + intros Hr s Hdep. now apply wake_reader_spec with (st := st).
  - unfold uds_perform_write. rewrite Hrun. simpl bind.
    assert (Hg1 : good st1).
    { eapply good_perform_write_body; [apply good_unsuspend| | |exact Hrun];
        assumption. }
    destruct (Z.eqb_spec r EDONTREPLY) as [E|E].
    + destruct (Hres E) as (-> & Hb).
      set (st2 := modify minor _ st).
      assert (Hc2 : consistent st2).
      { apply consistent_iff. split.
        - apply links_modify; [exact Hl|]. intros fd. repeat split.
        - now apply flow_suspend_write. }
      destruct (negb (Z.land flags CDEV_NONBLOCK =? 0)); [|eauto].
      eexists _, _. split; [reflexivity|].
      eapply consistent_io_rel; [exact Hc2| |].
      * apply io_rel_cancel, io_rel_refl.
      * apply good_cancel. apply consistent_iff in Hc2. apply Hc2.
    + eexists _, _. split; [reflexivity|].
      eapply consistent_io_rel; eauto.
Qed.

(** *** Select, cancel and open *)

Lemma perform_read_pretend U minor endpt grant len st :
  exists r, uds_perform_read_body U minor endpt grant len true st = Ret r st.
Proof.
  unfold uds_perform_read_body.
  repeat match goal with
         | |- context [if ?c then _ else _] => destruct c
         end; eauto.
Qed.

Lemma perform_write_pretend U minor endpt grant len st :
  exists r, uds_perform_write_body U minor endpt grant len true st = Ret r st.
Proof.
  unfold uds_perform_write_body, write_peer.
  repeat match goal with
         | |- context [if ?c then _ else _] => destruct c
         | |- context [match locate_peer ?t ?m with _ => _ end] =>
             destruct (locate_peer t m)
         end; eauto.
Qed.

Lemma consistent_select fuel minor ops endpt st :
  consistent st ->
  exists r st', uds_select fuel minor ops endpt st = Ret r st' /\
                consistent st'.
Proof.
  intros Hc. unfold uds_select.
  destruct ((minor <? 0) || (minor >=? NR_FDS)); [eauto|].
  destruct (negb (fd_state_eqb (state (slot st minor)) UDS_INUSE)); [eauto|].
  cbv zeta.
  match goal with
  | |- exists r st', bind ?m _ = _ /\ _ =>
      assert (H1 : exists x, m = Ret x st)
  end.
  { destruct (negb (Z.land _ CDEV_OP_RD =? 0)); [|eauto].
    unfold uds_perform_read.
    destruct (perform_read_pretend (uds_unsuspend fuel) minor NONE
                GRANT_INVALID 1 st) as [b ->]. simpl bind.
    repeat match goal with
           | |- context [if ?c then _ else _] => destruct c
           end; eauto. }
  destruct H1 as [x ->]. simpl bind.
  match goal with
  | |- exists r st', bind ?m _ = _ /\ _ =>
      assert (H2 : exists y, m = Ret y st)
  end.
  { destruct (negb (Z.land _ CDEV_OP_WR =? 0)); [|eauto].
    unfold uds_perform_write.
    destruct (perform_write_pretend (uds_unsuspend fuel) minor NONE
                GRANT_INVALID 1 st) as [b ->]. simpl bind.
    destruct (negb (b =? 0) && negb (b =? EDONTREPLY)); eauto. }
  destruct H2 as [y ->]. simpl bind.
  eexists _, _. split; [reflexivity|].
  match goal with
  | |- context [if ?c then _ else _] => destruct c
  end; [|exact Hc].
  eapply consistent_io_rel; [exact Hc| |].
  - apply io_rel_quiet; [apply io_rel_refl|]. intros fd. repeat split.
  - apply consistent_iff in Hc. destruct Hc as [_ [Hg _]]. good_setter.
Qed.

Lemma consistent_cancel minor endpt id st :
  consistent st -> consistent (snd (uds_cancel minor endpt id st)).
Proof.
  intros Hc. eapply consistent_io_rel; [exact Hc| |].
  - apply io_rel_cancel, io_rel_refl.
  - apply good_cancel. apply consistent_iff in Hc. apply Hc.
Qed.

(** A free slot is taken into use as an isolated socket. *)
Lemma consistent_fresh st m f :
  consistent st ->
  state (slot st m) = UDS_FREE ->
  (forall fd, fd_good fd ->
              state (f fd) = UDS_INUSE /\ peer (f fd) = -1 /\
              listening (f fd) = 0 /\
              suspended (f fd) = UDS_NOT_SUSPENDED /\ fd_good (f fd)) ->
  consistent (modify m f st).
Proof.
  intros Hc Hm Hf0. apply consistent_iff in Hc.
  destruct Hc as [(Ht & Hfree & Hlk) (Hg & Hfl)].
  assert (Hf : forall j,
             state (f (slot st j)) = UDS_INUSE /\ peer (f (slot st j)) = -1 /\
             listening (f (slot st j)) = 0 /\
             suspended (f (slot st j)) = UDS_NOT_SUSPENDED /\
             fd_good (f (slot st j)))
    by (intros j; apply Hf0, Hg).
  assert (Hcases : forall j,
             (j = m /\ slot (modify m f st) j = f (slot st j)) \/
             slot (modify m f st) j = slot st j)
    by (intros j; destruct (slot_modify_cases m f st j) as [[-> ->]| ->]; auto).
  assert (Hsame : forall q, state (slot st q) = UDS_INUSE ->
                            slot (modify m f st) q = slot st q).
  { intros q Hq. apply slot_modify_other. congruence. }
  apply consistent_iff. split; [split; [|split]|split].
  - unfold table_ok in *. now rewrite table_length_modify.
  - intros x Hx. destruct (Hcases x) as [[_ E]|E]; rewrite E in *.
    + destruct (Hf x) as (Hs & _). congruence.
    + now apply Hfree.
  - intros x Hx. destruct (Hcases x) as [[_ E]|E].
    + destruct (Hf x) as (_ & Hp & Hli & _). split.
      * unfold link_ok. cbv zeta. rewrite E, Hp. intros H. contradiction.
      * unfold backlog_ok. rewrite E, Hli. intros H. contradiction.
    + rewrite E in Hx. destruct (Hlk x Hx) as [Hlx Hbx]. split.
      * unfold link_ok in *. cbv zeta in *. rewrite E. intros Hp.
        destruct (Hlx Hp) as (H1 & H2 & H3 & H4 & H5 & H6).
        rewrite (Hsame _ H3). repeat split; assumption || lia.
      * unfold backlog_ok in *. rewrite E. intros Hli.
        destruct (Hbx Hli) as [Hp He]. split; [exact Hp|].
        intros i Hi Hne. destruct (He i Hi Hne) as (H1 & H2 & H3 & H4).
        rewrite (Hsame _ H2). repeat split; assumption || lia.
  - intros j. destruct (Hcases j) as [[_ E]|E]; rewrite E;
      [apply Hf|apply Hg].
  - intros x Hx. destruct (Hcases x) as [[_ E]|E].
    + destruct (Hf x) as (_ & Hp & _ & Hs & _). split.
      * unfold no_writer_on_empty. rewrite E, Hp. intros H. contradiction.
      * unfold no_reader_on_data. rewrite E, Hs. discriminate.
    + rewrite E in Hx. destruct (Hfl x Hx) as [Hnw Hnr]. split.
      * unfold no_writer_on_empty in *. rewrite E. intros Hp.
        destruct (Hcases (peer (slot st x))) as [[_ E']|E']; rewrite E'.
        -- destruct (Hf (peer (slot st x))) as (_ & _ & _ & -> & _).
           discriminate.
        -- now apply Hnw.
      * unfold no_reader_on_data in *. rewrite E. exact Hnr.
Qed.

Lemma consistent_open orig_minor access user_endpt mmap_ok st :
  consistent st ->
  consistent (snd (uds_open orig_minor access user_endpt mmap_ok st)).
Proof.
  intros Hc. unfold uds_open.
  destruct (find _ _) as [m|] eqn:Ef; [|exact Hc].
  destruct (negb mmap_ok); [exact Hc|]. simpl snd.
  apply find_some in Ef. destruct Ef as [_ Ef].
  apply fd_state_eqb_eq in Ef.
  apply consistent_fresh; [exact Hc|exact Ef|].
  intros fd [_ Hty]. simpl.
  split; [reflexivity|]. split; [reflexivity|]. split; [reflexivity|].
  split; [reflexivity|]. split; [|exact Hty].
  intros _. simpl. lia.
Qed.

(** *** Close *)

Lemma flow_table st st' :
  uds_fd_table st' = uds_fd_table st -> flow st -> flow st'.
Proof.
  intros Ht H. unfold flow, good, no_writer_on_empty, no_reader_on_data,
    slot in *. rewrite Ht. exact H.
Qed.

Lemma links_table st st' :
  uds_fd_table st' = uds_fd_table st -> links st -> links st'.
Proof.
  intros Ht H. eapply links_frame; [exact H|now rewrite Ht|].
  intros j. unfold slot. rewrite Ht. apply frame_same_refl.
Qed.

(** Releasing a slot keeps the flow conditions. *)
Lemma flow_free st minor :
  flow st -> flow (modify minor (fun _ => fd_zero) st).
Proof.
  intros (Hg & Hfl).
  set (f := fun _ : uds_fd => fd_zero).
  assert (Hcases : forall j,
             slot (modify minor f st) j = fd_zero \/
             slot (modify minor f st) j = slot st j)
    by (intros j; destruct (slot_modify_cases minor f st j) as [[_ ->]| ->];
        auto).
  split.
  { intros j. destruct (Hcases j) as [E|E]; rewrite E;
      [apply fd_good_zero|apply Hg]. }
  intros x Hx. destruct (Hcases x) as [E|E]; rewrite E in Hx;
    [discriminate|].
  destruct (Hfl x Hx) as [Hnw Hnr]. split.
  - unfold no_writer_on_empty in *. rewrite E. intros Hp.
    destruct (Hcases (peer (slot st x))) as [E'|E']; rewrite E';
      [discriminate|now apply Hnw].
  - unfold no_reader_on_data in *. rewrite E. exact Hnr.
Qed.

(** The links after uds_close, from the links before it. *)
Lemma links_close st st' minor :
  links st ->
  state (slot st minor) = UDS_INUSE ->
  unhooked st minor st' ->
  slot st' minor = fd_zero ->
  links st'.
Proof.
  intros (Ht & Hfree & Hlk) Hm (Hlen & Hsh & Hpe & Hba) Hz.
  assert (Hm0 : 0 <= minor) by (apply inuse_in_table in Hm; apply Hm).
  split; [unfold table_ok in *; congruence|].
  split.
  { intros x Hx. destruct (Z.eq_dec x minor) as [->|Hne].
    - rewrite Hz. discriminate.
    - destruct (Hsh x Hne) as (Es & Et & _). rewrite Et. apply Hfree.
      congruence. }
  intros x Hx.
  assert (Hne : x <> minor) by (intros ->; rewrite Hz in Hx; discriminate).
  destruct (Hsh x Hne) as (Es & Et & Eli & Ebs).
  rewrite Es in Hx. destruct (Hlk x Hx) as [Hlx Hbx].
  pose proof (Hpe x Hne Hx) as Hpx. split.
  - unfold link_ok in *. cbv zeta in *. rewrite Hpx.
    destruct (Z.eqb_spec (peer (slot st x)) minor) as [Ep|Ep];
      [intros H; contradiction|].
    intros Hp. destruct (Hlx Hp) as (H1 & H2 & H3 & H4 & H5 & H6).
    set (q := peer (slot st x)) in *.
    destruct (Hsh q Ep) as (Eqs & Eqt & Eqli & Eqbs).
    pose proof (Hpe q Ep H3) as Hpq.
    split; [exact H1|]. split; [exact H2|]. split; [congruence|].
    split; [unfold conn_type in *; congruence|].
    split; [unfold conn_type in *; congruence|].
    rewrite Hpq, Eqli.
    destruct H6 as [H6|(H6 & H7 & i & Hi & H8)].
    + left. rewrite H6. destruct (Z.eqb_spec x minor); [contradiction|].
      reflexivity.
    + right. rewrite H6. destruct (Z.eqb_spec (-1) minor); [lia|].
      split; [reflexivity|]. split; [exact H7|].
      exists i. rewrite Eqbs. split; [exact Hi|].
      rewrite (Hba q Ep H3 H7 i Hi), H8.
      destruct (Z.eqb_spec x minor); [contradiction|reflexivity].
  - unfold backlog_ok in *. rewrite Eli, Hpx, Ebs. intros Hli.
    destruct (Hbx Hli) as [Hp He]. rewrite Hp.
    destruct (Z.eqb_spec (-1) minor); [lia|]. split; [reflexivity|].
    intros i Hi. rewrite (Hba x Hne Hx Hli i Hi).
    destruct (Z.eqb_spec (backlog_at (slot st x) i) minor) as [Ee|Ee];
      [intros H; contradiction|].
    intros Hn. destruct (He i Hi Hn) as (H1 & H2 & H3 & H4).
    set (e := backlog_at (slot st x) i) in *.
    destruct (Hsh e Ee) as (Ees & _).
    split; [exact H1|]. split; [congruence|].
    split.
    { rewrite (Hpe e Ee H2), H3.
      destruct (Z.eqb_spec x minor); [contradiction|reflexivity]. }
    intros j Hj. rewrite (Hba x Hne Hx Hli j Hj).
    destruct (Z.eqb_spec (backlog_at (slot st x) j) minor) as [Ej|Ej].
    + intros E. exfalso. apply Hn. now rewrite <- E.
    + apply H4. exact Hj.
Qed.

(** uds_reset on a connection-oriented socket: the peer link is cut and
    a suspended request is completed. *)
Lemma reset_spec fuel p st :
  good st ->
  in_table st p ->
  state (slot st p) = UDS_INUSE ->
  conn_type (slot st p) ->
  exists st',
    uds_reset (S fuel) p st = Ret tt st' /\
    io_rel (modify p (set_peer (-1)) st) st' /\ good st'.
Proof.
  intros Hg Hin Hst Hc. unfold uds_reset.
  set (st1 := modify p (set_peer (-1)) st).
  set (st2 := modify p (set_err ECONNRESET) st1).
  assert (Hg2 : good st2) by (subst st1 st2; good_setter).
  assert (H2 : slot st2 p = set_err ECONNRESET (set_peer (-1) (slot st p))).
  { subst st1 st2. rewrite slot_modify_same by in_tbl.
    now rewrite slot_modify_same by assumption. }
  assert (Hw : exists s3,
             (if negb (suspension_eqb (suspended (slot st2 p))
                         UDS_NOT_SUSPENDED)
              then uds_unsuspend (S fuel) p st2 else Ret tt st2) = Ret tt s3 /\
             io_rel st1 s3 /\ good s3).
  { destruct (suspension_eqb (suspended (slot st2 p)) UDS_NOT_SUSPENDED)
      eqn:E; simpl negb; cbv iota.
    - exists st2. split; [reflexivity|]. split; [|exact Hg2].
      apply io_rel_quiet; [apply io_rel_refl|apply quiet_set_err].
    - apply suspension_eqb_neq in E.
      destruct (unsuspend_unlinked fuel p st2) as (s3 & Hrun & Hio & _);
        try assumption.
      + subst st1 st2. in_tbl.
      + now rewrite H2.
      + now rewrite H2.
      + rewrite H2. exact Hc.
      + exists s3. split; [exact Hrun|]. split.
        * eapply io_rel_quiet_l; [apply (quiet_set_err ECONNRESET)|exact Hio].
        * eapply good_unsuspend; eauto. }
  destruct Hw as (s3 & -> & Hio3 & Hg3). simpl bind.
  destruct (negb (sel_ops (slot s3 p) =? 0)).
  - eexists. split; [reflexivity|]. split; [|good_setter].
    apply io_rel_quiet; [apply io_rel_emit; exact Hio3|].
    intros fd. repeat split.
  - exists s3. auto.
Qed.

Lemma reset_frames st e st1 :
  in_table st e ->
  io_rel (modify e (set_peer (-1)) st) st1 ->
  zlength (uds_fd_table st1) = zlength (uds_fd_table st) /\
  forall j, shape_same (slot st j) (slot st1 j) /\
            backlog (slot st1 j) = backlog (slot st j) /\
            peer (slot st1 j) = if j =? e then -1 else peer (slot st j).
Proof.
  intros Hin (Hl & Hf & _). rewrite table_length_modify in Hl.
  split; [exact Hl|]. intros j.
  destruct (Hf j) as (Es & Et & Ep & Eli & Eb & Ebs).
  destruct (Z.eqb_spec j e) as [->|Hne].
  - rewrite slot_modify_same in * by assumption. simpl in *.
    repeat split; assumption.
  - rewrite slot_modify_other in * by auto. repeat split; assumption.
Qed.

(** The loop of uds_close over the backlog of a server. *)
Lemma reset_backlog_spec fuel minor idx : forall st,
  flow st ->
  (forall i, In i idx -> backlog_at (slot st minor) i <> -1 ->
     in_table st (backlog_at (slot st minor) i) /\
     state (slot st (backlog_at (slot st minor) i)) = UDS_INUSE /\
     conn_type (slot st (backlog_at (slot st minor) i))) ->
  exists st',
    reset_backlog (S fuel) minor idx st = Ret tt st' /\ flow st' /\
    zlength (uds_fd_table st') = zlength (uds_fd_table st) /\
    forall j,
      shape_same (slot st j) (slot st' j) /\
      backlog (slot st' j) = backlog (slot st j) /\
      (backlog_entry st minor idx j -> peer (slot st' j) = -1) /\
      (~ backlog_entry st minor idx j ->
       peer (slot st' j) = peer (slot st j)) /\
      (peer (slot st' j) = peer (slot st j) \/ peer (slot st' j) = -1).
Proof.
  induction idx as [|i idx IH]; intros st Hfl He.
  - exists st. split; [reflexivity|]. split; [exact Hfl|].
    split; [reflexivity|]. intros j.
    split; [repeat split|]. split; [reflexivity|].
    split; [intros (k & [] & _)|]. auto.
  - cbn [reset_backlog].
    set (e := backlog_at (slot st minor) i).
    assert (H1 : exists st1,
               (if negb (e =? -1) then uds_reset (S fuel) e st
                else Ret tt st) = Ret tt st1 /\ flow st1 /\
               zlength (uds_fd_table st1) = zlength (uds_fd_table st) /\
               forall j, shape_same (slot st j) (slot st1 j) /\
                         backlog (slot st1 j) = backlog (slot st j) /\
                         peer (slot st1 j) =
                         if (j =? e) && negb (e =? -1) then -1
                         else peer (slot st j)).
    { destruct (Z.eqb_spec e (-1)) as [Ee|Ee]; simpl negb; cbv iota.
      - exists st. split; [reflexivity|]. split; [exact Hfl|].
        split; [reflexivity|]. intros j. rewrite andb_false_r.
        split; [repeat split|]. auto.
      - destruct (He i (or_introl eq_refl) Ee) as (Hin & Hs & Hc).
        fold e in Hin, Hs, Hc.
        destruct (reset_spec fuel e st) as (st1 & Hrun & Hio & Hg1);
          try assumption; [apply Hfl|].
        exists st1. split; [exact Hrun|].
        split; [eapply flow_io_rel; [apply flow_unlink; exact Hfl|
                                     exact Hio|exact Hg1]|].
        destruct (reset_frames st e st1 Hin Hio) as [Hl Hfr].
        split; [exact Hl|]. intros j. rewrite andb_true_r. apply Hfr. }
    destruct H1 as (st1 & -> & Hfl1 & Hl1 & Hfr1). simpl bind.
    assert (Hba : forall k, backlog_at (slot st1 minor) k
                            = backlog_at (slot st minor) k).
    { intros k. unfold backlog_at.
      destruct (Hfr1 minor) as (_ & -> & _). reflexivity. }
    destruct (IH st1) as (st' & Hrun & Hfl' & Hl' & Hfr'); [exact Hfl1| |].
    { intros k Hk. rewrite Hba. intros Hn.
      destruct (He k (or_intror Hk) Hn) as (Hin & Hs & Hc).
      destruct (Hfr1 (backlog_at (slot st minor) k))
        as ((Es & Et & _) & _).
      split; [unfold in_table in *; lia|].
      split; [congruence|]. unfold conn_type in *. now rewrite Et. }
    exists st'. split; [exact Hrun|]. split; [exact Hfl'|].
    split; [lia|]. intros j.
    destruct (Hfr1 j) as ((Es1 & Et1 & Eli1 & Ebs1) & Eb1 & Ep1).
    destruct (Hfr' j) as ((Es' & Et' & Eli' & Ebs') & Eb' & Hin' & Hout' & Hor').
    split; [repeat split; congruence|]. split; [congruence|].
    assert (Hent : forall k, backlog_entry st1 minor idx k <->
                             backlog_entry st minor idx k).
    { intros k. unfold backlog_entry. split; intros (m & Hm & Hb & Hn);
        exists m; rewrite Hba in *; auto. }
    split; [|split].
    + intros (k & [<-|Hk] & Hb & Hn).
      * fold e in Hb. subst j.
        assert (Ep : peer (slot st1 e) = -1).
        { rewrite Ep1, Z.eqb_refl.
          destruct (Z.eqb_spec e (-1)); [contradiction|reflexivity]. }
        destruct Hor' as [E|E]; congruence.
      * apply Hin'. apply Hent. exists k. auto.
    + intros Hno. rewrite Hout'.
      * rewrite Ep1. destruct (Z.eqb_spec j e) as [Ej|Ej]; [|reflexivity].
        destruct (Z.eqb_spec e (-1)) as [Ee|Ee]; [reflexivity|].
        exfalso. apply Hno. exists i. split; [now left|].
        fold e. split; [now rewrite Ej|congruence].
      * intros Hy. apply Hno. apply Hent in Hy.
        destruct Hy as (k & Hk & Hb & Hn). exists k. split; [now right|auto].
    + destruct Hor' as [E|E]; [|now right]. rewrite E, Ep1.
      destruct ((j =? e) && negb (e =? -1)); auto.
Qed.

Lemma in_zrange lo hi i : In i (zrange lo hi) <-> lo <= i < hi.
Proof.
  unfold zrange. rewrite in_map_iff. split.
  - intros (k & <- & Hk). apply in_seq in Hk. lia.
  - intros H. exists (Z.to_nat (i - lo)). split; [lia|].
    apply in_seq. lia.
Qed.

Lemma backlog_clear_nth l : forall n m k,
  nth k (backlog_clear l n m) (-1) = nth k l (-1) \/
  (nth k l (-1) = m /\ nth k (backlog_clear l n m) (-1) = -1).
Proof.
  induction l as [|x l IH]; intros [|n] m k; simpl; auto.
  destruct (Z.eqb_spec x m) as [->|Hne].
  - destruct k; simpl; auto.
  - destruct k; simpl; auto.
Qed.

Lemma backlog_clear_gone l : forall n m,
  m <> -1 ->
  (forall a b, (a < n)%nat -> (b < n)%nat ->
     nth a l (-1) = m -> nth b l (-1) = m -> a = b) ->
  forall k, (k < n)%nat -> nth k (backlog_clear l n m) (-1) <> m.
Proof.
  induction l as [|x l IH]; intros [|n] m Hm Hu k Hk; simpl; try lia.
  - destruct k; congruence.
  - destruct (Z.eqb_spec x m) as [->|Hne].
    + destruct k; simpl; [congruence|].
      intros E. specialize (Hu 0%nat (S k)). simpl in Hu.
      assert (0 = S k)%nat by (apply Hu; auto; lia). discriminate.
    + destruct k; simpl; [exact Hne|].
      apply IH; [exact Hm| |lia].
      intros a b Ha Hb Ea Eb.
      assert (S a = S b) by (apply Hu; auto; lia). congruence.
Qed.

(** Who points to a socket, in a table with consistent links. *)
Lemma links_peer_of st minor j :
  links st -> state (slot st j) = UDS_INUSE -> peer (slot st j) = minor ->
  minor <> -1 ->
  peer (slot st minor) = j \/
  (peer (slot st minor) = -1 /\ listening (slot st minor) <> 0 /\
   in_backlog (slot st minor) j).
Proof.
  intros (_ & _ & Hlk) Hj Hp Hm. destruct (Hlk j Hj) as [Hl _].
  unfold link_ok in Hl. cbv zeta in Hl. rewrite Hp in Hl.
  destruct (Hl Hm) as (_ & _ & _ & _ & _ & H). exact H.
Qed.

Lemma links_entry_of st minor j i :
  links st -> state (slot st j) = UDS_INUSE -> listening (slot st j) <> 0 ->
  0 <= i < backlog_size (slot st j) ->
  backlog_at (slot st j) i = minor -> minor <> -1 ->
  peer (slot st minor) = j.
Proof.
  intros (_ & _ & Hlk) Hj Hli Hi He Hm. destruct (Hlk j Hj) as [_ Hb].
  destruct (Hb Hli) as [_ Hent]. rewrite <- He in Hm.
  destruct (Hent i Hi Hm) as (_ & _ & Hp & _). now rewrite He in Hp.
Qed.

(** Closing a socket that nobody refers to. *)
Lemma close_isolated st minor :
  links st ->
  state (slot st minor) = UDS_INUSE ->
  peer (slot st minor) = -1 ->
  listening (slot st minor) = 0 ->
  unhooked st minor st.
Proof.
  intros Hl Hm Hp Hli.
  assert (Hm0 : minor <> -1)
    by (apply inuse_in_table in Hm; unfold in_table in Hm; lia).
  split; [reflexivity|]. split; [intros; repeat split|]. split.
  - intros j Hne Hj.
    destruct (Z.eqb_spec (peer (slot st j)) minor) as [E|E]; [|reflexivity].
    exfalso. pose proof (inuse_in_table _ _ Hj) as Hjr. unfold in_table in Hjr.
    destruct (links_peer_of st minor j Hl Hj E Hm0) as [H|(_ & H & _)];
      [lia|contradiction].
  - intros j Hne Hj Hlj i Hi.
    destruct (Z.eqb_spec (backlog_at (slot st j) i) minor) as [E|E];
      [|reflexivity].
    exfalso. pose proof (inuse_in_table _ _ Hj) as Hjr. unfold in_table in Hjr.
    pose proof (links_entry_of st minor j i Hl Hj Hlj Hi E Hm0). lia.
Qed.

(** Closing a connecting socket: it is cleared from the backlog of its
    server. *)
Lemma close_connecting st minor :
  links st ->
  state (slot st minor) = UDS_INUSE ->
  peer (slot st minor) <> -1 ->
  peer (slot st (peer (slot st minor))) = -1 ->
  unhooked st minor
    (modify (peer (slot st minor))
       (fun f => set_backlog
                   (backlog_clear (backlog f) (Z.to_nat (backlog_size f))
                      minor) f) st).
Proof.
  intros Hl Hm Hp Hpp.
  assert (Hm0 : 0 <= minor)
    by (apply inuse_in_table in Hm; unfold in_table in Hm; lia).
  set (p := peer (slot st minor)) in *.
  set (f := fun f : uds_fd => set_backlog _ f).
  assert (Hcases : forall j,
             (j = p /\ in_table st p /\ slot (modify p f st) j = f (slot st j))
             \/ (slot (modify p f st) j = slot st j /\
                 (j <> p \/ ~ in_table st p))).
  { intros j. destruct (in_table_dec st p) as [Hin|Hout].
    - destruct (Z.eq_dec j p) as [->|Hne].
      + left. rewrite slot_modify_same by assumption. auto.
      + right. rewrite slot_modify_other by auto. auto.
    - right. rewrite slot_modify_out by assumption. auto. }
  split; [apply table_length_modify|]. split; [|split].
  - intros j _. destruct (Hcases j) as [(_ & _ & ->)|[-> _]]; repeat split.
  - intros j Hne Hj.
    assert (E : peer (slot (modify p f st) j) = peer (slot st j))
      by (destruct (Hcases j) as [(_ & _ & ->)|[-> _]]; reflexivity).
    rewrite E.
    destruct (Z.eqb_spec (peer (slot st j)) minor) as [Ej|Ej]; [|reflexivity].
    exfalso.
    destruct (links_peer_of st minor j Hl Hj Ej ltac:(lia)) as [H|(H & _)].
    + fold p in H. subst j. lia.
    + contradiction.
  - intros j Hne Hj Hlj i Hi.
    destruct (Hcases j) as [(-> & Hin & ->)|[-> Hother]].
    + unfold backlog_at. destruct (Z.ltb_spec i 0); [lia|]. simpl backlog.
      destruct Hl as (_ & _ & Hlk). destruct (Hlk p Hj) as [_ Hb].
      destruct (Hb Hlj) as [_ Hent].
      assert (Hgone : nth (Z.to_nat i)
                        (backlog_clear (backlog (slot st p))
                           (Z.to_nat (backlog_size (slot st p))) minor) (-1)
                      <> minor).
      { apply backlog_clear_gone; [lia| |lia].
        intros a b Ha Hb' Ea Eb.
        assert (Ha' : 0 <= Z.of_nat a < backlog_size (slot st p)) by lia.
        assert (Hb2 : 0 <= Z.of_nat b < backlog_size (slot st p)) by lia.
        assert (Eza : backlog_at (slot st p) (Z.of_nat a) = minor).
        { unfold backlog_at. destruct (Z.ltb_spec (Z.of_nat a) 0); [lia|].
          now rewrite Nat2Z.id. }
        assert (Ezb : backlog_at (slot st p) (Z.of_nat b) = minor).
        { unfold backlog_at. destruct (Z.ltb_spec (Z.of_nat b) 0); [lia|].
          now rewrite Nat2Z.id. }
        destruct (Hent (Z.of_nat a) Ha') as (_ & _ & _ & Hu); [lia|].
        specialize (Hu (Z.of_nat b) Hb2). rewrite Eza, Ezb in Hu.
        specialize (Hu eq_refl). lia. }
      destruct (backlog_clear_nth (backlog (slot st p))
                  (Z.to_nat (backlog_size (slot st p))) minor (Z.to_nat i))
        as [E|[E1 E2]].
      * rewrite E in *.
        destruct (Z.eqb_spec (nth (Z.to_nat i) (backlog (slot st p)) (-1))
                    minor); [contradiction|reflexivity].
      * rewrite E1, E2, Z.eqb_refl. reflexivity.
    + destruct (Z.eqb_spec (backlog_at (slot st j) i) minor) as [E|E];
        [|reflexivity].
      exfalso.
      pose proof (links_entry_of st minor j i Hl Hj Hlj Hi E ltac:(lia)) as H.
      fold p in H. destruct Hother as [Ho|Ho]; [congruence|].
      apply Ho. subst j. now apply inuse_in_table.
Qed.

(** Closing a connected socket: its peer is reset. *)
Lemma close_connected fuel st minor :
  links st -> flow st ->
  state (slot st minor) = UDS_INUSE ->
  peer (slot st minor) <> -1 ->
  peer (slot st (peer (slot st minor))) <> -1 ->
  exists st1,
    uds_reset (S fuel) (peer (slot st minor)) st = Ret tt st1 /\
    flow st1 /\ unhooked st minor st1.
Proof.
  intros Hl Hfl Hm Hp Hpp.
  assert (Hm0 : 0 <= minor)
    by (apply inuse_in_table in Hm; unfold in_table in Hm; lia).
  pose proof Hl as (Ht & _ & Hlk).
  destruct (Hlk minor Hm) as [Hlm _]. unfold link_ok in Hlm. cbv zeta in Hlm.
  destruct (Hlm Hp) as (Hr & Hne & Hs & _ & Hc & Hback).
  set (p := peer (slot st minor)) in *.
  assert (Hpm : peer (slot st p) = minor)
    by (destruct Hback as [E|[E _]]; [exact E|contradiction]).
  assert (Hin : in_table st p) by (now apply inuse_in_table).
  destruct (reset_spec fuel p st) as (st1 & Hrun & Hio & Hg1);
    try assumption; [apply Hfl|].
  exists st1. split; [exact Hrun|].
  split; [eapply flow_io_rel; [apply flow_unlink; exact Hfl|exact Hio|
                               exact Hg1]|].
  destruct (reset_frames st p st1 Hin Hio) as [Hlen Hfr].
  split; [exact Hlen|]. split; [intros j _; apply Hfr|]. split.
  - intros j Hj Hsj. destruct (Hfr j) as (_ & _ & ->).
    destruct (Z.eqb_spec j p) as [->|Hjp].
    + rewrite Hpm, Z.eqb_refl. reflexivity.
    + destruct (Z.eqb_spec (peer (slot st j)) minor) as [E|E]; [|reflexivity].
      exfalso.
      destruct (links_peer_of st minor j Hl Hsj E ltac:(lia)) as [H|(H & _)].
      * fold p in H. congruence.
      * contradiction.
  - intros j Hj Hsj Hlj i Hi.
    assert (E : backlog_at (slot st1 j) i = backlog_at (slot st j) i).
    { unfold backlog_at. destruct (Hfr j) as (_ & -> & _). reflexivity. }
    rewrite E.
    destruct (Z.eqb_spec (backlog_at (slot st j) i) minor) as [Ee|Ee];
      [|reflexivity].
    exfalso.
    pose proof (links_entry_of st minor j i Hl Hsj Hlj Hi Ee ltac:(lia)) as H.
    fold p in H. subst j.
    destruct (Hlk p Hs) as [_ Hb]. destruct (Hb Hlj) as [Hb1 _]. lia.
Qed.

(** Closing a listening socket: the sockets in its backlog are reset. *)
Lemma close_listening fuel st minor :
  links st -> flow st ->
  state (slot st minor) = UDS_INUSE ->
  peer (slot st minor) = -1 ->
  listening (slot st minor) <> 0 ->
  exists st1,
    reset_backlog (S fuel) minor
      (zrange 0 (backlog_size (slot st minor))) st = Ret tt st1 /\
    flow st1 /\ unhooked st minor st1.
Proof.
  intros Hl Hfl Hm Hp Hli.
  assert (Hm0 : 0 <= minor)
    by (apply inuse_in_table in Hm; unfold in_table in Hm; lia).
  pose proof Hl as (Ht & _ & Hlk).
  destruct (Hlk minor Hm) as [_ Hbm]. destruct (Hbm Hli) as [_ Hent].
  destruct (reset_backlog_spec fuel minor
              (zrange 0 (backlog_size (slot st minor))) st)
    as (st1 & Hrun & Hfl1 & Hlen & Hfr); [exact Hfl| |].
  { intros i Hi Hn. apply in_zrange in Hi.
    destruct (Hent i Hi Hn) as (H1 & H2 & H3 & _).
    split; [unfold in_table, table_ok in *; lia|]. split; [exact H2|].
    destruct (Hlk _ H2) as [Hle _]. unfold link_ok in Hle. cbv zeta in Hle.
    rewrite H3 in Hle. destruct (Hle ltac:(lia)) as (_ & _ & _ & Hc & _).
    exact Hc. }
  exists st1. split; [exact Hrun|]. split; [exact Hfl1|].
  split; [exact Hlen|]. split; [intros j _; apply Hfr|]. split.
  - intros j Hj Hsj. destruct (Hfr j) as (_ & _ & Hin & Hout & _).
    pose proof (inuse_in_table _ _ Hsj) as Hjr. unfold in_table in Hjr.
    destruct (Z.eqb_spec (peer (slot st j)) minor) as [E|E].
    + apply Hin.
      destruct (links_peer_of st minor j Hl Hsj E ltac:(lia))
        as [H|(_ & _ & i & Hi & Hb)]; [lia|].
      exists i. split; [now apply in_zrange|]. split; [exact Hb|lia].
    + apply Hout. intros (i & Hi & Hb & Hn). apply in_zrange in Hi.
      rewrite <- Hb in Hn. destruct (Hent i Hi Hn) as (_ & _ & H3 & _).
      rewrite Hb in H3. contradiction.
  - intros j Hj Hsj Hlj i Hi.
    pose proof (inuse_in_table _ _ Hsj) as Hjr. unfold in_table in Hjr.
    assert (E : backlog_at (slot st1 j) i = backlog_at (slot st j) i).
    { unfold backlog_at. destruct (Hfr j) as (_ & -> & _). reflexivity. }
    rewrite E.
    destruct (Z.eqb_spec (backlog_at (slot st j) i) minor) as [Ee|Ee];
      [|reflexivity].
    exfalso.
    pose proof (links_entry_of st minor j i Hl Hsj Hlj Hi Ee ltac:(lia)) as H.
    lia.
Qed.

Lemma unhooked_table st minor s s' :
  uds_fd_table s' = uds_fd_table s -> unhooked st minor s ->
  unhooked st minor s'.
Proof.
  intros Ht H. unfold unhooked, slot in *. rewrite Ht. exact H.
Qed.

Lemma unhooked_free st minor s :
  unhooked st minor s ->
  unhooked st minor (modify minor (fun _ => fd_zero) s).
Proof.
  intros (Hl & Hsh & Hp & Hb).
  split; [rewrite table_length_modify; exact Hl|].
  split; [|split].
  - intros j Hj. rewrite slot_modify_other by auto. now apply Hsh.
  - intros j Hj. rewrite slot_modify_other by auto. now apply Hp.
  - intros j Hj. rewrite slot_modify_other by auto. now apply Hb.
Qed.

(** The flow conditions do not look at the backlog. *)
Lemma flow_set_backlog st i v :
  flow st -> flow (modify i (fun f => set_backlog (v f) f) st).
Proof.
  intros (Hg & Hfl). split; [good_setter|].
  set (f := fun f => set_backlog (v f) f).
  assert (Hm : forall j,
             state (slot (modify i f st) j) = state (slot st j) /\
             size (slot (modify i f st) j) = size (slot st j) /\
             suspended (slot (modify i f st) j) = suspended (slot st j) /\
             peer (slot (modify i f st) j) = peer (slot st j)).
  { intros j. destruct (slot_modify_cases i f st j) as [[_ ->]| ->];
      repeat split. }
  intros x Hx. destruct (Hm x) as (Est & Esz & Esu & Epe).
  rewrite Est in Hx. destruct (Hfl x Hx) as [Hw Hr]. split.
  - unfold no_writer_on_empty in *. rewrite Esz, Epe.
    destruct (Hm (peer (slot st x))) as (_ & _ & -> & _). exact Hw.
  - unfold no_reader_on_data in *. rewrite Esz, Esu. exact Hr.
Qed.

Lemma consistent_close fuel minor st :
  consistent st ->
  exists r st', uds_close (S fuel) minor st = Ret r st' /\ consistent st'.
Proof.
  intros Hc. pose proof Hc as Hc0.
  apply consistent_iff in Hc. destruct Hc as [Hl Hfl].
  unfold uds_close.
  destruct ((minor <? 0) || (minor >=? NR_FDS)); [eauto|].
  destruct (fd_state_eqb (state (slot st minor)) UDS_INUSE) eqn:Es;
    simpl negb; cbv iota; [|eauto].
  apply fd_state_eqb_eq in Es. cbv zeta.
  pose proof (inuse_in_table _ _ Es) as Hin.
  match goal with
  | |- exists r st', bind ?m _ = _ /\ _ =>
      assert (H1 : exists st1, m = Ret tt st1 /\ flow st1 /\
                               unhooked st minor st1)
  end.
  { destruct (Z.eqb_spec (peer (slot st minor)) (-1)) as [Ep|Ep];
      simpl negb; cbv iota.
    - simpl andb. cbv iota.
      destruct (Z.eqb_spec (listening (slot st minor)) 0) as [El|El];
        simpl negb; cbv iota.
      + exists st. split; [reflexivity|]. split; [exact Hfl|].
        now apply close_isolated.
      + now apply close_listening.
    - destruct (Z.eqb_spec (peer (slot st (peer (slot st minor)))) (-1))
        as [Epp|Epp]; simpl andb; cbv iota.
      + pose proof Hl as (_ & _ & Hlk).
        destruct (Hlk minor Es) as [Hlm _].
        destruct (Hlm Ep) as (_ & _ & _ & _ & _ & Hback).
        destruct Hback as [E|(_ & Hli & _)];
          [unfold in_table in Hin; lia|].
        destruct (Z.eqb_spec (listening (slot st (peer (slot st minor)))) 0);
          [contradiction|].
        eexists. split; [reflexivity|]. split.
        * apply (flow_set_backlog st _
                   (fun f => backlog_clear (backlog f)
                               (Z.to_nat (backlog_size f)) minor)).
          exact Hfl.
        * now apply close_connecting.
      + now apply close_connected. }
  destruct H1 as (st1 & -> & Hfl1 & Hun). simpl bind.
  eexists _, _. split; [reflexivity|].
  set (st2 := if nfiledes (ancillary_data (slot st1 minor)) >? 0
              then emit (EvClearFds minor) st1 else st1).
  assert (Ht2 : uds_fd_table st2 = uds_fd_table st1)
    by (subst st2; destruct (_ >? 0); reflexivity).
  set (st3 := modify minor (fun _ => fd_zero) st2).
  assert (Hfl3 : flow st3)
    by (apply flow_free; eapply flow_table; eauto).
  assert (Hun3 : unhooked st minor st3)
    by (apply unhooked_free; eapply unhooked_table; eauto).
  assert (Hz3 : slot st3 minor = fd_zero).
  { subst st3. apply slot_modify_same. unfold in_table in *.
    rewrite Ht2. destruct Hun as (-> & _). exact Hin. }
  assert (Hc3 : consistent st3).
  { apply consistent_iff. split; [|exact Hfl3].
    eapply links_close; eauto. }
  match goal with
  | |- consistent ?s =>
      assert (Ht4 : uds_fd_table s = uds_fd_table st3)
  end.
  { repeat match goal with
           | |- context [if ?c then _ else _] => destruct c
           end; reflexivity. }
  apply consistent_iff in Hc3. destruct Hc3 as [Hl3 Hf3].
  apply consistent_iff. split.
  - eapply links_table; eauto.
  - eapply flow_table; eauto.
Qed.

(** ** More fuel does not change a result *)

Ltac same_cases :=
  repeat match goal with
         | |- (if ?c then _ else _) = _ -> _ => destruct c
         | |- (match ?p with (_, _) => _ end) = _ -> _ => destruct p
         | |- (match ?p with inl _ => _ | inr _ => _ end) = _ -> _ =>
             destruct p
         end;
  auto.

Lemma bind_extends {A B} (m m' : outcome A) (k k' : A -> driver -> outcome B)
    r s' :
  (forall a s, m = Ret a s -> m' = Ret a s) ->
  (forall a s, k a s = Ret r s' -> k' a s = Ret r s') ->
  bind m k = Ret r s' -> bind m' k' = Ret r s'.
Proof.
  intros Hm Hk. destruct m as [a s| |]; simpl; try discriminate.
  rewrite (Hm a s eq_refl). simpl. apply Hk.
Qed.

Lemma read_advance_extends U U' x p rpos n st r s' :
  extends U U' ->
  read_advance U x p rpos n st = Ret r s' ->
  read_advance U' x p rpos n st = Ret r s'.
Proof.
  intros Hm. unfold read_advance. cbv zeta.
  apply bind_extends; [|auto].
  intros [] s. same_cases.
Qed.

Lemma read_take_extends U U' x p endpt grant n st r s' :
  extends U U' ->
  read_take U x p endpt grant n st = Ret r s' ->
  read_take U' x p endpt grant n st = Ret r s'.
Proof.
  intros Hm. unfold read_take. cbv zeta. same_cases.
  now apply read_advance_extends.
Qed.

Lemma perform_read_extends U U' x endpt grant len pretend st r s' :
  extends U U' ->
  uds_perform_read_body U x endpt grant len pretend st = Ret r s' ->
  uds_perform_read_body U' x endpt grant len pretend st = Ret r s'.
Proof.
  intros Hm. unfold uds_perform_read_body. cbv zeta. same_cases.
  now apply read_take_extends.
Qed.

Lemma write_advance_extends U U' x p n st r s' :
  extends U U' ->
  write_advance U x p n st = Ret r s' ->
  write_advance U' x p n st = Ret r s'.
Proof.
  intros Hm. unfold write_advance. cbv zeta.
  apply bind_extends; [|auto].
  intros [] s. same_cases.
Qed.

Lemma write_deposit_extends U U' x p endpt grant n st r s' :
  extends U U' ->
  write_deposit U x p endpt grant n st = Ret r s' ->
  write_deposit U' x p endpt grant n st = Ret r s'.
Proof.
  intros Hm. unfold write_deposit. cbv zeta. same_cases;
    now apply write_advance_extends.
Qed.

Lemma perform_write_extends U U' x endpt grant len pretend st r s' :
  extends U U' ->
  uds_perform_write_body U x endpt grant len pretend st = Ret r s' ->
  uds_perform_write_body U' x endpt grant len pretend st = Ret r s'.
Proof.
  intros Hm. unfold uds_perform_write_body. cbv zeta. same_cases.
  now apply write_deposit_extends.
Qed.

Lemma uds_unsuspend_S fuel minor st :
  uds_unsuspend (S fuel) minor st =
  match suspended (slot st minor) with
  | UDS_SUSPENDED_READ =>
      do (r, st1) <-
        uds_perform_read_body (uds_unsuspend fuel) minor
          (susp_endpt (slot st minor)) (susp_grant (slot st minor))
          (susp_size (slot st minor)) false st;
      if r =? EDONTREPLY then Ret tt st1
      else Ret tt (unsuspend_reply minor r st1)
  | UDS_SUSPENDED_WRITE =>
      do (r, st1) <-
        uds_perform_write_body (uds_unsuspend fuel) minor
          (susp_endpt (slot st minor)) (susp_grant (slot st minor))
          (susp_size (slot st minor)) false st;
      if r =? EDONTREPLY then Ret tt st1
      else Ret tt (unsuspend_reply minor r st1)
  | UDS_SUSPENDED_CONNECT | UDS_SUSPENDED_ACCEPT =>
      Ret tt (unsuspend_reply minor (err (slot st minor))
                (modify minor (set_err 0) st))
  | UDS_NOT_SUSPENDED => Panic "unknown suspension type"
  end.
Proof. reflexivity. Qed.

Lemma unsuspend_extends fuel :
  extends (uds_unsuspend fuel) (uds_unsuspend (S fuel)).
Proof.
  induction fuel as [|fuel IH]; intros p s s'; [discriminate|].
  rewrite (uds_unsuspend_S fuel), (uds_unsuspend_S (S fuel)).
  destruct (suspended (slot s p)); auto.
  - apply bind_extends; [|auto].
    intros a s0. now apply perform_read_extends.
  - apply bind_extends; [|auto].
    intros a s0. now apply perform_write_extends.
Qed.

Lemma reset_extends fuel p st s' :
  uds_reset fuel p st = Ret tt s' -> uds_reset (S fuel) p st = Ret tt s'.
Proof.
  unfold uds_reset. cbv zeta. apply bind_extends; [|auto].
  intros [] s. same_cases. apply unsuspend_extends.
Qed.

Lemma reset_backlog_extends fuel minor idx : forall st s',
  reset_backlog fuel minor idx st = Ret tt s' ->
  reset_backlog (S fuel) minor idx st = Ret tt s'.
Proof.
  induction idx as [|i idx IH]; intros st s'; [auto|].
  cbn [reset_backlog]. apply bind_extends; [|intros [] s; apply IH].
  intros [] s. same_cases. apply reset_extends.
Qed.

Lemma close_extends fuel minor st r s' :
  uds_close fuel minor st = Ret r s' -> uds_close (S fuel) minor st = Ret r s'.
Proof.
  unfold uds_close. cbv zeta. same_cases.
  apply bind_extends; [|auto].
  intros [] s. same_cases.
  - apply reset_extends.
  - apply reset_backlog_extends.
Qed.

Lemma read_extends fuel minor position endpt grant len flags id st r s' :
  uds_read fuel minor position endpt grant len flags id st = Ret r s' ->
  uds_read (S fuel) minor position endpt grant len flags id st = Ret r s'.
Proof.
  unfold uds_read. same_cases. apply bind_extends; [|auto].
  intros a s. apply perform_read_extends, unsuspend_extends.
Qed.

Lemma write_extends fuel minor position endpt grant len flags id st r s' :
  uds_write fuel minor position endpt grant len flags id st = Ret r s' ->
  uds_write (S fuel) minor position endpt grant len flags id st = Ret r s'.
Proof.
  unfold uds_write. same_cases. apply bind_extends; [|auto].
  intros a s. apply perform_write_extends, unsuspend_extends.
Qed.

Lemma select_extends fuel minor ops endpt st r s' :
  uds_select fuel minor ops endpt st = Ret r s' ->
  uds_select (S fuel) minor ops endpt st = Ret r s'.
Proof.
  (* the pretended transfers never wake anything up *)
  unfold uds_select. cbv zeta. same_cases.
Qed.

Lemma run_op_extends fuel op st r s' :
  run_op fuel op st = Ret r s' -> run_op (S fuel) op st = Ret r s'.
Proof.
  destruct op; cbn [run_op].
  - auto.
  - apply close_extends.
  - apply read_extends.
  - apply write_extends.
  - apply select_extends.
  - auto.
  - apply bind_extends; [|auto]. intros [] s. apply unsuspend_extends.
Qed.

Lemma run_op_more_fuel k : forall fuel op st r s',
  run_op fuel op st = Ret r s' -> run_op (k + fuel) op st = Ret r s'.
Proof.
  induction k as [|k IH]; intros fuel op st r s' H; [exact H|].
  simpl. apply run_op_extends. now apply IH.
Qed.

(** ** Steps a control plane may take

    Two steps of the kind the handlers behind uds_do_ioctl take, and that
    keep the table consistent: giving a type to a socket that has none,
    and pairing two idle unconnected sockets. *)

Lemma flow_modify st i f :
  (forall fd, state (f fd) = state fd /\ size (f fd) = size fd /\
              suspended (f fd) = suspended fd /\ peer (f fd) = peer fd) ->
  (forall fd, fd_good fd -> fd_good (f fd)) ->
  flow st -> flow (modify i f st).
Proof.
  intros Hf Hgf (Hg & Hfl). split; [now apply good_modify|].
  assert (Hm : forall j,
             state (slot (modify i f st) j) = state (slot st j) /\
             size (slot (modify i f st) j) = size (slot st j) /\
             suspended (slot (modify i f st) j) = suspended (slot st j) /\
             peer (slot (modify i f st) j) = peer (slot st j)).
  { intros j. destruct (slot_modify_cases i f st j) as [[_ ->]| ->];
      [apply Hf|repeat split]. }
  intros x Hx. destruct (Hm x) as (Est & Esz & Esu & Epe).
  rewrite Est in Hx. destruct (Hfl x Hx) as [Hw Hr]. split.
  - unfold no_writer_on_empty in *. rewrite Esz, Epe.
    destruct (Hm (peer (slot st x))) as (_ & _ & -> & _). exact Hw.
  - unfold no_reader_on_data in *. rewrite Esz, Esu. exact Hr.
Qed.

Lemma consistent_set_type st x ty :
  consistent st ->
  state (slot st x) = UDS_INUSE ->
  ~ conn_type (slot st x) ->
  consistent (modify x (set_type ty) st).
Proof.
  intros Hc Hx Hnc. apply consistent_iff in Hc.
  destruct Hc as [(Ht & Hfree & Hlk) Hfl].
  set (st' := modify x (set_type ty) st).
  assert (Hm : forall j,
             (j = x /\ slot st' j = set_type ty (slot st j)) \/
             slot st' j = slot st j).
  { intros j. subst st'.
    destruct (slot_modify_cases x (set_type ty) st j) as [[-> ->]| ->]; auto. }
  assert (Hst : forall j, state (slot st' j) = state (slot st j))
    by (intros j; destruct (Hm j) as [[_ ->]| ->]; reflexivity).
  assert (Hpe : forall j, peer (slot st' j) = peer (slot st j))
    by (intros j; destruct (Hm j) as [[_ ->]| ->]; reflexivity).
  assert (Hli : forall j, listening (slot st' j) = listening (slot st j))
    by (intros j; destruct (Hm j) as [[_ ->]| ->]; reflexivity).
  assert (Hbs : forall j, backlog_size (slot st' j) = backlog_size (slot st j))
    by (intros j; destruct (Hm j) as [[_ ->]| ->]; reflexivity).
  assert (Hba : forall j i, backlog_at (slot st' j) i = backlog_at (slot st j) i)
    by (intros j i; destruct (Hm j) as [[_ ->]| ->]; reflexivity).
  assert (Hpx : peer (slot st x) = -1).
  { destruct (Z.eq_dec (peer (slot st x)) (-1)) as [E|E]; [exact E|].
    destruct (Hlk x Hx) as [Hl _].
    destruct (Hl E) as (_ & _ & _ & Hcx & _). contradiction. }
  apply consistent_iff. split; [split; [|split]|].
  - subst st'. unfold table_ok in *. now rewrite table_length_modify.
  - intros j Hj. rewrite Hst in Hj.
    destruct (Hm j) as [[-> _]| ->]; [congruence|now apply Hfree].
  - intros j Hj. rewrite Hst in Hj. destruct (Hlk j Hj) as [Hl Hb]. split.
    + unfold link_ok in *. cbv zeta in *. rewrite Hpe. intros Hp.
      destruct (Hl Hp) as (H1 & H2 & H3 & H4 & H5 & H6).
      assert (Hq : peer (slot st j) <> x) by (intros E; rewrite E in H5; auto).
      assert (Hjx : j <> x) by (intros E; subst j; contradiction).
      assert (Ej : slot st' j = slot st j)
        by (subst st'; now apply slot_modify_other).
      assert (Eq : slot st' (peer (slot st j)) = slot st (peer (slot st j)))
        by (subst st'; apply slot_modify_other; auto).
      rewrite Ej, Eq. repeat split; assumption || lia.
    + unfold backlog_ok in *. rewrite Hli, Hpe, Hbs. intros Hlj.
      destruct (Hb Hlj) as [Hp He]. split; [exact Hp|].
      intros i Hi. rewrite !Hba, Hst, Hpe. intros Hn.
      destruct (He i Hi Hn) as (H1 & H2 & H3 & H4).
      repeat split; try (assumption || lia).
      intros k Hk. rewrite Hba. now apply H4.
  - apply flow_modify; [|auto|exact Hfl]. intros fd. repeat split.
Qed.

Lemma consistent_pair st x y :
  consistent st ->
  x <> y ->
  state (slot st x) = UDS_INUSE -> state (slot st y) = UDS_INUSE ->
  conn_type (slot st x) -> conn_type (slot st y) ->
  peer (slot st x) = -1 -> peer (slot st y) = -1 ->
  listening (slot st x) = 0 -> listening (slot st y) = 0 ->
  suspended (slot st x) = UDS_NOT_SUSPENDED ->
  suspended (slot st y) = UDS_NOT_SUSPENDED ->
  consistent (modify y (set_peer x) (modify x (set_peer y) st)).
Proof.
  intros Hc Hxy Hx Hy Hcx Hcy Hpx Hpy Hlx Hly Hsx Hsy.
  apply consistent_iff in Hc.
  destruct Hc as [(Ht & Hfree & Hlk) (Hg & Hfl)].
  pose proof (inuse_in_table _ _ Hx) as Hix.
  pose proof (inuse_in_table _ _ Hy) as Hiy.
  set (st' := modify y (set_peer x) (modify x (set_peer y) st)).
  assert (Ex : slot st' x = set_peer y (slot st x)).
  { subst st'. rewrite slot_modify_other by auto.
    now apply slot_modify_same. }
  assert (Ey : slot st' y = set_peer x (slot st y)).
  { subst st'. rewrite slot_modify_same by in_tbl.
    now rewrite slot_modify_other by auto. }
  assert (Eo : forall j, j <> x -> j <> y -> slot st' j = slot st j).
  { intros j Hjx Hjy. subst st'. now rewrite !slot_modify_other by auto. }
  assert (Hsame : forall j,
             state (slot st' j) = state (slot st j) /\
             type (slot st' j) = type (slot st j) /\
             listening (slot st' j) = listening (slot st j) /\
             size (slot st' j) = size (slot st j) /\
             suspended (slot st' j) = suspended (slot st j) /\
             fd_good (slot st' j)).
  { intros j. destruct (Z.eq_dec j x) as [->|Hjx];
      [rewrite Ex; repeat (split; [reflexivity|]); exact (Hg x)|].
    destruct (Z.eq_dec j y) as [->|Hjy];
      [rewrite Ey; repeat (split; [reflexivity|]); exact (Hg y)|].
    rewrite Eo by assumption. repeat (split; [reflexivity|]). apply Hg. }
  assert (Hnot : forall j, state (slot st j) = UDS_INUSE ->
                           peer (slot st j) <> -1 ->
                           peer (slot st j) <> x /\ peer (slot st j) <> y).
  { intros j Hj Hp. destruct (Hlk j Hj) as [Hl _].
    destruct (Hl Hp) as (_ & _ & _ & _ & _ & H6).
    pose proof (inuse_in_table _ _ Hj) as Hij. unfold in_table in Hij.
    split; intros E; rewrite E in H6;
      destruct H6 as [H6|(_ & H6 & _)]; congruence || lia. }
  unfold in_table, table_ok in *.
  apply consistent_iff. split; [split; [|split]|split].
  - subst st'. unfold table_ok. now rewrite !table_length_modify.
  - intros j Hj. destruct (Hsame j) as (Es & Et & _).
    rewrite Et. apply Hfree. congruence.
  - intros j Hj. destruct (Hsame j) as (Es & _). rewrite Es in Hj.
    destruct (Z.eq_dec j x) as [->|Hjx]; [|destruct (Z.eq_dec j y) as [->|Hjy]].
    + split.
      * unfold link_ok. cbv zeta. rewrite Ex. simpl peer. intros _.
        rewrite Ey. simpl. repeat split; auto; lia.
      * unfold backlog_ok. rewrite Ex. simpl listening. intros H.
        contradiction.
    + split.
      * unfold link_ok. cbv zeta. rewrite Ey. simpl peer. intros _.
        rewrite Ex. simpl. repeat split; auto; lia.
      * unfold backlog_ok. rewrite Ey. simpl listening. intros H.
        contradiction.
    + destruct (Hlk j Hj) as [Hl Hb]. split.
      * unfold link_ok in *. cbv zeta in *. rewrite (Eo j Hjx Hjy).
        intros Hp. destruct (Hnot j Hj Hp) as [Hqx Hqy].
        rewrite (Eo _ Hqx Hqy). now apply Hl.
      * unfold backlog_ok in *. rewrite (Eo j Hjx Hjy). intros Hlj.
        destruct (Hb Hlj) as [Hp He]. split; [exact Hp|].
        intros i Hi Hn. destruct (He i Hi Hn) as (H1 & H2 & H3 & H4).
        pose proof (inuse_in_table _ _ Hj) as Hij. unfold in_table in Hij.
        assert (Hex : backlog_at (slot st j) i <> x)
          by (intros E; rewrite E in H3; lia).
        assert (Hey : backlog_at (slot st j) i <> y)
          by (intros E; rewrite E in H3; lia).
        rewrite (Eo _ Hex Hey). repeat split; assumption || lia.
  - intros j. apply Hsame.
  - intros j Hj. destruct (Hsame j) as (Es & _ & _ & Esz & Esu & _).
    rewrite Es in Hj. destruct (Hfl j Hj) as [Hnw Hnr]. split.
    + unfold no_writer_on_empty in *. rewrite Esz.
      destruct (Z.eq_dec j x) as [->|Hjx];
        [|destruct (Z.eq_dec j y) as [->|Hjy]].
      * rewrite Ex. simpl peer. intros _.
        destruct (Hsame y) as (_ & _ & _ & _ & -> & _). rewrite Hsy.
        discriminate.
      * rewrite Ey. simpl peer. intros _.
        destruct (Hsame x) as (_ & _ & _ & _ & -> & _). rewrite Hsx.
        discriminate.
      * rewrite (Eo j Hjx Hjy). intros Hp.
        destruct (Hsame (peer (slot st j))) as (_ & _ & _ & _ & -> & _).
        now apply Hnw.
    + unfold no_reader_on_data in *. rewrite Esz, Esu. exact Hnr.
Qed.

(** ** A listen, a connect and an accept

    The steps of a control plane with a backlog, and what they do to the
    links of the table. *)









(** ** The reachable states are consistent *)

Hypothesis NR_FDS_nonneg : 0 <= NR_FDS.

Lemma slot_init j : slot init_state j = fd_zero.
Proof.
  unfold slot, fd_at, init_state. simpl.
  destruct (j <? 0); [reflexivity|].
  destruct (nth_in_or_default (Z.to_nat j)
              (repeat fd_zero (Z.to_nat NR_FDS)) fd_zero) as [H|H];
    [|exact H].
  now apply repeat_spec in H.
Qed.

Lemma consistent_init : consistent init_state.
Proof.
  apply consistent_iff. split; [split; [|split]|split].
  - unfold table_ok, init_state, zlength. simpl. rewrite repeat_length. lia.
  - intros x _. rewrite slot_init. discriminate.
  - intros x Hx. rewrite slot_init in Hx. discriminate.
  - intros j. rewrite slot_init. apply fd_good_zero.
  - intros x Hx. rewrite slot_init in Hx. discriminate.
Qed.

Lemma consistent_table st st' :
  uds_fd_table st' = uds_fd_table st -> consistent st -> consistent st'.
Proof.
  intros Ht Hc. apply consistent_iff in Hc. destruct Hc as [Hl Hf].
  apply consistent_iff. split.
  - eapply links_table; eauto.
  - eapply flow_table; eauto.
Qed.

Lemma consistent_signal signo st :
  consistent st -> consistent (uds_signal signo st).
Proof.
  intros Hc. unfold uds_signal.
  destruct (negb (signo =? SIGTERM)); [exact Hc|]. cbv zeta.
  destruct (_ =? 0); (eapply consistent_table; [|exact Hc]); reflexivity.
Qed.

Lemma consistent_quiet st i f :
  consistent st -> quiet f -> (forall fd, fd_good fd -> fd_good (f fd)) ->
  consistent (modify i f st).
Proof.
  intros Hc Hq Hf. eapply consistent_io_rel; [exact Hc| |].
  - apply io_rel_quiet; [apply io_rel_refl|exact Hq].
  - apply good_modify; [|exact Hf]. apply consistent_iff in Hc. apply Hc.
Qed.

Lemma consistent_ioctl uds_do_ioctl minor request endpt grant flags
    user_endpt id st r st' :
  control_plane_ok uds_do_ioctl ->
  consistent st ->
  uds_ioctl uds_do_ioctl minor request endpt grant flags user_endpt id st
  = Ret r st' ->
  consistent st'.
Proof.
  intros Hok Hc. unfold uds_ioctl.
  destruct ((minor <? 0) || (minor >=? NR_FDS));
    [intros H; inversion H; subst; exact Hc|].
  destruct (negb (fd_state_eqb (state (slot st minor)) UDS_INUSE));
    [intros H; inversion H; subst; exact Hc|].
  cbv zeta.
  destruct (uds_do_ioctl minor request endpt grant _) as [rc st2| |] eqn:E;
    simpl bind; try discriminate.
  apply Hok in E.
  2:{ apply consistent_quiet; [exact Hc| |auto]. intros fd. repeat split. }
  destruct (rc =? EDONTREPLY); [|intros H; inversion H; subst; exact E].
  destruct (suspension_eqb (suspended (slot st2 minor)) UDS_NOT_SUSPENDED);
    [discriminate|].
  match goal with
  | |- context [modify minor ?f st2] =>
      assert (H3 : consistent (modify minor f st2))
  end.
  { apply consistent_quiet; [exact E| |].
    - intros fd. repeat split.
    - intros fd [Hinv _]. split; [exact Hinv|].
      unfold is_size_t. simpl. lia. }
  destruct (negb (Z.land flags CDEV_NONBLOCK =? 0));
    intros H; inversion H; subst; [|exact H3].
  now apply consistent_cancel.
Qed.

(** Every operation of uds.c runs to completion on a consistent table,
    with one unit of fuel, and leaves a consistent table. *)
Lemma consistent_run_op fuel op st :
  consistent st -> public_op op -> op_typed op ->
  exists r st', run_op (S fuel) op st = Ret r st' /\ consistent st'.
Proof.
  intros Hc Hp Hty. destruct op; cbn [run_op]; simpl in Hty.
  - pose proof (consistent_open orig_minor access user_endpt mmap_ok st Hc)
      as H.
    destruct (uds_open orig_minor access user_endpt mmap_ok st). eauto.
  - now apply consistent_close.
  - now apply consistent_read.
  - now apply consistent_write.
  - now apply consistent_select.
  - pose proof (consistent_cancel minor endpt id st Hc) as H.
    destruct (uds_cancel minor endpt id st). eauto.
  - contradiction.
Qed.

Lemma consistent_step fuel op st r st' :
  consistent st -> public_op op -> op_typed op ->
  run_op fuel op st = Ret r st' -> consistent st'.
Proof.
  intros Hc Hp Hty H.
  destruct (consistent_run_op fuel op st Hc Hp Hty) as (r2 & st2 & H2 & Hc2).
  apply run_op_extends in H. rewrite H in H2. inversion H2; subst.
  exact Hc2.
Qed.

Lemma reachable_consistent uds_do_ioctl st :
  control_plane_ok uds_do_ioctl -> reachable uds_do_ioctl st ->
  consistent st.
Proof.
  intros Hok. induction 1 as [|st op fuel r st' _ IH Hp Hty Hrun
                  |st minor request endpt grant flags user_endpt id r st' _ IH H
                  |st signo _ IH].
  - apply consistent_init.
  - eapply consistent_step; eauto.
  - eapply consistent_ioctl; eauto.
  - now apply consistent_signal.
Qed.

(** A run of the driver from a reachable state ends in a reachable
    state. *)
Lemma run_calls_reachable uds_do_ioctl cs : forall st rs st',
  reachable uds_do_ioctl st -> Forall call_ok cs ->
  run_calls uds_do_ioctl cs st = Ret rs st' ->
  reachable uds_do_ioctl st'.
Proof.
  induction cs as [|c cs IH]; intros st rs st' Hr Hok H; simpl in H.
  - inversion H; subst; exact Hr.
  - inversion Hok as [|? ? Hc Hcs]; subst.
    destruct (run_call uds_do_ioctl c st) as [r st1| |] eqn:E; simpl in H;
      try discriminate.
    destruct (run_calls uds_do_ioctl cs st1) as [rs1 st2| |] eqn:E2;
      simpl in H;
      try discriminate.
    inversion H; subst. apply (IH st1 rs1); auto.
    destruct c; simpl in *.
    + destruct Hc. eapply reach_op; eauto.
    + eapply reach_ioctl; eauto.
    + inversion E; subst. apply reach_signal. exact Hr.
Qed.


(** ** Further properties of the entry points *)

(** *** uds_open *)

Lemma find_seq_first {A : Type} (f : A -> bool) (g : nat -> A) n :
  forall s k,
    (s <= k < s + n)%nat -> f (g k) = true ->
    (forall j, (s <= j < k)%nat -> f (g j) = false) ->
    find f (map g (seq s n)) = Some (g k).
Proof using. only_stated.
  induction n as [|n IH]; intros s k Hk Hf Hlow; simpl; [lia|].
  destruct (Nat.eq_dec s k) as [->|Hne]; [now rewrite Hf|].
  rewrite Hlow by lia. apply IH; [lia|exact Hf|].
  intros j Hj. apply Hlow. lia.
Qed.

Lemma find_zrange_first (f : Z -> bool) lo hi m :
  lo <= m < hi -> f m = true ->
  (forall i, lo <= i < m -> f i = false) ->
  find f (zrange lo hi) = Some m.
Proof using. only_stated.
  intros Hm Hf Hlow. unfold zrange.
  replace m with (lo + Z.of_nat (Z.to_nat (m - lo))) by lia.
  apply (find_seq_first f (fun k => lo + Z.of_nat k)).
  - lia.
  - now replace (lo + Z.of_nat (Z.to_nat (m - lo))) with m by lia.
  - intros j Hj. apply Hlow. lia.
Qed.

Lemma find_zrange_none (f : Z -> bool) lo hi :
  (forall i, lo <= i < hi -> f i = false) -> find f (zrange lo hi) = None.
Proof using. only_stated.
  intros H. destruct (find f (zrange lo hi)) as [x|] eqn:E; [|reflexivity].
  apply find_some in E. destruct E as [Hin Hf].
  unfold zrange in Hin. apply in_map_iff in Hin.
  destruct Hin as (k & <- & Hk). apply in_seq in Hk.
  rewrite H in Hf by lia. discriminate.
Qed.

Lemma backlog_at_repeat fd n i :
  backlog fd = repeat (-1) n -> backlog_at fd i = -1.
Proof using. only_stated.
  intros E. unfold backlog_at. destruct (i <? 0); [reflexivity|]. rewrite E.
  destruct (nth_in_or_default (Z.to_nat i) (repeat (-1) n) (-1)) as [H|H];
    [|exact H].
  now apply repeat_spec in H.
Qed.

(** X1.  uds_open takes the lowest free slot of the table from handle 1
    on, never handle 0.  When the buffer can be allocated it returns that
    handle with the clone flag; the slot is then in use with the owner
    given, no type, both halves open, an empty zero-filled buffer, no
    peer, not listening, an empty backlog of UDS_SOMAXCONN entries, no
    suspension and no select registration; no other slot changes and
    nothing is sent.  When the allocation fails it returns ENOMEM and the
    state is the one before the call. *)
Theorem uds_open_lowest_free orig_minor access user_endpt st m :
  table_ok st ->
  1 <= m < NR_FDS ->
  state (slot st m) = UDS_FREE ->
  (forall i, 1 <= i < m -> state (slot st i) = UDS_INUSE) ->
  (exists st',
     uds_open orig_minor access user_endpt true st
     = (Z.lor CDEV_CLONED m, st') /\
     state (slot st' m) = UDS_INUSE /\
     owner (slot st' m) = user_endpt /\
     type (slot st' m) = -1 /\
     mode (slot st' m) = Z.lor UDS_R UDS_W /\
     buf (slot st' m) = repeat x00 (Z.to_nat UDS_BUF) /\
     pos (slot st' m) = 0 /\ size (slot st' m) = 0 /\
     peer (slot st' m) = -1 /\ listening (slot st' m) = 0 /\
     child (slot st' m) = -1 /\
     backlog_size (slot st' m) = UDS_SOMAXCONN /\
     (forall i, backlog_at (slot st' m) i = -1) /\
     nfiledes (ancillary_data (slot st' m)) = 0 /\
     suspended (slot st' m) = UDS_NOT_SUSPENDED /\
     sel_ops (slot st' m) = 0 /\ sel_endpt (slot st' m) = NONE /\
     (forall j, j <> m -> slot st' j = slot st j) /\
     uds_exit_left st' = uds_exit_left st /\ trace st' = trace st) /\
  uds_open orig_minor access user_endpt false st = (ENOMEM, st).
Proof using. only_stated.
  intros Ht Hm Hfree Hlow.
  assert (Ef : find (fun i => fd_state_eqb (state (slot st i)) UDS_FREE)
                 (zrange 1 NR_FDS) = Some m).
  { apply find_zrange_first; [exact Hm|now rewrite Hfree|].
    intros i Hi. now rewrite (Hlow i Hi). }
  unfold uds_open. rewrite Ef. simpl negb. cbv iota.
  split; [|reflexivity].
  eexists. split; [reflexivity|].
  rewrite slot_modify_same by (unfold in_table, table_ok in *; lia).
  simpl. repeat (split; [reflexivity|]).
  split; [intros i; now apply (backlog_at_repeat _ (Z.to_nat UDS_SOMAXCONN))|].
  repeat (split; [reflexivity|]).
  split; [|split; reflexivity].
  intros j Hj. apply slot_modify_other. auto.
Qed.

(** X2.  uds_open on a table whose slots 1 to NR_FDS - 1 are all in use
    returns ENFILE, whether slot 0 is free or not and before any
    allocation is tried, and the state is the one before the call. *)
Theorem uds_open_table_full orig_minor access user_endpt mmap_ok st :
  (forall i, 1 <= i < NR_FDS -> state (slot st i) = UDS_INUSE) ->
  uds_open orig_minor access user_endpt mmap_ok st = (ENFILE, st).
Proof using. only_stated.
  intros Hfull. unfold uds_open. rewrite find_zrange_none; [reflexivity|].
  intros i Hi. now rewrite (Hfull i Hi).
Qed.

(** *** Handles *)

(** X3.  Every entry point checks the handle before anything else: for a
    handle outside the table uds_close, uds_read, uds_write, uds_select
    and uds_ioctl return ENXIO, for a slot that is not in use EINVAL, and
    uds_cancel gives no reply; the state is the one before the call and
    the control plane is not consulted. *)
Theorem bad_handle_rejected fuel uds_do_ioctl minor position endpt grant len
    flags id ops request user_endpt st :
  minor < 0 \/ NR_FDS <= minor \/ state (slot st minor) = UDS_FREE ->
  let code := if (minor <? 0) || (minor >=? NR_FDS) then ENXIO else EINVAL in
  uds_close fuel minor st = Ret code st /\
  uds_read fuel minor position endpt grant len flags id st = Ret code st /\
  uds_write fuel minor position endpt grant len flags id st = Ret code st /\
  uds_select fuel minor ops endpt st = Ret code st /\
  uds_ioctl uds_do_ioctl minor request endpt grant flags user_endpt id st
  = Ret code st /\
  uds_cancel minor endpt id st = (EDONTREPLY, st).
Proof using. only_stated.
  intros H code. subst code.
  unfold uds_close, uds_read, uds_write, uds_select, uds_ioctl, uds_cancel.
  destruct ((minor <? 0) || (minor >=? NR_FDS)) eqn:E.
  - repeat split.
  - assert (Hs : state (slot st minor) = UDS_FREE).
    { destruct H as [H|[H|H]]; [| |exact H];
        apply orb_false_iff in E; destruct E as [E1 E2];
        [apply Z.ltb_ge in E1|rewrite Z.geb_leb in E2; apply Z.leb_gt in E2];
        lia. }
    rewrite Hs. simpl. repeat split.
Qed.

(** *** Transfers of no bytes *)

(** X4.  A read or a write of 0 bytes on a socket in use returns 0 and
    leaves the state as it is, whatever the socket is: unconnected, shut
    down, with a full or an empty buffer. *)
Theorem zero_length_transfer fuel minor position endpt grant flags id st :
  0 <= minor < NR_FDS ->
  state (slot st minor) = UDS_INUSE ->
  uds_read fuel minor position endpt grant 0 flags id st = Ret 0 st /\
  uds_write fuel minor position endpt grant 0 flags id st = Ret 0 st.
Proof using. only_stated.
  intros Hm Hs. unfold uds_read, uds_write.
  destruct (Z.ltb_spec minor 0); [lia|].
  destruct (Z.geb_spec minor NR_FDS); [lia|]. simpl. rewrite Hs. simpl.
  unfold uds_perform_read, uds_perform_write, uds_perform_read_body,
    uds_perform_write_body. simpl. split; reflexivity.
Qed.

(** *** Errors of uds_write and uds_read *)

Lemma conn_type_test fd :
  conn_type fd ->
  (type fd =? SOCK_STREAM) || (type fd =? SOCK_SEQPACKET) = true.
Proof using. only_stated.
  intros [H|H]; rewrite H; reflexivity.
Qed.

Lemma not_conn_type_test fd :
  ~ conn_type fd ->
  (type fd =? SOCK_STREAM) || (type fd =? SOCK_SEQPACKET) = false.
Proof using. only_stated.
  intros H. apply orb_false_iff. unfold conn_type in H.
  split; apply Z.eqb_neq; intros E; apply H; auto.
Qed.

Lemma fits_test len fd :
  len <= UDS_BUF \/ type fd = SOCK_STREAM ->
  (len >? UDS_BUF) && negb (type fd =? SOCK_STREAM) = false.
Proof using. only_stated.
  intros [H|H].
  - rewrite Z.gtb_ltb. destruct (Z.ltb_spec UDS_BUF len); [lia|reflexivity].
  - rewrite H, Z.eqb_refl. apply andb_false_r.
Qed.

(** X5.  The errors of a write of len > 0 bytes on a socket in use, in
    the order uds_perform_write checks them: EPIPE when the write half of
    the socket is shut down; else EMSGSIZE when len exceeds UDS_BUF and
    the socket is not a stream socket; else ENOTCONN on a
    connection-oriented socket without peer and without pending reset,
    ENOENT on any other socket when no SOCK_DGRAM socket is bound on the
    target address; else EPIPE when the read half of the destination is
    shut down.  In each case the state is the one before the call. *)
Theorem uds_write_errors fuel minor position endpt grant len flags id st :
  0 <= minor < NR_FDS ->
  state (slot st minor) = UDS_INUSE ->
  len <> 0 ->
  let w := uds_write fuel minor position endpt grant len flags id st in
  let fd := slot st minor in
  (Z.land (mode fd) UDS_W = 0 -> w = Ret EPIPE st) /\
  (Z.land (mode fd) UDS_W <> 0 ->
   UDS_BUF < len -> type fd <> SOCK_STREAM -> w = Ret EMSGSIZE st) /\
  (Z.land (mode fd) UDS_W <> 0 ->
   len <= UDS_BUF \/ type fd = SOCK_STREAM ->
   (conn_type fd -> peer fd = -1 -> err fd <> ECONNRESET ->
    w = Ret ENOTCONN st) /\
   (~ conn_type fd ->
    (forall i, 0 <= i < NR_FDS ->
               dgram_bound_on (uds_fd_table st) minor i = false) ->
    w = Ret ENOENT st) /\
   (forall d, write_peer minor false st = inr d ->
              Z.land (mode (slot st d)) UDS_R = 0 -> w = Ret EPIPE st)).
Proof using. only_stated.
  intros Hm Hs Hlen w fd. subst w fd. unfold uds_write.
  destruct (Z.ltb_spec minor 0); [lia|].
  destruct (Z.geb_spec minor NR_FDS); [lia|]. simpl orb. cbv iota.
  rewrite Hs. simpl negb. cbv iota.
  unfold uds_perform_write, uds_perform_write_body.
  destruct (Z.eqb_spec len 0); [contradiction|].
  split; [intros ->; reflexivity|]. split.
  - intros Hw Hbig Hty.
    destruct (Z.eqb_spec (Z.land (mode (slot st minor)) UDS_W) 0);
      [contradiction|].
    rewrite Z.gtb_ltb. destruct (Z.ltb_spec UDS_BUF len); [|lia].
    destruct (Z.eqb_spec (type (slot st minor)) SOCK_STREAM);
      [contradiction|reflexivity].
  - intros Hw Hfit.
    destruct (Z.eqb_spec (Z.land (mode (slot st minor)) UDS_W) 0);
      [contradiction|].
    rewrite (fits_test len (slot st minor) Hfit).
    split; [|split].
    + intros Hc Hp He. unfold write_peer.
      rewrite (conn_type_test _ Hc), Hp. simpl.
      destruct (Z.eqb_spec (err (slot st minor)) ECONNRESET);
        [contradiction|reflexivity].
    + intros Hc Hnone. unfold write_peer.
      rewrite (not_conn_type_test _ Hc).
      unfold locate_peer. rewrite find_zrange_none by exact Hnone.
      reflexivity.
    + intros d Hd Hr. rewrite Hd, Hr. reflexivity.
Qed.

(** X6.  The results of a read of len > 0 bytes on a socket in use that
    do not wait: EPIPE when the read half of the socket is shut down,
    whatever its buffer holds; with the read half open and an empty
    buffer, ENOTCONN on a connection-oriented socket without peer and
    without pending reset, and 0, the end of the stream, when the peer
    has shut down its write half.  In each case the state is the one
    before the call, also for a blocking read. *)
Theorem uds_read_errors fuel minor position endpt grant len flags id st :
  0 <= minor < NR_FDS ->
  state (slot st minor) = UDS_INUSE ->
  len <> 0 ->
  let r := uds_read fuel minor position endpt grant len flags id st in
  let fd := slot st minor in
  (Z.land (mode fd) UDS_R = 0 -> r = Ret EPIPE st) /\
  (Z.land (mode fd) UDS_R <> 0 -> size fd = 0 ->
   (conn_type fd -> peer fd = -1 -> err fd <> ECONNRESET ->
    r = Ret ENOTCONN st) /\
   (peer fd <> -1 -> Z.land (mode (slot st (peer fd))) UDS_W = 0 ->
    r = Ret 0 st)).
Proof using. only_stated.
  intros Hm Hs Hlen r fd. subst r fd. unfold uds_read.
  destruct (Z.ltb_spec minor 0); [lia|].
  destruct (Z.geb_spec minor NR_FDS); [lia|]. simpl orb. cbv iota.
  rewrite Hs. simpl negb. cbv iota.
  unfold uds_perform_read, uds_perform_read_body.
  destruct (Z.eqb_spec len 0); [contradiction|].
  split; [intros ->; reflexivity|].
  intros Hr Hz.
  destruct (Z.eqb_spec (Z.land (mode (slot st minor)) UDS_R) 0);
    [contradiction|].
  rewrite Hz. simpl Z.eqb. cbv iota. split.
  - intros Hc Hp He. rewrite (conn_type_test _ Hc), Hp. simpl.
    destruct (Z.eqb_spec (err (slot st minor)) ECONNRESET);
      [contradiction|reflexivity].
  - intros Hp Hw.
    destruct (Z.eqb_spec (peer (slot st minor)) (-1)); [contradiction|].
    simpl. rewrite Hw. reflexivity.
Qed.



(** *** Flow control of a connection *)

(** A write on a stream connection with room in the buffer of the peer
    transfers as many bytes as fit. *)
Lemma uds_write_stream fuel a b position endpt grant len flags id st region :
  linked st a b ->
  type (slot st a) = SOCK_STREAM ->
  0 < len ->
  size (slot st b) < UDS_BUF ->
  umem endpt grant = Some region ->
  Z.min len (UDS_BUF - size (slot st b)) <= zlength region ->
  let n := Z.min len (UDS_BUF - size (slot st b)) in
  exists st',
    uds_write fuel a position endpt grant len flags id st = Ret n st' /\
    linked st' a b /\
    ring (slot st' b) = ring (slot st b) ++ load region 0 n /\
    size (slot st' b) = size (slot st b) + n /\
    delivered (trace st') = delivered (trace st).
Proof using UDS_BUF_range. clear NR_FDS_nonneg.
  intros Hl Hty Hlen Hroom Hmem Hreg n.
  pose proof Hl as (Hok & Ha & Hb & Hab & Hsa & Hsb & Hpa & Hpb & Hma & Hmb
                    & Hua & Hub & Hring).
  pose proof Hring as (Hbuf & Hpos & Hsz).
  unfold uds_write.
  destruct (Z.ltb_spec a 0); [lia|]. destruct (Z.geb_spec a NR_FDS); [lia|].
  simpl orb. cbv iota. rewrite Hsa. simpl negb. cbv iota.
  unfold uds_perform_write, uds_perform_write_body.
  destruct (Z.eqb_spec len 0); [lia|].
  destruct (Z.eqb_spec (Z.land (mode (slot st a)) UDS_W) 0); [contradiction|].
  rewrite fits_test by (right; exact Hty).
  rewrite (write_peer_linked st a b Hl) by (left; exact Hty).
  destruct (Z.eqb_spec (Z.land (mode (slot st b)) UDS_R) 0); [contradiction|].
  assert (E2 : (type (slot st a) =? SOCK_DGRAM) = false)
    by (rewrite Hty; reflexivity).
  assert (E3 : (type (slot st a) =? SOCK_SEQPACKET) = false)
    by (rewrite Hty; reflexivity).
  rewrite E2, E3. simpl andb. cbv iota.
  destruct (Z.eqb_spec (size (slot st b)) UDS_BUF); [lia|].
  simpl orb. cbv iota. rewrite size_t_small by lia.
  assert (En : (if len >? UDS_BUF - size (slot st b)
                then UDS_BUF - size (slot st b) else len) = n).
  { subst n. rewrite Z.gtb_ltb.
    destruct (Z.ltb_spec (UDS_BUF - size (slot st b)) len); lia. }
  rewrite En.
  assert (Hn : 0 < n <= UDS_BUF - size (slot st b)) by (subst n; lia).
  destruct (write_deposit_ok (uds_unsuspend fuel) a b endpt grant n st region)
    as (st' & ops & src & Hrun & Hp & Ho & Hlen' & He & Ht);
    try assumption; try lia.
  { in_tbl. }
  rewrite Hrun. simpl bind.
  destruct (Z.eqb_spec n EDONTREPLY); [unfold EDONTREPLY in *; lia|].
  exists st'. split; [reflexivity|].
  assert (Hsa' : slot st' a = slot st a) by (apply Ho; auto).
  assert (Hring' : ring (slot st' b) = ring (slot st b) ++ load region 0 n).
  { rewrite Hp. unfold ring. simpl.
    rewrite <- ring_append by
      (try assumption; try lia; rewrite load_zlength; lia).
    rewrite load_zlength by lia. reflexivity. }
  split; [|split; [exact Hring'|]; rewrite Hp; simpl; auto].
  unfold linked, ring_ok. rewrite Hsa', Hp. simpl.
  repeat split; auto; try lia; try in_tbl.
  unfold zlength. rewrite ring_write_length; try assumption.
  - apply Z.mod_pos_bound. lia.
  - rewrite load_zlength; lia.
Qed.

(** X8.  A write on a stream connection never waits while there is room.
    On a stream connection a-b (each the peer of the other, the write half
    of a and the read half of b open, no write suspended on a and no read
    suspended on b), when the request, from a grant that can be read, is
    longer than the room left in the buffer of b, however long, the write
    transfers exactly the bytes that fit, the first ones of the request,
    returns their number and leaves the buffer full. *)
Theorem stream_write_fills_buffer fuel a b position endpt grant len flags id
    st region :
  linked st a b ->
  type (slot st a) = SOCK_STREAM ->
  size (slot st b) < UDS_BUF ->
  UDS_BUF - size (slot st b) < len ->
  umem endpt grant = Some region ->
  UDS_BUF - size (slot st b) <= zlength region ->
  exists st',
    uds_write fuel a position endpt grant len flags id st
    = Ret (UDS_BUF - size (slot st b)) st' /\
    size (slot st' b) = UDS_BUF /\
    ring (slot st' b) =
      ring (slot st b) ++ load region 0 (UDS_BUF - size (slot st b)).
Proof using UDS_BUF_range. clear NR_FDS_nonneg.
  intros Hl Hty Hroom Hlen Hmem Hreg.
  destruct (uds_write_stream fuel a b position endpt grant len flags id st
              region) as (st' & Hrun & _ & Hring & Hsz & _);
    try assumption; try lia.
  rewrite Z.min_r in * by lia.
  exists st'. split; [exact Hrun|]. split; [lia|exact Hring].
Qed.


(** *** Wake-ups *)

(** The head of write_advance, up to the wake-up of the reader. *)
Lemma write_advance_unfold U minor p n st :
  0 <= n ->
  in_table st p ->
  0 <= size (slot st p) ->
  size (slot st p) + n < 2147483648 ->
  exists S4 src,
    slot S4 p = set_source src (set_size (size (slot st p) + n) (slot st p)) /\
    (type (slot st minor) = SOCK_DGRAM -> src = addr (slot st minor)) /\
    (type (slot st minor) <> SOCK_DGRAM -> src = source (slot st p)) /\
    (forall j, j <> p -> slot S4 j = slot st j) /\
    zlength (uds_fd_table S4) = zlength (uds_fd_table st) /\
    uds_exit_left S4 = uds_exit_left st /\ trace S4 = trace st /\
    write_advance U minor p n st =
      do (_, S5) <-
        (if suspension_eqb (suspended (slot st p)) UDS_SUSPENDED_READ
         then U p S4 else Ret tt S4);
      Ret n (if negb (Z.land (sel_ops (slot S5 p)) CDEV_OP_RD =? 0)
                && (size (slot S5 p) >? 0)
             then notify_select p CDEV_OP_RD S5 else S5).
Proof using UDS_BUF_range. clear NR_FDS_nonneg.
  intros Hn Hin Hs0 Hs1. unfold write_advance.
  set (S3 := modify p (fun f => set_size (size_t (size f + n)) f) st).
  assert (H3 : slot S3 p = set_size (size (slot st p) + n) (slot st p)).
  { subst S3. rewrite slot_modify_same by assumption.
    rewrite size_t_small by lia. reflexivity. }
  assert (H3o : forall j, j <> p -> slot S3 j = slot st j).
  { intros j Hj. subst S3. now rewrite slot_modify_other by auto. }
  assert (H3m : type (slot S3 minor) = type (slot st minor) /\
                addr (slot S3 minor) = addr (slot st minor)).
  { destruct (Z.eq_dec minor p) as [->|Hne]; [rewrite H3; auto|].
    rewrite H3o by auto. auto. }
  destruct H3m as [H3ty H3ad].
  assert (H3l : zlength (uds_fd_table S3) = zlength (uds_fd_table st))
    by (subst S3; in_tbl).
  set (S4 := if type (slot S3 minor) =? SOCK_DGRAM
             then modify p (set_source (addr (slot S3 minor))) S3 else S3).
  assert (H4 : exists src, slot S4 p = set_source src (slot S3 p) /\
             (type (slot st minor) = SOCK_DGRAM -> src = addr (slot st minor)) /\
             (type (slot st minor) <> SOCK_DGRAM -> src = source (slot st p)) /\
             (forall j, j <> p -> slot S4 j = slot st j) /\
             zlength (uds_fd_table S4) = zlength (uds_fd_table st) /\
             uds_exit_left S4 = uds_exit_left st /\ trace S4 = trace st).
  { subst S4. rewrite H3ty, H3ad.
    destruct (Z.eqb_spec (type (slot st minor)) SOCK_DGRAM) as [E|E].
    - exists (addr (slot st minor)).
      split; [apply slot_modify_same; in_tbl|].
      split; [reflexivity|]. split; [contradiction|].
      split; [|split; [in_tbl|split; reflexivity]].
      intros j Hj. rewrite slot_modify_other by auto. auto.
    - exists (source (slot S3 p)). rewrite set_source_id.
      split; [reflexivity|]. split; [contradiction|].
      split; [intros _; rewrite H3; reflexivity|]. auto. }
  clearbody S4. destruct H4 as (src & H4 & Hsd & Hsn & H4o & H4l & H4e & H4t).
  exists S4, src. rewrite H4, H3.
  split; [reflexivity|]. split; [exact Hsd|]. split; [exact Hsn|].
  split; [exact H4o|]. split; [exact H4l|]. split; [exact H4e|].
  split; [exact H4t|].
  rewrite ssize_t_small by lia. reflexivity.
Qed.

(** The same for write_deposit, once the bytes of the request are copied
    in. *)
Lemma write_deposit_unfold U minor p endpt grant n st region :
  0 < n ->
  in_table st p ->
  ring_ok (slot st p) ->
  size (slot st p) + n <= UDS_BUF ->
  umem endpt grant = Some region ->
  n <= zlength region ->
  let data := load region 0 n in
  let fd := slot st p in
  exists S4 src,
    slot S4 p =
      set_source src
        (set_size (size fd + n)
           (set_buf (ring_write (buf fd) ((pos fd + size fd) mod UDS_BUF) data)
              fd)) /\
    (type (slot st minor) = SOCK_DGRAM -> src = addr (slot st minor)) /\
    (type (slot st minor) <> SOCK_DGRAM -> src = source (slot st p)) /\
    (forall j, j <> p -> slot S4 j = slot st j) /\
    zlength (uds_fd_table S4) = zlength (uds_fd_table st) /\
    uds_exit_left S4 = uds_exit_left st /\ trace S4 = trace st /\
    write_deposit U minor p endpt grant n st =
      do (_, S5) <-
        (if suspension_eqb (suspended (slot st p)) UDS_SUSPENDED_READ
         then U p S4 else Ret tt S4);
      Ret n (if negb (Z.land (sel_ops (slot S5 p)) CDEV_OP_RD =? 0)
                && (size (slot S5 p) >? 0)
             then notify_select p CDEV_OP_RD S5 else S5).
Proof using UDS_BUF_range. clear NR_FDS_nonneg.
  intros Hn Hin (Hb & Hpos & Hsz) Hfit Hmem Hreg data fd.
  unfold write_deposit.
  assert (Hw : 0 <= (pos fd + size fd) mod UDS_BUF < UDS_BUF)
    by (apply Z.mod_pos_bound; lia).
  fold fd. rewrite (size_t_small (pos fd + size fd)) by (subst fd; lia).
  set (w := (pos fd + size fd) mod UDS_BUF) in *.
  rewrite (size_t_small (UDS_BUF - w)) by lia.
  set (sub := if UDS_BUF - w >? n then n else UDS_BUF - w).
  assert (Hsub : sub = Z.min n (UDS_BUF - w)).
  { subst sub. rewrite Z.gtb_ltb. destruct (Z.ltb_spec n (UDS_BUF - w)); lia. }
  rewrite (safecopyfrom_ok _ _ _ _ region) by (assumption || lia).
  simpl negb. cbv iota.
  set (S1 := modify p (fun f => set_buf (store (buf f) w (load region 0 sub)) f) st).
  assert (Hdata : zlength data = n) by (apply load_zlength; lia).
  assert (Hfst : firstn (Z.to_nat (Z.min (zlength data) (UDS_BUF - w))) data
                 = load region 0 sub).
  { rewrite Hdata, <- Hsub. symmetry. apply load_prefix. lia. }
  assert (Hsnd : skipn (Z.to_nat (Z.min (zlength data) (UDS_BUF - w))) data
                 = load region sub (n - sub)).
  { rewrite Hdata, <- Hsub. symmetry. apply load_suffix. lia. }
  assert (HS2 : exists S2,
    (let '(r, seg2) :=
       if sub <? n then sys_safecopyfrom endpt grant sub (n - sub)
       else (OK, []) in
     if negb (r =? OK) then Ret r S1
     else write_advance U minor p n
            (if sub <? n
             then modify p (fun f => set_buf (store (buf f) 0 seg2) f) S1
             else S1)) = write_advance U minor p n S2 /\
    slot S2 p = set_buf (ring_write (buf fd) w data) fd /\
    (forall j, j <> p -> slot S2 j = slot st j) /\
    zlength (uds_fd_table S2) = zlength (uds_fd_table st) /\
    uds_exit_left S2 = uds_exit_left st /\ trace S2 = trace st).
  { destruct (Z.ltb_spec sub n).
    - rewrite (safecopyfrom_ok _ _ _ _ region) by (assumption || lia).
      eexists. split; [reflexivity|]. subst S1.
      split; [|split; [|split; [|split]]]; try reflexivity.
      + rewrite !slot_modify_same by in_tbl. unfold ring_write.
        rewrite Hfst, Hsnd. reflexivity.
      + intros j Hj. rewrite !slot_modify_other by auto. reflexivity.
      + in_tbl.
    - eexists. split; [reflexivity|]. subst S1.
      split; [|split; [|split; [|split]]]; try reflexivity.
      + rewrite !slot_modify_same by in_tbl. unfold ring_write.
        rewrite Hfst, Hsnd. replace (n - sub) with 0 by lia. reflexivity.
      + intros j Hj. rewrite !slot_modify_other by auto. reflexivity.
      + in_tbl. }
  destruct HS2 as (S2 & -> & Hp2 & Ho2 & Hl2 & He2 & Ht2).
  assert (Hm2 : type (slot S2 minor) = type (slot st minor) /\
                addr (slot S2 minor) = addr (slot st minor)).
  { destruct (Z.eq_dec minor p) as [->|Hne]; [rewrite Hp2; auto|].
    rewrite Ho2 by auto. auto. }
  destruct Hm2 as [Hty2 Had2].
  destruct (write_advance_unfold U minor p n S2)
    as (S4 & src & H4 & Hsd & Hsn & H4o & H4l & H4e & H4t & Hrun);
    try (rewrite Hp2; simpl; subst fd; first [assumption | lia]); try lia.
  { in_tbl. }
  exists S4, src. rewrite Hp2 in H4, Hrun. simpl in H4, Hrun.
  rewrite Hty2, Had2 in *.
  split; [exact H4|]. split; [exact Hsd|].
  split; [intros E; rewrite (Hsn E), Hp2; reflexivity|].
  split; [intros j Hj; rewrite H4o by auto; auto|].
  split; [congruence|]. split; [congruence|]. split; [congruence|].
  exact Hrun.
Qed.

(** A read on a buffer with data, with nobody to wake up: the bytes that
    are there, up to the size asked for. *)
Lemma perform_read_takes U minor endpt grant len st region :
  in_table st minor ->
  ring_ok (slot st minor) ->
  Z.land (mode (slot st minor)) UDS_R <> 0 ->
  0 < size (slot st minor) ->
  0 < len ->
  (peer (slot st minor) = -1 \/
   suspended (slot st (peer (slot st minor))) <> UDS_SUSPENDED_WRITE) ->
  umem endpt grant = Some region ->
  Z.min len (size (slot st minor)) <= zlength region ->
  let fd := slot st minor in
  let n := Z.min len (size fd) in
  let pos' := if size fd - n =? 0 then 0 else (pos fd + n) mod UDS_BUF in
  exists st',
    uds_perform_read_body U minor endpt grant len false st = Ret n st' /\
    (exists ops, slot st' minor =
       set_sel_ops ops (set_pos pos' (set_size (size fd - n) fd))) /\
    (forall j, j <> minor ->
       exists ops, slot st' j = set_sel_ops ops (slot st j)) /\
    zlength (uds_fd_table st') = zlength (uds_fd_table st) /\
    uds_exit_left st' = uds_exit_left st /\
    delivered (trace st') =
      delivered (trace st) ++ firstn (Z.to_nat n) (ring fd).
Proof using UDS_BUF_range. clear NR_FDS_nonneg.
  intros Hin Hring Hr Hsz Hlen Hp Hmem Hreg fd n pos'.
  pose proof Hring as (Hb & Hpos & Hs).
  unfold uds_perform_read_body.
  destruct (Z.eqb_spec len 0); [lia|].
  destruct (Z.eqb_spec (Z.land (mode (slot st minor)) UDS_R) 0);
    [contradiction|].
  destruct (Z.eqb_spec (size (slot st minor)) 0); [lia|].
  assert (En : (if len >? size (slot st minor) then size (slot st minor)
                else len) = n).
  { subst n fd. rewrite Z.gtb_ltb.
    destruct (Z.ltb_spec (size (slot st minor)) len); lia. }
  rewrite En.
  destruct (read_take_ok U minor (peer (slot st minor)) endpt grant n st region)
    as (st' & Hrun & Hm & Ho & Hl & He & Ht);
    try assumption; try (subst n fd; lia).
  exists st'. split; [exact Hrun|]. split; [exact Hm|]. split; [exact Ho|].
  split; [exact Hl|]. split; [exact He|]. rewrite Ht. f_equal.
  unfold ring. apply ring_take; try assumption; subst n fd; lia.
Qed.

Lemma ring_after_take fd n :
  ring_ok fd -> 0 < n <= size fd ->
  let pos' := if size fd - n =? 0 then 0 else (pos fd + n) mod UDS_BUF in
  forall ops,
    ring (set_sel_ops ops (set_pos pos' (set_size (size fd - n) fd)))
    = skipn (Z.to_nat n) (ring fd).
Proof using UDS_BUF_range. clear NR_FDS_nonneg.
  intros (Hb & Hpos & Hs) Hn pos' ops. unfold ring. simpl. subst pos'.
  destruct (Z.eqb_spec (size fd - n) 0) as [Ez|Ez].
  - rewrite Ez. rewrite ring_read_nil by lia.
    rewrite skipn_all2; [reflexivity|].
    rewrite ring_read_length by assumption. lia.
  - apply ring_drop; try assumption; lia.
Qed.

(** X10.  A write completes a read that waits for it.  On a connection a-b
    (stream or seqpacket, each the peer of the other, the write half of a
    and the read half of b open, no write suspended on a) with a reader
    suspended on b (requester er, grant gr, size nr > 0, request idr) and
    the buffer of b empty, a write of 0 < len <= UDS_BUF bytes on a, both
    grants being valid, returns len; within the call the first
    k = min(nr, len) bytes are copied out to the reader, the reader is then
    sent the reply k for request idr, b is not suspended any more and the
    other len - k bytes are the content of its buffer.  After the reply at
    most one select notification follows. *)
Theorem write_completes_blocked_reader fuel a b position endpt grant len
    flags id st region er gr nr idr region_r :
  table_ok st ->
  0 <= a < NR_FDS -> 0 <= b < NR_FDS -> a <> b ->
  state (slot st a) = UDS_INUSE -> state (slot st b) = UDS_INUSE ->
  peer (slot st a) = b -> peer (slot st b) = a ->
  conn_type (slot st a) ->
  Z.land (mode (slot st a)) UDS_W <> 0 ->
  Z.land (mode (slot st b)) UDS_R <> 0 ->
  ring_ok (slot st b) -> size (slot st b) = 0 ->
  suspended (slot st a) <> UDS_SUSPENDED_WRITE ->
  suspended (slot st b) = UDS_SUSPENDED_READ ->
  susp_endpt (slot st b) = er -> susp_grant (slot st b) = gr ->
  susp_size (slot st b) = nr -> susp_id (slot st b) = idr ->
  0 < nr ->
  0 < len <= UDS_BUF ->
  umem endpt grant = Some region -> len <= zlength region ->
  umem er gr = Some region_r -> Z.min nr len <= zlength region_r ->
  let k := Z.min nr len in
  let data := load region 0 len in
  exists st' tr sel,
    uds_write (S fuel) a position endpt grant len flags id st = Ret len st' /\
    suspended (slot st' b) = UDS_NOT_SUSPENDED /\
    size (slot st' b) = len - k /\
    ring (slot st' b) = skipn (Z.to_nat k) data /\
    trace st' = tr ++ EvReplyTask er idr k :: sel /\
    delivered tr = delivered (trace st) ++ firstn (Z.to_nat k) data /\
    (sel = [] \/ exists e o, sel = [EvReplySelect e b o]).
Proof using UDS_BUF_range. clear NR_FDS_nonneg.
  intros Hok Ha Hb Hab Hsa Hsb Hpa Hpb Hc Hma Hmb Hring Hz Hua Hub
         Her Hgr Hnr Hidr Hnr0 Hlen Hmem Hreg Hmemr Hregr k data.
  pose proof Hring as (Hbuf & Hpos & Hsz).
  assert (Hina : in_table st a) by (unfold in_table; rewrite Hok; lia).
  assert (Hinb : in_table st b) by (unfold in_table; rewrite Hok; lia).
  unfold uds_write.
  destruct (Z.ltb_spec a 0); [lia|]. destruct (Z.geb_spec a NR_FDS); [lia|].
  simpl orb. cbv iota. rewrite Hsa. simpl negb. cbv iota.
  unfold uds_perform_write, uds_perform_write_body.
  destruct (Z.eqb_spec len 0); [lia|].
  destruct (Z.eqb_spec (Z.land (mode (slot st a)) UDS_W) 0); [contradiction|].
  rewrite fits_test by (left; lia).
  assert (Ewp : write_peer a false st = inr b).
  { unfold write_peer. rewrite (conn_type_test _ Hc), Hpa, Hpb.
    destruct (Z.eqb_spec b (-1)); [lia|].
    destruct (Z.eqb_spec a (-1)); [lia|]. reflexivity. }
  rewrite Ewp.
  destruct (Z.eqb_spec (Z.land (mode (slot st b)) UDS_R) 0); [contradiction|].
  rewrite Hz. change (0 >? 0) with false. rewrite !andb_false_r.
  destruct (Z.eqb_spec 0 UDS_BUF); [lia|]. simpl orb. cbv iota.
  rewrite Z.sub_0_r, size_t_small by lia.
  assert (E4 : (len >? UDS_BUF) = false)
    by (rewrite Z.gtb_ltb; apply Z.ltb_ge; lia).
  rewrite E4.
  destruct (write_deposit_unfold (uds_unsuspend (S fuel)) a b endpt grant len
              st region)
    as (S4 & src & H4 & _ & _ & H4o & H4l & H4e & H4t & Hrun);
    try assumption; try lia.
  rewrite Hrun, Hub. simpl suspension_eqb. cbv iota.
  rewrite Hz in H4. rewrite Z.add_0_r, Z.add_0_l in H4.
  rewrite (Z.mod_small (pos (slot st b))) in H4 by lia.
  fold data in H4.
  assert (Hdata : zlength data = len) by (apply load_zlength; lia).
  assert (Hin4 : in_table S4 b) by (unfold in_table in *; lia).
  assert (Hring4 : ring_ok (slot S4 b)).
  { rewrite H4. unfold ring_ok. simpl. split; [|lia].
    unfold zlength. rewrite ring_write_length; try assumption; lia. }
  assert (Hr4 : ring (slot S4 b) = data).
  { rewrite H4. unfold ring. simpl.
    pose proof (ring_append (buf (slot st b)) (pos (slot st b)) 0 data)
      as Happ.
    rewrite Z.add_0_r, Z.add_0_l, Hdata in Happ.
    rewrite (Z.mod_small (pos (slot st b))) in Happ by lia.
    rewrite Happ by (assumption || lia).
    unfold ring_read, load. simpl. rewrite Z.min_l by lia. reflexivity. }
  assert (Hsz4 : size (slot S4 b) = len) by (rewrite H4; reflexivity).
  assert (Hfld : suspended (slot S4 b) = UDS_SUSPENDED_READ /\
                 susp_endpt (slot S4 b) = er /\ susp_grant (slot S4 b) = gr /\
                 susp_size (slot S4 b) = nr /\ susp_id (slot S4 b) = idr /\
                 peer (slot S4 b) = a /\ mode (slot S4 b) = mode (slot st b))
    by (rewrite H4; simpl; auto 10).
  destruct Hfld as (F1 & F2 & F3 & F4 & F5 & F6 & F7).
  rewrite uds_unsuspend_S, F1, F2, F3, F4.
  destruct (perform_read_takes (uds_unsuspend fuel) b er gr nr S4 region_r)
    as (S5 & Hrd & (ops & H5) & H5o & H5l & H5e & H5t);
    try assumption; try lia.
  { now rewrite F7. }
  { right. rewrite F6, H4o by auto. exact Hua. }
  cbv zeta in Hrd, H5, H5t. rewrite Hsz4 in Hrd, H5, H5t.
  fold k in Hrd, H5, H5t.
  rewrite Hrd. simpl bind.
  destruct (Z.eqb_spec k EDONTREPLY); [unfold EDONTREPLY in *; lia|].
  simpl bind.
  set (S6 := unsuspend_reply b k S5).
  assert (Hin5 : in_table S5 b) by (unfold in_table in *; lia).
  assert (H6 : slot S6 b = set_suspended UDS_NOT_SUSPENDED (slot S5 b)).
  { subst S6. unfold unsuspend_reply. rewrite slot_modify_same by in_tbl.
    now rewrite slot_emit. }
  assert (H6t : trace S6 = trace S5 ++ [EvReplyTask er idr k]).
  { subst S6. unfold unsuspend_reply. simpl. rewrite H5. simpl.
    now rewrite F2, F5. }
  assert (Hin6 : in_table S6 b)
    by (subst S6; unfold unsuspend_reply; in_tbl).
  assert (Hk : 0 < k <= len) by (subst k; lia).
  assert (Hring6 : ring (slot S6 b) = skipn (Z.to_nat k) data).
  { rewrite H6, H5. rewrite <- Hr4.
    rewrite <- (ring_after_take (slot S4 b) k Hring4 ltac:(lia) ops).
    rewrite Hsz4. reflexivity. }
  assert (Hsz6 : size (slot S6 b) = len - k)
    by (rewrite H6, H5; reflexivity).
  assert (Hsu6 : suspended (slot S6 b) = UDS_NOT_SUSPENDED)
    by (rewrite H6; reflexivity).
  assert (Hd5 : delivered (trace S5)
                = delivered (trace st) ++ firstn (Z.to_nat k) data)
    by (rewrite H5t, H4t, Hr4; reflexivity).
  destruct (Z.eqb_spec len EDONTREPLY); [unfold EDONTREPLY in *; lia|].
  destruct (negb (Z.land (sel_ops (slot S6 b)) CDEV_OP_RD =? 0)
            && (size (slot S6 b) >? 0)).
  - destruct (notify_select_spec b CDEV_OP_RD S6 Hin6) as (N1 & _).
    eexists _, (trace S5), _. split; [reflexivity|].
    rewrite N1.
    split; [exact Hsu6|]. split; [exact Hsz6|]. split; [exact Hring6|].
    split.
    { change (trace (notify_select b CDEV_OP_RD S6))
        with (trace S6 ++ [EvReplySelect (sel_endpt (slot S6 b)) b CDEV_OP_RD]).
      rewrite H6t, <- app_assoc. reflexivity. }
    split; [exact Hd5|]. right. eauto.
  - exists S6, (trace S5), []. split; [reflexivity|].
    split; [exact Hsu6|]. split; [exact Hsz6|]. split; [exact Hring6|].
    split; [exact H6t|]. split; [exact Hd5|]. now left.
Qed.





(** *** Select *)

(** The three operation bits of a select request. *)
Lemma land_ops_bit ops bit :
  bit = CDEV_OP_RD \/ bit = CDEV_OP_WR \/ bit = CDEV_OP_ERR ->
  Z.land (Z.land ops (Z.lor (Z.lor CDEV_OP_RD CDEV_OP_WR) CDEV_OP_ERR)) bit
  = Z.land ops bit.
Proof.
  intros [->| [->| ->]]; rewrite <- Z.land_assoc; reflexivity.
Qed.

(** X12.  A select on an open socket is a poll: it returns a set of ready
    operations and leaves the table as it is, except that it records the
    operations still waited for, and the endpoint to notify, when the
    request carries CDEV_NOTIFY and some requested operation is not
    ready.  It sends no reply and moves no data.  Only reading and writing
    are ever reported, and only when requested; CDEV_OP_ERR is never
    reported ready. *)
Theorem uds_select_is_a_poll fuel minor ops endpt st :
  0 <= minor < NR_FDS ->
  state (slot st minor) = UDS_INUSE ->
  exists ready,
    let rest :=
      Z.land (Z.land ops (Z.lor (Z.lor CDEV_OP_RD CDEV_OP_WR) CDEV_OP_ERR))
             (Z.lnot ready) in
    uds_select fuel minor ops endpt st =
      Ret ready
          (if negb (rest =? 0) && negb (Z.land ops CDEV_NOTIFY =? 0)
           then modify minor
                  (fun f => set_sel_ops (Z.lor (sel_ops f) rest)
                              (set_sel_endpt endpt f)) st
           else st) /\
    (ready = 0 \/ ready = CDEV_OP_RD \/ ready = CDEV_OP_WR \/
     ready = Z.lor CDEV_OP_RD CDEV_OP_WR) /\
    (Z.land ops CDEV_OP_RD = 0 -> Z.land ready CDEV_OP_RD = 0) /\
    (Z.land ops CDEV_OP_WR = 0 -> Z.land ready CDEV_OP_WR = 0).
Proof using. only_stated.
  intros Hm Hs. unfold uds_select.
  destruct (Z.ltb_spec minor 0); [lia|].
  destruct (Z.geb_spec minor NR_FDS); [lia|].
  simpl orb. cbv iota. rewrite Hs. simpl negb. cbv iota zeta.
  rewrite !land_ops_bit by auto.
  unfold uds_perform_read, uds_perform_write.
  destruct (perform_read_pretend (uds_unsuspend fuel) minor NONE GRANT_INVALID
              1 st) as (r1 & ->).
  assert (H1 : exists rd,
    (if negb (Z.land ops CDEV_OP_RD =? 0)
     then
       do (bytes, st') <- Ret r1 st;
       if bytes >? 0 then Ret CDEV_OP_RD st'
       else if listening (slot st' minor) =? 1
       then Ret (if existsb
                      (fun i => negb (backlog_at (slot st' minor) i =? -1))
                      (zrange 0 (backlog_size (slot st' minor)))
                 then CDEV_OP_RD else 0) st'
       else if negb (bytes =? EDONTREPLY) then Ret CDEV_OP_RD st'
       else Ret 0 st'
     else Ret 0 st) = Ret rd st /\
    (rd = 0 \/ rd = CDEV_OP_RD) /\
    (Z.land ops CDEV_OP_RD = 0 -> rd = 0)).
  { destruct (Z.eqb_spec (Z.land ops CDEV_OP_RD) 0) as [E|E]; simpl negb;
      cbv iota.
    - exists 0. auto.
    - simpl bind.
      repeat match goal with
             | |- context [if ?c then _ else _] => destruct c
             end; eexists; (split; [reflexivity|]); split; auto;
        intros; contradiction. }
  destruct H1 as (rd & -> & Hrd & Hrd0). simpl bind.
  destruct (perform_write_pretend (uds_unsuspend fuel) minor NONE
              GRANT_INVALID 1 st) as (r2 & ->).
  assert (H2 : exists ready,
    (if negb (Z.land ops CDEV_OP_WR =? 0)
     then
       do (bytes, st') <- Ret r2 st;
       if negb (bytes =? 0) && negb (bytes =? EDONTREPLY)
       then Ret (Z.lor rd CDEV_OP_WR) st'
       else Ret rd st'
     else Ret rd st) = Ret ready st /\
    (ready = 0 \/ ready = CDEV_OP_RD \/ ready = CDEV_OP_WR \/
     ready = Z.lor CDEV_OP_RD CDEV_OP_WR) /\
    (Z.land ops CDEV_OP_RD = 0 -> Z.land ready CDEV_OP_RD = 0) /\
    (Z.land ops CDEV_OP_WR = 0 -> Z.land ready CDEV_OP_WR = 0)).
  { destruct (Z.eqb_spec (Z.land ops CDEV_OP_WR) 0) as [E|E]; simpl negb;
      cbv iota.
    - exists rd. split; [reflexivity|].
      split; [destruct Hrd as [->| ->]; auto|].
      split; [intros Hz; rewrite (Hrd0 Hz); reflexivity|].
      intros _. destruct Hrd as [->| ->]; reflexivity.
    - simpl bind.
      destruct (negb (r2 =? 0) && negb (r2 =? EDONTREPLY)).
      + exists (Z.lor rd CDEV_OP_WR). split; [reflexivity|].
        split; [destruct Hrd as [->| ->]; auto|].
        split; [intros Hz; rewrite (Hrd0 Hz); reflexivity|].
        intros; contradiction.
      + exists rd. split; [reflexivity|].
        split; [destruct Hrd as [->| ->]; auto|].
        split; [intros Hz; rewrite (Hrd0 Hz); reflexivity|].
        intros; contradiction. }
  destruct H2 as (ready & -> & Hr & Hr1 & Hr2). simpl bind.
  exists ready. split; [reflexivity|]. auto.
Qed.


(** *** Closing *)

(** uds_close on an open socket returns OK and zeroes the slot. *)
Lemma uds_close_frees fuel minor st r st' :
  0 <= minor < NR_FDS ->
  state (slot st minor) = UDS_INUSE ->
  uds_close fuel minor st = Ret r st' ->
  zlength (uds_fd_table st') = NR_FDS ->
  r = OK /\ slot st' minor = fd_zero.
Proof using. only_stated.
  intros Hm Hs E Hlen. unfold uds_close in E.
  destruct (Z.ltb_spec minor 0); [lia|].
  destruct (Z.geb_spec minor NR_FDS); [lia|].
  simpl orb in E. cbv iota in E. rewrite Hs in E. simpl negb in E.
  cbv iota zeta in E.
  match type of E with
  | bind ?m _ = _ => destruct m as [[] st1| |]; simpl bind in E;
                     try discriminate
  end.
  set (st2 := if nfiledes (ancillary_data (slot st1 minor)) >? 0
              then emit (EvClearFds minor) st1 else st1) in *.
  set (st3 := modify minor (fun _ => fd_zero) st2) in *.
  assert (Ht : r = OK /\ uds_fd_table st' = uds_fd_table st3).
  { repeat match type of E with
           | context [if ?c then _ else _] => destruct c
           end; inversion E; split; reflexivity. }
  destruct Ht as [-> Ht]. split; [reflexivity|].
  unfold slot. rewrite Ht. subst st3.
  apply (slot_modify_same st2 minor (fun _ => fd_zero)).
  unfold in_table. rewrite Ht in Hlen.
  rewrite table_length_modify in Hlen. lia.
Qed.

(** X14.  Closing leaves no reference behind.  In a consistent table (as
    every reachable table is) uds_close on an open socket returns OK, the
    slot is zeroed (free again), the table is still consistent, and no
    open socket has the closed one as its peer or in the backlog of
    pending connections. *)
Theorem uds_close_leaves_no_reference fuel minor st :
  consistent st ->
  0 <= minor < NR_FDS ->
  state (slot st minor) = UDS_INUSE ->
  exists st',
    uds_close (S fuel) minor st = Ret OK st' /\
    slot st' minor = fd_zero /\
    consistent st' /\
    (forall x, state (slot st' x) = UDS_INUSE -> peer (slot st' x) <> minor) /\
    (forall x i, state (slot st' x) = UDS_INUSE ->
       listening (slot st' x) <> 0 ->
       0 <= i < backlog_size (slot st' x) ->
       backlog_at (slot st' x) i <> minor).
Proof using UDS_BUF_range. clear NR_FDS_nonneg.
  intros Hc Hm Hs.
  destruct (consistent_close fuel minor st Hc) as (r & st' & Hrun & Hc').
  pose proof Hc' as (Hok' & _ & _ & Hall).
  destruct (uds_close_frees (S fuel) minor st r st' Hm Hs Hrun Hok')
    as [-> Hz].
  exists st'. split; [exact Hrun|]. split; [exact Hz|].
  split; [exact Hc'|].
  assert (Hfree : state (slot st' minor) <> UDS_INUSE)
    by (rewrite Hz; discriminate).
  split.
  - intros x Hx Hp. destruct (Hall x Hx) as (Hlk & _).
    unfold link_ok in Hlk. cbv zeta in Hlk. rewrite Hp in Hlk.
    destruct (Hlk ltac:(lia)) as (_ & _ & Hin & _). contradiction.
  - intros x i Hx Hli Hi Hb. destruct (Hall x Hx) as (_ & Hbk & _).
    destruct (Hbk Hli) as (_ & Hent).
    destruct (Hent i Hi ltac:(lia)) as (_ & Hin & _).
    rewrite Hb in Hin. contradiction.
Qed.

(** uds_reset on a connection-oriented socket with a blocked read or
    write: the request is answered with ECONNRESET, a pending select is
    answered, and the slot is left unconnected, with no error pending. *)
Lemma uds_reset_blocked fuel b st :
  in_table st b ->
  conn_type (slot st b) ->
  susp_size (slot st b) <> 0 ->
  (suspended (slot st b) = UDS_SUSPENDED_READ /\
   Z.land (mode (slot st b)) UDS_R <> 0 /\ size (slot st b) = 0) \/
  (suspended (slot st b) = UDS_SUSPENDED_WRITE /\
   Z.land (mode (slot st b)) UDS_W <> 0 /\
   (susp_size (slot st b) <= UDS_BUF \/ type (slot st b) = SOCK_STREAM)) ->
  exists st1,
    uds_reset (S fuel) b st = Ret tt st1 /\
    slot st1 b =
      set_sel_ops 0 (set_suspended UDS_NOT_SUSPENDED
                       (set_err 0 (set_peer (-1) (slot st b)))) /\
    (forall j, j <> b -> slot st1 j = slot st j) /\
    zlength (uds_fd_table st1) = zlength (uds_fd_table st) /\
    uds_exit_left st1 = uds_exit_left st /\
    trace st1 =
      trace st
      ++ EvReplyTask (susp_endpt (slot st b)) (susp_id (slot st b)) ECONNRESET
      :: (if sel_ops (slot st b) =? 0 then []
          else [EvReplySelect (sel_endpt (slot st b)) b
                  (sel_ops (slot st b))]).
Proof using. only_stated.
  intros Hin Hct Hn Hblk. unfold uds_reset.
  set (st1 := modify b (set_peer (-1)) st).
  set (st2 := modify b (set_err ECONNRESET) st1).
  assert (Hin1 : in_table st1 b) by (subst st1; in_tbl).
  assert (Hin2 : in_table st2 b) by (subst st2; in_tbl).
  assert (H2 : slot st2 b = set_err ECONNRESET (set_peer (-1) (slot st b))).
  { subst st2 st1. now rewrite !slot_modify_same by in_tbl. }
  assert (H2o : forall j, j <> b -> slot st2 j = slot st j).
  { intros j Hj. subst st2 st1. now rewrite !slot_modify_other by auto. }
  set (st3 := modify b (set_err 0) st2).
  assert (Hin3 : in_table st3 b) by (subst st3; in_tbl).
  assert (Hun : uds_unsuspend (S fuel) b st2 =
                Ret tt (unsuspend_reply b ECONNRESET st3)).
  { rewrite uds_unsuspend_S. rewrite H2.
    destruct Hblk as [(Hsu & Hmo & Hsz)|(Hsu & Hmo & Hfit)]; simpl suspended;
      rewrite Hsu; simpl susp_endpt; simpl susp_grant; simpl susp_size.
    - unfold uds_perform_read_body. rewrite H2. simpl mode. simpl size.
      simpl peer. simpl type. simpl err.
      destruct (Z.eqb_spec (susp_size (slot st b)) 0); [contradiction|].
      destruct (Z.eqb_spec (Z.land (mode (slot st b)) UDS_R) 0);
        [contradiction|].
      rewrite Hsz. change (0 =? 0) with true. cbv iota.
      change (-1 =? -1) with true.
      rewrite (conn_type_test (slot st b) Hct). simpl andb. cbv iota.
      change (ECONNRESET =? ECONNRESET) with true. cbv iota.
      reflexivity.
    - unfold uds_perform_write_body, write_peer. rewrite H2. simpl mode.
      simpl peer. simpl type. simpl err.
      destruct (Z.eqb_spec (susp_size (slot st b)) 0); [contradiction|].
      destruct (Z.eqb_spec (Z.land (mode (slot st b)) UDS_W) 0);
        [contradiction|].
      assert (Hf := fits_test (susp_size (slot st b)) (slot st b) Hfit).
      rewrite Hf.
      rewrite (conn_type_test (slot st b) Hct).
      change (-1 =? -1) with true. cbv iota.
      change (ECONNRESET =? ECONNRESET) with true. cbv iota.
      reflexivity. }
  assert (Hsus : suspension_eqb (suspended (slot st2 b)) UDS_NOT_SUSPENDED
                 = false).
  { rewrite H2. simpl suspended.
    destruct Hblk as [(-> & _)|(-> & _)]; reflexivity. }
  rewrite Hsus. simpl negb. cbv iota. rewrite Hun. simpl bind.
  set (S4 := unsuspend_reply b ECONNRESET st3).
  assert (H3 : slot st3 b = set_err 0 (set_peer (-1) (slot st b))).
  { subst st3. rewrite slot_modify_same by in_tbl. now rewrite H2. }
  assert (H4 : slot S4 b = set_suspended UDS_NOT_SUSPENDED
                             (set_err 0 (set_peer (-1) (slot st b)))).
  { subst S4. unfold unsuspend_reply. rewrite slot_modify_same by in_tbl.
    now rewrite slot_emit, H3. }
  assert (H4o : forall j, j <> b -> slot S4 j = slot st j).
  { intros j Hj. subst S4 st3. unfold unsuspend_reply.
    rewrite slot_modify_other by auto.
    rewrite slot_emit, slot_modify_other by auto. now apply H2o. }
  assert (H4t : trace S4 =
                trace st ++ [EvReplyTask (susp_endpt (slot st b))
                               (susp_id (slot st b)) ECONNRESET]).
  { subst S4. unfold unsuspend_reply. simpl. now rewrite H3. }
  assert (H4l : zlength (uds_fd_table S4) = zlength (uds_fd_table st))
    by (subst S4 st3 st2 st1; unfold unsuspend_reply; in_tbl).
  assert (Hin4 : in_table S4 b) by (unfold in_table in *; lia).
  rewrite H4. simpl sel_ops. simpl sel_endpt.
  destruct (Z.eqb_spec (sel_ops (slot st b)) 0) as [E0|E0]; simpl negb;
    cbv iota.
  - exists S4. split; [reflexivity|].
    split; [rewrite H4; simpl; rewrite <- E0; now destruct (slot st b)|].
    split; [exact H4o|]. split; [exact H4l|]. split; [reflexivity|].
    exact H4t.
  - eexists. split; [reflexivity|].
    split; [rewrite slot_modify_same by in_tbl; rewrite slot_emit, H4;
            reflexivity|].
    split; [intros j Hj; rewrite slot_modify_other by auto;
            rewrite slot_emit; now apply H4o|].
    split; [in_tbl|]. split; [reflexivity|].
    transitivity (trace S4 ++ [EvReplySelect (sel_endpt (slot st b)) b
                                 (sel_ops (slot st b))]); [reflexivity|].
    rewrite H4t, <- app_assoc. reflexivity.
Qed.

(** X15.  Closing one end of a connection answers the request the other
    end is blocked in with ECONNRESET.  For a connection a-b, b connection
    oriented, with a request of more than 0 bytes suspended on b, either a
    read with the read half of b open and the buffer of b empty, or a
    write with the write half of b open that fits (at most UDS_BUF bytes,
    or b a stream): uds_close on a returns OK; the suspended request of b
    is sent the reply ECONNRESET, followed by the reply to a select
    pending on b, if any; b is left unconnected, not suspended and with no
    error pending, a is zeroed, and no other slot changes. *)
Theorem uds_close_answers_blocked_peer fuel a b st :
  table_ok st ->
  0 <= a < NR_FDS -> 0 <= b < NR_FDS -> a <> b ->
  state (slot st a) = UDS_INUSE ->
  peer (slot st a) = b -> peer (slot st b) = a ->
  conn_type (slot st b) ->
  susp_size (slot st b) <> 0 ->
  (suspended (slot st b) = UDS_SUSPENDED_READ /\
   Z.land (mode (slot st b)) UDS_R <> 0 /\ size (slot st b) = 0) \/
  (suspended (slot st b) = UDS_SUSPENDED_WRITE /\
   Z.land (mode (slot st b)) UDS_W <> 0 /\
   (susp_size (slot st b) <= UDS_BUF \/ type (slot st b) = SOCK_STREAM)) ->
  exists st',
    uds_close (S fuel) a st = Ret OK st' /\
    slot st' a = fd_zero /\
    slot st' b =
      set_sel_ops 0 (set_suspended UDS_NOT_SUSPENDED
                       (set_err 0 (set_peer (-1) (slot st b)))) /\
    (forall j, j <> a -> j <> b -> slot st' j = slot st j) /\
    trace st' =
      trace st
      ++ EvReplyTask (susp_endpt (slot st b)) (susp_id (slot st b)) ECONNRESET
      :: (if sel_ops (slot st b) =? 0 then []
          else [EvReplySelect (sel_endpt (slot st b)) b
                  (sel_ops (slot st b))])
      ++ (if nfiledes (ancillary_data (slot st a)) >? 0
          then [EvClearFds a] else [])
      ++ (if uds_exit_left st =? 1 then [EvTerminate] else []).
Proof using. only_stated.
  intros Hok Ha Hb Hab Hsa Hpa Hpb Hct Hn Hblk.
  assert (Hinb : in_table st b) by (unfold in_table; rewrite Hok; lia).
  destruct (uds_reset_blocked fuel b st Hinb Hct Hn Hblk)
    as (st1 & Hrun & H1b & H1o & H1l & H1e & H1t).
  unfold uds_close.
  destruct (Z.ltb_spec a 0); [lia|]. destruct (Z.geb_spec a NR_FDS); [lia|].
  simpl orb. cbv iota. rewrite Hsa. simpl negb. cbv iota zeta.
  rewrite Hpa, Hpb.
  destruct (Z.eqb_spec b (-1)); [lia|]. destruct (Z.eqb_spec a (-1)); [lia|].
  simpl negb. simpl andb. cbv iota. rewrite Hrun. simpl bind.
  assert (H1a : slot st1 a = slot st a) by (apply H1o; exact Hab).
  rewrite H1a.
  set (st2 := if nfiledes (ancillary_data (slot st a)) >? 0
              then emit (EvClearFds a) st1 else st1).
  assert (H2s : forall j, slot st2 j = slot st1 j)
    by (intros j; subst st2; destruct (_ >? 0); reflexivity).
  assert (H2l : zlength (uds_fd_table st2) = zlength (uds_fd_table st))
    by (subst st2; destruct (_ >? 0); exact H1l).
  assert (H2e : uds_exit_left st2 = uds_exit_left st)
    by (subst st2; destruct (_ >? 0); exact H1e).
  assert (H2t : trace st2 =
                trace st1 ++ (if nfiledes (ancillary_data (slot st a)) >? 0
                              then [EvClearFds a] else []))
    by (subst st2; destruct (_ >? 0); simpl; now rewrite ?app_nil_r).
  set (st3 := modify a (fun _ => fd_zero) st2).
  assert (Hin2 : in_table st2 a) by (unfold in_table; rewrite H2l, Hok; lia).
  assert (H3a : slot st3 a = fd_zero)
    by (subst st3; now apply slot_modify_same).
  assert (H3o : forall j, j <> a -> slot st3 j = slot st1 j).
  { intros j Hj. subst st3. rewrite slot_modify_other by auto. apply H2s. }
  eexists. split; [reflexivity|].
  change (uds_exit_left st3) with (uds_exit_left st2). rewrite H2e.
  assert (Hfin : forall s, uds_fd_table s = uds_fd_table st3 ->
                 forall j, slot s j = slot st3 j)
    by (intros s Hs j; unfold slot; now rewrite Hs).
  assert (Htail : trace st3 = trace st2) by reflexivity.
  destruct (Z.gtb_spec (uds_exit_left st) 0) as [Hpos|Hpos].
  - simpl uds_exit_left.
    destruct (Z.eqb_spec (uds_exit_left st - 1) 0) as [E1|E1].
    + destruct (Z.eqb_spec (uds_exit_left st) 1); [|lia].
      split; [rewrite Hfin by reflexivity; exact H3a|].
      split; [rewrite Hfin by reflexivity; rewrite H3o by auto; exact H1b|].
      split; [intros j Hja Hjb; rewrite Hfin by reflexivity;
              rewrite H3o by auto; now apply H1o|].
      simpl trace. rewrite H2t, H1t.
      rewrite <- ?app_assoc. simpl. rewrite <- ?app_assoc. reflexivity.
    + destruct (Z.eqb_spec (uds_exit_left st) 1); [lia|].
      split; [rewrite Hfin by reflexivity; exact H3a|].
      split; [rewrite Hfin by reflexivity; rewrite H3o by auto; exact H1b|].
      split; [intros j Hja Hjb; rewrite Hfin by reflexivity;
              rewrite H3o by auto; now apply H1o|].
      simpl trace. rewrite H2t, H1t.
      rewrite <- ?app_assoc. simpl. rewrite ?app_nil_r. reflexivity.
  - destruct (Z.eqb_spec (uds_exit_left st) 1); [lia|].
    split; [exact H3a|].
    split; [rewrite H3o by auto; exact H1b|].
    split; [intros j Hja Hjb; rewrite H3o by auto; now apply H1o|].
    rewrite Htail, H2t, H1t.
    rewrite <- ?app_assoc. simpl. rewrite ?app_nil_r. reflexivity.
Qed.

(** *** Datagrams *)


(** *** Cancellation *)

(** The loop of uds_cancel over the table: the slots of idx whose child is
    minor have their child cleared. *)
Lemma clear_child_spec minor idx : forall st j,
  minor <> -1 ->
  (forall i, In i idx -> in_table st i) ->
  slot (fold_left (clear_child minor) idx st) j =
  if existsb (Z.eqb j) idx && (child (slot st j) =? minor)
  then set_child (-1) (slot st j) else slot st j.
Proof using. only_stated.
  induction idx as [|i idx IH]; intros st j Hm Hin; [reflexivity|].
  simpl fold_left. rewrite IH; [|exact Hm|].
  2:{ intros k Hk. unfold clear_child.
      destruct (child (slot st i) =? minor); [|apply Hin; now right].
      unfold in_table. rewrite table_length_modify. apply Hin. now right. }
  simpl existsb. unfold clear_child.
  destruct (Z.eqb_spec (child (slot st i)) minor) as [Ei|Ei].
  - destruct (Z.eqb_spec j i) as [->|Hji].
    + rewrite slot_modify_same by (apply Hin; now left).
      simpl child. rewrite Ei.
      destruct (Z.eqb_spec (-1) minor); [congruence|].
      rewrite andb_false_r, Z.eqb_refl. reflexivity.
    + rewrite slot_modify_other by auto. reflexivity.
  - destruct (Z.eqb_spec j i) as [->|Hji]; [|reflexivity].
    destruct (Z.eqb_spec (child (slot st i)) minor); [contradiction|].
    rewrite !andb_false_r. reflexivity.
Qed.

Lemma existsb_zrange j lo hi :
  existsb (Z.eqb j) (zrange lo hi) = (lo <=? j) && (j <? hi).
Proof using. only_stated.
  destruct (existsb (Z.eqb j) (zrange lo hi)) eqn:E.
  - apply existsb_exists in E. destruct E as (x & Hx & Ex).
    apply Z.eqb_eq in Ex. subst x. apply in_zrange in Hx.
    symmetry. apply andb_true_iff. split;
      [apply Z.leb_le|apply Z.ltb_lt]; lia.
  - symmetry. apply not_true_iff_false. intros H.
    apply andb_true_iff in H. destruct H as [H1 H2].
    apply Z.leb_le in H1. apply Z.ltb_lt in H2.
    apply not_true_iff_false in E. apply E.
    apply existsb_exists. exists j. split; [|apply Z.eqb_refl].
    apply in_zrange. lia.
Qed.

(** The loop sends nothing. *)
Lemma clear_child_trace minor idx : forall s,
  trace (fold_left (clear_child minor) idx s) = trace s /\
  uds_exit_left (fold_left (clear_child minor) idx s) = uds_exit_left s.
Proof using. only_stated.
  induction idx as [|i idx IH]; intros s; [split; reflexivity|].
  simpl fold_left. destruct (IH (clear_child minor s i)) as [-> ->].
  unfold clear_child. destruct (_ =? _); split; reflexivity.
Qed.

(** uds_cancel sends nothing. *)
Lemma uds_cancel_trace minor endpt id st :
  trace (snd (uds_cancel minor endpt id st)) = trace st.
Proof using. only_stated.
  unfold uds_cancel.
  repeat match goal with
         | |- context [if ?c then _ else _] => destruct c
         end; try reflexivity.
  simpl snd.
  destruct (suspended (slot st minor)); try reflexivity.
  simpl trace. apply clear_child_trace.
Qed.

(** X17.  What a cancellation changes.  When uds_cancel applies (the slot
    is suspended on the request of this endpoint and id), it returns
    EINTR, sends no reply and moves no data: the slot is marked not
    suspended, and if the request was an accept the child field of every
    slot that names this slot is reset to -1.  Nothing else in the table
    changes. *)
Theorem uds_cancel_effect minor endpt id st :
  table_ok st ->
  cancel_applies minor endpt id st ->
  exists st',
    uds_cancel minor endpt id st = (EINTR, st') /\
    trace st' = trace st /\
    uds_exit_left st' = uds_exit_left st /\
    table_ok st' /\
    forall j, 0 <= j < NR_FDS ->
      slot st' j =
      let fd :=
        if suspension_eqb (suspended (slot st minor)) UDS_SUSPENDED_ACCEPT
           && (child (slot st j) =? minor)
        then set_child (-1) (slot st j) else slot st j in
      if j =? minor then set_suspended UDS_NOT_SUSPENDED fd else fd.
Proof using. only_stated.
  intros Hok (Hr & Hs & Hsusp & He & Hi). unfold uds_cancel.
  destruct (Z.ltb_spec minor 0); [lia|].
  destruct (Z.geb_spec minor NR_FDS); [lia|]. simpl orb. cbv iota zeta.
  rewrite Hs. simpl negb. cbv iota.
  destruct (suspension_eqb (suspended (slot st minor)) UDS_NOT_SUSPENDED)
    eqn:E.
  { apply suspension_eqb_eq in E. contradiction. }
  rewrite He, Hi, !Z.eqb_refl. simpl negb. simpl orb. cbv iota.
  eexists. split; [reflexivity|].
  assert (Hfold : forall j, 0 <= j < NR_FDS ->
            slot (fold_left (clear_child minor) (zrange 0 NR_FDS) st) j =
            if child (slot st j) =? minor
            then set_child (-1) (slot st j) else slot st j).
  { intros j Hj. rewrite clear_child_spec; [|lia|].
    - rewrite existsb_zrange.
      destruct (Z.leb_spec 0 j); [|lia]. destruct (Z.ltb_spec j NR_FDS); [|lia].
      reflexivity.
    - intros i Hi'. apply in_zrange in Hi'. unfold in_table.
      rewrite Hok. exact Hi'. }
  destruct (suspended (slot st minor)) eqn:Esu;
    try contradiction; simpl suspension_eqb; simpl andb; cbv iota.
  1-3: (split; [reflexivity|]; split; [reflexivity|];
        split; [unfold table_ok; now rewrite table_length_modify|];
        intros j Hj; cbv zeta;
        destruct (Z.eqb_spec j minor) as [->|Hne];
        [apply slot_modify_same; unfold in_table; rewrite Hok; lia
        |apply slot_modify_other; auto]).
  destruct (clear_child_trace minor (zrange 0 NR_FDS) st) as [Ht1 Ht2].
  split; [exact Ht1|]. split; [exact Ht2|].
  split; [unfold table_ok; now rewrite table_length_modify,
            clear_child_length|].
  intros j Hj. cbv zeta.
  destruct (Z.eqb_spec j minor) as [->|Hne].
  - rewrite slot_modify_same
      by (unfold in_table; rewrite clear_child_length, Hok; lia).
    now rewrite Hfold by lia.
  - rewrite slot_modify_other by auto. now apply Hfold.
Qed.

(** *** The ioctl wrapper *)

(** X18.  An ioctl that has to wait.  When the control plane answers
    EDONTREPLY and leaves the (open) slot suspended, a blocking call
    returns EDONTREPLY with the request (endpoint, grant, id) recorded in
    the slot; a non-blocking call is cancelled at once: it returns
    EINPROGRESS for a connect and EAGAIN otherwise, the slot is not
    suspended afterwards, and no reply is sent by the cancellation. *)
Theorem uds_ioctl_would_block
    (uds_do_ioctl : Z -> Z -> Z -> Z -> driver -> outcome Z)
    minor request endpt grant flags user_endpt id st st2 :
  0 <= minor < NR_FDS ->
  state (slot st minor) = UDS_INUSE ->
  uds_do_ioctl minor request endpt grant
    (modify minor (set_owner user_endpt) st) = Ret EDONTREPLY st2 ->
  table_ok st2 ->
  state (slot st2 minor) = UDS_INUSE ->
  suspended (slot st2 minor) <> UDS_NOT_SUSPENDED ->
  exists st',
    uds_ioctl uds_do_ioctl minor request endpt grant flags user_endpt id st
    = Ret (if Z.land flags CDEV_NONBLOCK =? 0 then EDONTREPLY
           else if suspension_eqb (suspended (slot st2 minor))
                     UDS_SUSPENDED_CONNECT
                then EINPROGRESS else EAGAIN) st' /\
    trace st' = trace st2 /\
    (Z.land flags CDEV_NONBLOCK = 0 ->
       st' = modify minor
               (fun f => set_susp_id id (set_susp_size 0
                           (set_susp_grant grant (set_susp_endpt endpt f))))
               st2) /\
    (Z.land flags CDEV_NONBLOCK <> 0 ->
       suspended (slot st' minor) = UDS_NOT_SUSPENDED).
Proof using. only_stated.
  intros Hm Hs Hrun Hok2 Hs2 Hsu2. unfold uds_ioctl.
  destruct (Z.ltb_spec minor 0); [lia|].
  destruct (Z.geb_spec minor NR_FDS); [lia|]. simpl orb. cbv iota.
  rewrite Hs. simpl negb. cbv iota zeta. rewrite Hrun. simpl bind.
  change (EDONTREPLY =? EDONTREPLY) with true. cbv iota.
  destruct (suspension_eqb (suspended (slot st2 minor)) UDS_NOT_SUSPENDED)
    eqn:E.
  { apply suspension_eqb_eq in E. contradiction. }
  set (st3 := modify minor
                (fun f => set_susp_id id (set_susp_size 0
                            (set_susp_grant grant (set_susp_endpt endpt f))))
                st2).
  assert (Hin2 : in_table st2 minor) by (unfold in_table; rewrite Hok2; lia).
  destruct (Z.eqb_spec (Z.land flags CDEV_NONBLOCK) 0) as [Hf|Hf];
    simpl negb; cbv iota.
  - exists st3. split; [reflexivity|]. split; [reflexivity|].
    split; [reflexivity|]. contradiction.
  - eexists. split; [reflexivity|].
    split; [rewrite uds_cancel_trace; reflexivity|].
    split; [contradiction|]. intros _.
    apply uds_cancel_hit.
    + unfold table_ok. subst st3. now rewrite table_length_modify.
    + unfold cancel_applies. subst st3.
      rewrite slot_modify_same by assumption. simpl.
      repeat split; auto; lia.
Qed.

(** *** Reachable states *)

(** X19.  No reader is blocked on a socket that holds data.  In every
    state the driver reaches from uds_init through open, close, read,
    write, select, cancel, ioctl and the signal handler, with a control
    plane that keeps the table consistent, a slot in use that is suspended
    on READ has an empty buffer; so the fatal check of uds_perform_write
    for a reader blocked on a full socket (or on a socket holding a
    packet) never fires. *)
Theorem reader_never_blocked_on_data uds_do_ioctl st :
  control_plane_ok uds_do_ioctl ->
  reachable uds_do_ioctl st ->
  forall x, state (slot st x) = UDS_INUSE ->
    (suspended (slot st x) = UDS_SUSPENDED_READ -> size (slot st x) = 0) /\
    ~ ((size (slot st x) = UDS_BUF \/ 0 < size (slot st x)) /\
       suspended (slot st x) = UDS_SUSPENDED_READ).
Proof.
  intros Hok Hr x Hx. apply reachable_consistent in Hr; [|exact Hok].
  destruct Hr as (_ & _ & _ & Hall).
  destruct (Hall x Hx) as (_ & _ & _ & Hrd). unfold no_reader_on_data in Hrd.
  split; [exact Hrd|].
  intros (Hsz & Hsu). specialize (Hrd Hsu). lia.
Qed.

(** X20.  The operations of uds.c keep connections symmetric.  On a
    consistent table every operation (open, close, read, write, select,
    cancel) runs to completion and leaves a table in which a slot in use
    that has a peer is a connection-oriented socket whose peer is another
    slot in use, of a connection-oriented type, that either points back
    (connected) or is a listening socket without peer holding the slot in
    its backlog (connecting); a listening socket has no peer and the
    occupied entries of its backlog are distinct sockets in use whose
    peer is the listening socket. *)
Theorem operations_keep_links fuel op st :
  consistent st -> public_op op -> op_typed op ->
  exists r st',
    run_op (S fuel) op st = Ret r st' /\
    forall x, state (slot st' x) = UDS_INUSE ->
      (peer (slot st' x) <> -1 ->
       0 <= peer (slot st' x) < NR_FDS /\ peer (slot st' x) <> x /\
       state (slot st' (peer (slot st' x))) = UDS_INUSE /\
       conn_type (slot st' x) /\ conn_type (slot st' (peer (slot st' x))) /\
       (peer (slot st' (peer (slot st' x))) = x \/
        (peer (slot st' (peer (slot st' x))) = -1 /\
         listening (slot st' (peer (slot st' x))) <> 0 /\
         exists i, 0 <= i < backlog_size (slot st' (peer (slot st' x))) /\
                   backlog_at (slot st' (peer (slot st' x))) i = x))) /\
      (listening (slot st' x) <> 0 ->
       peer (slot st' x) = -1 /\
       forall i, 0 <= i < backlog_size (slot st' x) ->
         backlog_at (slot st' x) i <> -1 ->
         0 <= backlog_at (slot st' x) i < NR_FDS /\
         state (slot st' (backlog_at (slot st' x) i)) = UDS_INUSE /\
         peer (slot st' (backlog_at (slot st' x) i)) = x /\
         forall j, 0 <= j < backlog_size (slot st' x) ->
           backlog_at (slot st' x) j = backlog_at (slot st' x) i -> j = i).
Proof.
  intros Hc Hp Hty.
  destruct (consistent_run_op fuel op st Hc Hp Hty) as (r & st' & Hrun & Hc').
  exists r, st'. split; [exact Hrun|].
  intros x Hx. destruct Hc' as (_ & _ & _ & Hall).
  destruct (Hall x Hx) as (Hlk & Hbk & _). split; [exact Hlk|exact Hbk].
Qed.

(** *** The termination countdown *)

Lemma halt_same_refl s : halt_same s s.
Proof using. only_stated. repeat split. Qed.

Lemma halt_same_trans s1 s2 s3 :
  halt_same s1 s2 -> halt_same s2 s3 -> halt_same s1 s3.
Proof using. only_stated.
  intros (A1 & A2 & A3 & A4) (B1 & B2 & B3 & B4).
  split; [congruence|]. split; [congruence|]. split; [congruence|].
  intros j. now rewrite B4.
Qed.

Lemma halt_same_modify s s' i f :
  (forall fd, state (f fd) = state fd) ->
  halt_same s s' -> halt_same s (modify i f s').
Proof using. only_stated.
  intros Hf (A1 & A2 & A3 & A4).
  split; [exact A1|]. split; [exact A2|].
  split; [now rewrite table_length_modify|].
  intros j. rewrite <- A4. rewrite slot_modify.
  destruct (_ && _); [apply Hf|reflexivity].
Qed.

Lemma terminations_app tr e :
  terminations (tr ++ [e]) =
  (terminations tr + match e with EvTerminate => 1 | _ => 0 end)%nat.
Proof using. only_stated.
  unfold terminations. rewrite filter_app, length_app.
  destruct e; reflexivity.
Qed.

Lemma halt_same_emit s s' e :
  e <> EvTerminate -> halt_same s s' -> halt_same s (emit e s').
Proof using. only_stated.
  intros He (A1 & A2 & A3 & A4).
  split; [exact A1|]. split; [|split; [exact A3|exact A4]].
  simpl trace. rewrite terminations_app, A2.
  destruct e; try lia. contradiction.
Qed.

Lemma halt_same_notify s s' p ops :
  halt_same s s' -> halt_same s (notify_select p ops s').
Proof using. only_stated.
  intros H. unfold notify_select.
  apply halt_same_modify; [reflexivity|].
  apply halt_same_emit; [discriminate|exact H].
Qed.

Lemma halt_same_copyto s s' endpt grant off data r s'' :
  halt_same s s' ->
  sys_safecopyto endpt grant off data s' = (r, s'') -> halt_same s s''.
Proof using. only_stated.
  intros H. unfold sys_safecopyto.
  destruct (umem endpt grant); [|intros E; inversion E; subst; exact H].
  destruct (_ <=? _); intros E; inversion E; subst; [|exact H].
  apply halt_same_emit; [discriminate|exact H].
Qed.


Ltac halt_step :=
  first [ apply halt_same_notify
        | apply halt_same_modify; [reflexivity|]
        | apply halt_same_emit; [discriminate|] ].

Ltac halt_done := repeat halt_step; assumption.

Lemma halt_read_advance U minor p rpos n s0 st r s' :
  keeps_halt U -> halt_same s0 st ->
  read_advance U minor p rpos n st = Ret r s' -> halt_same s0 s'.
Proof using. only_stated.
  intros HU H0. unfold read_advance. cbv zeta.
  match goal with
  | |- bind (if _ then U p ?s else _) _ = _ -> _ =>
      assert (H4 : halt_same s0 s);
      [destruct (_ =? 0); halt_done|generalize dependent s; intros st4 H4]
  end.
  destruct (negb (p =? -1) && _).
  - destruct (U p st4) as [[] s5| |] eqn:EU; simpl bind; try discriminate.
    assert (H5 : halt_same s0 s5)
      by (eapply halt_same_trans; [exact H4|eapply HU; eauto]).
    intros E. inversion E; subst.
    destruct (_ && _); halt_done.
  - simpl bind. intros E. inversion E; subst.
    destruct (_ && _); halt_done.
Qed.

Lemma halt_read_take U minor p endpt grant n s0 st r s' :
  keeps_halt U -> halt_same s0 st ->
  read_take U minor p endpt grant n st = Ret r s' -> halt_same s0 s'.
Proof using. only_stated.
  intros HU H0. unfold read_take. cbv zeta.
  destruct (sys_safecopyto _ _ 0 _ st) as [r1 st1] eqn:E1.
  pose proof (halt_same_copyto _ _ _ _ _ _ _ _ H0 E1) as H1.
  destruct (negb (r1 =? OK)); [intros E; inversion E; subst; exact H1|].
  match goal with
  | |- (let '(_, _) := ?c in _) = _ -> _ =>
      destruct c as [r2 st2] eqn:E2
  end.
  assert (H2 : halt_same s0 st2).
  { destruct (_ <? n).
    - eapply halt_same_copyto; eauto.
    - inversion E2; subst; exact H1. }
  destruct (negb (r2 =? OK)); [intros E; inversion E; subst; exact H2|].
  now apply halt_read_advance.
Qed.

Lemma halt_perform_read U minor endpt grant len pretend s0 st r s' :
  keeps_halt U -> halt_same s0 st ->
  uds_perform_read_body U minor endpt grant len pretend st = Ret r s' ->
  halt_same s0 s'.
Proof using. only_stated.
  intros HU H0. unfold uds_perform_read_body. cbv zeta.
  repeat match goal with
         | |- (if ?c then _ else _) = _ -> _ => destruct c
         end;
    try (intros E; inversion E; subst; try destruct pretend; halt_done).
  now apply halt_read_take.
Qed.

Lemma halt_write_advance U minor p n s0 st r s' :
  keeps_halt U -> halt_same s0 st ->
  write_advance U minor p n st = Ret r s' -> halt_same s0 s'.
Proof using. only_stated.
  intros HU H0. unfold write_advance. cbv zeta.
  match goal with
  | |- bind (if _ then U p ?s else _) _ = _ -> _ =>
      assert (H4 : halt_same s0 s);
      [destruct (_ =? SOCK_DGRAM); halt_done
      |generalize dependent s; intros st4 H4]
  end.
  destruct (suspension_eqb _ _).
  - destruct (U p st4) as [[] s5| |] eqn:EU; simpl bind; try discriminate.
    assert (H5 : halt_same s0 s5)
      by (eapply halt_same_trans; [exact H4|eapply HU; eauto]).
    intros E. inversion E; subst.
    destruct (_ && _); halt_done.
  - simpl bind. intros E. inversion E; subst.
    destruct (_ && _); halt_done.
Qed.

Lemma halt_write_deposit U minor p endpt grant n s0 st r s' :
  keeps_halt U -> halt_same s0 st ->
  write_deposit U minor p endpt grant n st = Ret r s' -> halt_same s0 s'.
Proof using. only_stated.
  intros HU H0. unfold write_deposit. cbv zeta.
  destruct (sys_safecopyfrom endpt grant 0 _) as [r1 seg1].
  destruct (negb (r1 =? OK)); [intros E; inversion E; subst; exact H0|].
  match goal with
  | |- (let '(_, _) := ?c in _) = _ -> _ => destruct c as [r2 seg2]
  end.
  destruct (negb (r2 =? OK)); [intros E; inversion E; subst; halt_done|].
  apply halt_write_advance; [exact HU|].
  destruct (_ <? n); halt_done.
Qed.

Lemma halt_write_peer minor pretend s0 st r s' :
  halt_same s0 st ->
  write_peer minor pretend st = inl (Ret r s') -> halt_same s0 s'.
Proof using. only_stated.
  intros H0. unfold write_peer.
  repeat match goal with
         | |- (if ?c then _ else _) = _ -> _ => destruct c
         | |- (match ?o with Some _ => _ | None => _ end) = _ -> _ =>
             destruct o
         end;
    intros E; inversion E; subst; try destruct pretend; halt_done.
Qed.

Lemma halt_perform_write U minor endpt grant len pretend s0 st r s' :
  keeps_halt U -> halt_same s0 st ->
  uds_perform_write_body U minor endpt grant len pretend st = Ret r s' ->
  halt_same s0 s'.
Proof using. only_stated.
  intros HU H0. unfold uds_perform_write_body. cbv zeta.
  destruct (len =? 0); [intros E; inversion E; subst; exact H0|].
  destruct (_ =? 0); [intros E; inversion E; subst; exact H0|].
  destruct (_ && _); [intros E; inversion E; subst; exact H0|].
  destruct (write_peer minor pretend st) as [early|p] eqn:Ew.
  - intros E. subst early. eapply halt_write_peer; eauto.
  - repeat match goal with
           | |- (if ?c then _ else _) = _ -> _ => destruct c
           end;
      try (intros E; inversion E; subst; halt_done).
    now apply halt_write_deposit.
Qed.

Lemma halt_unsuspend fuel : keeps_halt (uds_unsuspend fuel).
Proof using. only_stated.
  induction fuel as [|fuel IH]; intros p s s'; [discriminate|].
  rewrite uds_unsuspend_S.
  destruct (suspended (slot s p)); try discriminate.
  - destruct (uds_perform_read_body _ _ _ _ _ _ _) as [r s1| |] eqn:E;
      simpl bind; try discriminate.
    apply halt_perform_read with (s0 := s) in E;
      [|exact IH|apply halt_same_refl].
    unfold unsuspend_reply.
    destruct (r =? EDONTREPLY); intros E'; inversion E'; subst; halt_done.
  - destruct (uds_perform_write_body _ _ _ _ _ _ _) as [r s1| |] eqn:E;
      simpl bind; try discriminate.
    apply halt_perform_write with (s0 := s) in E;
      [|exact IH|apply halt_same_refl].
    unfold unsuspend_reply.
    destruct (r =? EDONTREPLY); intros E'; inversion E'; subst; halt_done.
  - unfold unsuspend_reply. intros E; inversion E; subst.
    repeat halt_step. apply halt_same_refl.
  - unfold unsuspend_reply. intros E; inversion E; subst.
    repeat halt_step. apply halt_same_refl.
Qed.

Lemma halt_reset fuel p s0 st s' :
  halt_same s0 st -> uds_reset fuel p st = Ret tt s' -> halt_same s0 s'.
Proof using. only_stated.
  intros H0. unfold uds_reset. cbv zeta.
  match goal with
  | |- bind (if _ then uds_unsuspend fuel p ?s else _) _ = _ -> _ =>
      assert (H2 : halt_same s0 s);
      [halt_done|generalize dependent s; intros st2 H2]
  end.
  destruct (negb (suspension_eqb _ _)).
  - destruct (uds_unsuspend fuel p st2) as [[] s3| |] eqn:EU; simpl bind;
      try discriminate.
    assert (H3 : halt_same s0 s3)
      by (eapply halt_same_trans; [exact H2|eapply halt_unsuspend; eauto]).
    destruct (negb (_ =? 0)); intros E; inversion E; subst; halt_done.
  - simpl bind.
    destruct (negb (_ =? 0)); intros E; inversion E; subst; halt_done.
Qed.

Lemma halt_reset_backlog fuel minor idx : forall s0 st s',
  halt_same s0 st ->
  reset_backlog fuel minor idx st = Ret tt s' -> halt_same s0 s'.
Proof using. only_stated.
  induction idx as [|i idx IH]; intros s0 st s' H0;
    [intros E; inversion E; subst; exact H0|].
  cbn [reset_backlog].
  destruct (negb (_ =? -1)).
  - destruct (uds_reset fuel _ st) as [[] s1| |] eqn:E1; simpl bind;
      try discriminate.
    apply IH. eapply halt_reset; eauto.
  - simpl bind. now apply IH.
Qed.

Lemma count_fold (P : Z -> bool) idx : forall n,
  fold_left (fun n i => if P i then n + 1 else n) idx n
  = n + zlength (filter P idx).
Proof using. only_stated.
  induction idx as [|i idx IH]; intros n; simpl; [unfold zlength; simpl; lia|].
  rewrite IH. destruct (P i); [|reflexivity].
  unfold zlength. simpl length. lia.
Qed.

Lemma zrange_NoDup lo hi : NoDup (zrange lo hi).
Proof using. only_stated.
  unfold zrange. generalize (Z.to_nat (hi - lo)) as n. generalize 0%nat as s.
  intros s n. revert s. induction n as [|n IH]; intros s; simpl;
    constructor; [|apply IH].
  intros H. apply in_map_iff in H. destruct H as (k & Hk & Hin).
  apply in_seq in Hin. lia.
Qed.

Lemma filter_count_remove (P Q : Z -> bool) m : forall l,
  NoDup l -> In m l -> P m = true -> Q m = false ->
  (forall j, j <> m -> Q j = P j) ->
  S (length (filter Q l)) = length (filter P l).
Proof using. only_stated.
  induction l as [|x l IH]; intros Hnd Hin HP HQ Hext; [contradiction|].
  inversion Hnd as [|? ? Hx Hnd']; subst. simpl.
  destruct (Z.eq_dec x m) as [->|Hne].
  - rewrite HP, HQ. simpl. f_equal. f_equal.
    apply filter_ext_in. intros a Ha. apply Hext. intros ->. contradiction.
  - destruct Hin as [E|Hin]; [contradiction|].
    rewrite (Hext x Hne). destruct (P x); simpl; [f_equal|]; now apply IH.
Qed.

(** X21.  The signal handler.  A signal other than SIGTERM is ignored.
    On SIGTERM the countdown is set to the number of sockets in use, and
    chardriver_terminate is called at once exactly when no socket is in
    use; the table is not touched.  The number of sockets in use is at
    most NR_FDS, so the unsigned counter of the C code does not wrap. *)
Theorem uds_signal_counts_open_sockets signo st :
  (signo <> SIGTERM -> uds_signal signo st = st) /\
  uds_fd_table (uds_signal SIGTERM st) = uds_fd_table st /\
  uds_exit_left (uds_signal SIGTERM st) = open_sockets st /\
  trace (uds_signal SIGTERM st) =
    trace st ++ (if open_sockets st =? 0 then [EvTerminate] else []) /\
  (open_sockets st = 0 <->
   forall i, 0 <= i < NR_FDS -> state (slot st i) <> UDS_INUSE) /\
  0 <= open_sockets st <= Z.max 0 NR_FDS.
Proof using. only_stated.
  assert (Hbound : 0 <= open_sockets st <= Z.max 0 NR_FDS).
  { unfold open_sockets, zlength. split; [lia|].
    pose proof (filter_length_le
                  (fun i => fd_state_eqb (state (slot st i)) UDS_INUSE)
                  (zrange 0 NR_FDS)) as H.
    unfold zrange in H. rewrite length_map, length_seq in H.
    unfold zrange. lia. }
  split.
  { intros H. unfold uds_signal.
    destruct (Z.eqb_spec signo SIGTERM); [contradiction|reflexivity]. }
  unfold uds_signal. change (negb (SIGTERM =? SIGTERM)) with false.
  cbv iota zeta.
  rewrite (count_fold (fun i => fd_state_eqb (state (slot st i)) UDS_INUSE)).
  rewrite Z.add_0_l. fold (open_sockets st).
  split; [destruct (_ =? 0); reflexivity|].
  split; [destruct (_ =? 0); reflexivity|].
  split; [destruct (_ =? 0); simpl; now rewrite ?app_nil_r|].
  split; [|exact Hbound]. clear Hbound.
  unfold open_sockets, zlength. split.
  - intros H i Hi Hs.
    assert (Hin : In i (filter (fun i => fd_state_eqb (state (slot st i))
                                           UDS_INUSE) (zrange 0 NR_FDS))).
    { apply filter_In. split; [now apply in_zrange|].
      rewrite Hs. reflexivity. }
    destruct (filter _ _); [contradiction|simpl in H; lia].
  - intros H.
    destruct (filter _ _) as [|x l] eqn:E; [reflexivity|exfalso].
    assert (Hin : In x (filter (fun i => fd_state_eqb (state (slot st i))
                                           UDS_INUSE) (zrange 0 NR_FDS)))
      by (rewrite E; now left).
    apply filter_In in Hin. destruct Hin as [Hr Hs].
    apply in_zrange in Hr. apply fd_state_eqb_eq in Hs.
    exact (H x Hr Hs).
Qed.

(** The first half of uds_close keeps the countdown and the slots in
    use. *)
Lemma halt_close fuel minor st r st' :
  0 <= minor < NR_FDS ->
  state (slot st minor) = UDS_INUSE ->
  uds_close fuel minor st = Ret r st' ->
  exists st2,
    halt_same st st2 /\
    r = OK /\
    uds_fd_table st' = uds_fd_table (modify minor (fun _ => fd_zero) st2) /\
    uds_exit_left st' =
      (if uds_exit_left st >? 0 then uds_exit_left st - 1
       else uds_exit_left st) /\
    trace st' =
      trace st2 ++ (if uds_exit_left st =? 1 then [EvTerminate] else []).
Proof using. only_stated.
  intros Hm Hs E. unfold uds_close in E.
  destruct (Z.ltb_spec minor 0); [lia|].
  destruct (Z.geb_spec minor NR_FDS); [lia|].
  simpl orb in E. cbv iota in E. rewrite Hs in E. simpl negb in E.
  cbv iota zeta in E.
  match type of E with
  | bind ?m _ = _ => destruct m as [[] st1| |] eqn:E1; simpl bind in E;
                     try discriminate
  end.
  assert (H1 : halt_same st st1).
  { clear E. revert E1.
    destruct (negb (_ =? -1) && _).
    - destruct (_ =? 0); cbv iota; [discriminate|].
      intros E1. inversion E1; subst.
      apply halt_same_modify; [reflexivity|apply halt_same_refl].
    - destruct (negb (_ =? -1)).
      + apply halt_reset, halt_same_refl.
      + destruct (negb (_ =? 0)).
        * apply halt_reset_backlog, halt_same_refl.
        * intros E1; inversion E1; subst. apply halt_same_refl. }
  clear E1.
  set (st2 := if nfiledes (ancillary_data (slot st1 minor)) >? 0
              then emit (EvClearFds minor) st1 else st1) in *.
  assert (H2 : halt_same st st2)
    by (subst st2; destruct (nfiledes (ancillary_data (slot st1 minor)) >? 0);
        [halt_step|]; exact H1).
  clearbody st2. exists st2. split; [exact H2|].
  destruct H2 as (He & _).
  change (uds_exit_left (modify minor (fun _ => fd_zero) st2))
    with (uds_exit_left st2) in E.
  rewrite He in E.
  destruct (Z.gtb_spec (uds_exit_left st) 0).
  - simpl uds_exit_left in E.
    destruct (Z.eqb_spec (uds_exit_left st - 1) 0).
    + destruct (Z.eqb_spec (uds_exit_left st) 1); [|lia].
      inversion E; subst. repeat split.
    + destruct (Z.eqb_spec (uds_exit_left st) 1); [lia|].
      inversion E; subst. simpl. rewrite app_nil_r. repeat split.
  - destruct (Z.eqb_spec (uds_exit_left st) 1); [lia|].
    inversion E; subst. simpl. rewrite app_nil_r.
    repeat split. exact He.
Qed.

(** X22.  The countdown to termination.  Once the countdown equals the
    number of sockets in use (as after SIGTERM), every close of an open
    socket keeps it so, the number of sockets in use goes down by one, and
    chardriver_terminate is called exactly by the close that leaves no
    socket in use. *)
Theorem uds_close_counts_down fuel minor st :
  consistent st ->
  0 <= minor < NR_FDS ->
  state (slot st minor) = UDS_INUSE ->
  uds_exit_left st = open_sockets st ->
  exists st',
    uds_close (S fuel) minor st = Ret OK st' /\
    open_sockets st' = open_sockets st - 1 /\
    uds_exit_left st' = open_sockets st' /\
    terminations (trace st') =
      (terminations (trace st)
       + if (open_sockets st' =? 0)%Z then 1 else 0)%nat.
Proof using UDS_BUF_range. clear NR_FDS_nonneg.
  intros Hc Hm Hs Hex.
  destruct (consistent_close fuel minor st Hc) as (r & st' & Hrun & Hc').
  destruct (halt_close (S fuel) minor st r st' Hm Hs Hrun)
    as (st2 & (He2 & Ht2 & Hl2 & Hst2) & -> & Htab & Hexit & Htr).
  exists st'. split; [exact Hrun|].
  pose proof Hc as (Hok & _).
  assert (Hin2 : in_table st2 minor)
    by (unfold in_table; rewrite Hl2, Hok; lia).
  assert (Hsl : forall j, slot st' j
                          = slot (modify minor (fun _ => fd_zero) st2) j)
    by (intros j; unfold slot; now rewrite Htab).
  assert (Hcount : open_sockets st' = open_sockets st - 1).
  { unfold open_sockets, zlength.
    rewrite <- (filter_count_remove
                  (fun i => fd_state_eqb (state (slot st i)) UDS_INUSE)
                  (fun i => fd_state_eqb (state (slot st' i)) UDS_INUSE)
                  minor (zrange 0 NR_FDS)).
    - lia.
    - apply zrange_NoDup.
    - now apply in_zrange.
    - rewrite Hs. reflexivity.
    - rewrite Hsl.
      rewrite (slot_modify_same st2 minor (fun _ => fd_zero) Hin2).
      reflexivity.
    - intros j Hj. rewrite Hsl.
      rewrite (slot_modify_other st2 minor j (fun _ => fd_zero))
        by auto.
      now rewrite Hst2. }
  split; [exact Hcount|].
  assert (Hpos : 0 <= open_sockets st')
    by (unfold open_sockets, zlength; lia).
  split.
  - rewrite Hexit, Hex. destruct (Z.gtb_spec (open_sockets st) 0); lia.
  - rewrite Htr, Hex, Hcount.
    destruct (Z.eqb_spec (open_sockets st) 1) as [E1|E1].
    + rewrite E1. simpl. rewrite terminations_app, Ht2. reflexivity.
    + destruct (Z.eqb_spec (open_sockets st - 1) 0); [lia|].
      rewrite app_nil_r, Ht2. lia.
Qed.

(** *** Opening and closing *)

Lemma list_update_same {A} (d v : A) : forall (l : list A) n,
  nth n l d = v -> list_update l n (fun _ => v) = l.
Proof using. only_stated.
  induction l as [|x l IH]; intros [|n] H; simpl in *; try reflexivity.
  - now rewrite H.
  - now rewrite IH.
Qed.

Lemma modify_same_slot i st :
  modify i (fun _ => slot st i) st = st.
Proof using. only_stated.
  unfold modify, with_table, fd_update, slot, fd_at.
  destruct st as [tbl e tr]. simpl.
  destruct (i <? 0); [reflexivity|].
  now rewrite (list_update_same fd_zero).
Qed.

(** X23.  Opening a socket and closing it again restores the driver.  On
    a table whose lowest free slot from handle 1 on is m, zeroed as
    uds_init and uds_close leave free slots, and outside a termination
    countdown (the counter is 0), uds_open returns the handle m with the clone flag, and
    uds_close on m then returns OK and leaves the state exactly as it was
    before the open: nothing is sent and no other slot is touched. *)
Theorem open_close_round_trip fuel orig_minor access user_endpt st m :
  table_ok st ->
  1 <= m < NR_FDS ->
  slot st m = fd_zero ->
  (forall i, 1 <= i < m -> state (slot st i) = UDS_INUSE) ->
  uds_exit_left st = 0 ->
  exists st1,
    uds_open orig_minor access user_endpt true st
      = (Z.lor CDEV_CLONED m, st1) /\
    state (slot st1 m) = UDS_INUSE /\
    uds_close fuel m st1 = Ret OK st.
Proof using. only_stated.
  intros Ht Hm Hz Hlow Hex.
  assert (Ef : find (fun i => fd_state_eqb (state (slot st i)) UDS_FREE)
                 (zrange 1 NR_FDS) = Some m).
  { apply find_zrange_first; [exact Hm|rewrite Hz; reflexivity|].
    intros i Hi. now rewrite (Hlow i Hi). }
  assert (Hin : in_table st m) by (unfold in_table; rewrite Ht; lia).
  unfold uds_open. rewrite Ef. simpl negb. cbv iota.
  eexists. split; [reflexivity|].
  match goal with
  | |- state (slot ?s m) = _ /\ _ => set (st1 := s)
  end.
  assert (H1 : state (slot st1 m) = UDS_INUSE /\ peer (slot st1 m) = -1 /\
               listening (slot st1 m) = 0 /\
               nfiledes (ancillary_data (slot st1 m)) = 0).
  { subst st1. rewrite slot_modify_same by exact Hin. repeat split. }
  destruct H1 as (H1s & H1p & H1l & H1n). split; [exact H1s|].
  unfold uds_close.
  destruct (Z.ltb_spec m 0); [lia|]. destruct (Z.geb_spec m NR_FDS); [lia|].
  simpl orb. cbv iota. rewrite H1s. simpl negb. cbv iota zeta.
  rewrite H1p, H1l. change (-1 =? -1) with true. change (0 =? 0) with true.
  simpl negb. simpl andb. cbv iota. simpl bind.
  rewrite H1n. change (0 >? 0) with false. cbv iota.
  change (uds_exit_left (modify m (fun _ => fd_zero) st1))
    with (uds_exit_left st).
  change (uds_exit_left st1) with (uds_exit_left st).
  destruct (Z.gtb_spec (uds_exit_left st) 0); [lia|].
  subst st1. rewrite modify_modify, <- Hz.
  now rewrite modify_same_slot.
Qed.

(** ** Cancellation, and reads that cannot wait *)

(** The state uds_cancel leaves when it applies. *)
Lemma uds_cancel_hit_state minor endpt id st :
  table_ok st ->
  cancel_applies minor endpt id st ->
  exists st',
    uds_cancel minor endpt id st = (EINTR, st') /\
    trace st' = trace st /\
    uds_exit_left st' = uds_exit_left st /\
    table_ok st' /\
    forall j, 0 <= j < NR_FDS ->
      slot st' j =
      let fd :=
        if suspension_eqb (suspended (slot st minor)) UDS_SUSPENDED_ACCEPT
           && (child (slot st j) =? minor)
        then set_child (-1) (slot st j) else slot st j in
      if j =? minor then set_suspended UDS_NOT_SUSPENDED fd else fd.
Proof using. only_stated.
  intros Hok (Hr & Hs & Hsusp & He & Hi). unfold uds_cancel.
  destruct (Z.ltb_spec minor 0); [lia|].
  destruct (Z.geb_spec minor NR_FDS); [lia|]. simpl orb. cbv iota zeta.
  rewrite Hs. simpl negb. cbv iota.
  destruct (suspension_eqb (suspended (slot st minor)) UDS_NOT_SUSPENDED)
    eqn:E.
  { apply suspension_eqb_eq in E. contradiction. }
  rewrite He, Hi, !Z.eqb_refl. simpl negb. simpl orb. cbv iota.
  eexists. split; [reflexivity|].
  assert (Hfold : forall j, 0 <= j < NR_FDS ->
            slot (fold_left (clear_child minor) (zrange 0 NR_FDS) st) j =
            if child (slot st j) =? minor
            then set_child (-1) (slot st j) else slot st j).
  { intros j Hj. rewrite clear_child_spec; [|lia|].
    - rewrite existsb_zrange.
      destruct (Z.leb_spec 0 j); [|lia]. destruct (Z.ltb_spec j NR_FDS); [|lia].
      reflexivity.
    - intros i Hi'. apply in_zrange in Hi'. unfold in_table.
      rewrite Hok. exact Hi'. }
  destruct (suspended (slot st minor)) eqn:Esu;
    try contradiction; simpl suspension_eqb; simpl andb; cbv iota.
  1-3: (split; [reflexivity|]; split; [reflexivity|];
        split; [unfold table_ok; now rewrite table_length_modify|];
        intros j Hj; cbv zeta;
        destruct (Z.eqb_spec j minor) as [->|Hne];
        [apply slot_modify_same; unfold in_table; rewrite Hok; lia
        |apply slot_modify_other; auto]).
  destruct (clear_child_trace minor (zrange 0 NR_FDS) st) as [Ht1 Ht2].
  split; [exact Ht1|]. split; [exact Ht2|].
  split; [unfold table_ok; now rewrite table_length_modify,
            clear_child_length|].
  intros j Hj. cbv zeta.
  destruct (Z.eqb_spec j minor) as [->|Hne].
  - rewrite slot_modify_same
      by (unfold in_table; rewrite clear_child_length, Hok; lia).
    now rewrite Hfold by lia.
  - rewrite slot_modify_other by auto. now apply Hfold.
Qed.

(** C7.  uds_cancel(minor, endpt, id) returns EINTR exactly when the
    handle is in range, the slot is in use and suspended, and the saved
    (susp_endpt, susp_id) is (endpt, id).  It then leaves a table of the
    same NR_FDS entries in which the slot is still in use and its
    suspended field is UDS_NOT_SUSPENDED; of the other fields of the
    table only the child fields naming the slot change, and only for a
    cancelled accept; nothing is sent.  In every other case it returns
    EDONTREPLY and the state of the driver is the one before the call. *)
Theorem uds_cancel_exactly_when (minor endpt id : Z) (st : driver) :
  table_ok st ->
  (fst (uds_cancel minor endpt id st) = EINTR <->
   cancel_applies minor endpt id st) /\
  (cancel_applies minor endpt id st ->
   exists st',
     uds_cancel minor endpt id st = (EINTR, st') /\
     table_ok st' /\
     trace st' = trace st /\
     uds_exit_left st' = uds_exit_left st /\
     state (slot st' minor) = UDS_INUSE /\
     suspended (slot st' minor) = UDS_NOT_SUSPENDED /\
     forall j, 0 <= j < NR_FDS ->
       slot st' j =
       let fd :=
         if suspension_eqb (suspended (slot st minor)) UDS_SUSPENDED_ACCEPT
            && (child (slot st j) =? minor)
         then set_child (-1) (slot st j) else slot st j in
       if j =? minor then set_suspended UDS_NOT_SUSPENDED fd else fd) /\
  (~ cancel_applies minor endpt id st ->
   uds_cancel minor endpt id st = (EDONTREPLY, st)).
Proof using. only_stated.
  intros Hok. split; [|split].
  - split.
    + intros Hr. destruct (cancel_applies_dec minor endpt id st) as [H|H]; auto.
      rewrite (uds_cancel_miss _ _ _ _ H) in Hr. discriminate.
    + intros H. now apply uds_cancel_hit.
  - intros H.
    destruct (uds_cancel_hit_state minor endpt id st Hok H)
      as (st' & Hrun & Htr & Hex & Hok' & Hall).
    exists st'. split; [exact Hrun|]. split; [exact Hok'|].
    split; [exact Htr|]. split; [exact Hex|].
    destruct H as (Hr & Hs & _).
    assert (Hm : slot st' minor =
                 set_suspended UDS_NOT_SUSPENDED
                   (if suspension_eqb (suspended (slot st minor))
                         UDS_SUSPENDED_ACCEPT
                       && (child (slot st minor) =? minor)
                    then set_child (-1) (slot st minor) else slot st minor)).
    { rewrite (Hall minor Hr). cbv zeta. now rewrite Z.eqb_refl. }
    split; [|split; [|exact Hall]].
    + rewrite Hm. destruct (_ && _); exact Hs.
    + rewrite Hm. reflexivity.
  - apply uds_cancel_miss.
Qed.


(** ** The slots a write touches *)

Lemma only_ring_refl d s : only_ring d s s.
Proof using. only_stated.
  split; [reflexivity|]. split; intros; repeat split.
Qed.

Lemma only_ring_modify d s0 s i f :
  (forall fd, frame_same fd (f fd)) ->
  (i <> d -> forall fd, same_ring fd (f fd)) ->
  only_ring d s0 s -> only_ring d s0 (modify i f s).
Proof using. only_stated.
  intros Hf Hr (Hl & Hfr & Hrg).
  split; [now rewrite table_length_modify|]. split.
  - intros j. eapply frame_same_trans; [apply Hfr|].
    destruct (slot_modify_cases i f s j) as [[_ ->]| ->];
      [apply Hf|apply frame_same_refl].
  - intros j Hj. eapply same_ring_trans; [now apply Hrg|].
    destruct (slot_modify_cases i f s j) as [[<- ->]| ->];
      [now apply Hr|apply same_ring_refl].
Qed.

Lemma only_ring_emit d s0 s e :
  only_ring d s0 s -> only_ring d s0 (emit e s).
Proof using. only_stated. intros H. exact H. Qed.

Lemma only_ring_notify d s0 s p ops :
  only_ring d s0 s -> only_ring d s0 (notify_select p ops s).
Proof using. only_stated.
  intros H. unfold notify_select.
  apply only_ring_modify; [intros fd; repeat split|
                           intros _ fd; repeat split|].
  now apply only_ring_emit.
Qed.

Lemma only_ring_copyto d s0 s endpt grant off data r s' :
  only_ring d s0 s ->
  sys_safecopyto endpt grant off data s = (r, s') -> only_ring d s0 s'.
Proof using. only_stated.
  intros H. unfold sys_safecopyto.
  destruct (umem endpt grant); [|intros E; inversion E; subst; exact H].
  destruct (_ <=? _); intros E; inversion E; subst; exact H.
Qed.

(** A step on the destination, which may change its ring. *)
Ltac ring_dest :=
  apply only_ring_modify;
  [intros ?; repeat split|intros Hne; exfalso; apply Hne; reflexivity|].

(** A step that changes no ring. *)
Ltac ring_other :=
  first [ apply only_ring_notify
        | apply only_ring_emit
        | apply only_ring_modify;
          [intros ?; repeat split|intros _ ?; repeat split|] ].

Lemma ring_read_advance U d q rpos n s0 st r st' :
  (forall s s', only_ring d s0 s ->
                suspended (slot s q) = UDS_SUSPENDED_WRITE ->
                U q s = Ret tt s' -> only_ring d s0 s') ->
  only_ring d s0 st ->
  read_advance U d q rpos n st = Ret r st' -> only_ring d s0 st'.
Proof using. only_stated.
  intros HU H0. unfold read_advance. cbv zeta.
  match goal with
  | |- bind (if _ then U q ?s else _) _ = _ -> _ =>
      assert (H4 : only_ring d s0 s);
      [destruct (_ =? 0); repeat ring_dest; exact H0
      |generalize dependent s; intros st4 H4]
  end.
  destruct (negb (q =? -1)); simpl andb.
  - destruct (suspension_eqb (suspended (slot st4 q)) UDS_SUSPENDED_WRITE)
      eqn:Es.
    + apply suspension_eqb_eq in Es.
      destruct (U q st4) as [[] s5| |] eqn:EU; simpl bind; try discriminate.
      pose proof (HU _ _ H4 Es EU) as H5.
      intros E. inversion E; subst.
      destruct (_ && _); repeat ring_other; exact H5.
    + simpl bind. intros E. inversion E; subst.
      destruct (_ && _); repeat ring_other; exact H4.
  - simpl bind. intros E. inversion E; subst. exact H4.
Qed.

Lemma ring_read_take U d q endpt grant n s0 st r st' :
  (forall s s', only_ring d s0 s ->
                suspended (slot s q) = UDS_SUSPENDED_WRITE ->
                U q s = Ret tt s' -> only_ring d s0 s') ->
  only_ring d s0 st ->
  read_take U d q endpt grant n st = Ret r st' -> only_ring d s0 st'.
Proof using. only_stated.
  intros HU H0. unfold read_take. cbv zeta.
  destruct (sys_safecopyto _ _ 0 _ st) as [r1 st1] eqn:E1.
  pose proof (only_ring_copyto _ _ _ _ _ _ _ _ _ H0 E1) as H1.
  destruct (negb (r1 =? OK)); [intros E; inversion E; subst; exact H1|].
  match goal with
  | |- (let '(_, _) := ?c in _) = _ -> _ =>
      destruct c as [r2 st2] eqn:E2
  end.
  assert (H2 : only_ring d s0 st2).
  { destruct (_ <? n).
    - eapply only_ring_copyto; eauto.
    - inversion E2; subst; exact H1. }
  destruct (negb (r2 =? OK)); [intros E; inversion E; subst; exact H2|].
  now apply ring_read_advance.
Qed.

Lemma ring_perform_read U d endpt grant len s0 st r st' :
  (forall s s', only_ring d s0 s ->
                suspended (slot s (peer (slot st d))) = UDS_SUSPENDED_WRITE ->
                U (peer (slot st d)) s = Ret tt s' -> only_ring d s0 s') ->
  only_ring d s0 st ->
  uds_perform_read_body U d endpt grant len false st = Ret r st' ->
  only_ring d s0 st'.
Proof using. only_stated.
  intros HU H0. unfold uds_perform_read_body. cbv zeta.
  repeat match goal with
         | |- (if ?c then _ else _) = _ -> _ => destruct c
         end;
    try (intros E; inversion E; subst; repeat ring_dest; exact H0).
  now apply ring_read_take.
Qed.

Lemma ring_write_advance U w d n s0 st r st' :
  (forall s s', only_ring d s0 s ->
                suspended (slot s d) = UDS_SUSPENDED_READ ->
                U d s = Ret tt s' -> only_ring d s0 s') ->
  only_ring d s0 st ->
  write_advance U w d n st = Ret r st' -> only_ring d s0 st'.
Proof using. only_stated.
  intros HU H0. unfold write_advance. cbv zeta.
  match goal with
  | |- bind (if _ then U d ?s else _) _ = _ -> _ =>
      assert (H4 : only_ring d s0 s);
      [destruct (_ =? SOCK_DGRAM); repeat ring_dest; exact H0
      |generalize dependent s; intros st4 H4]
  end.
  destruct (suspension_eqb (suspended (slot st4 d)) UDS_SUSPENDED_READ)
    eqn:Es.
  - apply suspension_eqb_eq in Es.
    destruct (U d st4) as [[] s5| |] eqn:EU; simpl bind; try discriminate.
    pose proof (HU _ _ H4 Es EU) as H5.
    intros E. inversion E; subst.
    destruct (_ && _); repeat ring_other; exact H5.
  - simpl bind. intros E. inversion E; subst.
    destruct (_ && _); repeat ring_other; exact H4.
Qed.

Lemma ring_write_deposit U w d endpt grant n s0 st r st' :
  (forall s s', only_ring d s0 s ->
                suspended (slot s d) = UDS_SUSPENDED_READ ->
                U d s = Ret tt s' -> only_ring d s0 s') ->
  only_ring d s0 st ->
  write_deposit U w d endpt grant n st = Ret r st' -> only_ring d s0 st'.
Proof using. only_stated.
  intros HU H0. unfold write_deposit. cbv zeta.
  destruct (sys_safecopyfrom endpt grant 0 _) as [r1 seg1].
  destruct (negb (r1 =? OK)); [intros E; inversion E; subst; exact H0|].
  match goal with
  | |- (let '(_, _) := ?c in _) = _ -> _ => destruct c as [r2 seg2]
  end.
  destruct (negb (r2 =? OK));
    [intros E; inversion E; subst; repeat ring_dest; exact H0|].
  apply ring_write_advance; [exact HU|].
  destruct (_ <? n); repeat ring_dest; exact H0.
Qed.

(** The early returns of write_peer change no ring. *)
Lemma ring_write_peer w d s0 st r st' :
  only_ring d s0 st ->
  write_peer w false st = inl (Ret r st') -> only_ring d s0 st'.
Proof using. only_stated.
  intros H0. unfold write_peer.
  repeat match goal with
         | |- (if ?c then _ else _) = _ -> _ => destruct c
         | |- (match ?o with Some _ => _ | None => _ end) = _ -> _ =>
             destruct o
         end;
    intros E; inversion E; subst; repeat ring_other; exact H0.
Qed.

Lemma ring_perform_write U w d endpt grant len s0 st r st' :
  (forall d', write_peer w false st = inr d' -> d' = d) ->
  (forall s s', only_ring d s0 s ->
                suspended (slot s d) = UDS_SUSPENDED_READ ->
                U d s = Ret tt s' -> only_ring d s0 s') ->
  only_ring d s0 st ->
  uds_perform_write_body U w endpt grant len false st = Ret r st' ->
  only_ring d s0 st'.
Proof using. only_stated.
  intros Hd HU H0. unfold uds_perform_write_body. cbv zeta.
  destruct (len =? 0); [intros E; inversion E; subst; exact H0|].
  destruct (_ =? 0); [intros E; inversion E; subst; exact H0|].
  destruct (_ && _); [intros E; inversion E; subst; exact H0|].
  destruct (write_peer w false st) as [early|p] eqn:Ew.
  - intros E. subst early. eapply ring_write_peer; eauto.
  - rewrite (Hd p eq_refl).
    repeat match goal with
           | |- (if ?c then _ else _) = _ -> _ => destruct c
           end;
      try (intros E; inversion E; subst; exact H0); try discriminate.
    now apply ring_write_deposit.
Qed.

(** The wake-ups around a destination d of a table with well-formed
    links: a reader woken on d, and a writer woken on the peer of d, only
    ever change the ring of d. *)
Lemma ring_unsuspend st0 d :
  links st0 ->
  state (slot st0 d) = UDS_INUSE ->
  forall fuel,
    (forall s s', only_ring d st0 s ->
                  suspended (slot s d) = UDS_SUSPENDED_READ ->
                  uds_unsuspend fuel d s = Ret tt s' -> only_ring d st0 s') /\
    (forall s s', only_ring d st0 s ->
                  peer (slot st0 d) <> -1 ->
                  suspended (slot s (peer (slot st0 d))) = UDS_SUSPENDED_WRITE ->
                  uds_unsuspend fuel (peer (slot st0 d)) s = Ret tt s' ->
                  only_ring d st0 s').
Proof using. only_stated.
  intros Hl Hd. pose proof Hl as (_ & _ & Hlk).
  destruct (Hlk d Hd) as [Hld _]. unfold link_ok in Hld. cbv zeta in Hld.
  set (q := peer (slot st0 d)) in *.
  induction fuel as [|fuel [IHA IHB]];
    [split; intros; discriminate|].
  split.
  - intros s s' H0 Hsu. rewrite uds_unsuspend_S, Hsu.
    destruct (uds_perform_read_body _ _ _ _ _ _ _) as [r s1| |] eqn:E;
      simpl bind; try discriminate.
    assert (Hpq : peer (slot s d) = q).
    { destruct H0 as (_ & Hfr & _). destruct (Hfr d) as (_ & _ & -> & _).
      reflexivity. }
    assert (H1 : only_ring d st0 s1).
    { eapply ring_perform_read; [|exact H0|exact E].
      rewrite Hpq. intros s2 s2' H2 Hw Hrun.
      destruct (Z.eq_dec q (-1)) as [Eq|Eq].
      - destruct H2 as (_ & Hfr & _).
        exfalso. rewrite Eq in Hw. unfold slot, fd_at in Hw. simpl in Hw.
        discriminate.
      - eapply IHB; eauto. }
    unfold unsuspend_reply.
    destruct (r =? EDONTREPLY); intros E'; inversion E'; subst;
      [exact H1|].
    ring_dest. now apply only_ring_emit.
  - intros s s' H0 Hq Hsu. rewrite uds_unsuspend_S, Hsu.
    destruct (uds_perform_write_body _ _ _ _ _ _ _) as [r s1| |] eqn:E;
      simpl bind; try discriminate.
    destruct (Hld Hq) as (_ & Hqd & _ & _ & Hcq & Hback).
    assert (Hdest : forall d', write_peer q false s = inr d' -> d' = d).
    { intros d'. unfold write_peer.
      destruct H0 as (_ & Hfr & _).
      destruct (Hfr q) as (_ & Et & Ep & _). rewrite Et, Ep.
      rewrite (conn_type_test (slot st0 q) Hcq).
      destruct Hback as [Eb|(Eb & _)]; rewrite Eb.
      - destruct (Z.eqb_spec d (-1)); [destruct (_ =? _); discriminate|].
        destruct (_ =? -1); [discriminate|].
        intros H; inversion H; reflexivity.
      - change (-1 =? -1) with true. cbv iota.
        destruct (_ =? _); discriminate. }
    assert (H1 : only_ring d st0 s1).
    { eapply ring_perform_write; [exact Hdest| |exact H0|exact E].
      intros s2 s2' H2 Hr Hrun. eapply IHA; eauto. }
    unfold unsuspend_reply.
    destruct (r =? EDONTREPLY); intros E'; inversion E'; subst;
      [exact H1|].
    ring_other. now apply only_ring_emit.
Qed.

(** uds_cancel changes no ring and no frame. *)
Lemma only_ring_cancel d s0 s minor endpt id :
  only_ring d s0 s -> only_ring d s0 (snd (uds_cancel minor endpt id s)).
Proof using. only_stated.
  intros H0. unfold uds_cancel.
  repeat match goal with
         | |- context [if ?c then _ else _] => destruct c
         end; simpl snd; try exact H0.
  ring_other.
  destruct (suspended (slot s minor)); try exact H0.
  generalize (zrange 0 NR_FDS) as idx. clear -H0.
  intros idx. revert s H0.
  induction idx as [|i idx IH]; intros s H0; simpl; [exact H0|].
  apply IH. unfold clear_child.
  destruct (child (slot s i) =? minor); [|exact H0].
  ring_other. exact H0.
Qed.

(** A write that returns before it has a destination changes no ring. *)
Lemma ring_perform_write_early U w d endpt grant len st early r st' :
  write_peer w false st = inl early ->
  uds_perform_write_body U w endpt grant len false st = Ret r st' ->
  only_ring d st st'.
Proof using. only_stated.
  intros Ew. unfold uds_perform_write_body. cbv zeta.
  destruct (len =? 0); [intros E; inversion E; subst; apply only_ring_refl|].
  destruct (_ =? 0); [intros E; inversion E; subst; apply only_ring_refl|].
  destruct (_ && _); [intros E; inversion E; subst; apply only_ring_refl|].
  rewrite Ew. intros E. subst early.
  eapply ring_write_peer; [apply only_ring_refl|exact Ew].
Qed.

(** C3 (amended).  In a table of NR_FDS entries whose links are legal
    (invariants 3 and 4 of the specification: a socket with a peer is
    connected or connecting and is not its own peer) and whose free slots
    are not of type SOCK_DGRAM (a closed slot is zeroed), a write on slot
    minor that returns has changed, with all the requests it woke up, the
    buffer, the position and the size of at most one slot: the destination
    uds_perform_write resolves for minor, the peer of a
    connection-oriented socket, the first SOCK_DGRAM slot bound on the
    target address otherwise.  The buffer of the writing slot itself is
    therefore untouched unless the slot is its own destination, and a slot
    in use is its own destination exactly when it is the first SOCK_DGRAM
    slot bound on its own target address: the address scan does not
    exclude the sender. *)
Theorem write_touches_destination_only
    fuel minor position endpt grant len flags id st rc st' :
  links st ->
  uds_write fuel minor position endpt grant len flags id st = Ret rc st' ->
  (forall j, write_peer minor false st <> inr j ->
     buf (slot st' j) = buf (slot st j) /\
     pos (slot st' j) = pos (slot st j) /\
     size (slot st' j) = size (slot st j)) /\
  (0 <= minor < NR_FDS -> state (slot st minor) = UDS_INUSE ->
   (write_peer minor false st = inr minor <->
    dgram_bound_on (uds_fd_table st) minor minor = true /\
    forall i, 0 <= i < minor ->
              dgram_bound_on (uds_fd_table st) minor i = false)).
Proof using. only_stated.
  intros Hl Hrun. split.
  - intros j Hj.
    assert (H : exists dd, dd <> j /\ only_ring dd st st').
    { revert Hrun. unfold uds_write.
      destruct ((minor <? 0) || (minor >=? NR_FDS));
        [intros E; inversion E; subst; exists (j + 1);
         split; [lia|apply only_ring_refl]|].
      destruct (fd_state_eqb (state (slot st minor)) UDS_INUSE) eqn:Es;
        simpl negb; cbv iota;
        [|intros E; inversion E; subst; exists (j + 1);
          split; [lia|apply only_ring_refl]].
      apply fd_state_eqb_eq in Es.
      destruct (uds_perform_write fuel minor endpt grant len false st)
        as [r s| |] eqn:Ew; simpl bind; try discriminate.
      assert (Hs : exists dd, dd <> j /\ only_ring dd st s).
      { unfold uds_perform_write in Ew.
        destruct (write_peer minor false st) as [early|d] eqn:Ep.
        - exists (j + 1). split; [lia|].
          eapply ring_perform_write_early; eauto.
        - exists d. split; [congruence|].
          destruct (write_peer_dest st minor d Hl Es Ep) as [_ Hd].
          eapply ring_perform_write; [| |apply only_ring_refl|exact Ew].
          + intros d' Hd'. congruence.
          + apply (ring_unsuspend st d Hl Hd fuel). }
      destruct Hs as (dd & Hdd & Hs). exists dd. split; [exact Hdd|].
      rename Hrun into H.
      destruct (r =? EDONTREPLY);
        [|inversion H; subst; exact Hs].
      assert (H2 : only_ring dd st
                     (modify minor
                        (suspend UDS_SUSPENDED_WRITE endpt grant len id) s))
        by (ring_other; exact Hs).
      destruct (negb (Z.land flags CDEV_NONBLOCK =? 0));
        inversion H; subst; [now apply only_ring_cancel|exact H2]. }
    destruct H as (dd & Hdd & _ & _ & Hrg).
    destruct (Hrg j ltac:(auto)) as (_ & -> & -> & ->). repeat split.
  - intros Hr Hs. pose proof Hl as (_ & _ & Hlk).
    destruct (Hlk minor Hs) as [Hlm _]. unfold link_ok in Hlm.
    cbv zeta in Hlm.
    unfold write_peer, locate_peer. split.
    + destruct ((type (slot st minor) =? SOCK_STREAM)
                || (type (slot st minor) =? SOCK_SEQPACKET)).
      * destruct (Z.eqb_spec (peer (slot st minor)) (-1)) as [E|E];
          [destruct (_ =? _); discriminate|].
        destruct (Hlm E) as (_ & Hne & _).
        destruct (_ =? -1); [discriminate|].
        intros H; inversion H; contradiction.
      * intros H.
        destruct (find _ _) as [d|] eqn:El; inversion H; subst.
        apply (locate_peer_first (uds_fd_table st) minor minor) in El.
        tauto.
    + intros (Hb & Hlow).
      assert (Ety : type (slot st minor) = SOCK_DGRAM).
      { unfold dgram_bound_on in Hb.
        apply andb_true_iff in Hb. destruct Hb as [Hb _].
        apply andb_true_iff in Hb. destruct Hb as [Hb _].
        apply Z.eqb_eq in Hb. exact Hb. }
      rewrite Ety.
      change ((SOCK_DGRAM =? SOCK_STREAM) || (SOCK_DGRAM =? SOCK_SEQPACKET))
        with false. cbv iota.
      rewrite (find_zrange_first _ 0 NR_FDS minor); auto.
Qed.

End Driver.

(** ** The scenarios, run on the concrete table *)

Ltac concrete :=
  repeat split;
  try (vm_compute; first [reflexivity | discriminate | congruence]).

(** C7, at a slot suspended in a read by requester 200, request 5. *)
Lemma uds_cancel_exactly_when_witness :
  let st := two_sockets
              (blocked UDS_SUSPENDED_READ 200 2 8 5 (socket SOCK_STREAM 2))
              (socket SOCK_STREAM 1) in
  cancel_applies lit_NR_FDS 1 200 5 st /\
  exists st',
    uds_cancel lit_NR_FDS 1 200 5 st = (EINTR, st') /\
    table_ok lit_NR_FDS st' /\
    trace st' = trace st /\
    state (slot st' 1) = UDS_INUSE /\
    suspended (slot st' 1) = UDS_NOT_SUSPENDED /\
    slot st' 2 = slot st 2.
Proof.
  intros st.
  assert (Ha : cancel_applies lit_NR_FDS 1 200 5 st)
    by (unfold cancel_applies; concrete).
  split; [exact Ha|].
  destruct (uds_cancel_exactly_when lit_NR_FDS 1 200 5 st eq_refl)
    as (_ & H & _).
  destruct (H Ha) as (st' & H1 & H2 & H3 & _ & H4 & H5 & H6).
  exists st'. split; [exact H1|]. split; [exact H2|]. split; [exact H3|].
  split; [exact H4|]. split; [exact H5|].
  rewrite (H6 2) by (unfold lit_NR_FDS; lia). reflexivity.
Defined.



(** C10, at a socket that has just been opened. *)
Lemma uds_read_untyped_socket_blocks_witness :
  let st := snd (uds_open lit_UDS_BUF lit_NR_FDS lit_SOMAXCONN lit_OPEN_MAX
                   0 0 7 true (two_sockets fd_zero fd_zero)) in
  exists rc st',
    uds_read lit_UDS_BUF lit_NR_FDS lit_PATH_MAX lit_mem 4 1 0 200 2 8 0 5 st
      = Ret rc st' /\
    rc <> ENOTCONN /\
    (Z.land 0 CDEV_NONBLOCK = 0 ->
       rc = EDONTREPLY /\
       suspended (slot st' 1) = UDS_SUSPENDED_READ /\
       susp_endpt (slot st' 1) = 200 /\
       susp_grant (slot st' 1) = 2 /\
       susp_size (slot st' 1) = 8 /\
       susp_id (slot st' 1) = 5) /\
    (Z.land 0 CDEV_NONBLOCK <> 0 ->
       rc = EAGAIN /\ suspended (slot st' 1) = UDS_NOT_SUSPENDED).
Proof.
  intros st.
  apply (uds_read_untyped_socket_blocks lit_UDS_BUF lit_NR_FDS lit_PATH_MAX
           lit_mem 4 1 0 200 2 8 0 5 st); concrete.
Defined.


(** C1 as stated fails: on a connected SOCK_SEQPACKET pair with the buffer
    of slot 2 empty, a write of the 3 bytes "abc" on slot 1 returns 3 and
    a read of 2 bytes on slot 2 returns 2, but the buffer of slot 2 is not
    empty afterwards: it still holds one byte. *)
Lemma seqpacket_short_read_leaves_residue :
  let st := connected_pair SOCK_SEQPACKET in
  size (slot st 2) = 0 /\
  exists st1 st2,
    uds_write lit_UDS_BUF lit_NR_FDS lit_PATH_MAX lit_mem 4 1 0 100 1 3 0 11 st
      = Ret 3 st1 /\
    uds_read lit_UDS_BUF lit_NR_FDS lit_PATH_MAX lit_mem 4 2 0 200 2 2 0 12 st1
      = Ret 2 st2 /\
    size (slot st2 2) = 1 /\
    size (slot st2 2) <> 0.
Proof.
  split; [reflexivity|].
  eexists _, _. split; [vm_compute; reflexivity|].
  split; [vm_compute; reflexivity|].
  split; [reflexivity|discriminate].
Qed.

(** C1 (amended), at the same pair. *)
Lemma seqpacket_short_read_keeps_rest_witness :
  let st := connected_pair SOCK_SEQPACKET in
  exists st1 st2,
    uds_write lit_UDS_BUF lit_NR_FDS lit_PATH_MAX lit_mem 4 1 0 100 1 3 0 11 st
      = Ret 3 st1 /\
    uds_read lit_UDS_BUF lit_NR_FDS lit_PATH_MAX lit_mem 4 2 0 200 2 2 0 12 st1
      = Ret 2 st2 /\
    size (slot st2 2) = 3 - 2 /\
    ring lit_UDS_BUF (slot st2 2) = list_byte_of_string "c" /\
    delivered (trace st2) = list_byte_of_string "ab".
Proof.
  intros st.
  apply (seqpacket_short_read_keeps_rest lit_UDS_BUF lit_NR_FDS lit_PATH_MAX
           lit_mem (conj eq_refl eq_refl) 4 1 2 100 1 0 11 200 2 0 12 3 2 st
           (list_byte_of_string "abcdefgh") (repeat x00 16)).
  - unfold linked, table_ok, ring_ok. concrete.
  - reflexivity.
  - reflexivity.
  - concrete.
  - discriminate.
  - reflexivity.
  - discriminate.
  - reflexivity.
  - discriminate.
Defined.

(** C3 as stated fails: slot 1 is a SOCK_DGRAM socket bound on /tmp/x whose
    target is /tmp/x as well.  The address scan of a write on slot 1
    resolves to slot 1 itself, and the 4 bytes written end up in the ring
    buffer of slot 1, the socket performing the write. *)
Lemma dgram_write_to_own_address :
  let st := two_sockets (dgram_socket "/tmp/x" "/tmp/x")
                        (dgram_socket "/tmp/y" "/tmp/x") in
  write_peer lit_NR_FDS lit_PATH_MAX 1 false st = inr 1 /\
  size (slot st 1) = 0 /\
  exists st',
    uds_write lit_UDS_BUF lit_NR_FDS lit_PATH_MAX lit_mem 4 1 0 100 1 4 0 11 st
      = Ret 4 st' /\
    size (slot st' 1) = 4 /\
    ring lit_UDS_BUF (slot st' 1) = list_byte_of_string "abcd".
Proof.
  split; [reflexivity|]. split; [reflexivity|].
  eexists. split; [vm_compute; reflexivity|].
  split; reflexivity.
Qed.

(** C4, at a read that drains the buffer of slot 2 to empty. *)
Lemma operations_preserve_buffer_invariant_witness :
  let st := two_sockets (socket SOCK_STREAM 2)
              (holding (list_byte_of_string "abc") (socket SOCK_STREAM 1)) in
  exists st',
    run_op lit_UDS_BUF lit_NR_FDS lit_SOMAXCONN lit_PATH_MAX lit_OPEN_MAX
      lit_mem 4 (OpRead 2 0 200 2 8 0 12) st = Ret 3 st' /\
    table_inv lit_UDS_BUF st' /\ sizes_typed st'.
Proof.
  intros st. eexists. split; [vm_compute; reflexivity|].
  apply (operations_preserve_buffer_invariant lit_UDS_BUF lit_NR_FDS
           lit_SOMAXCONN lit_PATH_MAX lit_OPEN_MAX lit_mem
           (conj eq_refl eq_refl) 4 (OpRead 2 0 200 2 8 0 12) st 3).
  - intros i.
    destruct (Z.eq_dec i 1) as [->|H1]; [vm_compute; intros _; concrete|].
    destruct (Z.eq_dec i 2) as [->|H2]; [vm_compute; intros _; concrete|].
    assert (Hf : state (slot st i) = UDS_FREE).
    { unfold slot, fd_at. destruct (i <? 0); [reflexivity|].
      destruct (Z.to_nat i) as [|[|[|n]]] eqn:E; try lia; try reflexivity.
      simpl. do 14 (destruct n as [|n]; [reflexivity|]).
      destruct n; reflexivity. }
    intros Hs. rewrite Hf in Hs. discriminate.
  - intros i. unfold is_size_t.
    assert (Hz : susp_size (slot st i) = 0).
    { unfold slot, fd_at. destruct (i <? 0); [reflexivity|].
      destruct (Z.to_nat i) as [|n]; [reflexivity|]. simpl.
      do 16 (destruct n as [|n]; [reflexivity|]).
      destruct n; reflexivity. }
    rewrite Hz. lia.
  - unfold op_typed, is_size_t. lia.
  - vm_compute. reflexivity.
Defined.

(** C5 as stated fails: slots 1 and 2 are a connected SOCK_STREAM pair,
    the buffer of slot 1 is empty, the buffer of slot 2 is full and slot 1
    is blocked in a write.  uds_close(2) returns OK and wakes up the
    blocked writer, which takes the pending ECONNRESET; the first read
    after that on slot 1 returns ENOTCONN, not ECONNRESET. *)
Lemma close_error_taken_by_blocked_writer :
  let st := two_sockets
              (blocked UDS_SUSPENDED_WRITE 100 1 1 9 (socket SOCK_STREAM 2))
              (holding (repeat x61 128) (socket SOCK_STREAM 1)) in
  peer (slot st 1) = 2 /\ peer (slot st 2) = 1 /\
  type (slot st 1) = SOCK_STREAM /\ type (slot st 2) = SOCK_STREAM /\
  size (slot st 1) = 0 /\
  exists st1 st2,
    uds_close lit_UDS_BUF lit_NR_FDS lit_PATH_MAX lit_mem 4 2 st = Ret OK st1 /\
    trace st1 = [EvReplyTask 100 9 ECONNRESET] /\
    uds_read lit_UDS_BUF lit_NR_FDS lit_PATH_MAX lit_mem 4 1 0 200 2 8 0 12 st1
      = Ret ENOTCONN st2 /\
    ENOTCONN <> ECONNRESET.
Proof.
  do 5 (split; [reflexivity|]).
  eexists _, _. split; [vm_compute; reflexivity|].
  split; [reflexivity|]. split; [vm_compute; reflexivity|discriminate].
Qed.

(** C5 (amended), at a freshly connected stream pair. *)
Lemma close_resets_peer_witness :
  exists st1 st2 st3,
    uds_close lit_UDS_BUF lit_NR_FDS lit_PATH_MAX lit_mem 4 2
      (connected_pair SOCK_STREAM) = Ret OK st1 /\
    uds_read lit_UDS_BUF lit_NR_FDS lit_PATH_MAX lit_mem 4 1 0 200 2 8 0 12 st1
      = Ret ECONNRESET st2 /\
    err (slot st2 1) = 0 /\
    uds_read lit_UDS_BUF lit_NR_FDS lit_PATH_MAX lit_mem 4 1 0 200 2 8 0 13 st2
      = Ret ENOTCONN st3.
Proof.
  apply (close_resets_peer lit_UDS_BUF lit_NR_FDS lit_PATH_MAX lit_mem 4
           1 2 0 200 2 8 0 12 0 200 2 8 0 13 (connected_pair SOCK_STREAM));
    concrete.
Defined.

(** C6 as stated fails: slot 1 is a SOCK_DGRAM socket whose write half has
    been shut down, its target /tmp/y resolves to slot 2, a bound
    SOCK_DGRAM socket with its read half open and a message waiting.  A
    write of 4 bytes on slot 1 returns EPIPE, not 4. *)
Lemma dgram_write_on_shut_socket :
  let st := two_sockets
              (set_mode UDS_R (dgram_socket "/tmp/x" "/tmp/y"))
              (holding (list_byte_of_string "ping")
                 (dgram_socket "/tmp/y" "/tmp/x")) in
  type (slot st 1) = SOCK_DGRAM /\
  locate_peer lit_NR_FDS lit_PATH_MAX (uds_fd_table st) 1 = Some 2 /\
  Z.land (mode (slot st 2)) UDS_R <> 0 /\
  size (slot st 2) = 4 /\
  uds_write lit_UDS_BUF lit_NR_FDS lit_PATH_MAX lit_mem 4 1 0 100 1 4 0 11 st
    = Ret EPIPE st /\
  EPIPE <> 4.
Proof.
  split; [reflexivity|]. split; [vm_compute; reflexivity|].
  split; [discriminate|]. split; [reflexivity|].
  split; [vm_compute; reflexivity|discriminate].
Qed.

(** C6 (amended), at the same pair with the write half of slot 1 open. *)
Lemma dgram_write_dropped_witness :
  let st := two_sockets
              (dgram_socket "/tmp/x" "/tmp/y")
              (holding (list_byte_of_string "ping")
                 (dgram_socket "/tmp/y" "/tmp/x")) in
  uds_write lit_UDS_BUF lit_NR_FDS lit_PATH_MAX lit_mem 4 1 0 100 1 4 0 11 st
    = Ret 4 st.
Proof.
  intros st.
  apply (dgram_write_dropped lit_UDS_BUF lit_NR_FDS lit_PATH_MAX lit_mem
           (conj eq_refl eq_refl) 4 1 0 100 1 4 0 11 2 st); concrete.
Defined.

(** The control plane of the scenarios keeps the table consistent. *)
Lemma lit_idle_spec fd :
  lit_idle fd = true ->
  state fd = UDS_INUSE /\ conn_type fd /\ peer fd = -1 /\
  listening fd = 0 /\ suspended fd = UDS_NOT_SUSPENDED.
Proof.
  unfold lit_idle. intros H.
  apply andb_true_iff in H. destruct H as [H H5].
  apply andb_true_iff in H. destruct H as [H H4].
  apply andb_true_iff in H. destruct H as [H H3].
  apply andb_true_iff in H. destruct H as [H1 H2].
  apply fd_state_eqb_eq in H1. apply suspension_eqb_eq in H5.
  apply Z.eqb_eq in H3. apply Z.eqb_eq in H4.
  repeat split; try assumption.
  apply orb_true_iff in H2. unfold conn_type.
  destruct H2 as [E|E]; apply Z.eqb_eq in E; auto.
Qed.

Lemma lit_do_ioctl_ok : control_plane_ok lit_UDS_BUF lit_NR_FDS lit_do_ioctl.
Proof.
  intros minor request endpt grant st r st' Hc. unfold lit_do_ioctl.
  destruct (request =? 1).
  - destruct (fd_state_eqb (state (slot st minor)) UDS_INUSE
              && negb ((type (slot st minor) =? SOCK_STREAM)
                       || (type (slot st minor) =? SOCK_SEQPACKET))) eqn:E;
      intros H; inversion H; subst; [|exact Hc].
    apply andb_true_iff in E. destruct E as [E1 E2].
    apply fd_state_eqb_eq in E1.
    apply consistent_set_type; [exact Hc|exact E1|].
    intros [Ht|Ht]; rewrite Ht in E2; discriminate.
  - destruct (request =? 2); [|intros H; inversion H; subst; exact Hc].
    destruct (negb (minor =? grant) && lit_idle (slot st minor)
              && lit_idle (slot st grant)) eqn:E;
      intros H; inversion H; subst; [|exact Hc].
    apply andb_true_iff in E. destruct E as [E Ey].
    apply andb_true_iff in E. destruct E as [Exy Ex].
    apply lit_idle_spec in Ex. apply lit_idle_spec in Ey.
    destruct Ex as (? & ? & ? & ? & ?). destruct Ey as (? & ? & ? & ? & ?).
    apply consistent_pair; try assumption.
    apply negb_true_iff, Z.eqb_neq in Exy. exact Exy.
Qed.


(** ** Further scenarios *)


(** X1, at a table with slot 1 in use and slot 2 free. *)
Lemma uds_open_lowest_free_witness :
  let st := two_sockets (socket SOCK_STREAM (-1)) fd_zero in
  exists st',
    uds_open lit_UDS_BUF lit_NR_FDS lit_SOMAXCONN lit_OPEN_MAX 0 0 7 true st
    = (Z.lor CDEV_CLONED 2, st') /\
    state (slot st' 2) = UDS_INUSE /\
    owner (slot st' 2) = 7 /\
    type (slot st' 2) = -1 /\
    mode (slot st' 2) = Z.lor UDS_R UDS_W.
Proof.
  intros st.
  destruct (uds_open_lowest_free lit_UDS_BUF lit_NR_FDS lit_SOMAXCONN
              lit_OPEN_MAX 0 0 7 st 2) as [(st' & H1 & H2 & H3 & H4 & H5 & _) _].
  - reflexivity.
  - concrete.
  - reflexivity.
  - intros i Hi. assert (i = 1) by lia. subst i. reflexivity.
  - exists st'. repeat split; assumption.
Defined.

(** X2, at a table of two slots, slot 1 in use. *)
Lemma uds_open_table_full_witness :
  let st := {| uds_fd_table := [fd_zero; socket SOCK_STREAM (-1)];
               uds_exit_left := 0; trace := [] |} in
  uds_open lit_UDS_BUF 2 lit_SOMAXCONN lit_OPEN_MAX 0 0 7 true st
  = (ENFILE, st).
Proof.
  intros st.
  apply (uds_open_table_full lit_UDS_BUF 2 lit_SOMAXCONN lit_OPEN_MAX 0 0 7
           true st).
  intros i Hi. assert (i = 1) by lia. subst i. reflexivity.
Defined.

(** X3, at the free slot 3 of a connected pair. *)
Lemma bad_handle_rejected_witness :
  let st := connected_pair SOCK_STREAM in
  uds_close lit_UDS_BUF lit_NR_FDS lit_PATH_MAX lit_mem 4 3 st
    = Ret EINVAL st /\
  uds_read lit_UDS_BUF lit_NR_FDS lit_PATH_MAX lit_mem 4 3 0 200 2 8 0 5 st
    = Ret EINVAL st /\
  uds_write lit_UDS_BUF lit_NR_FDS lit_PATH_MAX lit_mem 4 3 0 200 2 8 0 5 st
    = Ret EINVAL st /\
  uds_select lit_UDS_BUF lit_NR_FDS lit_PATH_MAX lit_mem 4 3 CDEV_OP_RD 200 st
    = Ret EINVAL st /\
  uds_ioctl lit_NR_FDS lit_do_ioctl 3 1 200 2 0 7 5 st = Ret EINVAL st /\
  uds_cancel lit_NR_FDS 3 200 5 st = (EDONTREPLY, st).
Proof.
  intros st.
  apply (bad_handle_rejected lit_UDS_BUF lit_NR_FDS lit_PATH_MAX lit_mem 4
           lit_do_ioctl 3 0 200 2 8 0 5 CDEV_OP_RD 1 7 st).
  right. right. reflexivity.
Defined.

(** X4, at a connected pair. *)
Lemma zero_length_transfer_witness :
  let st := connected_pair SOCK_STREAM in
  uds_read lit_UDS_BUF lit_NR_FDS lit_PATH_MAX lit_mem 4 1 0 200 2 0 0 5 st
    = Ret 0 st /\
  uds_write lit_UDS_BUF lit_NR_FDS lit_PATH_MAX lit_mem 4 1 0 100 1 0 0 5 st
    = Ret 0 st.
Proof.
  intros st.
  apply (zero_length_transfer lit_UDS_BUF lit_NR_FDS lit_PATH_MAX lit_mem 4
           1 0 200 2 0 5 st); concrete.
Defined.

(** X5, at a stream socket that was never connected. *)
Lemma uds_write_errors_witness :
  let st := two_sockets (socket SOCK_STREAM (-1)) fd_zero in
  uds_write lit_UDS_BUF lit_NR_FDS lit_PATH_MAX lit_mem 4 1 0 100 1 8 0 5 st
  = Ret ENOTCONN st.
Proof.
  intros st.
  destruct (uds_write_errors lit_UDS_BUF lit_NR_FDS lit_PATH_MAX lit_mem 4
              1 0 100 1 8 0 5 st) as (_ & _ & H).
  - concrete.
  - reflexivity.
  - discriminate.
  - destruct H as (H & _).
    + discriminate.
    + left. discriminate.
    + apply H; [left; reflexivity|reflexivity|discriminate].
Defined.

(** X6, at a stream socket that was never connected. *)
Lemma uds_read_errors_witness :
  let st := two_sockets (socket SOCK_STREAM (-1)) fd_zero in
  uds_read lit_UDS_BUF lit_NR_FDS lit_PATH_MAX lit_mem 4 1 0 200 2 8 0 5 st
  = Ret ENOTCONN st.
Proof.
  intros st.
  destruct (uds_read_errors lit_UDS_BUF lit_NR_FDS lit_PATH_MAX lit_mem 4
              1 0 200 2 8 0 5 st) as (_ & H).
  - concrete.
  - reflexivity.
  - discriminate.
  - destruct H as (H & _).
    + discriminate.
    + reflexivity.
    + apply H; [left; reflexivity|reflexivity|discriminate].
Defined.


(** X8, at a stream pair with 124 of the 128 bytes of the buffer of
    slot 2 in use: of a write of 8 bytes, 4 are taken. *)
Lemma stream_write_fills_buffer_witness :
  let st := two_sockets (socket SOCK_STREAM 2)
              (holding (repeat x00 124) (socket SOCK_STREAM 1)) in
  exists st',
    uds_write lit_UDS_BUF lit_NR_FDS lit_PATH_MAX lit_mem 4 1 0 100 1 8 0 5 st
    = Ret 4 st' /\
    size (slot st' 2) = 128 /\
    ring lit_UDS_BUF (slot st' 2) =
      ring lit_UDS_BUF (slot st 2) ++ list_byte_of_string "abcd".
Proof.
  intros st.
  apply (stream_write_fills_buffer lit_UDS_BUF lit_NR_FDS lit_PATH_MAX lit_mem
           (conj eq_refl eq_refl) 4 1 2 0 100 1 8 0 5 st
           (list_byte_of_string "abcdefgh")).
  - unfold linked, table_ok, ring_ok. concrete.
  - reflexivity.
  - reflexivity.
  - reflexivity.
  - reflexivity.
  - discriminate.
Defined.


(** X10, at a stream pair with a read of 8 bytes suspended on slot 2: a
    write of 8 bytes on slot 1. *)
Lemma write_completes_blocked_reader_witness :
  let st := two_sockets (socket SOCK_STREAM 2)
              (blocked UDS_SUSPENDED_READ 200 2 8 9 (socket SOCK_STREAM 1)) in
  exists st' tr sel,
    uds_write lit_UDS_BUF lit_NR_FDS lit_PATH_MAX lit_mem 1 1 0 100 1 8 0 5 st
    = Ret 8 st' /\
    suspended (slot st' 2) = UDS_NOT_SUSPENDED /\
    size (slot st' 2) = 0 /\
    ring lit_UDS_BUF (slot st' 2) = [] /\
    trace st' = tr ++ EvReplyTask 200 9 8 :: sel /\
    delivered tr = list_byte_of_string "abcdefgh" /\
    (sel = [] \/ exists e o, sel = [EvReplySelect e 2 o]).
Proof.
  intros st.
  apply (write_completes_blocked_reader lit_UDS_BUF lit_NR_FDS lit_PATH_MAX
           lit_mem (conj eq_refl eq_refl) 0 1 2 0 100 1 8 0 5 st
           (list_byte_of_string "abcdefgh") 200 2 8 9 (repeat x00 16));
    try reflexivity; try discriminate;
    try (left; reflexivity); unfold ring_ok; concrete.
Defined.


(** X12, at a connected pair with empty buffers: a select for reading and
    writing on slot 1. *)
Lemma uds_select_is_a_poll_witness :
  let st := connected_pair SOCK_STREAM in
  exists ready st',
    uds_select lit_UDS_BUF lit_NR_FDS lit_PATH_MAX lit_mem 4 1
      (Z.lor CDEV_OP_RD CDEV_OP_WR) 300 st = Ret ready st' /\
    (ready = 0 \/ ready = CDEV_OP_RD \/ ready = CDEV_OP_WR \/
     ready = Z.lor CDEV_OP_RD CDEV_OP_WR).
Proof.
  intros st.
  destruct (uds_select_is_a_poll lit_UDS_BUF lit_NR_FDS lit_PATH_MAX lit_mem
              4 1 (Z.lor CDEV_OP_RD CDEV_OP_WR) 300 st)
    as (ready & H1 & H2 & _).
  - concrete.
  - reflexivity.
  - exists ready. eexists. split; [exact H1|exact H2].
Defined.


(** The connected stream pair of the scenarios is the state after two
    opens, the typing of the two sockets and their pairing; a SIGTERM
    after that starts the countdown.  Both states are consistent. *)
Lemma lit_run_consistent cs rs st :
  Forall call_ok cs ->
  run_calls lit_UDS_BUF lit_NR_FDS lit_SOMAXCONN lit_PATH_MAX lit_OPEN_MAX
    lit_mem lit_do_ioctl cs (init_state lit_NR_FDS) = Ret rs st ->
  consistent lit_UDS_BUF lit_NR_FDS st.
Proof.
  intros Hcs Hrun.
  apply (reachable_consistent lit_UDS_BUF lit_NR_FDS lit_SOMAXCONN
           lit_PATH_MAX lit_OPEN_MAX lit_mem (conj eq_refl eq_refl)
           ltac:(discriminate) lit_do_ioctl st lit_do_ioctl_ok).
  apply (run_calls_reachable lit_UDS_BUF lit_NR_FDS lit_SOMAXCONN
           lit_PATH_MAX lit_OPEN_MAX lit_mem lit_do_ioctl cs
           (init_state lit_NR_FDS) rs st);
    [apply reach_init|exact Hcs|exact Hrun].
Qed.

Lemma lit_run_reachable cs rs st :
  Forall call_ok cs ->
  run_calls lit_UDS_BUF lit_NR_FDS lit_SOMAXCONN lit_PATH_MAX lit_OPEN_MAX
    lit_mem lit_do_ioctl cs (init_state lit_NR_FDS) = Ret rs st ->
  reachable lit_UDS_BUF lit_NR_FDS lit_SOMAXCONN lit_PATH_MAX lit_OPEN_MAX
    lit_mem lit_do_ioctl st.
Proof.
  intros Hcs Hrun.
  apply (run_calls_reachable lit_UDS_BUF lit_NR_FDS lit_SOMAXCONN
           lit_PATH_MAX lit_OPEN_MAX lit_mem lit_do_ioctl cs
           (init_state lit_NR_FDS) rs st);
    [apply reach_init|exact Hcs|exact Hrun].
Qed.

Ltac calls_ok :=
  repeat (apply Forall_cons; [simpl; unfold is_size_t; try lia; auto|]);
  apply Forall_nil.

Lemma connected_pair_reachable :
  reachable lit_UDS_BUF lit_NR_FDS lit_SOMAXCONN lit_PATH_MAX lit_OPEN_MAX
    lit_mem lit_do_ioctl (connected_pair SOCK_STREAM).
Proof.
  apply (lit_run_reachable
           [ CallOp 1 (OpOpen 0 0 7 true);
             CallOp 1 (OpOpen 0 0 7 true);
             CallIoctl 1 1 7 SOCK_STREAM 0 7 1;
             CallIoctl 2 1 7 SOCK_STREAM 0 7 2;
             CallIoctl 1 2 7 2 0 7 3 ]
           [Z.lor CDEV_CLONED 1; Z.lor CDEV_CLONED 2; OK; OK; OK]);
    [calls_ok|vm_compute; reflexivity].
Qed.

Lemma connected_pair_consistent :
  consistent lit_UDS_BUF lit_NR_FDS (connected_pair SOCK_STREAM).
Proof.
  apply (reachable_consistent lit_UDS_BUF lit_NR_FDS lit_SOMAXCONN
           lit_PATH_MAX lit_OPEN_MAX lit_mem (conj eq_refl eq_refl)
           ltac:(discriminate) lit_do_ioctl _ lit_do_ioctl_ok).
  exact connected_pair_reachable.
Qed.

Lemma draining_pair_consistent :
  consistent lit_UDS_BUF lit_NR_FDS
    (uds_signal lit_NR_FDS SIGTERM (connected_pair SOCK_STREAM)).
Proof.
  apply (reachable_consistent lit_UDS_BUF lit_NR_FDS lit_SOMAXCONN
           lit_PATH_MAX lit_OPEN_MAX lit_mem (conj eq_refl eq_refl)
           ltac:(discriminate) lit_do_ioctl _ lit_do_ioctl_ok).
  apply reach_signal. exact connected_pair_reachable.
Qed.

(** X14, at the connected stream pair: slot 1 is closed. *)
Lemma uds_close_leaves_no_reference_witness :
  let st := connected_pair SOCK_STREAM in
  exists st',
    uds_close lit_UDS_BUF lit_NR_FDS lit_PATH_MAX lit_mem 1 1 st = Ret OK st' /\
    slot st' 1 = fd_zero /\
    (forall x, state (slot st' x) = UDS_INUSE -> peer (slot st' x) <> 1).
Proof.
  intros st.
  destruct (uds_close_leaves_no_reference lit_UDS_BUF lit_NR_FDS lit_PATH_MAX
              lit_mem (conj eq_refl eq_refl) 0 1 st)
    as (st' & H1 & H2 & _ & H3 & _).
  - exact connected_pair_consistent.
  - concrete.
  - reflexivity.
  - exists st'. split; [exact H1|]. split; [exact H2|exact H3].
Defined.

(** X15, at a stream pair with a read of 8 bytes suspended on slot 2:
    slot 1 is closed. *)
Lemma uds_close_answers_blocked_peer_witness :
  let st := two_sockets (socket SOCK_STREAM 2)
              (blocked UDS_SUSPENDED_READ 200 2 8 9 (socket SOCK_STREAM 1)) in
  exists st',
    uds_close lit_UDS_BUF lit_NR_FDS lit_PATH_MAX lit_mem 1 1 st = Ret OK st' /\
    slot st' 1 = fd_zero /\
    peer (slot st' 2) = -1 /\
    suspended (slot st' 2) = UDS_NOT_SUSPENDED /\
    err (slot st' 2) = 0 /\
    trace st' = [EvReplyTask 200 9 ECONNRESET].
Proof.
  intros st.
  destruct (uds_close_answers_blocked_peer lit_UDS_BUF lit_NR_FDS
              lit_PATH_MAX lit_mem 0 1 2 st)
    as (st' & H1 & H2 & H3 & _ & H4);
    try reflexivity; try discriminate; try (concrete; fail).
  - left. reflexivity.
  - left. concrete.
  - exists st'. split; [exact H1|]. split; [exact H2|].
    rewrite H3. repeat split. exact H4.
Defined.


(** X17, at a slot suspended in an accept by requester 200, request 5,
    with slot 2 naming it as its child. *)
Lemma uds_cancel_effect_witness :
  let st := two_sockets
              (blocked UDS_SUSPENDED_ACCEPT 200 2 0 5 (socket SOCK_STREAM (-1)))
              (set_child 1 (socket SOCK_STREAM (-1))) in
  exists st',
    uds_cancel lit_NR_FDS 1 200 5 st = (EINTR, st') /\
    trace st' = trace st /\
    suspended (slot st' 1) = UDS_NOT_SUSPENDED /\
    child (slot st' 2) = -1.
Proof.
  intros st.
  destruct (uds_cancel_effect lit_NR_FDS 1 200 5 st)
    as (st' & H1 & H2 & _ & _ & H3).
  - reflexivity.
  - unfold cancel_applies. concrete.
  - exists st'. split; [exact H1|]. split; [exact H2|].
    rewrite (H3 1), (H3 2) by (unfold lit_NR_FDS; lia).
    split; reflexivity.
Defined.

(** X18, at a connected stream pair, with a control plane that leaves the
    caller suspended in a connect: a non-blocking ioctl on slot 1. *)
Lemma uds_ioctl_would_block_witness :
  let st := connected_pair SOCK_STREAM in
  exists st',
    uds_ioctl lit_NR_FDS lit_connecting 1 1 200 2 CDEV_NONBLOCK 7 5 st
    = Ret EINPROGRESS st' /\
    trace st' = [] /\
    suspended (slot st' 1) = UDS_NOT_SUSPENDED.
Proof.
  intros st.
  destruct (uds_ioctl_would_block lit_NR_FDS lit_connecting 1 1 200 2
              CDEV_NONBLOCK 7 5 st
              (modify 1 (set_suspended UDS_SUSPENDED_CONNECT)
                 (modify 1 (set_owner 7) st)))
    as (st' & H1 & H2 & _ & H3);
    try reflexivity; try discriminate; try (concrete; fail).
  exists st'. split; [exact H1|]. split; [exact H2|].
  apply H3. discriminate.
Defined.

(** X19, at the state after the set-up of a connected stream pair and a
    blocking read of 8 bytes on slot 2. *)
Lemma reader_never_blocked_on_data_witness :
  let cs :=
    [ CallOp 1 (OpOpen 0 0 7 true);
      CallOp 1 (OpOpen 0 0 7 true);
      CallIoctl 1 1 7 SOCK_STREAM 0 7 1;
      CallIoctl 2 1 7 SOCK_STREAM 0 7 2;
      CallIoctl 1 2 7 2 0 7 3;
      CallOp 1 (OpRead 2 0 200 2 8 0 5) ] in
  exists rs st,
    run_calls lit_UDS_BUF lit_NR_FDS lit_SOMAXCONN lit_PATH_MAX lit_OPEN_MAX
      lit_mem lit_do_ioctl cs (init_state lit_NR_FDS) = Ret rs st /\
    state (slot st 2) = UDS_INUSE /\
    suspended (slot st 2) = UDS_SUSPENDED_READ /\
    (suspended (slot st 2) = UDS_SUSPENDED_READ -> size (slot st 2) = 0) /\
    ~ ((size (slot st 2) = lit_UDS_BUF \/ 0 < size (slot st 2)) /\
       suspended (slot st 2) = UDS_SUSPENDED_READ).
Proof.
  intros cs.
  destruct (run_calls lit_UDS_BUF lit_NR_FDS lit_SOMAXCONN lit_PATH_MAX
              lit_OPEN_MAX lit_mem lit_do_ioctl cs (init_state lit_NR_FDS))
    as [rs st| |] eqn:E; [|vm_compute in E; discriminate E..].
  exists rs, st. split; [reflexivity|].
  assert (Hv : state (slot st 2) = UDS_INUSE /\
               suspended (slot st 2) = UDS_SUSPENDED_READ).
  { vm_compute in E. inversion E. split; reflexivity. }
  destruct Hv as (H1 & H2).
  split; [exact H1|]. split; [exact H2|].
  apply (reader_never_blocked_on_data lit_UDS_BUF lit_NR_FDS lit_SOMAXCONN
           lit_PATH_MAX lit_OPEN_MAX lit_mem (conj eq_refl eq_refl)
           ltac:(discriminate) lit_do_ioctl st lit_do_ioctl_ok).
  - apply (lit_run_reachable cs rs st); [subst cs; calls_ok|exact E].
  - exact H1.
Defined.

(** X20, at the connected stream pair: 8 bytes are written on slot 1. *)
Lemma operations_keep_links_witness :
  let st := connected_pair SOCK_STREAM in
  exists r st',
    run_op lit_UDS_BUF lit_NR_FDS lit_SOMAXCONN lit_PATH_MAX lit_OPEN_MAX
      lit_mem 1 (OpWrite 1 0 100 1 8 0 5) st = Ret r st' /\
    peer (slot st' 1) <> -1 /\
    state (slot st' (peer (slot st' 1))) = UDS_INUSE /\
    (peer (slot st' (peer (slot st' 1))) = 1 \/
     (peer (slot st' (peer (slot st' 1))) = -1 /\
      listening (slot st' (peer (slot st' 1))) <> 0 /\
      exists i, 0 <= i < backlog_size (slot st' (peer (slot st' 1))) /\
                backlog_at (slot st' (peer (slot st' 1))) i = 1)).
Proof.
  intros st.
  destruct (operations_keep_links lit_UDS_BUF lit_NR_FDS lit_SOMAXCONN
              lit_PATH_MAX lit_OPEN_MAX lit_mem (conj eq_refl eq_refl) 0
              (OpWrite 1 0 100 1 8 0 5) st connected_pair_consistent I)
    as (r & st' & Hrun & Hall).
  { simpl. unfold is_size_t. lia. }
  exists r, st'. split; [exact Hrun|].
  assert (H1 : state (slot st' 1) = UDS_INUSE /\ peer (slot st' 1) <> -1).
  { assert (E : run_op lit_UDS_BUF lit_NR_FDS lit_SOMAXCONN lit_PATH_MAX
                  lit_OPEN_MAX lit_mem 1 (OpWrite 1 0 100 1 8 0 5) st
                = Ret r st') by exact Hrun.
    vm_compute in E. inversion E. split; [reflexivity|discriminate]. }
  destruct H1 as [H1 Hp]. split; [exact Hp|].
  destruct (Hall 1 H1) as [H _].
  destruct (H Hp) as (_ & _ & H3 & _ & _ & H4). split; [exact H3|exact H4].
Defined.

(** X22, at the connected stream pair after SIGTERM: slot 1 is closed,
    one socket is left and the driver does not terminate yet. *)
Lemma uds_close_counts_down_witness :
  let st := uds_signal lit_NR_FDS SIGTERM (connected_pair SOCK_STREAM) in
  exists st',
    uds_close lit_UDS_BUF lit_NR_FDS lit_PATH_MAX lit_mem 1 1 st = Ret OK st' /\
    open_sockets lit_NR_FDS st' = open_sockets lit_NR_FDS st - 1 /\
    uds_exit_left st' = open_sockets lit_NR_FDS st' /\
    terminations (trace st') =
      (terminations (trace st)
       + if (open_sockets lit_NR_FDS st' =? 0)%Z then 1 else 0)%nat.
Proof.
  intros st.
  apply (uds_close_counts_down lit_UDS_BUF lit_NR_FDS lit_PATH_MAX lit_mem
           (conj eq_refl eq_refl) 0 1 st).
  - exact draining_pair_consistent.
  - concrete.
  - reflexivity.
  - vm_compute. reflexivity.
Defined.

(** X23, at a table with slot 1 in use and slot 2 free. *)
Lemma open_close_round_trip_witness :
  let st := two_sockets (socket SOCK_STREAM (-1)) fd_zero in
  exists st1,
    uds_open lit_UDS_BUF lit_NR_FDS lit_SOMAXCONN lit_OPEN_MAX 0 0 7 true st
      = (Z.lor CDEV_CLONED 2, st1) /\
    state (slot st1 2) = UDS_INUSE /\
    uds_close lit_UDS_BUF lit_NR_FDS lit_PATH_MAX lit_mem 4 2 st1 = Ret OK st.
Proof.
  intros st.
  apply (open_close_round_trip lit_UDS_BUF lit_NR_FDS lit_SOMAXCONN
           lit_PATH_MAX lit_OPEN_MAX lit_mem 4 0 0 7 st 2).
  - reflexivity.
  - concrete.
  - reflexivity.
  - intros i Hi. assert (i = 1) by lia. subst i. reflexivity.
  - reflexivity.
Defined.

(** ** Writes next to a waiting reader *)

(** The stream pair with a read of 8 bytes suspended on slot 2 is the
    state after two opens, the typing and the pairing of the two sockets
    and a blocking read on slot 2. *)
Lemma waiting_reader_consistent :
  consistent lit_UDS_BUF lit_NR_FDS
    (two_sockets (socket SOCK_STREAM 2)
       (blocked UDS_SUSPENDED_READ 200 2 8 5 (socket SOCK_STREAM 1))).
Proof.
  apply (lit_run_consistent
           [ CallOp 1 (OpOpen 0 0 7 true);
             CallOp 1 (OpOpen 0 0 7 true);
             CallIoctl 1 1 7 SOCK_STREAM 0 7 1;
             CallIoctl 2 1 7 SOCK_STREAM 0 7 2;
             CallIoctl 1 2 7 2 0 7 3;
             CallOp 1 (OpRead 2 0 200 2 8 0 5) ]
           [Z.lor CDEV_CLONED 1; Z.lor CDEV_CLONED 2; OK; OK; OK; EDONTREPLY]);
    [calls_ok|vm_compute; reflexivity].
Qed.

(** C3 (amended), at a stream pair with a read of 8 bytes suspended on
    slot 2: a write of 8 bytes on slot 1 wakes the reader up, which takes
    the bytes out of the buffer of slot 2 again; no other buffer has
    changed, and slot 1 is not its own destination. *)
Lemma write_touches_destination_only_witness :
  let st := two_sockets (socket SOCK_STREAM 2)
              (blocked UDS_SUSPENDED_READ 200 2 8 5 (socket SOCK_STREAM 1)) in
  exists st',
    uds_write lit_UDS_BUF lit_NR_FDS lit_PATH_MAX lit_mem 1 1 0 100 1 8 0 11 st
      = Ret 8 st' /\
    suspended (slot st' 2) = UDS_NOT_SUSPENDED /\
    (forall j, write_peer lit_NR_FDS lit_PATH_MAX 1 false st <> inr j ->
       buf (slot st' j) = buf (slot st j) /\
       pos (slot st' j) = pos (slot st j) /\
       size (slot st' j) = size (slot st j)) /\
    (write_peer lit_NR_FDS lit_PATH_MAX 1 false st = inr 1 <->
     dgram_bound_on lit_PATH_MAX (uds_fd_table st) 1 1 = true /\
     forall i, 0 <= i < 1 ->
               dgram_bound_on lit_PATH_MAX (uds_fd_table st) 1 i = false).
Proof.
  intros st. eexists. split; [vm_compute; reflexivity|].
  split; [reflexivity|].
  pose proof (proj1 (consistent_iff lit_UDS_BUF lit_NR_FDS st)
                waiting_reader_consistent) as [Hl _].
  destruct (write_touches_destination_only lit_UDS_BUF lit_NR_FDS lit_PATH_MAX
              lit_mem 1 1 0 100 1 8 0 11 st 8 _ Hl
              ltac:(vm_compute; reflexivity)) as [H1 H2].
  split; [exact H1|]. apply H2; [concrete|reflexivity].
Defined.

(** The links matter: a stream socket that is its own peer, which
    invariant 3 excludes, writes into its own buffer. *)
Lemma stream_write_to_own_peer :
  let st := two_sockets (socket SOCK_STREAM 1) (socket SOCK_STREAM (-1)) in
  peer (slot st 1) = 1 /\
  exists st',
    uds_write lit_UDS_BUF lit_NR_FDS lit_PATH_MAX lit_mem 1 1 0 100 1 8 0 11 st
      = Ret 8 st' /\
    size (slot st 1) = 0 /\ size (slot st' 1) = 8.
Proof.
  split; [reflexivity|].
  eexists. split; [vm_compute; reflexivity|]. split; reflexivity.
Qed.

(** ** An accept that wakes nobody up *)








